(* ===== verification/_CoqProject ===== *)
-Q . S2P
Prelude.v
CLib.v
Helper.v
Range.v
Util.v
Containers.v
Buffer.v
FileBuffer.v
DataBuffer.v
BufferUtil.v
HttpDate.v
Cookie.v
RequestState.v
Parser.v
Serialize.v
RequestImpl.v
Attach.v
Multipart.v
Forms.v
AttachCache.v
Filenames.v
Request.v
HandlerSet.v
XmlConfig.v
ComponentSet.v
Statistics.v
Endpoint.v
ThreadPool.v
Globals.v
Daemon.v
Server.v
Example.v
Logger.v
FileLogger.v
FileCache.v
CacheSteps.v
CacheRequest.v
CachedBody.v
FcgiRequest.v
Serving.v
Answered.v
FcgiServer.v
Shutdown.v
AcceptLoop.v
Main.v
Tests.v
