(* ===== verification/Prelude.v ===== *)
(** * Fastcgi-Daemon: a verification of the request path

    Fastcgi-Daemon (src/) is a framework for FastCGI applications.  The daemon
    accepts a request from the web server (main/), reads its environment and
    its body (library/parser.cpp, library/requestimpl.cpp), finds the handlers
    it is for (library/handlerset.cpp), queues it in a pool of threads
    (include/details/thread_pool.h) and runs the handlers
    (library/request_thread_pool.cpp), whose answer goes back through
    [RequestImpl].  A large body is kept in a file that is mapped in windows
    (request-cache/); a request that is to be tried again is serialized into its
    file, waits in a queue and is handled anew.  The configuration is an XML
    file with variables (library/config.cpp), the loggers are components
    (file-logger/, syslog/, logging/).

    ** The files

    - [Prelude] (this file): bytes and machine integers, slices of lists,
      exceptions, the monad [M] of stateful code, its rules [wp] and tactics.
    - [CLib]: the C and C++ library functions the code calls (isspace, strncasecmp,
      std::find, std::search, decimal printing) with their specifications.
    - [Helper]: who owns a resource: Helper, FileHelper and the like
      (include/details/helpers.h).
    - [Range]: class Range (include/details/range.h) and the functors.
    - [Util]: StringUtils (library/util.cpp).
    - [Containers]: std::map, std::set and hash_map.
    - [Buffer]: the interface DataBufferImpl, as a class of operations with
      laws ([BufferLaws]), and StringBuffer (library/string_buffer.cpp).
    - [FileBuffer]: MMapFile and FileBuffer (request-cache/), an instance of the
      same laws.
    - [DataBuffer]: DataBuffer (library/data_buffer.cpp) over a world of objects
      and storages that several buffers share; proved against the interface.
    - [BufferUtil]: the functions of StringUtils on buffers.
    - [HttpDate]: HttpDateUtils: printing a date and reading the three forms of one.
    - [Cookie]: Cookie (library/cookie.cpp).
    - [RequestState]: the state of RequestImpl, the stream of the web server
      ([RequestIOStream], laws [StreamLaws]) and the request cache.
    - [Parser]: Parser (library/parser.cpp).
    - [Serialize]: the image of a request (library/requestimpl.cpp, second half).
    - [RequestImpl]: the accessors, the answer, attach and reset (first half).
    - [Attach]: properties of attach: the body is read, the arguments parsed.
    - [Multipart]: what the parser makes of a form of parts.
    - [Forms]: which bodies the parser of parts accepts, refuses, or never leaves.
    - [AttachCache]: attach of a request whose body goes to the cache.
    - [Filenames]: the file behind a buffer keeps its name.
    - [Request]: the class the handlers see (library/request.cpp).
    - [HandlerSet]: the interface Config, request filters and HandlerSet.
    - [XmlConfig]: Config::create, XmlConfig and XmlUtils (library/config.cpp,
      library/xml.cpp); [XmlConfig.config] is an implementation of [Config].
    - [ComponentSet]: the components and the order they are loaded in.
    - [Statistics]: the response time handler (statistics/).
    - [Endpoint]: the busy counter of an endpoint (main/endpoint.cpp).
    - [ThreadPool]: ThreadPool as a transition system.
    - [Globals]: the pools built from the configuration and what their threads run
      first (library/globals.cpp).
    - [Daemon]: Loader (library/loader.cpp) and the constructor of Globals, which
      puts the loader, the components, the handlers and the pools together.
    - [Server]: Server, RequestsThreadPool::handleTask, RequestStream and
      HandlerContextImpl.
    - [Example]: the components that need a logger and the handlers of
      example/example.cpp, as instances of the parameters of [Daemon] and [Server].
    - [Logger]: the levels, the class Logger ([LoggerClass]), SyslogLogger and
      DefaultLogger with the requests of an administrator.
    - [FileLogger]: the logger that writes to a file, its queue and its thread as
      a transition system (file-logger/file_logger.cpp).
    - [FileCache]: FileRequestCache (request-cache/file_cache.cpp), an
      implementation of [RequestCache]: keys, files and hard links, the maps of
      active and waiting requests, and the delay queue they refine.
    - [CacheSteps]: the steps of the cache as a relation, its invariant, and the
      bound on how often a request is tried.
    - [CacheRequest]: what becomes of one request that is saved and handled
      again, and the keys of the cache.
    - [CachedBody]: a large request from the web server into the cache and back.
    - [FcgiRequest]: FastcgiRequest (main/fcgi_request.cpp).
    - [Serving]: what a worker thread does with the request it accepted, up to the
      destructor that reports to the statistics; what a connection that stays up
      promises ([FcgxOk]) makes its stream one that loses nothing.
    - [Answered]: every request is answered, whatever the web server sends.
    - [FcgiServer]: the life of FCGIServer: start, stop and the monitor port
      (main/fcgi_server.cpp).
    - [Shutdown]: the destructors of FCGIServer and of the members of Globals, in
      their order.
    - [AcceptLoop]: FCGIServer::handle, run by all worker threads, as a
      transition system with the stop of the server and join.
    - [Main]: main (main/main.cpp) up to join with the destruction of its
      variables, and the program that waits in join as a transition system of
      signals, the monitor port, the stop pipe, the worker threads and the pools.
    - [Tests]: the unit tests of tests/, run on the model.

    ** How the code is modelled

    A char is a byte, a string the list of its bytes, an integer a [Z] whose
    wrap-around is written where the code can overflow ([u64], [u32], [to_int]).
    A computation returns an [outcome]: a value, an exception, [Undef] for what
    C++ leaves undefined (an index out of a vector, a null pointer, a signed
    overflow, a process that terminates), or [NoFuel].  A method that changes
    its object is a computation of [M S] on the object; objects that are
    shared (the storages behind DataBuffers) live in a [world].  The rule [wp m s
    Q E] says that [m] from [s] ends in [Q] or throws in [E], so it excludes
    undefined behaviour and running out of fuel.

    Loops that are not structural take fuel.  It is the length of what the loop
    consumes plus one, and a theorem or lemma shows it to be enough
    ([wp_loop], [ploop_rule] are the rules; [parse_total], [parse_any_image],
    [file_find_first], [toString_contents]).  The variables of the configuration
    need the weight of the value ([resolve_ends]).  There are two loops for which
    no fuel is enough on some inputs: Parser::parseMultipart
    ([parseMultipart_diverges]; [form_decided] says which) and
    XmlConfig::resolveVariables with variables in a circle ([resolve_diverges]).

    Threads are transition systems: a step is a section under a mutex, or what a
    thread does between two of them, and a run is a sequence of steps of any
    threads ([ThreadPool], [CacheSteps], [AcceptLoop], [FileLogger]).  A condition
    variable may wake a thread that was not notified.

    Code outside the repository is a parameter: the operating system calls
    behind a mapped file ([Posix]), the iteration order of hash_map
    ([HashOrder]), boost::lexical_cast ([LexicalCast]), boost::regex ([Regex]),
    MD5, the directory and the clock of the cache ([CacheSystem]), libxml2
    ([Libxml]) and the search for a variable ([VariableRegex]), the loading of
    shared objects ([Dl]), the FastCGI library ([Fcgx]), sockets, pipes and the pid file ([Net]), the
    handlers, [onLoad] and [onUnload] of the components, vsnprintf ([Printf]), log4cxx ([Log4cxx]), and the stream of the web server
    ([RequestIOStream]).
    Each class of laws has an instance in an example, used by the witnesses.

    ** What the theorems show

    - Requests on the wire: parsing the environment is total and keeps the maps
      well-formed, headers and cookies are found again, query strings and url
      encoding round-trip, also when they are in a buffer ([Parser], [Util],
      [BufferUtil]).
    - Attach: a body fills its buffer whatever its segments, a request without
      a body and one with a form get exactly their arguments ([Attach]); from a
      form of parts the fields and files that were sent are received
      ([Multipart]), and the bytes of any body decide whether the parser accepts
      it, refuses it or never ends ([Forms]).
    - Buffers: reading, writing, searching, splitting and iterating see exactly
      the bytes of the contents, whatever the windows of the mapped file
      ([FileBuffer], [DataBuffer]).
    - The cache image: serializing and parsing a request gives it back, and
      parsing any bytes ends ([Serialize]).
    - Answers: whatever handlers do, the client receives one well-formed block
      of headers followed by content, also when they throw ([RequestImpl],
      [Server], [Request]).
    - The file cache: a request that is saved comes back as it was, at its time
      and in its turn, and a bounded number of times, also when its body was read
      into a file of the cache, which is linked and not written again
      ([CachedBody]); the maps stay well-formed,
      keys are unique while the clock does not go back ([FileCache],
      [CacheSteps], [CacheRequest]).
    - Dispatch: the first matching handler is chosen, its pool exists, and a
      request is queued or answered ([HandlerSet], [Globals], [Server]); whatever
      the web server sends, the request is queued or gets one error page, and when
      its task is done one answer ([Answered]); a request
      without a body is followed from the environment of the web server to the
      bytes of its answer and its entry in the statistics ([Serving]).
    - Concurrency: under every interleaving the pool loses no wake-up, handles
      each accepted task once and in order, counts exactly, and can be joined
      after stop ([ThreadPool]); the busy counter of an endpoint is exact
      ([Endpoint]), the worker threads end after the stop of the server, and
      which of them serve a request after join is known exactly ([AcceptLoop]);
      the messages of the log are written once and in order, and when the
      destructor of the logger ends is known exactly ([FileLogger]).
    - Start-up: components are loaded once and after those they need, cycles are
      found ([ComponentSet]); when the construction of Globals returns, every
      handler has its pool and every component was loaded ([Daemon]); a resource
      is cleaned once however helpers are copied ([Helper]); the server starts
      once, with the endpoints and threads of the configuration ([FcgiServer]);
      the variables of the configuration are replaced, and that ends
      ([XmlConfig]); the response time counters are exact ([Statistics]), and each
      request is counted once under its handler ([Serving]); the level of a logger
      is set by a request ([Logger]); the dates of HTTP are read back in their
      three forms ([HttpDate]).
    - The whole program: main comes to join with everything built; from then on a
      termination signal leads to the stop, and after it main returns in a bounded
      number of steps of its threads ([Main]); at its end components are unloaded
      before those they need, and modules closed after them ([Shutdown]).  The tests
      of the repository hold of the model but for three ([Tests]).
    - Deviations: trim of a mapped file tests positions, an escape across two
      windows is not decoded, a multipart body can hang the parser, the type of
      an uploaded file is lost, a negative number of threads is accepted, keys
      repeat when the clock goes back, a file
      that cannot be parsed stays active, join can return while a worker serves a
      request, the destructor of the file logger can hang, messages can stay in
      its queue, variables in a circle hang the configuration, a task that is left
      in a pool outlives the components it reports to, a server that does not start
      is destroyed with descriptors that have no value.

    ** What is not modelled

    The calls of sockets, of the FastCGI library, of libxml2 and of the dynamic
    loader; the factories inside the modules; the changes of a time zone's offset;
    the formatting of messages; what runs after main has returned.  Accessors that
    hand out a member, empty constructors and destructors have no definition of
    their own.  The
    properties of attach are about bodies in memory, empty or not, and about bodies in
    the cache that are not parsed; what the parser of parts makes of a body in the
    cache is not stated, nor that of bodies of 2 GiB and more. *)
From stdpp Require Export base numbers list gmap strings sorting.
From Stdlib Require Export Strings.Byte ZArith Lia.
From Stdlib Require Strings.String.

(** * Bytes, characters and machine integers *)

Declare Scope fcgi_scope.
Delimit Scope fcgi_scope with fcgi.
Open Scope fcgi_scope.
Open Scope Z_scope.

(** A C++ [char] is a byte; a [std::string], a [std::vector<char>] and the
    range between two [char*] are lists of bytes. *)
Abbreviation bytes := (list Byte.byte).

(** String literals of the sources. *)
Definition str (s : String.string) : bytes := String.list_byte_of_string s.

#[global] Instance byte_eq_dec : EqDecision byte := Byte.byte_eq_dec.

#[global] Instance byte_countable : Countable byte.
Proof.
  refine (inj_countable Byte.to_N Byte.of_N _).
  intros x; apply Byte.of_to_N.
Defined.

(** The value of a [char] read as [unsigned char] and as (signed) [char]. *)
Definition uchar (c : byte) : Z := Z.of_N (Byte.to_N c).
Definition schar (c : byte) : Z :=
  if uchar c <? 128 then uchar c else uchar c - 256.

(** [static_cast<char>(z)]. *)
Definition chr (z : Z) : byte :=
  default Byte.x00 (Byte.of_N (Z.to_N (z mod 256))).

(** Wrap-around of an unsigned integer of [w] bits. *)
Definition wrap (w x : Z) : Z := x mod 2 ^ w.
Abbreviation u64 := (wrap 64).
Abbreviation u32 := (wrap 32).
Abbreviation u16 := (wrap 16).
Definition U64_MAX : Z := 2 ^ 64.

Definition zlen {A} (l : list A) : Z := Z.of_nat (length l).

(** The elements of [l] from index [b] up to index [e]. *)
Definition slice {A} (b e : Z) (l : list A) : list A :=
  take (Z.to_nat (e - b)) (drop (Z.to_nat b) l).

(** [l] with the elements from index [p] on replaced by those of [d]. *)
Definition splice {A} (p : Z) (d l : list A) : list A :=
  take (Z.to_nat p) l ++ d ++ drop (Z.to_nat p + length d) l.

(** Little-endian image of a [uint64_t] in memory. *)
Fixpoint le_bytes (n : nat) (v : Z) : bytes :=
  match n with
  | O => []
  | S n => chr v :: le_bytes n (v / 256)
  end.
Fixpoint le_value (l : bytes) : Z :=
  match l with
  | [] => 0
  | c :: l => uchar c + 256 * le_value l
  end.

(** * Exceptions and effects *)

(** The exceptions the code throws, by the C++ class. *)
Inductive exn :=
| RuntimeError (msg : bytes)
| LogicError (msg : bytes)
| OutOfRange
| LengthError
| BadLexicalCast
| HttpException (status : Z)
| OtherException.

(** The outcome of running a piece of code: a value, an exception, undefined
    behaviour, or a loop cut off by the fuel the model gives it. *)
Inductive outcome (A : Type) :=
| Ret (a : A)
| Throw (e : exn)
| Undef
| NoFuel.
Arguments Ret {A} _.
Arguments Throw {A} _.
Arguments Undef {A}.
Arguments NoFuel {A}.

#[global] Instance outcome_ret : MRet outcome := @Ret.
#[global] Instance outcome_bind : MBind outcome := λ A B f m,
  match m with
  | Ret a => f a
  | Throw e => Throw e
  | Undef => Undef
  | NoFuel => NoFuel
  end.

(** Stateful code: the state at the point of a [throw] is kept. *)
Definition M (S A : Type) : Type := S → outcome A * S.
#[global] Instance M_ret {S} : MRet (M S) := λ A a s, (Ret a, s).
#[global] Instance M_bind {S} : MBind (M S) := λ A B f m s,
  match m s with
  | (Ret a, s') => f a s'
  | (Throw e, s') => (Throw e, s')
  | (Undef, s') => (Undef, s')
  | (NoFuel, s') => (NoFuel, s')
  end.

Definition throw {S A} (e : exn) : M S A := λ s, (Throw e, s).
Definition undef {S A} : M S A := λ s, (Undef, s).
Definition nofuel {S A} : M S A := λ s, (NoFuel, s).
Definition get {S} : M S S := λ s, (Ret s, s).
Definition modify {S} (f : S → S) : M S unit := λ s, (Ret (), f s).
Definition lift {S A} (o : outcome A) : M S A := λ s, (o, s).
(** [try m catch h]: the handler sees the exception and the state. *)
Definition catch {S A} (m : M S A) (h : exn → M S A) : M S A := λ s,
  match m s with
  | (Throw e, s') => h e s'
  | r => r
  end.

(** A computation on a part of a larger state. *)
Definition zoom {S T A} (get : T → S) (set : S → T → T) (m : M S A) : M T A :=
  λ t, let '(r, s) := m (get t) in (r, set s t).

(** A [while] loop: the body returns [inl] to go round again and [inr] to
    leave the loop. *)
Fixpoint loop {S A B} (fuel : nat) (body : A → M S (A + B)) (a : A) : M S B :=
  match fuel with
  | O => nofuel
  | S n => r ← body a; match r with inl a' => loop n body a' | inr b => mret b end
  end.
Fixpoint ploop {A B} (fuel : nat) (body : A → A + B) (a : A) : outcome B :=
  match fuel with
  | O => NoFuel
  | S n => match body a with inl a' => ploop n body a' | inr b => Ret b end
  end.

(** * A total-correctness logic for the monad

    [wp m s Q E]: from [s] the code [m] terminates without undefined
    behaviour, in a value and a state satisfying [Q] or by an exception and in
    a state satisfying [E]. *)
Definition wp {S A} (m : M S A) (s : S)
    (Q : A → S → Prop) (E : exn → S → Prop) : Prop :=
  match m s with
  | (Ret a, s') => Q a s'
  | (Throw e, s') => E e s'
  | _ => False
  end.

(** Whatever the outcome of [m], the states before and after it are in [R]. *)
Definition follows {S A} (R : S → S → Prop) (m : M S A) : Prop := ∀ s, R s (m s).2.
(** The two states agree on [f]. *)
Definition same_on {S T} (f : S → T) (s s' : S) : Prop := f s' = f s.

(** No exception is possible. *)
Definition noexn {S} : exn → S → Prop := λ _ _, False.

(** * Tactics *)

(** Case analysis on every byte. *)
Ltac byte_cases c := destruct c; vm_compute; try reflexivity; try discriminate.

(** Turn boolean comparisons on [Z] into propositions. *)
Ltac zbool :=
  repeat match goal with
  | H : (_ <? _) = true |- _ => apply Z.ltb_lt in H
  | H : (_ <? _) = false |- _ => apply Z.ltb_ge in H
  | H : (_ <=? _) = true |- _ => apply Z.leb_le in H
  | H : (_ <=? _) = false |- _ => apply Z.leb_gt in H
  | H : (_ =? _) = true |- _ => apply Z.eqb_eq in H
  | H : (_ =? _) = false |- _ => apply Z.eqb_neq in H
  | H : (_ && _) = true |- _ => apply andb_true_iff in H; destruct H
  | H : (_ || _) = false |- _ => apply orb_false_iff in H; destruct H
  | H : negb _ = true |- _ => apply negb_true_iff in H
  | H : negb _ = false |- _ => apply negb_false_iff in H
  end.

(** Case analysis on the condition of the first [if] of the goal. *)
Ltac case_if :=
  match goal with
  | |- context [if ?b then _ else _] =>
      lazymatch type of b with
      | bool => let E := fresh "Hif" in destruct b eqn:E
      | _ => destruct b
      end
  end; zbool.

Create HintDb fcgi discriminated.
#[export] Hint Constants Opaque : fcgi.
Create Rewrite HintDb zlen.

(** * Generic lemmas *)

(** ** Integers *)

Lemma wrap_small w x : 0 <= x < 2 ^ w → wrap w x = x.
Proof. intros. by apply Z.mod_small. Qed.

Lemma wrap_bound w x : 0 <= w → 0 <= wrap w x < 2 ^ w.
Proof. intros. apply Z.mod_pos_bound. by apply Z.pow_pos_nonneg. Qed.

Lemma u64_small x : 0 <= x < U64_MAX → u64 x = x.
Proof. apply wrap_small. Qed.

Lemma u64_bound x : 0 <= u64 x < U64_MAX.
Proof. by apply wrap_bound. Qed.

Lemma u64_sub a b : 0 <= b → b <= a → a < U64_MAX → u64 (a - b) = a - b.
Proof. intros. apply u64_small. lia. Qed.

Lemma u64_add a b : 0 <= a → 0 <= b → a + b < U64_MAX → u64 (a + b) = a + b.
Proof. intros. apply u64_small. lia. Qed.

(** ** Characters *)

Lemma uchar_bound c : 0 <= uchar c < 256.
Proof.
  unfold uchar. pose proof (Byte.to_N_bounded c) as H.
  change (255%N) with (256 - 1)%N in H. lia.
Qed.

Lemma uchar_inj c d : uchar c = uchar d → c = d.
Proof.
  unfold uchar. intros H%N2Z.inj.
  apply (f_equal Byte.of_N) in H. rewrite !Byte.of_to_N in H. congruence.
Qed.

Lemma uchar_chr z : uchar (chr z) = z mod 256.
Proof.
  unfold chr, uchar.
  pose proof (Z.mod_pos_bound z 256 ltac:(lia)) as Hb.
  destruct (Byte.of_N (Z.to_N (z mod 256))) as [c|] eqn:E; simpl.
  - apply Byte.to_of_N in E. rewrite E. lia.
  - apply Byte.of_N_None_iff in E. lia.
Qed.

Lemma chr_uchar c : chr (uchar c) = c.
Proof.
  apply uchar_inj. rewrite uchar_chr. apply Z.mod_small, uchar_bound.
Qed.

Lemma chr_mod z : chr (z mod 256) = chr z.
Proof. apply uchar_inj. rewrite !uchar_chr. apply Z.mod_mod. lia. Qed.

Lemma schar_nonneg c : uchar c < 128 → schar c = uchar c.
Proof. unfold schar. intros H%Z.ltb_lt. by rewrite H. Qed.

(** ** Little-endian integers *)

Lemma length_le_bytes n v : length (le_bytes n v) = n.
Proof. revert v; induction n; intros; simpl; auto. Qed.

Lemma le_value_bytes n v : le_value (le_bytes n v) = v mod 256 ^ Z.of_nat n.
Proof.
  revert v; induction n as [|n IH]; intros v; simpl le_bytes; simpl le_value.
  - by rewrite Z.mod_1_r.
  - rewrite uchar_chr, IH, Nat2Z.inj_succ, Z.pow_succ_r by lia.
    rewrite Z.rem_mul_r by lia. lia.
Qed.

(** Only the low [n] bytes count. *)
Lemma le_bytes_mod n v : le_bytes n (v mod 256 ^ Z.of_nat n) = le_bytes n v.
Proof.
  revert v; induction n as [|n IH]; intros v; [done|]. cbn [le_bytes].
  rewrite Nat2Z.inj_succ, Z.pow_succ_r, Z.rem_mul_r by lia.
  pose proof (Z.mod_pos_bound v 256 ltac:(lia)). f_equal.
  - rewrite <- chr_mod, Z.mul_comm, Z.mod_add, Z.mod_mod, chr_mod by lia. done.
  - rewrite Z.mul_comm, Z.div_add, Z.div_small, Z.add_0_l by lia. apply IH.
Qed.

Lemma le_bytes_u64 v : le_bytes 8 (u64 v) = le_bytes 8 v.
Proof. apply (le_bytes_mod 8). Qed.

Lemma le_value_u64 v : 0 <= v < U64_MAX → le_value (le_bytes 8 v) = v.
Proof. intros. rewrite le_value_bytes. by apply Z.mod_small. Qed.

(** ** Lists *)

Lemma zlen_nonneg {A} (l : list A) : 0 <= zlen l.
Proof. unfold zlen. lia. Qed.

Lemma zlen_nil {A} : zlen (@nil A) = 0.
Proof. reflexivity. Qed.

Lemma zlen_cons {A} (x : A) l : zlen (x :: l) = 1 + zlen l.
Proof. unfold zlen. simpl. lia. Qed.

Lemma zlen_app {A} (l k : list A) : zlen (l ++ k) = zlen l + zlen k.
Proof. unfold zlen. rewrite length_app. lia. Qed.

Lemma zlen_zero {A} (l : list A) : zlen l = 0 → l = [].
Proof. destruct l; [done|]. rewrite zlen_cons. pose proof (zlen_nonneg l). lia. Qed.

(** The sum of [f] over a list. *)
Fixpoint tally {A} (f : A → Z) (l : list A) : Z :=
  match l with [] => 0 | x :: l => f x + tally f l end.

Section sums.
Context {A : Type} (f : A → Z).

Lemma tally_app l k : tally f (l ++ k) = tally f l + tally f k.
Proof. induction l as [|x l IH]; simpl; [done|]. rewrite IH. lia. Qed.

Lemma tally_nonneg l : Forall (λ x, 0 <= f x) l → 0 <= tally f l.
Proof. induction 1; simpl; lia. Qed.

Lemma tally_le n l : (∀ x, f x <= n) → tally f l <= n * zlen l.
Proof.
  intros Hf. induction l as [|x l IH]; cbn [tally]; [unfold zlen; simpl|rewrite zlen_cons; specialize (Hf x)]; lia.
Qed.

Lemma tally_insert l i x y : l !! i = Some x → tally f (<[i := y]> l) = tally f l - f x + f y.
Proof.
  revert i. induction l as [|z l IH]; intros [|i] Hi; simplify_eq/=; [lia|]. rewrite (IH i Hi). lia.
Qed.
End sums.

Lemma zlen_le_bytes n v : zlen (le_bytes n v) = Z.of_nat n.
Proof. unfold zlen. by rewrite length_le_bytes. Qed.

Lemma to_nat_zlen {A} (l : list A) : Z.to_nat (zlen l) = length l.
Proof. unfold zlen. lia. Qed.

Lemma zlen_slice {A} b e (l : list A) :
  0 <= b → b <= e → e <= zlen l → zlen (slice b e l) = e - b.
Proof. unfold zlen, slice. intros. rewrite length_take, length_drop. lia. Qed.

#[export] Hint Rewrite @zlen_nil @zlen_cons @zlen_app @zlen_le_bytes : zlen.
Ltac zlen_simp := autorewrite with zlen in *.

(** [lia] with the non-negativity of every length in sight. *)
Ltac zlia :=
  zlen_simp;
  repeat match goal with
  | |- context [zlen ?l] =>
      lazymatch goal with H : 0 <= zlen l |- _ => fail | _ => pose proof (zlen_nonneg l) end
  | H' : context [zlen ?l] |- _ =>
      lazymatch goal with H : 0 <= zlen l |- _ => fail | _ => pose proof (zlen_nonneg l) end
  end; unfold U64_MAX in *; lia.

Lemma slice_full {A} (l : list A) : slice 0 (zlen l) l = l.
Proof. unfold slice, zlen. rewrite drop_0, take_ge; [done|lia]. Qed.

Lemma slice_empty {A} b (l : list A) : slice b b l = [].
Proof. unfold slice. by rewrite Z.sub_diag. Qed.

Lemma slice_app_mid {A} (p d q : list A) :
  slice (zlen p) (zlen p + zlen d) (p ++ d ++ q) = d.
Proof.
  unfold slice, zlen. rewrite drop_app_length'; [|lia].
  rewrite take_app_length'; [done|lia].
Qed.

(** A list seen as what comes before an interval, the interval and the rest. *)
Lemma slice_decompose {A} b e (l : list A) :
  0 <= b → b <= e → e <= zlen l →
  ∃ p q, l = p ++ slice b e l ++ q ∧ zlen p = b ∧ zlen (slice b e l) = e - b.
Proof.
  intros. exists (take (Z.to_nat b) l), (drop (Z.to_nat e) l).
  split_and!.
  - unfold slice. rewrite <- (take_drop (Z.to_nat b) l) at 1. f_equal.
    rewrite <- (take_drop (Z.to_nat (e - b)) (drop (Z.to_nat b) l)) at 1.
    f_equal. rewrite drop_drop. f_equal. lia.
  - unfold zlen in *. rewrite length_take. lia.
  - by apply zlen_slice.
Qed.

Lemma slice_slice {A} b e b' e' (l : list A) :
  0 <= b → b <= e → e <= zlen l → 0 <= b' → b' <= e' → e' <= e - b →
  slice b' e' (slice b e l) = slice (b + b') (b + e') l.
Proof.
  intros. unfold slice. rewrite skipn_firstn_comm, drop_drop, take_take.
  f_equal; [lia|]. f_equal. lia.
Qed.

Lemma slice_window {A} b e p q (l : list A) :
  0 <= b → b <= p → p <= q → q <= e →
  slice p q l = take (Z.to_nat (q - p)) (drop (Z.to_nat (p - b)) (slice b e l)).
Proof.
  intros. unfold slice. rewrite skipn_firstn_comm, drop_drop, take_take.
  f_equal; [lia|]. f_equal. lia.
Qed.

Lemma slice_lookup {A} b e i (l : list A) :
  0 <= b → 0 <= i → b + i < e → slice b e l !! Z.to_nat i = l !! Z.to_nat (b + i).
Proof.
  intros. unfold slice. rewrite lookup_take_lt, lookup_drop; [|lia].
  f_equal. lia.
Qed.

Lemma slice_drop {A} b e n (l : list A) :
  0 <= b → b <= e → e <= zlen l → (n ≤ length (slice b e l))%nat →
  drop n (slice b e l) = slice (b + Z.of_nat n) e l.
Proof.
  intros Hb He Hl Hn. unfold slice in *. rewrite length_take, length_drop in Hn.
  rewrite skipn_firstn_comm, drop_drop. f_equal; [lia|]. f_equal. lia.
Qed.

Lemma slice_take {A} b e n (l : list A) :
  0 <= b → (n ≤ length (slice b e l))%nat →
  take n (slice b e l) = slice b (b + Z.of_nat n) l.
Proof.
  intros Hb Hn. unfold slice in *. rewrite length_take, length_drop in Hn.
  rewrite take_take. f_equal. lia.
Qed.

Lemma take_slice {A} n (l : list A) : take n l = slice 0 (Z.of_nat n) l.
Proof. unfold slice. rewrite Z.sub_0_r, Nat2Z.id. done. Qed.

Lemma drop_slice {A} n (l : list A) : drop n l = slice (Z.of_nat n) (zlen l) l.
Proof.
  unfold slice, zlen. rewrite Nat2Z.id, take_ge; [done|]. rewrite length_drop. lia.
Qed.

Lemma splice_app {A} (p o d q : list A) :
  length o = length d → splice (zlen p) d (p ++ o ++ q) = p ++ d ++ q.
Proof.
  intros H. unfold splice. rewrite to_nat_zlen, take_app_length. do 2 f_equal.
  rewrite <- drop_drop, drop_app_length, <- H, drop_app_length. done.
Qed.

Lemma zlen_splice {A} p (d l : list A) :
  0 <= p → p + zlen d <= zlen l → zlen (splice p d l) = zlen l.
Proof.
  intros. unfold splice, zlen in *.
  rewrite !length_app, length_take, length_drop. lia.
Qed.

(** Overwriting inside a slice. *)
Lemma slice_splice {A} p b e (d l : list A) :
  0 <= b → b <= e → e <= zlen l → 0 <= p → p + zlen d <= e - b →
  slice b e (splice (p + b) d l) = splice p d (slice b e l).
Proof.
  intros Hb Hbe Hel Hp Hd.
  destruct (slice_decompose b e l) as (P & Q & Hl & HP & Hm); [lia..|].
  set (m := slice b e l) in *.
  destruct (slice_decompose p (p + zlen d) m) as (m1 & m2 & Hmm & Hm1 & Ho); [zlia..|].
  set (o := slice p (p + zlen d) m) in *. clearbody o m.
  assert (length o = length d) as Hod by (unfold zlen in *; lia).
  rewrite Hl, Hmm, <- Hm1. rewrite splice_app by done.
  replace (P ++ (m1 ++ o ++ m2) ++ Q) with ((P ++ m1) ++ o ++ (m2 ++ Q))
    by (by rewrite <- !app_assoc).
  replace (zlen m1 + b) with (zlen (P ++ m1)) by (rewrite zlen_app; lia).
  rewrite splice_app by done.
  replace ((P ++ m1) ++ d ++ m2 ++ Q) with (P ++ (m1 ++ d ++ m2) ++ Q)
    by (by rewrite <- !app_assoc).
  rewrite <- HP. replace e with (zlen P + zlen (m1 ++ d ++ m2)); [apply slice_app_mid|].
  rewrite Hmm in Hm. zlia.
Qed.

Lemma slice_join {A} p q r (l : list A) :
  0 <= p → p <= q → q <= r → r <= zlen l → slice p q l ++ slice q r l = slice p r l.
Proof.
  intros. rewrite <- (take_drop (Z.to_nat (q - p)) (slice p r l)).
  pose proof (zlen_slice p r l ltac:(lia) ltac:(lia) ltac:(lia)) as Hl.
  rewrite slice_take, slice_drop by (unfold zlen in *; lia).
  f_equal; f_equal; lia.
Qed.

(** Two adjacent overwrites are one. *)
Lemma splice_splice {A} p (d1 d2 l : list A) :
  0 <= p → p + zlen d1 + zlen d2 <= zlen l →
  splice (p + zlen d1) d2 (splice p d1 l) = splice p (d1 ++ d2) l.
Proof.
  intros Hp Hl. unfold splice at 2 3.
  set (q := drop (Z.to_nat p + length d1) l).
  assert (zlen (take (Z.to_nat p) l) = p) as Ht by (unfold zlen in *; rewrite length_take; lia).
  rewrite app_assoc. unfold splice.
  rewrite take_app_length' by (unfold zlen in *; rewrite length_app; lia).
  rewrite <- drop_drop, drop_app_length' by (unfold zlen in *; rewrite length_app; lia).
  unfold q. rewrite drop_drop, <- !app_assoc, length_app. do 4 f_equal. lia.
Qed.

(** Induction on the length of a list. *)
Lemma list_length_ind {A} (P : list A → Prop) :
  (∀ l, (∀ k, (length k < length l)%nat → P k) → P l) → ∀ l, P l.
Proof.
  intros H l. enough (∀ n k, (length k < n)%nat → P k) as Hn by (apply (Hn (S (length l))); lia).
  induction n as [|n IH]; intros k Hk; [lia|]. apply H. intros k' Hk'. apply IH. lia.
Qed.

(** ** The logic [wp] *)

Section wp.
Context {S : Type}.
Implicit Types (s : S) (E : exn → S → Prop).

Lemma wp_ret {A} (a : A) s (Q : A → S → Prop) E : Q a s → wp (mret a) s Q E.
Proof. done. Qed.

Lemma wp_bind {A B} (m : M S A) (f : A → M S B) s (Q : B → S → Prop) E :
  wp m s (λ a s', wp (f a) s' Q E) E → wp (m ≫= f) s Q E.
Proof.
  unfold wp, mbind, M_bind. by destruct (m s) as [[a|e| |] s'].
Qed.

(** A computation whose first part is known. *)
Lemma run_bind {A B} (m : M S A) (f : A → M S B) a s s' : m s = (Ret a, s') → (m ≫= f) s = f a s'.
Proof. intros E. unfold mbind, M_bind. by rewrite E. Qed.

Lemma wp_bind_inv {A B} (m : M S A) (f : A → M S B) s (Q : B → S → Prop) E :
  wp (m ≫= f) s Q E → wp m s (λ a s', wp (f a) s' Q E) E.
Proof. unfold wp, mbind, M_bind. by destruct (m s) as [[a|e| |] s']. Qed.

Lemma wp_assoc {A B C} (m : M S A) (f : A → M S B) (g : B → M S C) s (Q : C → S → Prop) E :
  wp ((m ≫= f) ≫= g) s Q E → wp (m ≫= λ a, f a ≫= g) s Q E.
Proof. unfold wp, mbind, M_bind. by destruct (m s) as [[a|e| |] s']. Qed.

Lemma wp_mono {A} (m : M S A) s (Q Q' : A → S → Prop) E E' :
  wp m s Q E → (∀ a s', Q a s' → Q' a s') → (∀ e s', E e s' → E' e s') →
  wp m s Q' E'.
Proof. unfold wp. destruct (m s) as [[a|e| |] s']; auto. Qed.

Lemma wp_ext {A} (m m' : M S A) s (Q : A → S → Prop) E : (∀ s, m' s = m s) → wp m s Q E → wp m' s Q E.
Proof. unfold wp. by intros ->. Qed.

Lemma wp_throw {A} e s (Q : A → S → Prop) E : E e s → wp (throw e) s Q E.
Proof. done. Qed.

Lemma wp_get s (Q : S → S → Prop) E : Q s s → wp get s Q E.
Proof. done. Qed.

Lemma wp_modify f s (Q : unit → S → Prop) E : Q () (f s) → wp (modify f) s Q E.
Proof. done. Qed.

Lemma wp_catch {A} (m : M S A) h s (Q : A → S → Prop) E :
  wp m s Q (λ e s', wp (h e) s' Q E) → wp (catch m h) s Q E.
Proof. unfold wp, catch. by destruct (m s) as [[a|e| |] s']. Qed.

Lemma wp_zoom {T A} (g : T → S) (st : S → T → T) (m : M S A) (t : T)
    (Q : A → T → Prop) (E : exn → T → Prop) :
  wp m (g t) (λ a s, Q a (st s t)) (λ e s, E e (st s t)) →
  wp (zoom g st m) t Q E.
Proof. unfold wp, zoom. by destruct (m (g t)) as [[a|e| |] s']. Qed.

Lemma wp_lift_ret {A} (a : A) s (Q : A → S → Prop) E : Q a s → wp (lift (Ret a)) s Q E.
Proof. done. Qed.

Lemma wp_if {A} (b : bool) (m k : M S A) s (Q : A → S → Prop) E :
  (b = true → wp m s Q E) → (b = false → wp k s Q E) →
  wp (if b then m else k) s Q E.
Proof. destruct b; auto. Qed.

(** A computation that [wp] says returns does return. *)
Lemma wp_returns {A} (m : M S A) s (Q : A → S → Prop) :
  wp m s Q noexn ↔ ∃ a s', m s = (Ret a, s') ∧ Q a s'.
Proof.
  unfold wp, noexn. split.
  - destruct (m s) as [[a|e| |] s']; intros H; try done. by exists a, s'.
  - intros (a & s' & -> & H). done.
Qed.

(** A sequence that returns is made of parts that return. *)
Lemma bind_returns {A B} (m : M S A) (f : A → M S B) s b s' :
  (m ≫= f) s = (Ret b, s') ↔ ∃ a s1, m s = (Ret a, s1) ∧ f a s1 = (Ret b, s').
Proof.
  unfold mbind, M_bind. destruct (m s) as [[a|e| |] s1]; split; try done; try naive_solver.
Qed.

Lemma lift_returns {A} (o : outcome A) s b (s' : S) : lift o s = (Ret b, s') ↔ o = Ret b ∧ s' = s.
Proof. unfold lift. naive_solver. Qed.
Lemma zoom_returns {T A} (g : T → S) (st : S → T → T) (m : M S A) t a t' :
  zoom g st m t = (Ret a, t') → ∃ s, m (g t) = (Ret a, s) ∧ t' = st s t.
Proof. unfold zoom. destruct (m (g t)) as [o s]. intros [= -> <-]. by exists s. Qed.

(** Loop rule: an invariant, and a measure that decreases at each turn and is
    below the fuel. *)
Lemma wp_loop {A B} (I : A → S → Prop) (μ : A → nat)
    (body : A → M S (A + B)) (Q : B → S → Prop) E :
  (∀ a s, I a s →
     wp (body a) s
       (λ r s', match r with inl a' => I a' s' ∧ (μ a' < μ a)%nat | inr b => Q b s' end) E) →
  ∀ fuel a s, I a s → (μ a < fuel)%nat → wp (loop fuel body a) s Q E.
Proof.
  intros Hbody fuel; induction fuel as [|n IH]; intros a s Ha Hμ; [lia|].
  simpl. apply wp_bind. eapply wp_mono; [by apply Hbody| |done].
  intros [a'|b] s' H; [|by apply wp_ret].
  destruct H. apply IH; [done|lia].
Qed.
End wp.

Arguments loop : simpl never.

Lemma outcome_bind_returns {A B} (m : outcome A) (f : A → outcome B) b :
  (m ≫= f) = Ret b ↔ ∃ a, m = Ret a ∧ f a = Ret b.
Proof. destruct m; simpl; split; try done; naive_solver. Qed.

(** Takes a computation that returned apart. *)
Ltac returned H :=
  repeat lazymatch type of H with
  | (_ ≫= _) _ = (Ret _, _) =>
      let a := fresh "a" in let s := fresh "s" in let E := fresh "E" in
      apply bind_returns in H as (a & s & E & H); cbn beta iota in H
  | _ ≫= _ = Ret _ =>
      let a := fresh "a" in let E := fresh "E" in
      apply outcome_bind_returns in H as (a & E & H); cbn beta iota in H
  end.

(** One step of the symbolic execution of a computation. *)
Ltac wp_step :=
  lazymatch goal with
  | |- wp (mbind _ _) _ _ _ => apply wp_bind
  | |- wp (mret _) _ _ _ => apply wp_ret
  | |- wp (throw _) _ _ _ => apply wp_throw
  | |- wp get _ _ _ => apply wp_get
  | |- wp (modify _) _ _ _ => apply wp_modify
  | |- wp (lift (Ret _)) _ _ _ => apply wp_lift_ret
  | |- wp (catch _ _) _ _ _ => apply wp_catch
  | |- wp (zoom _ _ _) _ _ _ => apply wp_zoom
  end; cbn beta iota.
Ltac wp_steps := repeat wp_step.

(** ** Computations in a relation *)

#[export] Instance same_on_preorder {S T} (f : S → T) : PreOrder (same_on f).
Proof. unfold same_on. split; [done|]. intros s t u. congruence. Qed.

Section follows.
Context {S : Type} (R : S → S → Prop) `{!PreOrder R}.

Lemma follows_ret {A} (a : A) : follows R (mret a).
Proof. intros s. reflexivity. Qed.
Lemma follows_throw {A} e : follows R (throw (A := A) e).
Proof. intros s. reflexivity. Qed.
Lemma follows_undef {A} : follows R (undef (A := A)).
Proof. intros s. reflexivity. Qed.
Lemma follows_nofuel {A} : follows R (nofuel (A := A)).
Proof. intros s. reflexivity. Qed.
Lemma follows_get : follows R get.
Proof. intros s. reflexivity. Qed.
Lemma follows_lift {A} (o : outcome A) : follows R (lift o).
Proof. intros s. reflexivity. Qed.
Lemma follows_modify f : (∀ s, R s (f s)) → follows R (modify f).
Proof. intros Hf s. apply Hf. Qed.

Lemma follows_bind {A B} (m : M S A) (f : A → M S B) :
  follows R m → (∀ a, follows R (f a)) → follows R (m ≫= f).
Proof.
  intros Hm Hf s. specialize (Hm s). unfold mbind, M_bind.
  destruct (m s) as [[a|e| |] s']; try exact Hm. etrans; [exact Hm|apply Hf].
Qed.

Lemma follows_catch {A} (m : M S A) h : follows R m → (∀ e, follows R (h e)) → follows R (catch m h).
Proof.
  intros Hm Hh s. specialize (Hm s). unfold catch.
  destruct (m s) as [[a|e| |] s']; try exact Hm. etrans; [exact Hm|apply Hh].
Qed.

Lemma follows_zoom {T A} (R' : T → T → Prop) (g : S → T) (st : T → S → S) (m : M T A) :
  follows R' m → (∀ s t, R' (g s) t → R s (st t s)) → follows R (zoom g st m).
Proof. intros Hm Hst s. specialize (Hm (g s)). unfold zoom. destruct (m (g s)). by apply Hst. Qed.

(** A part of the state that [R] does not look at. *)
Lemma follows_zoom_any {T A} (g : S → T) (st : T → S → S) (m : M T A) :
  (∀ s t, R s (st t s)) → follows R (zoom g st m).
Proof. intros Hst s. unfold zoom. destruct (m (g s)). apply Hst. Qed.

Lemma follows_loop {A B} fuel (body : A → M S (A + B)) a :
  (∀ a, follows R (body a)) → follows R (loop fuel body a).
Proof.
  intros Hb. revert a. induction fuel as [|n IH]; intros a; [apply follows_nofuel|].
  apply follows_bind; [done|]. intros [a'|b]; [apply IH|apply follows_ret].
Qed.
End follows.

Lemma follows_returns {S A} R (m : M S A) s a t : follows R m → m s = (Ret a, t) → R s t.
Proof. intros Hf E. specialize (Hf s). by rewrite E in Hf. Qed.

(** One step of such a proof; the branches are split. *)
Ltac follow_step :=
  lazymatch goal with
  | |- follows _ (mbind _ _) => apply follows_bind; [apply _| |intros ?; cbn beta iota]
  | |- follows _ (mret _) => apply follows_ret; apply _
  | |- follows _ (throw _) => apply follows_throw; apply _
  | |- follows _ undef => apply follows_undef; apply _
  | |- follows _ nofuel => apply follows_nofuel; apply _
  | |- follows _ get => apply follows_get; apply _
  | |- follows _ (lift _) => apply follows_lift; apply _
  | |- follows _ (modify _) => apply follows_modify; intros ?
  | |- follows _ (catch _ _) => apply follows_catch; [apply _| |intros ?]
  | |- follows _ (if ?b then _ else _) => destruct b
  | |- follows _ (match ?x with _ => _ end) => destruct x
  | |- follows _ (let '(_, _) := ?x in _) => destruct x
  end.
Ltac follow := repeat follow_step; try done.

Lemma ploop_rule {A B} (I : A → Prop) (μ : A → nat) (body : A → A + B) (Q : B → Prop) :
  (∀ a, I a → match body a with inl a' => I a' ∧ (μ a' < μ a)%nat | inr b => Q b end) →
  ∀ fuel a, I a → (μ a < fuel)%nat → ∃ b, ploop fuel body a = Ret b ∧ Q b.
Proof.
  intros Hbody fuel; induction fuel as [|n IH]; intros a Ha Hμ; [lia|].
  simpl. specialize (Hbody a Ha). destruct (body a) as [a'|b]; [|eauto].
  destruct Hbody. apply IH; [done|lia].
Qed.

(** Once a loop has enough fuel, more of it changes nothing. *)
Lemma ploop_more {A B} (body : A → A + B) n m a b :
  ploop n body a = Ret b → (n <= m)%nat → ploop m body a = Ret b.
Proof.
  revert m a; induction n as [|n IH]; intros m a H Hm; [done|].
  destruct m as [|m]; [lia|]. simpl in *.
  destruct (body a); [|done]. apply IH; [done|lia].
Qed.

#[export] Hint Resolve zlen_nonneg uchar_bound : fcgi.
