(* ===== verification/CLib.v ===== *)
(** * The parts of the C and C++ standard libraries the sources use

    Character classification and case conversion in the "C" locale,
    [strncasecmp], [std::find], [std::search], the two lexicographical
    orders ([std::string::operator<] compares [unsigned char]s,
    [std::lexicographical_compare] over [char*] compares [char]s, which are
    signed on the platforms the daemon is packaged for) and the decimal
    printing of [ostream]. *)
From S2P Require Export Prelude.

(** ** <cctype> *)

Definition isspace_int (z : Z) : bool := ((9 <=? z) && (z <=? 13)) || (z =? 32).
Definition isupper_int (z : Z) : bool := (65 <=? z) && (z <=? 90).
Definition islower_int (z : Z) : bool := (97 <=? z) && (z <=? 122).
Definition isdigit_int (z : Z) : bool := (48 <=? z) && (z <=? 57).
Definition isalnum_int (z : Z) : bool := isupper_int z || islower_int z || isdigit_int z.
Definition tolower_int (z : Z) : Z := if isupper_int z then z + 32 else z.
Definition toupper_int (z : Z) : Z := if islower_int z then z - 32 else z.

(** The same functions applied to a [char], which is converted to [int]. *)
Definition isspace (c : byte) : bool := isspace_int (schar c).
Definition isalnum (c : byte) : bool := isalnum_int (schar c).
Definition tolower (c : byte) : Z := tolower_int (schar c).
Definition toupper (c : byte) : Z := toupper_int (schar c).

(** ** <cstring> *)

(** The character a C string has at its front; a C string that is exhausted
    shows its terminator. *)
Definition front (s : bytes) : byte := default Byte.x00 (head s).

(** [strncasecmp(a, b, n) == 0]; the comparison is on [unsigned char]s and
    stops at a terminator. *)
Fixpoint strncasecmp_eq (n : nat) (a b : bytes) : bool :=
  match n with
  | O => true
  | S n =>
      if tolower_int (uchar (front a)) =? tolower_int (uchar (front b)) then
        if uchar (front a) =? 0 then true else strncasecmp_eq n (tail a) (tail b)
      else false
  end.

(** ** <algorithm> *)

Fixpoint is_prefix (p l : bytes) : bool :=
  match p, l with
  | [], _ => true
  | c :: p, d :: l => if decide (c = d) then is_prefix p l else false
  | _ :: _, [] => false
  end.

(** [std::find(begin, end, c) - begin]. *)
Fixpoint std_find (c : byte) (l : bytes) : nat :=
  match l with
  | [] => O
  | d :: l' => if decide (d = c) then O else S (std_find c l')
  end.

(** [std::search(begin, end, p_begin, p_end) - begin]. *)
Fixpoint std_search (p l : bytes) : nat :=
  match l with
  | [] => O
  | _ :: l' => if is_prefix p l then O else S (std_search p l')
  end.

Fixpoint lexicographical_compare {A} (lt : A → A → bool) (l k : list A) : bool :=
  match l, k with
  | _, [] => false
  | [], _ :: _ => true
  | x :: l, y :: k => if lt x y then true else if lt y x then false else lexicographical_compare lt l k
  end.

(** [std::string::operator<]. *)
Definition string_lt : bytes → bytes → bool :=
  lexicographical_compare (λ c d, uchar c <? uchar d).

(** ** <ostream> *)

Fixpoint decimal_digits (fuel : nat) (n : Z) (acc : bytes) : bytes :=
  match fuel with
  | O => acc
  | S f =>
      let acc := chr (48 + n mod 10) :: acc in
      if n <? 10 then acc else decimal_digits f (n / 10) acc
  end.
(** [stream << n] for a non-negative [n] of at most 20 digits. *)
Definition decimal (n : Z) : bytes := decimal_digits 20 n [].

(** * Lemmas *)

(** ** Characters *)

Lemma tolower_uchar c : tolower_int (uchar c) mod 256 = tolower c mod 256.
Proof. byte_cases c. Qed.

Lemma tolower_eq_iff c d :
  tolower_int (uchar c) = tolower_int (uchar d) ↔ tolower c = tolower d.
Proof.
  unfold tolower, tolower_int, schar, isupper_int.
  pose proof (uchar_bound c); pose proof (uchar_bound d).
  repeat case_if; lia.
Qed.

(** ** Prefix and search *)

Lemma is_prefix_spec p l : is_prefix p l = true ↔ ∃ k, l = p ++ k.
Proof.
  revert l; induction p as [|c p IH]; intros l; simpl.
  - split; [eauto|done].
  - destruct l as [|d l].
    + split; [done|]. by intros [k [=]].
    + case_decide as E.
      * subst. rewrite IH. split; intros [k Hk]; exists k; simplify_eq/=; done.
      * split; [done|]. intros [k [=]]; congruence.
Qed.

Lemma is_prefix_app p k : is_prefix p (p ++ k) = true.
Proof. apply is_prefix_spec. by exists k. Qed.

Lemma std_find_le c l : (std_find c l ≤ length l)%nat.
Proof. induction l; simpl; [lia|]. case_decide; lia. Qed.

Lemma std_find_notin c l : c ∉ l → std_find c l = length l.
Proof.
  induction l as [|d l IH]; intros H; [done|]. simpl.
  rewrite not_elem_of_cons in H. destruct H as [H1 H2].
  rewrite decide_False by congruence. by rewrite IH.
Qed.

Lemma std_find_app c l k : c ∉ l → std_find c (l ++ c :: k) = length l.
Proof.
  induction l as [|d l IH]; intros H; simpl; [by rewrite decide_True|].
  rewrite not_elem_of_cons in H. destruct H as [H1 H2].
  rewrite decide_False by congruence. by rewrite IH.
Qed.

(** The first occurrence, if there is one. *)
Lemma std_find_split c (l : bytes) :
  (c ∉ l) ∨ ∃ h t, l = h ++ c :: t ∧ c ∉ h.
Proof.
  induction l as [|d l IH]; [left; apply not_elem_of_nil|].
  destruct (decide (d = c)) as [->|Hd].
  - right. exists [], l. split; [done|]. apply not_elem_of_nil.
  - destruct IH as [H|(h & t & -> & H)].
    + left. rewrite not_elem_of_cons. split; [congruence|done].
    + right. exists (d :: h), t. split; [done|].
      rewrite not_elem_of_cons. split; [congruence|done].
Qed.

(** [occurs_at p l i]: [p] occurs in [l] at index [i]. *)
Definition occurs_at (p l : bytes) (i : nat) : Prop :=
  is_prefix p (drop i l) = true.

Lemma std_search_le p l : (std_search p l ≤ length l)%nat.
Proof.
  induction l as [|d l IH]; [done|].
  cbn [std_search length]. case_if; lia.
Qed.

(** [std_search] is the least index below the end where the pattern occurs,
    or the end. *)
Lemma std_search_spec p l :
  (∀ i, (i < std_search p l)%nat → ¬ occurs_at p l i) ∧
  ((std_search p l < length l)%nat → occurs_at p l (std_search p l)).
Proof.
  unfold occurs_at. induction l as [|d l IH]; [split; simpl; lia|].
  cbn [std_search length]. destruct (is_prefix p (d :: l)) eqn:E.
  - split; [lia|]. intros _. by rewrite drop_0.
  - destruct IH as [IH1 IH2]. split.
    + intros [|i] Hi; [rewrite drop_0; congruence|]. simpl. apply IH1. lia.
    + intros Hi. simpl. apply IH2. lia.
Qed.

Lemma std_search_first p l i :
  (i < length l)%nat → occurs_at p l i → (∀ j, (j < i)%nat → ¬ occurs_at p l j) →
  std_search p l = i.
Proof.
  intros Hi Ho Hj. destruct (std_search_spec p l) as [H1 H2].
  destruct (decide (std_search p l < i)%nat) as [Hlt|].
  - exfalso. apply (Hj _ Hlt), H2. lia.
  - destruct (decide (i < std_search p l)%nat) as [Hlt|]; [|lia].
    exfalso. by apply (H1 _ Hlt).
Qed.

Lemma std_search_single c l : std_search [c] l = std_find c l.
Proof.
  induction l as [|d l IH]; [done|]. simpl.
  destruct (decide (c = d)) as [->|Hc]; [by rewrite decide_True|].
  rewrite decide_False by congruence. by rewrite IH.
Qed.

Lemma is_prefix_take p n l :
  is_prefix p (take n l) = true ↔ is_prefix p l = true ∧ (length p ≤ n)%nat.
Proof.
  revert n l; induction p as [|c p IH]; intros n l.
  - simpl. split; [split; [done|lia]|done].
  - destruct n as [|n], l as [|d l]; simpl; try (split; [done|intros [? ?]; done || lia]).
    case_decide; [|split; [done|intros []; done]]. rewrite IH. split; intros []; split; (done || lia).
Qed.

(** Occurrences in a part of a list. *)
Lemma occurs_at_take p n l i :
  (i ≤ n)%nat → occurs_at p (take n l) i ↔ occurs_at p l i ∧ (i + length p ≤ n)%nat.
Proof.
  intros Hi. unfold occurs_at. rewrite skipn_firstn_comm, is_prefix_take.
  split; intros []; split; (done || lia).
Qed.

Lemma occurs_at_drop p k l i : occurs_at p (drop k l) i ↔ occurs_at p l (k + i).
Proof. unfold occurs_at. by rewrite drop_drop. Qed.

Lemma occurs_at_bound p l i : p ≠ [] → occurs_at p l i → (i + length p ≤ length l)%nat.
Proof.
  unfold occurs_at. intros Hp [k Hk]%is_prefix_spec.
  apply (f_equal length) in Hk. rewrite length_drop, length_app in Hk.
  destruct p; [done|]. simpl in *. lia.
Qed.

Lemma std_search_none p l :
  p ≠ [] → std_search p l = length l ↔ ∀ i, ¬ occurs_at p l i.
Proof.
  intros Hp. destruct (std_search_spec p l) as [H1 H2]. pose proof (std_search_le p l).
  split.
  - intros E i Ho. pose proof (occurs_at_bound p l i Hp Ho).
    assert (length p ≠ O) by (by destruct p). apply (H1 i); [lia|done].
  - intros Hn. destruct (decide (std_search p l < length l)%nat); [|lia].
    exfalso. by eapply Hn, H2.
Qed.

(** ** Decimal numbers *)

(** The value of a string of digits, and of the number a text denotes. *)
Definition digit_step (a : Z) (c : byte) : Z := 10 * a + (uchar c - 48).
Definition digits_value (l : bytes) : Z := foldl digit_step 0 l.

Lemma decimal_digits_value f n acc :
  0 <= n < 10 ^ Z.of_nat f → (0 < f)%nat →
  foldl digit_step 0 (decimal_digits f n acc) = foldl digit_step n acc.
Proof.
  revert n acc; induction f as [|f IH]; intros n acc Hn Hf; [lia|]. cbn [decimal_digits].
  pose proof (Z.mod_pos_bound n 10 ltac:(lia)). pose proof (Z.div_mod n 10 ltac:(lia)).
  assert (uchar (chr (48 + n mod 10)) = 48 + n mod 10) as Hc
    by (rewrite uchar_chr; apply Z.mod_small; lia).
  case_if.
  - cbn [foldl]. f_equal. unfold digit_step. rewrite Hc, Z.mod_small by lia. lia.
  - rewrite Nat2Z.inj_succ, Z.pow_succ_r in Hn by lia.
    destruct f as [|f]; [lia|]. rewrite IH; [|split; [apply Z.div_pos; lia|apply Z.div_lt_upper_bound; lia]|lia].
    cbn [foldl]. f_equal. unfold digit_step. lia.
Qed.

Lemma digits_value_nonneg l : forallb (λ c, isdigit_int (uchar c)) l = true → 0 <= digits_value l.
Proof.
  unfold digits_value. assert (0 <= 0) as Ha by done. revert Ha. generalize 0 at 2 4 as a.
  induction l as [|c l IH]; intros a Ha Hl; cbn [foldl forallb] in *; [done|].
  apply andb_true_iff in Hl as [Hc Hl]. apply IH; [|exact Hl]. unfold isdigit_int in Hc. zbool. unfold digit_step. lia.
Qed.

Lemma decimal_value n : 0 <= n < 10 ^ 20 → digits_value (decimal n) = n.
Proof. intros. apply (decimal_digits_value 20); lia. Qed.

Lemma decimal_digits_all f n acc :
  0 <= n → Forall (λ c, isdigit_int (uchar c) = true) acc →
  Forall (λ c, isdigit_int (uchar c) = true) (decimal_digits f n acc).
Proof.
  revert n acc; induction f as [|f IH]; intros n acc Hn Ha; [done|]. cbn [decimal_digits].
  pose proof (Z.mod_pos_bound n 10 ltac:(lia)).
  assert (isdigit_int (uchar (chr (48 + n mod 10))) = true) as Hc.
  { rewrite uchar_chr, Z.mod_small by lia. unfold isdigit_int. lia. }
  case_if; [by constructor|]. apply IH; [apply Z.div_pos; lia|by constructor].
Qed.

Lemma decimal_nonempty n : decimal n ≠ [].
Proof.
  assert (∀ f m acc, (0 < f)%nat ∨ acc ≠ [] → decimal_digits f m acc ≠ []) as Hd.
  { induction f as [|f IH]; intros m acc Ha; [destruct Ha; [lia|done]|].
    cbn [decimal_digits]. case_if; [done|]. apply IH. by right. }
  apply (Hd 20%nat n []). left. lia.
Qed.
