(* ===== verification/Helper.v ===== *)
(** * The owner of a resource of libxml2 (include/fastcgi2/helpers.h)

    [Helper] owns a pointer and cleans it when it is destroyed.  Copying and
    assigning move the pointer, out of an object that is declared constant.  The
    objects live in a store, because the operations change their source. *)
From S2P Require Import Prelude.

(** The objects that exist, by their addresses, with their [tptr_]; and the
    pointers that were cleaned, in order. *)
Record store := MkStore {
  objects : gmap Z (option Z);
  cleaned : list Z;
}.

(** [tptr_] of an object that exists. *)
Definition tptr (h : Z) : M store (option Z) := λ s,
  match objects s !! h with Some p => (Ret p, s) | None => (Undef, s) end.
Definition set_tptr (h : Z) (p : option Z) : M store unit :=
  modify (λ s, MkStore (<[h := p]> (objects s)) (cleaned s)).
(** A failed [assert] ends the process. *)
Definition assert_ (b : bool) : M store unit := if b then mret () else undef.
Definition is_null (p : option Z) : bool := match p with None => true | Some _ => false end.

Definition construct (h : Z) (p : option Z) : M store unit := set_tptr h p.
Definition Helper_default (h : Z) : M store unit := construct h None.
Definition Helper_explicit (h : Z) (p : option Z) : M store unit := construct h p.
Definition get (h : Z) : M store (option Z) := tptr h.
Definition arrow (h : Z) : M store (option Z) := p ← tptr h; assert_ (negb (is_null p));; mret p.
Definition reset (h : Z) (p : option Z) : M store unit :=
  old ← tptr h;
  match old with Some q => modify (λ s, MkStore (objects s) (cleaned s ++ [q])) | None => mret () end;;
  set_tptr h p.
Definition releaseInternal (h : Z) : M store (option Z) := p ← tptr h; set_tptr h None;; mret p.
Definition release (h : Z) : M store (option Z) := releaseInternal h.
(** [Helper(h)] of another one. *)
Definition Helper_copy (this h : Z) : M store unit :=
  set_tptr this None;;
  a ← tptr this; b ← tptr h;
  set_tptr this b;; set_tptr h a;;
  p ← get h; assert_ (is_null p).
Definition assign (this h : Z) : M store unit :=
  if this =? h then mret ()
  else p ← releaseInternal h; reset this p;; q ← get h; assert_ (is_null q).
Definition destroy (h : Z) : M store unit :=
  reset h None;; modify (λ s, MkStore (delete h (objects s)) (cleaned s)).

(** ** The operations of a program *)
Inductive op :=
| ODefault (h : Z) | OExplicit (h : Z) (p : Z) | OCopy (this h : Z) | OAssign (this h : Z)
| ODestroy (h : Z) | ORelease (h : Z) | OReset (h : Z) (p : Z).
(** The pointers the program has been given back are kept beside the store. *)
Definition run_op (o : op) : M (store * list Z) unit :=
  let on {A} (m : M store A) : M (store * list Z) A := zoom fst (λ s x, (s, x.2)) m in
  match o with
  | ODefault h => on (Helper_default h)
  | OExplicit h p => on (Helper_explicit h (Some p))
  | OCopy this h => on (Helper_copy this h)
  | OAssign this h => on (assign this h)
  | ODestroy h => on (destroy h)
  | ORelease h => p ← on (release h); modify (λ x, (x.1, x.2 ++ option_list p))
  | OReset h p => on (reset h (Some p))
  end.
Fixpoint run_ops (l : list op) : M (store * list Z) unit :=
  match l with [] => mret () | o :: l => run_op o;; run_ops l end.

(** ** Specification vocabulary *)

(** The operation is allowed: the objects it uses exist, and it constructs an
    object where there is none. *)
Definition allowed (o : op) (s : store) : Prop :=
  match o with
  | ODefault h | OExplicit h _ => objects s !! h = None
  | OCopy this h => objects s !! this = None ∧ is_Some (objects s !! h)
  | OAssign this h => is_Some (objects s !! this) ∧ is_Some (objects s !! h)
  | ODestroy h | ORelease h | OReset h _ => is_Some (objects s !! h)
  end.
Fixpoint all_allowed (l : list op) (x : store * list Z) : Prop :=
  match l with [] => True | o :: l => allowed o x.1 ∧ all_allowed l (run_op o x).2 end.
(** The pointers the program hands over. *)
Definition given (o : op) : list Z := match o with OExplicit _ p | OReset _ p => [p] | _ => [] end.
Definition owned (s : store) : list Z := omap snd (map_to_list (objects s)).

(** * Lemmas *)

Lemma omap_perm {A B} (f : A → option B) (l k : list A) : l ≡ₚ k → omap f l ≡ₚ omap f k.
Proof.
  induction 1 as [|x l k _ IH|x y l|l k j _ IH1 _ IH2]; csimpl; [done|..].
  - by destruct (f x); rewrite IH.
  - destruct (f x), (f y); csimpl; by apply Permutation_swap || done.
  - by rewrite IH1.
Qed.

Definition pointers (m : gmap Z (option Z)) : list Z := omap snd (map_to_list m).
Lemma pointers_new m h p : m !! h = None → pointers (<[h := p]> m) ≡ₚ option_list p ++ pointers m.
Proof.
  intros Hh. unfold pointers. rewrite (omap_perm _ _ _ (map_to_list_insert m h p Hh)). by destruct p.
Qed.
Lemma pointers_at m h p : m !! h = Some p → pointers m ≡ₚ option_list p ++ pointers (delete h m).
Proof.
  intros Hh. rewrite <- pointers_new by apply lookup_delete_eq. by rewrite insert_delete_id.
Qed.
Lemma pointers_set m h p : pointers (<[h := p]> m) ≡ₚ option_list p ++ pointers (delete h m).
Proof. rewrite <- insert_delete_eq. apply pointers_new, lookup_delete_eq. Qed.

(** What an operation leaves: what is owned or was cleaned is what was before,
    with what was given and without what was given back. *)
Definition balanced (s : store) (m : M store unit) (new : list Z) : Prop := ∃ t,
  m s = (Ret (), t) ∧ pointers (objects t) ++ cleaned t ≡ₚ new ++ pointers (objects s) ++ cleaned s.

Lemma reset_balanced s h q p : objects s !! h = Some q →
  reset h p s = (Ret (), MkStore (<[h := p]> (objects s)) (cleaned s ++ option_list q)) ∧
  balanced s (reset h p) (option_list p).
Proof.
  intros Hh.
  assert (reset h p s = (Ret (), MkStore (<[h := p]> (objects s)) (cleaned s ++ option_list q))) as E.
  { unfold reset, tptr, set_tptr, modify, mbind, M_bind. rewrite Hh. destruct q; cbn; [done|].
    rewrite app_nil_r. by destruct s. }
  split; [done|]. eexists. split; [exact E|]. cbn. rewrite pointers_set, (pointers_at _ _ _ Hh). solve_Permutation.
Qed.

Lemma tptr_ok s h p : objects s !! h = Some p → tptr h s = (Ret p, s).
Proof. unfold tptr. by intros ->. Qed.
Lemma release_ok s h p : objects s !! h = Some p →
  releaseInternal h s = (Ret p, MkStore (<[h := None]> (objects s)) (cleaned s)).
Proof. intros Hh. unfold releaseInternal, mbind, M_bind. by rewrite (tptr_ok _ _ _ Hh). Qed.

Lemma run_op_balanced o s r :
  allowed o s → ∃ t r', run_op o (s, r) = (Ret (), (t, r')) ∧
    pointers (objects t) ++ cleaned t ++ r' ≡ₚ given o ++ pointers (objects s) ++ cleaned s ++ r.
Proof.
  destruct o as [h|h p|this h|this h|h|h|h p]; cbn [allowed run_op given].
  - intros Hh. eexists _, _. split; [reflexivity|]. cbn. by rewrite pointers_new.
  - intros Hh. eexists _, _. split; [reflexivity|]. cbn. by rewrite pointers_new.
  - intros [Ht [p Hp]]. assert (this ≠ h) as Hne by congruence.
    unfold Helper_copy, get, tptr, set_tptr, modify, mbind, M_bind, zoom. cbn.
    rewrite lookup_insert_eq. cbn. rewrite lookup_insert_ne, Hp by done. cbn. rewrite lookup_insert_eq. cbn.
    eexists _, _. split; [reflexivity|]. cbn. rewrite insert_insert_eq.
    rewrite (insert_insert_ne _ h this) by done. rewrite pointers_new by by rewrite lookup_insert_ne.
    rewrite pointers_set, (pointers_at _ _ _ Hp). solve_Permutation.
  - intros [[q Hq] [p Hp]]. unfold assign. destruct (this =? h) eqn:E; zbool; [by eexists _, _|].
    assert (this ≠ h) as Hne by done. unfold zoom, mbind, M_bind. cbn [fst snd]. rewrite (release_ok _ _ _ Hp).
    set (s1 := MkStore (<[h:=None]> (objects s)) (cleaned s)).
    destruct (reset_balanced s1 this q p) as [-> _]; [cbn; by rewrite lookup_insert_ne|].
    unfold get. rewrite (tptr_ok _ _ None) by (cbn; by rewrite lookup_insert_ne, lookup_insert_eq).
    eexists _, _. split; [reflexivity|]. cbn. rewrite pointers_set, delete_insert_ne by done.
    assert (delete this (objects s) !! h = Some p) as Hp' by by rewrite lookup_delete_ne.
    rewrite pointers_set. rewrite (pointers_at _ _ _ Hq), (pointers_at _ _ _ Hp'). solve_Permutation.
  - intros [p Hp]. unfold destroy, mbind, M_bind, zoom. cbn [fst snd].
    destruct (reset_balanced s h p None Hp) as [-> _]. cbn. eexists _, _. split; [reflexivity|]. cbn.
    rewrite delete_insert_eq, (pointers_at _ _ _ Hp). solve_Permutation.
  - intros [p Hp]. unfold release, zoom, mbind, M_bind. cbn [fst snd]. rewrite (release_ok _ _ _ Hp). cbn.
    eexists _, _. split; [reflexivity|]. cbn. rewrite pointers_set, (pointers_at _ _ _ Hp). solve_Permutation.
  - intros [q Hq]. unfold zoom. cbn [fst snd]. destruct (reset_balanced s h q (Some p) Hq) as [-> _].
    eexists _, _. split; [reflexivity|]. cbn. rewrite pointers_set, (pointers_at _ _ _ Hq). solve_Permutation.
Qed.

(** * Properties *)

(** C37: Whatever a program does with helpers, by copies and assignments in any
    order, no [assert] fails, and every pointer it handed over is, as often as it
    did, owned by one object, cleaned, or given back: nothing is cleaned twice,
    and when the objects are gone nothing is lost. *)
Theorem cleaned_once (l : list op) :
  all_allowed l (MkStore ∅ [], []) →
  ∃ s r, run_ops l (MkStore ∅ [], []) = (Ret (), (s, r)) ∧
    (l ≫= given) ≡ₚ owned s ++ cleaned s ++ r ∧ (objects s = ∅ → (l ≫= given) ≡ₚ cleaned s ++ r).
Proof.
  intros Hl. assert (∀ s r, all_allowed l (s, r) → ∃ t r', run_ops l (s, r) = (Ret (), (t, r')) ∧
    pointers (objects t) ++ cleaned t ++ r' ≡ₚ (l ≫= given) ++ pointers (objects s) ++ cleaned s ++ r) as Hg.
  { clear Hl. induction l as [|o l IH]; intros s r Hl; cbn [run_ops all_allowed] in *; [by eexists _, _|].
    destruct Hl as [Ho Hl]. destruct (run_op_balanced o s r Ho) as (t & r' & E & Hp). rewrite E in Hl.
    destruct (IH t r' Hl) as (u & r2 & E2 & Hp2). exists u, r2. unfold mbind, M_bind. rewrite E. split; [done|].
    rewrite Hp2, Hp. csimpl. solve_Permutation. }
  destruct (Hg _ _ Hl) as (s & r & E & Hp). exists s, r. split; [done|].
  assert ((l ≫= given) ≡ₚ owned s ++ cleaned s ++ r) as Hb.
  { unfold owned. fold (pointers (objects s)). rewrite Hp. cbn. unfold pointers. rewrite map_to_list_empty. cbn.
    by rewrite app_nil_r. }
  split; [done|]. intros Hs. rewrite Hb. unfold owned. by rewrite Hs, map_to_list_empty.
Qed.

Lemma cleaned_once_witness :
  let l := [OExplicit 1 10; ODefault 2; OAssign 2 1; OCopy 3 2; OReset 2 11; ODestroy 1; ORelease 3; ODestroy 3; ODestroy 2] in
  ∃ s r, run_ops l (MkStore ∅ [], []) = (Ret (), (s, r)) ∧ [10; 11] ≡ₚ cleaned s ++ r ∧ r = [10].
Proof.
  intros l. destruct (cleaned_once l) as (s & r & E & _ & Hc).
  - cbn. repeat split; try (vm_compute; reflexivity); eexists; vm_compute; reflexivity.
  - exists s, r. split; [exact E|]. vm_compute in E. injection E as <- <-. split; [by apply Hc|done].
Defined.
