(* ===== verification/Range.v ===== *)
(** * [Range] (include/details/range.h) and the case-insensitive functors
    (include/details/functors.h)

    A [Range] is the characters between its two pointers; no operation of the
    class looks outside them or compares the pointers of two ranges. *)
From S2P Require Import Prelude CLib.

(** ** Range *)

Definition empty (r : bytes) : bool := zlen r =? 0.
Definition size (r : bytes) : Z := zlen r.

(** The first loop of [Range::trim] and of the other trimming loops. *)
Fixpoint skip_spaces (r : bytes) : bytes :=
  match r with
  | [] => []
  | c :: r' => if isspace c then skip_spaces r' else r
  end.
(** The second loop, which moves [end] backwards. *)
Definition chop_spaces (r : bytes) : bytes := reverse (skip_spaces (reverse r)).
Definition trim (r : bytes) : bytes := chop_spaces (skip_spaces r).

(** [trimn(b, e)]: the counters are [int]s tested against zero, so a negative
    one runs to the end of the range. *)
Definition trimn (b e : Z) (r : bytes) : bytes :=
  let r1 := if b <? 0 then [] else drop (Z.to_nat b) r in
  if e <? 0 then [] else take (length r1 - Z.to_nat e) r1.

Definition find_char (c : byte) (r : bytes) : nat := std_find c r.
Definition find (substr r : bytes) : nat :=
  match substr with
  | [c] => find_char c r
  | _ => std_search substr r
  end.

(** [doSplit(e, size, first, second)]: the result and the two ranges. *)
Definition doSplit (e size : nat) (r : bytes) : bool * bytes * bytes :=
  if decide (e = length r) then (false, take e r, [])
  else (true, take e r, drop (e + size) r).
Definition split (delim r : bytes) : bool * bytes * bytes :=
  doSplit (find delim r) (length delim) r.
Definition split_char (delim : byte) (r : bytes) : bool * bytes * bytes :=
  doSplit (find_char delim r) 1 r.

Definition startsWith (p r : bytes) : bool :=
  if size p <=? size r then bool_decide (take (length p) r = p) else false.
Definition endsWith (p r : bytes) : bool :=
  if size p <=? size r then bool_decide (drop (length r - length p) r = p) else false.

Definition op_lt (r target : bytes) : bool :=
  lexicographical_compare (λ c d, schar c <? schar d) r target.
Definition op_gt (r target : bytes) : bool := op_lt target r.
Definition op_eq (r target : bytes) : bool :=
  if size r =? size target then bool_decide (r = target) else false.
Definition op_ne (r target : bytes) : bool := negb (op_eq r target).

(** ** Functors *)

Definition CharCILess (c target : byte) : bool := tolower c <? tolower target.
Definition RangeCILess (r target : bytes) : bool :=
  lexicographical_compare CharCILess r target.

Fixpoint StringCIHash_from (value : Z) (s : bytes) : Z :=
  match s with
  | [] => value
  | c :: s => StringCIHash_from (u32 (value + 5 * tolower c)) s
  end.
Definition StringCIHash (s : bytes) : Z := StringCIHash_from 0 s.
Definition StringCIEqual (s target : bytes) : bool :=
  if size s =? size target then strncasecmp_eq (length s) s target else false.

(** ** Specification vocabulary *)

(** [all_spaces r]: every character of [r] is white space. *)
Definition all_spaces (r : bytes) : Prop := Forall (λ c, isspace c = true) r.
(** [tight r]: [r] neither begins nor ends with white space. *)
Definition tight (r : bytes) : Prop :=
  match head r with Some c => isspace c = false | None => True end ∧
  match last r with Some c => isspace c = false | None => True end.
(** [ci s]: the image of [s] under [tolower], which case-insensitive
    comparison compares. *)
Definition ci (s : bytes) : list Z := tolower <$> s.
(** A C string: no embedded terminator. *)
Definition nul_free (s : bytes) : Prop := Byte.x00 ∉ s.

(** * Lemmas *)

Lemma skip_spaces_spec r :
  ∃ p, r = p ++ skip_spaces r ∧ all_spaces p ∧
       match head (skip_spaces r) with Some c => isspace c = false | None => True end.
Proof.
  induction r as [|c r (p & Hr & Hp & Hh)]; simpl.
  - exists []. split; [done|]. split; [apply Forall_nil_2|done].
  - destruct (isspace c) eqn:E.
    + exists (c :: p). split; [by rewrite Hr at 1|]. split; [by apply Forall_cons_2|done].
    + exists []. split; [done|]. split; [apply Forall_nil_2|done].
Qed.

Lemma chop_spaces_spec r :
  ∃ q, r = chop_spaces r ++ q ∧ all_spaces q ∧
       match last (chop_spaces r) with Some c => isspace c = false | None => True end.
Proof.
  unfold chop_spaces. destruct (skip_spaces_spec (reverse r)) as (p & Hr & Hp & Hh).
  exists (reverse p). split_and!.
  - rewrite <- (reverse_involutive r) at 1. rewrite Hr at 1. by rewrite reverse_app.
  - unfold all_spaces in *. by rewrite Forall_reverse.
  - by rewrite last_reverse.
Qed.

Lemma skip_spaces_all r : all_spaces r → skip_spaces r = [].
Proof. induction 1 as [|c r Hc Hr IH]; simpl; [done|]. by rewrite Hc. Qed.

Lemma skip_spaces_none r :
  match head r with Some c => isspace c = false | None => True end →
  skip_spaces r = r.
Proof. destruct r; simpl; [done|]. by intros ->. Qed.

Lemma skip_spaces_app p r : all_spaces p → skip_spaces (p ++ r) = skip_spaces r.
Proof. induction 1 as [|c p Hc Hp IH]; simpl; [done|]. by rewrite Hc. Qed.

Lemma chop_spaces_app r q : all_spaces q → chop_spaces (r ++ q) = chop_spaces r.
Proof.
  intros. unfold chop_spaces. rewrite reverse_app, skip_spaces_app; [done|].
  unfold all_spaces. by rewrite Forall_reverse.
Qed.

Lemma chop_spaces_none r :
  match last r with Some c => isspace c = false | None => True end →
  chop_spaces r = r.
Proof.
  intros H. unfold chop_spaces. rewrite skip_spaces_none; [apply reverse_involutive|].
  by rewrite head_reverse.
Qed.

Lemma trim_tight r : tight r → trim r = r.
Proof. intros [H1 H2]. unfold trim. rewrite skip_spaces_none, chop_spaces_none; done. Qed.

(** [trim] removes exactly the white space at both ends. *)
Lemma trim_decompose r :
  ∃ p q, r = p ++ trim r ++ q ∧ all_spaces p ∧ all_spaces q ∧ tight (trim r).
Proof.
  unfold trim. destruct (skip_spaces_spec r) as (p & Hr & Hp & Hh).
  destruct (chop_spaces_spec (skip_spaces r)) as (q & Hq & Hqs & Hl).
  exists p, q. split_and!; [by rewrite <- Hq|done|done|]. split; [|done].
  destruct (chop_spaces (skip_spaces r)) as [|c k] eqn:E; [done|]. simpl.
  rewrite Hq in Hh. done.
Qed.

Lemma trim_spaces p r q :
  all_spaces p → all_spaces q → tight r → trim (p ++ r ++ q) = r.
Proof.
  intros Hp Hq Ht. unfold trim. rewrite skip_spaces_app by done.
  destruct r as [|c r].
  - simpl. by rewrite skip_spaces_all.
  - rewrite skip_spaces_none by apply Ht.
    rewrite chop_spaces_app by done. apply chop_spaces_none, Ht.
Qed.

Lemma length_skip_spaces r : (length (skip_spaces r) ≤ length r)%nat.
Proof. induction r as [|c r IH]; simpl; [lia|]. destruct (isspace c); simpl; lia. Qed.

Lemma length_trim r : (length (trim r) ≤ length r)%nat.
Proof.
  destruct (trim_decompose r) as (p & q & Hr & _).
  rewrite Hr at 2. rewrite !length_app. lia.
Qed.

Lemma find_search delim r : find delim r = std_search delim r.
Proof.
  destruct delim as [|c [|]]; [done| |done]. symmetry. apply std_search_single.
Qed.

Lemma find_le delim r : (find delim r ≤ length r)%nat.
Proof. rewrite find_search. apply std_search_le. Qed.

Lemma split_single c r : split [c] r = split_char c r.
Proof. done. Qed.

Lemma split_char_notin c r : c ∉ r → split_char c r = (false, r, []).
Proof.
  intros H. unfold split_char, doSplit, find_char.
  rewrite std_find_notin, decide_True by done. by rewrite firstn_all.
Qed.

Lemma split_char_app c h t : c ∉ h → split_char c (h ++ c :: t) = (true, h, t).
Proof.
  intros H. unfold split_char, doSplit, find_char.
  rewrite std_find_app by done. rewrite decide_False by (rewrite length_app; simpl; lia).
  rewrite take_app_length. do 2 f_equal.
  rewrite <- drop_drop, drop_app_length. done.
Qed.

Lemma split_char_nil c : split_char c [] = (false, [], []).
Proof. done. Qed.

(** [split] on a delimiter that does not occur, and on one that does. *)
Lemma split_cases delim r :
  delim ≠ [] →
  (split delim r = (false, r, []) ∧ ∀ i, (i < length r)%nat → ¬ occurs_at delim r i) ∨
  (∃ h t, r = h ++ delim ++ t ∧ split delim r = (true, h, t) ∧
     ∀ i, (i < length h)%nat → ¬ occurs_at delim r i).
Proof.
  intros Hd. unfold split, doSplit. rewrite !find_search.
  destruct (std_search_spec delim r) as [H1 H2].
  pose proof (std_search_le delim r) as Hle. case_decide as E.
  - left. rewrite E, firstn_all. split; [done|]. intros i Hi. apply H1. lia.
  - right. set (i := std_search delim r) in *.
    assert (occurs_at delim r i) as Ho by (apply H2; lia).
    unfold occurs_at in Ho. apply is_prefix_spec in Ho as [t Ht].
    exists (take i r), t. split_and!.
    + by rewrite <- Ht, take_drop.
    + do 2 f_equal. rewrite <- drop_drop, Ht, drop_app_length. done.
    + rewrite length_take. intros j Hj. apply H1. lia.
Qed.

(** The delimiter found first is the one [split] takes. *)
Lemma split_app_first delim h t :
  delim ≠ [] →
  (∀ i, (i < length h)%nat → ¬ occurs_at delim (h ++ delim ++ t) i) →
  split delim (h ++ delim ++ t) = (true, h, t).
Proof.
  intros Hd Hfirst. unfold split, doSplit. rewrite !find_search.
  assert (length delim ≠ O) by (by destruct delim).
  rewrite (std_search_first delim (h ++ delim ++ t) (length h)); [|rewrite !length_app; lia| |done].
  - rewrite decide_False by (rewrite !length_app; lia).
    rewrite take_app_length, <- drop_drop, !drop_app_length. done.
  - unfold occurs_at. rewrite drop_app_length. apply is_prefix_app.
Qed.

Lemma split_shorter delim r b h t :
  delim ≠ [] → r ≠ [] → split delim r = (b, h, t) → (length t < length r)%nat.
Proof.
  intros Hd Hr Hs. destruct (split_cases delim r Hd) as [[H _]|(h' & t' & H & H' & _)].
  - rewrite H in Hs. injection Hs as _ _ <-. destruct r; simpl; [done|lia].
  - rewrite H' in Hs. injection Hs as _ _ <-. rewrite H, !length_app.
    destruct delim; simpl; [done|lia].
Qed.

Lemma startsWith_spec p r : startsWith p r = is_prefix p r.
Proof.
  apply eq_true_iff_eq. rewrite is_prefix_spec. unfold startsWith, size, zlen. case_if.
  - rewrite bool_decide_eq_true. split.
    + intros E. exists (drop (length p) r). rewrite <- E at 1. by rewrite take_drop.
    + intros [k ->]. by rewrite take_app_length.
  - split; [done|]. intros [k ->]. rewrite length_app in *. lia.
Qed.

Lemma endsWith_spec p r : endsWith p r = true ↔ ∃ k, r = k ++ p.
Proof.
  unfold endsWith, size, zlen. case_if.
  - rewrite bool_decide_eq_true. split.
    + intros E. exists (take (length r - length p) r). rewrite <- E at 2. by rewrite take_drop.
    + intros [k ->]. rewrite length_app. rewrite drop_app_length'; [done|lia].
  - split; [done|]. intros [k ->]. rewrite length_app in *. lia.
Qed.

Lemma op_eq_spec r target : op_eq r target = true ↔ r = target.
Proof.
  unfold op_eq, size. case_if.
  - apply bool_decide_eq_true.
  - split; [done|]. intros ->. lia.
Qed.

(** ** Case-insensitive comparison *)

Lemma strncasecmp_eq_spec s t :
  length s = length t → nul_free s → nul_free t →
  strncasecmp_eq (length s) s t = true ↔ ci s = ci t.
Proof.
  unfold nul_free. revert t; induction s as [|c s IH]; intros [|d t] Hl Hs Ht; simpl in *;
    try done. rewrite not_elem_of_cons in Hs, Ht. destruct Hs as [Hc Hs], Ht as [Hd Ht].
  unfold front; simpl. destruct (tolower_int (uchar c) =? tolower_int (uchar d)) eqn:E.
  - apply Z.eqb_eq, tolower_eq_iff in E.
    destruct (uchar c =? 0) eqn:E0.
    { apply Z.eqb_eq in E0. exfalso. apply Hc, uchar_inj. done. }
    rewrite IH by (done || lia). unfold ci; simpl. rewrite E. split; [by intros ->|by intros [=]].
  - split; [done|]. unfold ci; simpl. intros [= H _]. apply tolower_eq_iff, Z.eqb_eq in H. congruence.
Qed.

Lemma StringCIEqual_spec s t :
  nul_free s → nul_free t → StringCIEqual s t = true ↔ ci s = ci t.
Proof.
  intros Hs Ht. unfold StringCIEqual, size, zlen. case_if.
  - apply strncasecmp_eq_spec; [lia|done|done].
  - split; [done|]. intros H%(f_equal length). unfold ci in H.
    rewrite !length_fmap in H. lia.
Qed.

Lemma StringCIHash_ci v s t : ci s = ci t → StringCIHash_from v s = StringCIHash_from v t.
Proof.
  revert v t; induction s as [|c s IH]; intros v [|d t] [=]; simpl; [done|].
  replace (tolower d) with (tolower c) by done. by apply IH.
Qed.
