(* ===== verification/Util.v ===== *)
(** * [StringUtils] on strings and ranges, and [HashUtils]
    (library/util.cpp, include/fastcgi2/util.h)

    The overloads that read a [DataBuffer] are in [BufferUtil.v]. *)
From S2P Require Import Prelude CLib Range.

Definition EMPTY_STRING : bytes := [].

(** [StringUtils::NamedValue]. *)
Abbreviation NamedValue := (bytes * bytes)%type.

(** ** urlencode *)

Definition hex_upper (b : Z) : Z := b + (if 9 <? b then 65 - 10 else 48).

Definition is_mark (c : byte) : bool :=
  bool_decide (c ∈ str "-_.!~*()'").

Definition urlencode_char (symbol : byte) : bytes :=
  if isalnum symbol then [symbol]
  else if is_mark symbol then [symbol]
  else ["%"%byte;
        chr (hex_upper (Z.land (schar symbol) 0xF0 / 16));
        chr (hex_upper (Z.land (schar symbol) 0x0F))].

Fixpoint urlencode (r : bytes) : bytes :=
  match r with
  | [] => []
  | symbol :: r => urlencode_char symbol ++ urlencode r
  end.

(** ** urldecode *)

(** The value the code gives to a hexadecimal digit, whatever the character. *)
Definition hex_value (f : byte) : Z :=
  if 65 <=? schar f then (Z.land (schar f) 0xDF - 65) + 10 else schar f - 48.

(** [urldecode(range, result)] appends to [result]. *)
Fixpoint urldecode_append (r result : bytes) : bytes :=
  match r with
  | [] => result
  | c :: r1 =>
      if decide (c = "+"%byte) then urldecode_append r1 (result ++ [" "%byte])
      else if decide (c = "%"%byte) then
        match r1 with
        | f :: s :: r2 =>
            let digit := hex_value f * 16 + hex_value s in
            urldecode_append r2 (result ++ [chr digit])
        | _ => urldecode_append r1 (result ++ ["%"%byte])
        end
      else urldecode_append r1 (result ++ [c])
  end.
Definition urldecode (r : bytes) : bytes := urldecode_append r [].

(** ** parse: "k1=v1&k2=v2" *)

Definition parse_step (s : bytes * list NamedValue) :
    (bytes * list NamedValue) + list NamedValue :=
  let '(tmp, v) := s in
  if Range.empty tmp then inr v
  else
    let '(_, head, tail) := Range.split_char "&"%byte tmp in
    let '(_, key, value) := Range.split_char "="%byte head in
    let v := if Range.empty key then v
             else v ++ [(urldecode key, urldecode value)] in
    inl (tail, v).
Definition parse (r : bytes) (v : list NamedValue) : outcome (list NamedValue) :=
  ploop (S (length r)) parse_step (r, v).

(** ** HashUtils::hexMD5 *)

Definition alpha : bytes := str "0123456789abcdef".

Section md5.
(** [MD5_Init], [MD5_Update] and [MD5_Final] of OpenSSL: the digest. *)
Context (MD5 : bytes → bytes).

Fixpoint md5_digits (md5buffer : bytes) : bytes :=
  match md5buffer with
  | [] => []
  | b :: rest =>
      nth (Z.to_nat (Z.shiftr (Z.land (uchar b) 0xf0) 4)) alpha Byte.x00 ::
      nth (Z.to_nat (Z.land (uchar b) 0xf)) alpha Byte.x00 ::
      md5_digits rest
  end.
Definition hexMD5 (key : bytes) : bytes := md5_digits (MD5 key).
End md5.

(** ** Specifications *)

(** The maximal pieces of [r] without [c]; nothing for an empty [r]. *)
Fixpoint fields_aux (c : byte) (cur r : bytes) : list bytes :=
  match r with
  | [] => [cur]
  | d :: r => if decide (d = c) then cur :: fields_aux c [] r else fields_aux c (cur ++ [d]) r
  end.
Definition fields (c : byte) (r : bytes) : list bytes := fields_aux c [] r.

(** What one field of a query string stands for. *)
Definition field_value (f : bytes) : option NamedValue :=
  let '(_, key, value) := Range.split_char "="%byte f in
  if Range.empty key then None else Some (urldecode key, urldecode value).

(** The reference for [parse]: the named values of the fields, in order. *)
Definition query_values (r : bytes) : list NamedValue := omap field_value (fields "&"%byte r).

(** The query string of a list of named values. *)
Definition query_field (nv : NamedValue) : bytes :=
  urlencode (fst nv) ++ "="%byte :: urlencode (snd nv).
Fixpoint query_string (l : list NamedValue) : bytes :=
  match l with
  | [] => []
  | [nv] => query_field nv
  | nv :: l => query_field nv ++ "&"%byte :: query_string l
  end.

(** What [urlencode] may print. *)
Definition url_safe (c : byte) : bool := isalnum c || is_mark c || bool_decide (c = "%"%byte).

(** * Lemmas *)

(** ** Encoding and decoding *)

Lemma urldecode_append_cons c r1 result :
  urldecode_append (c :: r1) result =
  if decide (c = "+"%byte) then urldecode_append r1 (result ++ [" "%byte])
  else if decide (c = "%"%byte) then
    match r1 with
    | f :: s :: r2 =>
        urldecode_append r2 (result ++ [chr (hex_value f * 16 + hex_value s)])
    | _ => urldecode_append r1 (result ++ ["%"%byte])
    end
  else urldecode_append r1 (result ++ [c]).
Proof. done. Qed.

Lemma urldecode_append_result r result :
  urldecode_append r result = result ++ urldecode r.
Proof.
  unfold urldecode. revert result. induction r as [[|c r] IH] using list_length_ind; intros result.
  - cbn [urldecode_append]. by rewrite app_nil_r.
  - rewrite !urldecode_append_cons. cbn [length] in IH.
    assert (∀ k x, (length k < S (length r))%nat →
      urldecode_append k (result ++ [x]) = result ++ urldecode_append k ([] ++ [x])) as Hk.
    { intros k x Hk. rewrite (IH k Hk (result ++ _)), (IH k Hk ([] ++ _)). by rewrite <- app_assoc. }
    case_decide; [apply Hk; lia|]. case_decide; [|apply Hk; lia].
    destruct r as [|f [|g r]]; apply Hk; cbn [length]; lia.
Qed.

Lemma urldecode_plain c r :
  c ≠ "+"%byte → c ≠ "%"%byte → urldecode (c :: r) = c :: urldecode r.
Proof.
  intros H1 H2. unfold urldecode at 1. rewrite urldecode_append_cons, !decide_False by done.
  by rewrite urldecode_append_result.
Qed.

Lemma urldecode_escape f g r :
  urldecode ("%"%byte :: f :: g :: r) = chr (hex_value f * 16 + hex_value g) :: urldecode r.
Proof.
  unfold urldecode at 1. rewrite urldecode_append_cons.
  rewrite decide_False by done. rewrite decide_True by done.
  by rewrite urldecode_append_result.
Qed.

Lemma urldecode_plus r : urldecode ("+"%byte :: r) = " "%byte :: urldecode r.
Proof.
  unfold urldecode at 1. rewrite urldecode_append_cons, decide_True by done.
  by rewrite urldecode_append_result.
Qed.

(** A character is printed as itself or as the escape that denotes it. *)
Lemma urlencode_char_cases c :
  (urlencode_char c = [c] ∧ c ≠ "+"%byte ∧ c ≠ "%"%byte) ∨
  (∃ f g, urlencode_char c = ["%"%byte; f; g] ∧ chr (hex_value f * 16 + hex_value g) = c).
Proof.
  destruct c;
    first [ left; split_and!; [vm_compute; reflexivity|discriminate|discriminate]
          | right; eexists _, _; split; [vm_compute; reflexivity|vm_compute; reflexivity] ].
Qed.

Lemma urldecode_urlencode_app s r : urldecode (urlencode s ++ r) = s ++ urldecode r.
Proof.
  induction s as [|c s IH]; [done|]. simpl. rewrite <- app_assoc.
  destruct (urlencode_char_cases c) as [(-> & H1 & H2)|(f & g & -> & Hc)]; simpl.
  - rewrite urldecode_plain by done. by rewrite IH.
  - rewrite urldecode_escape, Hc. by rewrite IH.
Qed.

Lemma urlencode_char_safe c : Forall (λ d, url_safe d = true) (urlencode_char c).
Proof.
  assert (forallb url_safe (urlencode_char c) = true) as H by byte_cases c.
  rewrite forallb_forall in H. apply Forall_forall. intros d Hd.
  by apply H, list_elem_of_In.
Qed.

Lemma urlencode_safe_all s : Forall (λ d, url_safe d = true) (urlencode s).
Proof.
  induction s as [|c s IH]; simpl; [constructor|].
  apply Forall_app. split; [apply urlencode_char_safe|done].
Qed.

Lemma urlencode_notin c s : url_safe c = false → c ∉ urlencode s.
Proof.
  intros Hc Hin. pose proof (urlencode_safe_all s) as H.
  rewrite Forall_forall in H. specialize (H c Hin). congruence.
Qed.

Lemma urlencode_nonempty s : s ≠ [] → urlencode s ≠ [].
Proof.
  destruct s as [|c s]; [done|]. intros _. simpl.
  destruct (urlencode_char_cases c) as [(-> & _)|(f & g & -> & _)]; done.
Qed.

(** ** Fields and query strings *)

Lemma empty_spec r : Range.empty r = true ↔ r = [].
Proof.
  unfold Range.empty. rewrite Z.eqb_eq. split; [apply zlen_zero|by intros ->].
Qed.

Lemma empty_false r : Range.empty r = false ↔ r ≠ [].
Proof. rewrite <- not_true_iff_false, empty_spec. done. Qed.

Lemma fields_aux_app c cur h r :
  c ∉ h → fields_aux c cur (h ++ r) = fields_aux c (cur ++ h) r.
Proof.
  revert cur; induction h as [|d h IH]; intros cur H; simpl; [by rewrite app_nil_r|].
  rewrite not_elem_of_cons in H. destruct H. rewrite decide_False by congruence.
  rewrite IH by done. by rewrite <- app_assoc.
Qed.

Lemma fields_cons c h r : c ∉ h → fields c (h ++ c :: r) = h :: fields c r.
Proof.
  intros H. unfold fields. rewrite fields_aux_app by done. simpl. by rewrite decide_True.
Qed.

Lemma fields_last c h : c ∉ h → fields c h = [h].
Proof.
  intros H. unfold fields. rewrite <- (app_nil_r h) at 1. by rewrite fields_aux_app.
Qed.

Lemma parse_step_nil v : parse_step ([], v) = inr v.
Proof. done. Qed.

Lemma parse_step_cons r v b head tail :
  r ≠ [] → Range.split_char "&"%byte r = (b, head, tail) →
  parse_step (r, v) = inl (tail, v ++ omap field_value [head]).
Proof.
  intros Hr%empty_false Hs. unfold parse_step. rewrite Hr, Hs. simpl.
  unfold field_value. destruct (Range.split_char "="%byte head) as [[b' k] w].
  destruct (Range.empty k); [by rewrite app_nil_r|done].
Qed.

(** The reference, one field at a time. *)
Lemma query_values_step r b head tail :
  r ≠ [] → Range.split_char "&"%byte r = (b, head, tail) →
  query_values r = omap field_value [head] ++ query_values tail.
Proof.
  intros Hr Hs. unfold query_values.
  destruct (std_find_split "&"%byte r) as [Hn|(h & t & Hrt & Hn)].
  - rewrite Range.split_char_notin in Hs by done. injection Hs as <- <- <-.
    by rewrite fields_last, app_nil_r.
  - rewrite Hrt, Range.split_char_app in Hs by done. injection Hs as <- <- <-.
    rewrite Hrt, fields_cons by done.
    change (h :: fields "&"%byte t) with ([h] ++ fields "&"%byte t). by rewrite omap_app.
Qed.

(** The loop of [parse], from any point. *)
Lemma parse_loop r v fuel :
  (length r < fuel)%nat →
  ploop fuel parse_step (r, v) = Ret (v ++ query_values r).
Proof.
  revert v fuel. induction r as [r IH] using list_length_ind; intros v fuel Hf.
  destruct fuel as [|fuel]; [lia|]. cbn [ploop].
  destruct (decide (r = [])) as [->|Hr].
  { rewrite parse_step_nil. unfold query_values. simpl. by rewrite app_nil_r. }
  assert (length r ≠ O) by (by destruct r).
  unfold query_values in *. destruct (std_find_split "&"%byte r) as [Hn|(h & t & Hrt & Hn)].
  - rewrite (parse_step_cons r v false r []) by (done || by apply Range.split_char_notin).
    destruct fuel as [|fuel]; [lia|]. cbn [ploop]. by rewrite parse_step_nil, fields_last.
  - rewrite (parse_step_cons r v true h t);
      [|done|rewrite Hrt; by apply Range.split_char_app].
    assert (length r = length h + S (length t))%nat by (by rewrite Hrt, length_app).
    rewrite IH by lia. rewrite Hrt, fields_cons by done.
    change (h :: fields "&"%byte t) with ([h] ++ fields "&"%byte t).
    by rewrite omap_app, app_assoc.
Qed.

Lemma query_field_notin nv : "&"%byte ∉ query_field nv.
Proof.
  unfold query_field. rewrite not_elem_of_app, not_elem_of_cons.
  split_and!; [by apply urlencode_notin|done|by apply urlencode_notin].
Qed.

Lemma query_field_value nv : fst nv ≠ [] → field_value (query_field nv) = Some nv.
Proof.
  intros H. unfold field_value, query_field.
  rewrite Range.split_char_app by (by apply urlencode_notin).
  apply urlencode_nonempty, empty_false in H. rewrite H.
  rewrite <- (app_nil_r (urlencode nv.1)), <- (app_nil_r (urlencode nv.2)).
  rewrite !urldecode_urlencode_app. destruct nv; simpl. by rewrite !app_nil_r.
Qed.

Lemma omap_query_field nv : fst nv ≠ [] → omap field_value [query_field nv] = [nv].
Proof. intros H. cbn. by rewrite query_field_value. Qed.

Lemma query_values_string l :
  Forall (λ nv : NamedValue, fst nv ≠ []) l → query_values (query_string l) = l.
Proof.
  unfold query_values. induction 1 as [|nv l Hn Hl IH]; [done|].
  destruct l as [|nv' l].
  - change (query_string [nv]) with (query_field nv).
    rewrite fields_last by apply query_field_notin. by apply omap_query_field.
  - change (query_string (nv :: nv' :: l))
      with (query_field nv ++ "&"%byte :: query_string (nv' :: l)).
    rewrite fields_cons by apply query_field_notin.
    change (query_field nv :: ?fs) with ([query_field nv] ++ fs).
    by rewrite omap_app, omap_query_field, IH.
Qed.

(** * Properties *)

(** Decoding an encoded string gives the string back, whatever its bytes. *)
Theorem urldecode_urlencode s : urldecode (urlencode s) = s.
Proof.
  rewrite <- (app_nil_r (urlencode s)), urldecode_urlencode_app. apply app_nil_r.
Qed.

(** [parse] terminates on every string and appends exactly the decoded named
    values of its fields, in their order. *)
Theorem parse_reference r v : parse r v = Ret (v ++ query_values r).
Proof. apply parse_loop. lia. Qed.

(** Parsing the query string of a list of arguments gives the list back. *)
Theorem parse_query_string l v :
  Forall (λ nv : NamedValue, fst nv ≠ []) l →
  parse (query_string l) v = Ret (v ++ l).
Proof. intros H. unfold parse. rewrite parse_loop by lia. by rewrite query_values_string. Qed.

Lemma parse_query_string_witness :
  Forall (λ nv : NamedValue, fst nv ≠ []) [(str "a b", str "x&y"); (str "=", [])] ∧
  parse (str "a%20b=x%26y&%3D=") [] = Ret [(str "a b", str "x&y"); (str "=", [])].
Proof.
  split; [repeat constructor; discriminate|].
  exact (parse_query_string [(str "a b", str "x&y"); (str "=", [])] []
           ltac:(repeat constructor; discriminate)).
Defined.
