(* ===== verification/Containers.v ===== *)
(** * The associative containers the sources use

    [std::map] and [std::set] keep their elements in the order of their
    comparison, which the code observes when it iterates: they are lists of
    bindings sorted by key.  [__gnu_cxx::hash_map] (the [VarMap] and
    [HeaderMap] of include/details/requestimpl.h) iterates in an order that
    depends on its buckets: it is a list of bindings in iteration order, and
    the place where an insertion puts a binding is left open by the class
    [HashOrder]. *)
From S2P Require Import Prelude CLib Range.

(** ** std::map and std::set *)

(** A key type with its [std::less]. *)
Class StdLess (K : Type) := {
  less : K → K → bool;
  less_irrefl x : less x x = false;
  less_trans x y z : less x y = true → less y z = true → less x z = true;
  less_total x y : less x y = false → less y x = false → x = y;
}.

Section std_map.
Context {K V : Type} `{StdLess K}.
Implicit Types (m : list (K * V)).

Fixpoint map_find (k : K) m : option V :=
  match m with
  | [] => None
  | (k', v) :: m =>
      if less k k' then None else if less k' k then map_find k m else Some v
  end.
(** [m.insert(std::make_pair(k, v))]: a key that is present keeps its value. *)
Fixpoint map_insert (k : K) (v : V) m : list (K * V) :=
  match m with
  | [] => [(k, v)]
  | (k', v') :: m' =>
      if less k k' then (k, v) :: m
      else if less k' k then (k', v') :: map_insert k v m' else m
  end.
(** [m[k] = v]. *)
Fixpoint map_set (k : K) (v : V) m : list (K * V) :=
  match m with
  | [] => [(k, v)]
  | (k', v') :: m' =>
      if less k k' then (k, v) :: m
      else if less k' k then (k', v') :: map_set k v m' else (k', v) :: m'
  end.
Fixpoint map_erase (k : K) m : list (K * V) :=
  match m with
  | [] => []
  | (k', v') :: m' =>
      if less k k' then m else if less k' k then (k', v') :: map_erase k m' else m'
  end.

(** The representation invariant. *)
Definition sorted_map m : Prop := StronglySorted (λ p q, less p.1 q.1 = true) m.
End std_map.

(** ** hash_map *)

(** Where the container puts a new binding in its iteration order. *)
Class HashOrder := {
  hm_place : list (bytes * bytes) → bytes * bytes → list (bytes * bytes);
  hm_place_perm m e : hm_place m e ≡ₚ e :: m;
}.

Section hash_map.
Context `{HashOrder} (keq : bytes → bytes → bool).
Implicit Types (m : list (bytes * bytes)).

Fixpoint hm_find (k : bytes) m : option bytes :=
  match m with
  | [] => None
  | (k', v) :: m => if keq k' k then Some v else hm_find k m
  end.
Definition hm_insert (e : bytes * bytes) m : list (bytes * bytes) :=
  match hm_find e.1 m with Some _ => m | None => hm_place m e end.
Fixpoint hm_replace (k v : bytes) m : list (bytes * bytes) :=
  match m with
  | [] => []
  | (k', v') :: m => if keq k' k then (k', v) :: m else (k', v') :: hm_replace k v m
  end.
(** [m[k] = v]: a binding that is present keeps its key. *)
Definition hm_set (k v : bytes) m : list (bytes * bytes) :=
  match hm_find k m with Some _ => hm_replace k v m | None => hm_place m (k, v) end.

(** The representation invariant: no two bindings with equal keys. *)
Definition hash_wf m : Prop := ForallOrdPairs (λ p q, keq p.1 q.1 = false) m.
End hash_map.

(** Equality predicates a hash map can be used with. *)
Class KeyEq (keq : bytes → bytes → bool) := {
  keq_refl s : keq s s = true;
  keq_sym s t : keq s t = keq t s;
  keq_trans s t u : keq s t = true → keq t u = true → keq s u = true;
}.

(** [std::equal_to<std::string>]. *)
Definition string_eq (s t : bytes) : bool := bool_decide (s = t).

(** [VarMap] and [HeaderMap]. *)
Definition var_eq : bytes → bytes → bool := string_eq.
Definition header_eq : bytes → bytes → bool := Range.StringCIEqual.

(** An example of an order of hash maps: a new binding comes first. *)
Definition cons_order : HashOrder := {| hm_place m e := e :: m; hm_place_perm m e := reflexivity _ |}.

(** * Lemmas *)

(** ** Lexicographic orders *)

Section lexicographic.
Context {A : Type} (key : A → Z) (key_inj : ∀ x y, key x = key y → x = y).
Let lt (x y : A) := key x <? key y.

Lemma lexicographical_irrefl l : lexicographical_compare lt l l = false.
Proof.
  induction l as [|x l IH]; [done|]. simpl. unfold lt in *. by rewrite Z.ltb_irrefl.
Qed.

Lemma lexicographical_trans l k m :
  lexicographical_compare lt l k = true → lexicographical_compare lt k m = true →
  lexicographical_compare lt l m = true.
Proof.
  unfold lt. revert k m; induction l as [|x l IH]; intros [|y k] [|z m]; simpl; try done.
  repeat case_if; try done; try lia. intros. eauto.
Qed.

Lemma lexicographical_total l k :
  lexicographical_compare lt l k = false → lexicographical_compare lt k l = false → l = k.
Proof.
  unfold lt. revert k; induction l as [|x l IH]; intros [|y k]; simpl; try done.
  repeat case_if; try done. intros. f_equal; [apply key_inj; lia|auto].
Qed.
End lexicographic.

#[export] Instance string_less : StdLess bytes.
Proof.
  refine {| less := string_lt |}.
  - apply lexicographical_irrefl.
  - apply lexicographical_trans.
  - apply lexicographical_total, uchar_inj.
Defined.

#[export] Instance Z_less : StdLess Z.
Proof. refine {| less := Z.ltb |}; intros; zbool; rewrite ?Z.ltb_lt; lia || apply Z.ltb_irrefl. Defined.

(** ** std::map *)

Section std_map_lemmas.
Context {K V : Type} `{StdLess K}.
Implicit Types (m : list (K * V)).

Lemma less_asym x y : less x y = true → less y x = false.
Proof.
  intros Hxy. destruct (less y x) eqn:E; [|done].
  pose proof (less_trans x y x Hxy E) as Hxx. by rewrite less_irrefl in Hxx.
Qed.

(** The key sought is before, after or equal to the key at hand. *)
Ltac less_cases :=
  repeat match goal with
  | |- context [if less ?x ?y then _ else _] => destruct (less x y) eqn:?
  | H1 : less ?x ?y = false, H2 : less ?y ?x = false |- _ =>
      pose proof (less_total x y H1 H2); clear H1; subst
  | H1 : less ?x ?x = true |- _ => rewrite less_irrefl in H1; discriminate
  | |- context [less ?x ?x] => rewrite less_irrefl
  end.

Lemma sorted_head k v m k' v' :
  sorted_map ((k, v) :: m) → (k', v') ∈ m → less k k' = true.
Proof.
  intros Hs Hin. apply StronglySorted_inv in Hs as [_ Hs].
  rewrite Forall_forall in Hs. apply (Hs _ Hin).
Qed.

Lemma map_find_elem k v m : sorted_map m → map_find k m = Some v ↔ (k, v) ∈ m.
Proof.
  induction m as [|[k' v'] m IH]; intros Hs; simpl.
  - split; [done|]. by intros ?%not_elem_of_nil.
  - pose proof (StronglySorted_inv Hs) as [Hs' _].
    rewrite elem_of_cons. less_cases.
    + split; [done|]. intros [[= -> ->]|Hin]; [by rewrite less_irrefl in *|].
      pose proof (sorted_head _ _ _ _ _ Hs Hin) as Hl. apply less_asym in Hl. congruence.
    + rewrite IH by done. split; [by right|]. intros [[= -> ->]|]; [|done].
      by rewrite less_irrefl in *.
    + split; [intros [= ->]; by left|]. intros [[= ->]|Hin]; [done|].
      pose proof (sorted_head _ _ _ _ _ Hs Hin) as Hl. by rewrite less_irrefl in Hl.
Qed.

Lemma map_find_insert_eq k v m :
  map_find k (map_insert k v m) = Some (default v (map_find k m)).
Proof.
  induction m as [|[k' v'] m IH]; simpl; [by rewrite less_irrefl|].
  destruct (less k k') eqn:E1; [simpl; by rewrite less_irrefl|].
  destruct (less k' k) eqn:E2; simpl; by rewrite E1, E2.
Qed.

Lemma map_find_set_eq k v m : map_find k (map_set k v m) = Some v.
Proof.
  induction m as [|[k' v'] m IH]; simpl; [by rewrite less_irrefl|].
  destruct (less k k') eqn:E1; [simpl; by rewrite less_irrefl|].
  destruct (less k' k) eqn:E2; simpl; rewrite E1, E2; done.
Qed.

Lemma map_find_set_ne k k2 v m : k2 ≠ k → map_find k2 (map_set k v m) = map_find k2 m.
Proof.
  intros Hne. induction m as [|[k' v'] m IH]; cbn [map_find map_set].
  - destruct (less k2 k) eqn:E1; [done|]. destruct (less k k2) eqn:E2; [done|].
    destruct Hne. by apply less_total.
  - destruct (less k k') eqn:E1; [|destruct (less k' k) eqn:E2]; cbn [map_find].
    + destruct (less k2 k) eqn:E3.
      * by rewrite (less_trans k2 k k').
      * destruct (less k k2) eqn:E4; [done|]. destruct Hne. by apply less_total.
    + by rewrite IH.
    + destruct (less k2 k') eqn:E3; [done|]. destruct (less k' k2) eqn:E4; [done|].
      destruct Hne. by rewrite (less_total k k'), (less_total k2 k').
Qed.

Lemma map_insert_set k v m : map_find k m = None → map_insert k v m = map_set k v m.
Proof.
  induction m as [|[k' v'] m IH]; cbn [map_find map_insert map_set]; [done|].
  destruct (less k k'); [done|]. destruct (less k' k); [|done]. intros Hf. by rewrite IH.
Qed.

Lemma elem_of_map_set k v m p : p ∈ map_set k v m → p = (k, v) ∨ p ∈ m.
Proof.
  induction m as [|[k' v'] m IH]; simpl; [rewrite list_elem_of_singleton; auto|].
  repeat case_if; rewrite !elem_of_cons; try tauto.
  pose proof (less_total k k' ltac:(done) ltac:(done)) as ->. tauto.
Qed.

Lemma elem_of_map_insert k v m p : p ∈ map_insert k v m → p = (k, v) ∨ p ∈ m.
Proof.
  induction m as [|[k' v'] m IH]; simpl; [rewrite list_elem_of_singleton; auto|].
  repeat case_if; rewrite ?elem_of_cons; try tauto.
Qed.

Lemma map_set_sorted k v m : sorted_map m → sorted_map (map_set k v m).
Proof.
  unfold sorted_map. induction m as [|[k' v'] m IH]; intros Hs; simpl.
  - repeat constructor.
  - pose proof (StronglySorted_inv Hs) as [Hs' Hf]. repeat case_if.
    + constructor; [done|]. constructor; [done|].
      eapply Forall_impl; [exact Hf|]. simpl. intros p Hp. by eapply less_trans.
    + constructor; [by apply IH|]. apply Forall_forall. intros p Hp.
      apply elem_of_map_set in Hp as [->|Hp]; [done|].
      rewrite Forall_forall in Hf. by apply Hf.
    + by constructor.
Qed.

Lemma map_insert_sorted k v m : sorted_map m → sorted_map (map_insert k v m).
Proof.
  unfold sorted_map. induction m as [|[k' v'] m IH]; intros Hs; simpl.
  - repeat constructor.
  - pose proof (StronglySorted_inv Hs) as [Hs' Hf]. repeat case_if; [| |done].
    + constructor; [done|]. constructor; [done|].
      eapply Forall_impl; [exact Hf|]. simpl. intros p Hp. by eapply less_trans.
    + constructor; [by apply IH|]. apply Forall_forall. intros p Hp.
      apply elem_of_map_insert in Hp as [->|Hp]; [done|].
      rewrite Forall_forall in Hf. by apply Hf.
Qed.

(** A key greater than all those present goes to the end. *)
Lemma map_insert_last k v m :
  Forall (λ p, less p.1 k = true) m → map_insert k v m = m ++ [(k, v)].
Proof.
  induction 1 as [|[k' v'] m Hk Hm IH]; simpl; [done|]. simpl in Hk.
  by rewrite (less_asym _ _ Hk), Hk, IH.
Qed.

(** Inserting the bindings of a sorted map in their order. *)
Lemma map_insert_all {W} (g : W → V) (l : list (K * W)) m :
  sorted_map (m ++ ((λ p, (p.1, g p.2)) <$> l)) →
  foldl (λ m p, map_insert p.1 (g p.2) m) m l = m ++ ((λ p, (p.1, g p.2)) <$> l).
Proof.
  revert m; induction l as [|[k x] l IH]; intros m Hs; simpl; [by rewrite app_nil_r|].
  rewrite map_insert_last.
  - rewrite IH; rewrite <- app_assoc; done.
  - unfold sorted_map in Hs. apply Forall_forall. intros p Hp.
    apply (StronglySorted_app_1_elem_of _ _ _ p (k, g x) Hs Hp). by left.
Qed.

Lemma sorted_map_fmap {W} (g : V → W) m :
  sorted_map m → sorted_map ((λ p, (p.1, g p.2)) <$> m).
Proof.
  unfold sorted_map. induction 1 as [|p m Hm IH Hp]; csimpl; constructor; [done|].
  apply Forall_fmap. exact Hp.
Qed.
End std_map_lemmas.

(** ** hash_map *)

Section hash_map_lemmas.
Context `{HashOrder} (keq : bytes → bytes → bool) `{KeyEq keq}.
Implicit Types (m : list (bytes * bytes)).

#[global] Instance hash_wf_perm : Proper ((≡ₚ) ==> iff) (hash_wf keq).
Proof.
  assert (∀ m m', m ≡ₚ m' → hash_wf keq m → hash_wf keq m') as Himp.
  { unfold hash_wf. induction 1 as [|p m m' Hp IH|p q m|m1 m2 m3 H1 IH1 H2 IH2]; intros Hw.
    - constructor.
    - inversion Hw; subst. constructor; [by rewrite <- Hp|auto].
    - inversion Hw as [|? ? Hq Hw']; subst. inversion Hw'; subst. inversion Hq; subst.
      repeat constructor; try done. by rewrite keq_sym.
    - auto. }
  intros m m' Hp. split; apply Himp; by rewrite Hp.
Qed.

Lemma hm_find_elem k v m :
  hash_wf keq m → hm_find keq k m = Some v ↔ ∃ k', (k', v) ∈ m ∧ keq k' k = true.
Proof.
  induction 1 as [|[k' v'] m Hf Hw IH]; simpl.
  - split; [done|]. by intros (? & ?%not_elem_of_nil & _).
  - destruct (keq k' k) eqn:E.
    + split; [intros [= ->]; exists k'; by rewrite elem_of_cons; auto|].
      intros (k2 & [[= -> ->]|Hin]%elem_of_cons & Hk2); [done|].
      rewrite Forall_forall in Hf. specialize (Hf _ Hin). simpl in Hf.
      rewrite keq_sym in Hk2. rewrite (keq_trans _ _ _ E Hk2) in Hf. done.
    + rewrite IH. split; intros (k2 & Hin & Hk2); exists k2.
      * by rewrite elem_of_cons; auto.
      * apply elem_of_cons in Hin as [[= -> ->]|Hin]; [congruence|done].
Qed.

(** Lookups do not depend on the iteration order. *)
Lemma hm_find_perm k m m' :
  hash_wf keq m → m ≡ₚ m' → hm_find keq k m = hm_find keq k m'.
Proof.
  intros Hw Hp. apply option_eq. intros v.
  rewrite !hm_find_elem by (done || by rewrite <- Hp). by setoid_rewrite Hp.
Qed.

Lemma hm_find_none k m :
  hm_find keq k m = None ↔ Forall (λ p, keq p.1 k = false) m.
Proof.
  induction m as [|[k' v'] m IH]; simpl; [by split|]. rewrite Forall_cons. simpl.
  destruct (keq k' k); [|rewrite IH]; split; [done|by intros []|auto|by intros []].
Qed.

Lemma hm_place_wf k v m :
  hash_wf keq m → hm_find keq k m = None → hash_wf keq (hm_place m (k, v)).
Proof.
  intros Hw Hn. rewrite hm_place_perm. constructor; [|done]. simpl.
  apply hm_find_none in Hn. eapply Forall_impl; [exact Hn|]. simpl. intros p Hp.
  by rewrite keq_sym.
Qed.

Lemma hm_place_find k k2 v m :
  hash_wf keq m → hm_find keq k m = None →
  hm_find keq k2 (hm_place m (k, v)) = if keq k k2 then Some v else hm_find keq k2 m.
Proof.
  intros Hw Hn.
  rewrite (hm_find_perm k2 (hm_place m (k, v)) ((k, v) :: m));
    [done|by apply hm_place_wf|apply hm_place_perm].
Qed.

Lemma hm_insert_wf e m : hash_wf keq m → hash_wf keq (hm_insert keq e m).
Proof.
  intros Hw. unfold hm_insert. destruct e as [k v]; simpl.
  destruct (hm_find keq k m) eqn:E; [done|]. by apply hm_place_wf.
Qed.

Lemma hm_insert_new e m :
  hash_wf keq (e :: m) → hm_insert keq e m ≡ₚ e :: m.
Proof.
  intros Hw. unfold hm_insert. inversion Hw as [|? ? Hf Hw']; subst.
  replace (hm_find keq e.1 m) with (@None bytes); [apply hm_place_perm|].
  symmetry. apply hm_find_none. eapply Forall_impl; [exact Hf|]. simpl. intros p Hp.
  by rewrite keq_sym.
Qed.

Lemma hm_replace_keys k v m : fst <$> hm_replace keq k v m = fst <$> m.
Proof.
  induction m as [|[k' v'] m IH]; [done|].
  cbn [hm_replace]. destruct (keq k' k); csimpl; [done|by rewrite IH].
Qed.

Lemma hash_wf_keys m m' : fst <$> m = fst <$> m' → hash_wf keq m → hash_wf keq m'.
Proof.
  intros Hk Hw. revert m' Hk.
  induction Hw as [|[k v] m Hf Hw IH]; intros [|[k' v'] m'] Hk; try done.
  - constructor.
  - csimpl in Hk. injection Hk as <- Hk0. assert (m.*1 = m'.*1) as Hk by exact Hk0. constructor; [|by apply IH].
    apply Forall_forall. intros [k2 v2] Hin. simpl.
    assert (k2 ∈ fst <$> m) as Hk2
      by (rewrite Hk; apply list_elem_of_fmap; by exists (k2, v2)).
    apply list_elem_of_fmap in Hk2 as ([k3 v3] & -> & Hin3).
    rewrite Forall_forall in Hf. apply (Hf _ Hin3).
Qed.

Lemma hm_set_wf k v m : hash_wf keq m → hash_wf keq (hm_set keq k v m).
Proof.
  intros Hw. unfold hm_set. destruct (hm_find keq k m) eqn:E; [|by apply hm_place_wf].
  eapply hash_wf_keys; [|exact Hw]. by rewrite hm_replace_keys.
Qed.

Lemma hm_replace_find k k2 v m :
  hm_find keq k2 (hm_replace keq k v m) =
  if keq k k2 then (match hm_find keq k m with Some _ => Some v | None => None end)
  else hm_find keq k2 m.
Proof.
  induction m as [|[k' v'] m IH]; simpl; [by destruct (keq k k2)|].
  destruct (keq k' k) eqn:E1; simpl.
  - destruct (keq k k2) eqn:E2.
    + by rewrite (keq_trans _ _ _ E1 E2).
    + destruct (keq k' k2) eqn:E3; [|done].
      rewrite keq_sym in E1. by rewrite (keq_trans _ _ _ E1 E3) in E2.
  - rewrite IH. destruct (keq k k2) eqn:E2; [|done].
    destruct (keq k' k2) eqn:E3; [|done].
    rewrite keq_sym in E2. by rewrite (keq_trans _ _ _ E3 E2) in E1.
Qed.

(** Reading back after [m[k] = v]. *)
Lemma hm_set_find k k2 v m :
  hash_wf keq m →
  hm_find keq k2 (hm_set keq k v m) = if keq k k2 then Some v else hm_find keq k2 m.
Proof.
  intros Hw. unfold hm_set. destruct (hm_find keq k m) eqn:E.
  - rewrite hm_replace_find, E. done.
  - by apply hm_place_find.
Qed.

(** Inserting the bindings of a well-formed map one by one into an empty one
    gives that map, up to the iteration order. *)
Lemma hm_insert_all m m0 :
  hash_wf keq (m0 ++ m) →
  foldl (λ acc e, hm_insert keq e acc) m0 m ≡ₚ m0 ++ m ∧
  hash_wf keq (foldl (λ acc e, hm_insert keq e acc) m0 m).
Proof.
  revert m0; induction m as [|e m IH]; intros m0 Hw; simpl.
  - rewrite app_nil_r in *. done.
  - assert (hash_wf keq (e :: m0)) as He.
    { rewrite Permutation_app_comm in Hw. simpl in Hw.
      inversion Hw as [|? ? Hf Hw']; subst. constructor; [|].
      - by apply Forall_app in Hf as [_ Hf].
      - clear -Hw'. induction m as [|e' m IHm]; [done|].
        inversion Hw'; subst. by apply IHm. }
    pose proof (hm_insert_new e m0 He) as Hp.
    assert (hm_insert keq e m0 ++ m ≡ₚ m0 ++ e :: m) as Hq.
    { rewrite Hp. simpl. apply Permutation_middle. }
    rewrite <- Hq. apply IH. by rewrite Hq.
Qed.
End hash_map_lemmas.

#[export] Instance var_eq_keyeq : KeyEq var_eq.
Proof.
  unfold var_eq, string_eq. split; intros *; rewrite ?bool_decide_eq_true; try congruence.
  - apply bool_decide_ext. done.
Qed.

Lemma strncasecmp_eq_refl n s : strncasecmp_eq n s s = true.
Proof.
  revert s; induction n as [|n IH]; intros s; simpl; [done|].
  rewrite Z.eqb_refl. by destruct (uchar (front s) =? 0).
Qed.

Lemma tolower_zero c d :
  tolower_int (uchar c) = tolower_int (uchar d) → uchar c = 0 → uchar d = 0.
Proof.
  unfold tolower_int, isupper_int. pose proof (uchar_bound c). pose proof (uchar_bound d).
  repeat case_if; lia.
Qed.

Lemma strncasecmp_eq_sym n s t : strncasecmp_eq n s t = strncasecmp_eq n t s.
Proof.
  revert s t; induction n as [|n IH]; intros s t; simpl; [done|].
  rewrite (Z.eqb_sym (tolower_int (uchar (front t)))).
  case_if; [|done]. pose proof (tolower_zero (front s) (front t)).
  pose proof (tolower_zero (front t) (front s)).
  repeat case_if; auto; exfalso; auto.
Qed.

Lemma strncasecmp_eq_trans n s t u :
  strncasecmp_eq n s t = true → strncasecmp_eq n t u = true → strncasecmp_eq n s u = true.
Proof.
  revert s t u; induction n as [|n IH]; intros s t u; simpl; [done|].
  repeat case_if; try done; try lia; eauto.
  - pose proof (tolower_zero (front t) (front s)). intros. exfalso. auto.
Qed.

#[export] Instance header_eq_keyeq : KeyEq header_eq.
Proof.
  unfold header_eq, Range.StringCIEqual, Range.size. split.
  - intros s. rewrite Z.eqb_refl. apply strncasecmp_eq_refl.
  - intros s t. rewrite (Z.eqb_sym (zlen t)). case_if; [|done].
    replace (length t) with (length s) by (unfold zlen in *; lia). apply strncasecmp_eq_sym.
  - intros s t u. repeat case_if; try done; try lia.
    replace (length t) with (length s) by (unfold zlen in *; lia). apply strncasecmp_eq_trans.
Qed.
