(* ===== verification/Buffer.v ===== *)
(** * The interface [DataBufferImpl] (include/details/data_buffer_impl.h) and
    its in-memory implementation [StringBuffer] (library/string_buffer.cpp)

    A method runs on the fields of its object and on the storage the object
    points to, which other objects may share: [M (I * bytes)].  Pointers into
    the storage are offsets; the bytes a [read] copies out are its result. *)
From S2P Require Import Prelude CLib Range Util.

(** [std::vector<char>::max_size()]. *)
Definition VECTOR_MAX : Z := 2 ^ 63 - 1.

Class DataBufferImpl (I : Type) := {
  b_read : Z → Z → M (I * bytes) bytes;
  b_write : Z → bytes → M (I * bytes) Z;
  b_at : Z → M (I * bytes) byte;
  b_find : Z → Z → bytes → M (I * bytes) Z;
  b_trim : Z → Z → M (I * bytes) (Z * Z);
  b_chunk : Z → M (I * bytes) (Z * Z);
  b_segment : Z → M (I * bytes) (Z * Z);
  b_size : M (I * bytes) Z;
  b_resize : Z → M (I * bytes) unit;
  b_filename : I → bytes;
  b_getCopy : M (I * bytes) I;
}.

(** The object a method runs on and the storage, and their updates. *)
Definition self {I} : M (I * bytes) I := λ s, (Ret s.1, s).
Definition update {I} (f : I → I) : M (I * bytes) unit := λ s, (Ret (), (f s.1, s.2)).
Definition storage {I} : M (I * bytes) bytes := λ s, (Ret s.2, s).
Definition set_storage {I} (c : bytes) : M (I * bytes) unit := λ s, (Ret (), (s.1, c)).

(** [std::vector<char>::resize]. *)
Definition vector_resize (n : Z) (c : bytes) : bytes :=
  take (Z.to_nat n) c ++ replicate (Z.to_nat n - length c) Byte.x00.

(** ** StringBuffer *)

(** The only field is the shared pointer to the vector. *)
Record StringBuffer := MkStringBuffer {}.

Module StringBuffer.
Implicit Types (pos len : Z).

Definition read pos len : M (StringBuffer * bytes) bytes :=
  c ← storage;
  if (pos <? zlen c) && (pos + len <=? zlen c) then mret (slice pos (pos + len) c) else undef.

Definition write pos (data : bytes) : M (StringBuffer * bytes) Z :=
  c ← storage;
  if (pos <? zlen c) && (pos + zlen data <=? zlen c) then
    set_storage (splice pos data c);; mret (zlen data)
  else undef.

Definition at_ pos : M (StringBuffer * bytes) byte :=
  c ← storage;
  match c !! Z.to_nat pos with Some x => mret x | None => throw OutOfRange end.

Definition find (begin end_ : Z) (buf : bytes) : M (StringBuffer * bytes) Z :=
  if u64 (end_ - begin) <? zlen buf then mret end_
  else
    c ← storage;
    if (begin <=? end_) && (end_ <=? zlen c) && negb (Range.empty c) then
      mret (begin + Z.of_nat (Range.find buf (slice begin end_ c)))
    else undef.

Definition trim (begin end_ : Z) : M (StringBuffer * bytes) (Z * Z) :=
  c ← storage;
  if (begin <=? end_) && (end_ <=? zlen c) && negb (Range.empty c) then
    let base := slice begin end_ c in
    let b := begin + (zlen base - zlen (Range.skip_spaces base)) in
    mret (b, b + zlen (Range.trim base))
  else undef.

Definition chunk pos : M (StringBuffer * bytes) (Z * Z) :=
  c ← storage;
  if Range.empty c then undef else mret (pos, u64 (zlen c - pos)).

Definition size : M (StringBuffer * bytes) Z := c ← storage; mret (zlen c).

Definition segment pos : M (StringBuffer * bytes) (Z * Z) := n ← size; mret (pos, n).

Definition resize (n : Z) : M (StringBuffer * bytes) unit :=
  if VECTOR_MAX <? n then throw LengthError
  else c ← storage; set_storage (vector_resize n c).

Definition filename (_ : StringBuffer) : bytes := EMPTY_STRING.

(** The copy constructor: the new object shares the vector. *)
Definition getCopy : M (StringBuffer * bytes) StringBuffer := s ← get; mret s.1.
End StringBuffer.

#[export] Instance StringBuffer_impl : DataBufferImpl StringBuffer := {|
  b_read := StringBuffer.read;
  b_write := StringBuffer.write;
  b_at := StringBuffer.at_;
  b_find := StringBuffer.find;
  b_trim := StringBuffer.trim;
  b_chunk := StringBuffer.chunk;
  b_segment := StringBuffer.segment;
  b_size := StringBuffer.size;
  b_resize := StringBuffer.resize;
  b_filename := StringBuffer.filename;
  b_getCopy := StringBuffer.getCopy;
|}.

(** ** The contract

    [b_ok k i c]: the object is consistent with a storage holding [c], and its
    segments are those of parameter [k].  A method that only reads leaves the
    storage as it is and the object consistent. *)
Definition reads {I A} (ok : I → bytes → Prop) (m : M (I * bytes) A) (P : bytes → A → Prop) : Prop :=
  ∀ i c, ok i c → wp m (i, c) (λ r s, P c r ∧ s.2 = c ∧ ok s.1 c) noexn.

(** Where [find] must stop: the least position from [begin] on where [buf]
    occurs before [end_], or [end_]. *)
Definition find_result (begin end_ : Z) (buf c : bytes) : Z :=
  begin + Z.of_nat (Range.find buf (slice begin end_ c)).

(** Where the segment of [pos] ends: windows of [k] bytes, or the whole storage
    for an object without a window. *)
Definition segment_end (k pos : Z) : Z := k * (pos / k) + k.
Definition segment_limit (k : Z) (c : bytes) (pos : Z) : Z :=
  if k =? 0 then zlen c else segment_end k pos.

Class BufferLaws (I : Type) `{DataBufferImpl I} := {
  b_ok : Z → I → bytes → Prop;
  b_ok_bound k i c : b_ok k i c → zlen c < 2 ^ 62 ∧ 0 <= k;
  b_ok_shape k i c c' : zlen c = zlen c' → b_ok k i c → b_ok k i c';
  b_size_ok k : reads (b_ok k) b_size (λ c n, n = zlen c);
  b_at_ok pos k i c x :
    b_ok k i c → 0 <= pos → c !! Z.to_nat pos = Some x →
    wp (b_at pos) (i, c) (λ r s, r = x ∧ s.2 = c ∧ b_ok k s.1 c) noexn;
  b_read_ok pos len k i c :
    b_ok k i c → 0 <= pos → pos < zlen c → 0 <= len → pos + len <= zlen c →
    wp (b_read pos len) (i, c)
       (λ r s, r = slice pos (pos + len) c ∧ s.2 = c ∧ b_ok k s.1 c) noexn;
  b_write_ok pos data k i c :
    b_ok k i c → 0 <= pos → pos < zlen c → pos + zlen data <= zlen c →
    wp (b_write pos data) (i, c)
       (λ r s, r = zlen data ∧ s.2 = splice pos data c ∧ b_ok k s.1 (splice pos data c)) noexn;
  b_find_ok begin end_ buf k i c :
    b_ok k i c → buf ≠ [] → 0 <= begin → begin < end_ → end_ <= zlen c →
    wp (b_find begin end_ buf) (i, c)
       (λ r s, r = find_result begin end_ buf c ∧ s.2 = c ∧ b_ok k s.1 c) noexn;
  b_segment_ok pos k i c :
    b_ok k i c → 0 <= pos → pos < zlen c →
    wp (b_segment pos) (i, c)
       (λ r s, r = (pos, segment_limit k c pos) ∧ s.2 = c ∧ b_ok k s.1 c) noexn;
  b_chunk_ok pos k i c :
    b_ok k i c → 0 <= pos → pos < zlen c →
    wp (b_chunk pos) (i, c)
       (λ r s, r = (pos, Z.min (segment_limit k c pos) (zlen c) - pos) ∧
               s.2 = c ∧ b_ok k s.1 c) noexn;
  b_getCopy_ok k i c :
    b_ok k i c → wp b_getCopy (i, c) (λ i' s, b_ok k i' c ∧ s.2 = c ∧ b_ok k s.1 c) noexn;
  b_resize_ok n k i c :
    b_ok k i c → 0 < n → n < 2 ^ 62 →
    wp (b_resize n) (i, c)
       (λ _ s, s.2 = vector_resize n c ∧ b_ok k s.1 (vector_resize n c)) noexn;
}.

(** * Lemmas *)

Section object_wp.
Context {I : Type}.
Implicit Types (E : exn → I * bytes → Prop).

Lemma wp_self s (Q : I → I * bytes → Prop) E : Q s.1 s → wp self s Q E.
Proof. done. Qed.
Lemma wp_update f s (Q : unit → I * bytes → Prop) E : Q () (f s.1, s.2) → wp (update f) s Q E.
Proof. done. Qed.
Lemma wp_storage s (Q : bytes → I * bytes → Prop) E : Q s.2 s → wp storage s Q E.
Proof. done. Qed.
Lemma wp_set_storage c s (Q : unit → I * bytes → Prop) E :
  Q () (s.1, c) → wp (set_storage c) s Q E.
Proof. done. Qed.
End object_wp.

(** Symbolic execution of a method. *)
Ltac obj_step :=
  lazymatch goal with
  | |- wp self _ _ _ => apply wp_self
  | |- wp (update _) _ _ _ => apply wp_update
  | |- wp storage _ _ _ => apply wp_storage
  | |- wp (set_storage _) _ _ _ => apply wp_set_storage
  | _ => wp_step
  end; cbn [fst snd].
Ltac obj_steps := repeat obj_step.

Lemma zlen_vector_resize n c : 0 <= n → zlen (vector_resize n c) = n.
Proof.
  intros. unfold vector_resize, zlen. rewrite length_app, length_take, length_replicate. lia.
Qed.

Lemma find_result_bound begin end_ buf c :
  0 <= begin → begin <= end_ → end_ <= zlen c →
  begin <= find_result begin end_ buf c <= end_.
Proof.
  intros. unfold find_result.
  pose proof (Range.find_le buf (slice begin end_ c)) as Hf.
  pose proof (zlen_slice begin end_ c ltac:(lia) ltac:(lia) ltac:(lia)) as Hl.
  unfold zlen in *. lia.
Qed.

(** A pattern longer than the range is not in it. *)
Lemma find_too_long buf r : (length r < length buf)%nat → Range.find buf r = length r.
Proof.
  intros H. rewrite Range.find_search. destruct (std_search_spec buf r) as [_ H2].
  pose proof (std_search_le buf r). destruct (decide (std_search buf r < length r)%nat); [|lia].
  apply H2, is_prefix_spec in l as [k Hk]. apply (f_equal length) in Hk.
  rewrite length_drop, length_app in Hk. lia.
Qed.

Lemma empty_lookup (c : bytes) pos : 0 <= pos → pos < zlen c → Range.empty c = false.
Proof. intros. apply empty_false. intros ->. rewrite zlen_nil in *. lia. Qed.

(** ** StringBuffer implements the contract *)

Section string_buffer.
Implicit Types (i : StringBuffer) (c : bytes).

Definition string_ok k i c : Prop := k = 0 ∧ zlen c < 2 ^ 62.

Lemma string_find_ok begin end_ buf k i c :
  string_ok k i c → buf ≠ [] → 0 <= begin → begin < end_ → end_ <= zlen c →
  wp (StringBuffer.find begin end_ buf) (i, c)
     (λ r s, r = find_result begin end_ buf c ∧ s.2 = c ∧ string_ok k s.1 c) noexn.
Proof.
  unfold string_ok. intros [Hk Hok] Hb H1 H2 H3. unfold StringBuffer.find, find_result.
  rewrite u64_sub by zlia.
  pose proof (zlen_slice begin end_ c ltac:(lia) ltac:(lia) ltac:(lia)) as Hl.
  case_if.
  - apply wp_ret. rewrite find_too_long by (unfold zlen in *; lia).
    unfold zlen in Hl. simpl. split; [lia|done].
  - unfold wp, mbind, M_bind, storage. simpl.
    rewrite (empty_lookup c begin) by lia.
    replace ((begin <=? end_) && (end_ <=? zlen c) && negb false) with true by lia.
    done.
Qed.

#[export] Instance StringBuffer_laws : BufferLaws StringBuffer.
Proof.
  refine {| b_ok := string_ok |}; unfold string_ok.
  - intros k i c [-> H]. by split.
  - intros; lia.
  - intros k i c H. unfold wp; simpl. done.
  - intros pos k i c x H H0 Hx. unfold wp; simpl.
    unfold StringBuffer.at_, mbind, M_bind, storage; simpl. by rewrite Hx.
  - intros pos len k i c H H0 H1 H2 H3. unfold wp; simpl.
    unfold StringBuffer.read, mbind, M_bind, storage; simpl.
    replace ((pos <? zlen c) && (pos + len <=? zlen c)) with true by lia. done.
  - intros pos data k i c H H0 H1 H2. unfold wp; simpl.
    unfold StringBuffer.write, mbind, M_bind, storage; simpl.
    replace ((pos <? zlen c) && (pos + zlen data <=? zlen c)) with true by lia. simpl.
    by rewrite zlen_splice.
  - intros. by apply string_find_ok.
  - intros pos k i c [-> H] H0 H1. unfold wp; simpl. done.
  - intros pos k i c [-> H] H0 H1. unfold wp; simpl.
    unfold StringBuffer.chunk, mbind, M_bind, storage; simpl.
    rewrite (empty_lookup c pos) by done. simpl. rewrite u64_sub by zlia.
    unfold segment_limit; simpl. by rewrite Z.min_id.
  - intros k i c H. unfold wp; simpl. done.
  - intros n k i c H H0 H1. unfold wp; simpl.
    unfold StringBuffer.resize, VECTOR_MAX.
    replace (2 ^ 63 - 1 <? n) with false by lia.
    unfold mbind, M_bind, storage; simpl. rewrite zlen_vector_resize by lia. intuition.
Defined.

(** Trimming leaves the bounds of the trimmed range. *)
Lemma string_trim_ok begin end_ k i c :
  string_ok k i c → 0 <= begin → begin < end_ → end_ <= zlen c →
  wp (StringBuffer.trim begin end_) (i, c)
     (λ r s, begin <= r.1 ∧ r.1 <= r.2 ∧ r.2 <= end_ ∧
        slice r.1 r.2 c = Range.trim (slice begin end_ c) ∧ s = (i, c)) noexn.
Proof.
  intros [Hk Hok] H1 H2 H3. unfold StringBuffer.trim, wp, mbind, M_bind, storage; simpl.
  rewrite (empty_lookup c begin) by lia.
  replace ((begin <=? end_) && (end_ <=? zlen c) && negb false) with true by lia. simpl.
  set (base := slice begin end_ c).
  pose proof (zlen_slice begin end_ c ltac:(lia) ltac:(lia) ltac:(lia)) as Hl. fold base in Hl.
  destruct (Range.skip_spaces_spec base) as (p & Hp & _ & _).
  destruct (Range.chop_spaces_spec (Range.skip_spaces base)) as (q & Hq & _ & _).
  fold (Range.trim base) in Hq.
  assert (zlen base = zlen p + zlen (Range.skip_spaces base)) as Hzp
    by (rewrite Hp at 1; apply zlen_app).
  assert (zlen (Range.skip_spaces base) = zlen (Range.trim base) + zlen q) as Hzq
    by (rewrite Hq at 1; apply zlen_app).
  split_and!; [zlia..| |done].
  replace (begin + (zlen base - zlen (Range.skip_spaces base))) with (begin + zlen p) by lia.
  rewrite <- (Z.add_assoc begin). rewrite <- (slice_slice begin end_) by zlia. fold base.
  assert (base = p ++ Range.trim base ++ q) as E by (by rewrite <- Hq).
  set (t := Range.trim base) in *. rewrite E. apply slice_app_mid.
Qed.
End string_buffer.
