(* ===== verification/FileBuffer.v ===== *)
(** * Memory-mapped files: [MMapFile] (request-cache/mmap_file.cpp) and
    [FileBuffer] (request-cache/file_buffer.cpp)

    The state of an [MMapFile] is its fields, the mapping in force included,
    and the contents of the file.  A pointer into the mapping is the offset in
    the file of the byte it points to.  The mutex of [FileBuffer] is released
    by every method before it returns and no method that holds it calls one
    that takes it, so it has no effect on a sequence of calls. *)
From S2P Require Import Prelude CLib Range Util Buffer.

(** What the operating system answers.  [mmap_error len off], [ftruncate_error n]
    and [open_error name] are the error texts of the calls that fail. *)
Class Posix := {
  getpagesize : Z;
  mmap_error : Z → Z → option bytes;
  ftruncate_error : Z → option bytes;
  open_error : bytes → option bytes;
}.

(** A machine whose calls succeed: what the positive results assume. *)
Class PosixOk `{Posix} := {
  page_size_pos : 0 < getpagesize < 2 ^ 31;
  mmap_succeeds len off : 0 < len → mmap_error len off = None;
  ftruncate_succeeds n : 0 <= n → ftruncate_error n = None;
  open_succeeds name : open_error name = None;
}.

(** ** MMapFile *)

Inductive mapping :=
| Null
| MapFailed
| Mapped (offset : Z).

Record MMapFile := MkMMapFile {
  pointer_ : mapping;
  size_ : Z;
  is_read_only_ : bool;
  window_ : Z;
  segment_start_ : Z;
  segment_len_ : Z;
  page_size_ : Z;
}.

Definition set_mapping (p : mapping) (start len : Z) (f : MMapFile) : MMapFile :=
  MkMMapFile p (size_ f) (is_read_only_ f) (window_ f) start len (page_size_ f).
Definition set_size (n : Z) (f : MMapFile) : MMapFile :=
  MkMMapFile (pointer_ f) n (is_read_only_ f) (window_ f)
    (segment_start_ f) (segment_len_ f) (page_size_ f).
Definition set_window (n : Z) (f : MMapFile) : MMapFile :=
  MkMMapFile (pointer_ f) (size_ f) (is_read_only_ f) n
    (segment_start_ f) (segment_len_ f) (page_size_ f).

Definition MMapError {A} (text : bytes) : M (MMapFile * bytes) A := throw (RuntimeError text).

Module MMap.
Section mmap.
Context `{Posix}.

Definition mapped2 (begin end_ : Z) (f : MMapFile) : bool :=
  (segment_start_ f <=? begin) && (end_ <=? u64 (segment_start_ f + segment_len_ f)).
Definition mapped (index : Z) (f : MMapFile) : bool := mapped2 index (u64 (index + 1)) f.

Definition check_index (index : Z) : M (MMapFile * bytes) unit :=
  f ← self; if size_ f <=? index then throw OutOfRange else mret ().

Definition unmap : M (MMapFile * bytes) unit :=
  f ← self;
  match pointer_ f with
  | Null => mret ()
  | MapFailed => MMapError (str "Invalid argument")
  | Mapped _ => update (set_mapping Null 0 0)
  end.

Definition map_range (begin end_ : Z) : M (MMapFile * bytes) Z :=
  f ← self;
  if mapped2 begin end_ f then
    match pointer_ f with
    | Mapped off => mret (off + begin - segment_start_ f)
    | _ => undef
    end
  else
    unmap;;
    let begin_base := u64 (page_size_ f * (begin / page_size_ f)) in
    let len := u64 (end_ - begin_base) in
    match (if len =? 0 then Some (str "Invalid argument") else mmap_error len begin_base) with
    | Some text => update (λ f, set_mapping MapFailed (segment_start_ f) (segment_len_ f) f);; MMapError text
    | None =>
        update (set_mapping (Mapped begin_base) begin_base len);;
        mret (begin_base + (begin - begin_base))
    end.

Definition map_segment (segment : Z) : M (MMapFile * bytes) Z :=
  f ← self;
  let pos := u64 (segment * window_ f) in
  map_range pos (u64 (pos + window_ f)).

(** Reading through a pointer into the mapping: past the end of the file the
    access faults. *)
Definition deref (p : Z) : M (MMapFile * bytes) byte :=
  c ← storage; match c !! Z.to_nat p with Some x => mret x | None => undef end.

Definition size : M (MMapFile * bytes) Z := f ← self; mret (size_ f).
Definition empty : M (MMapFile * bytes) bool := f ← self; mret (size_ f =? 0).
Definition window : M (MMapFile * bytes) Z := f ← self; mret (window_ f).

Definition at_ (index : Z) : M (MMapFile * bytes) byte :=
  check_index index;;
  f ← self;
  if mapped index f then
    match pointer_ f with
    | Mapped off => deref (off + (index - segment_start_ f))
    | _ => undef
    end
  else
    let offset := index mod window_ f in
    let segment := index / window_ f in
    p ← map_segment segment;
    deref (p + offset).

Definition atRange (index length : Z) : M (MMapFile * bytes) Z :=
  check_index index;;
  (if 0 <? length then check_index (u64 (index + length - 1)) else mret ());;
  map_range index (u64 (index + length)).

Definition atSegment (index : Z) : M (MMapFile * bytes) (Z * Z) :=
  check_index index;;
  f ← self;
  let segment_pos := u64 ((index / window_ f) * window_ f) in
  let len := u64 (Z.min (u64 (segment_pos + window_ f)) (size_ f) - index) in
  segment ← map_range segment_pos (u64 (segment_pos + window_ f));
  mret (segment + index - segment_pos, len).

Definition resize (newsize : Z) : M (MMapFile * bytes) unit :=
  unmap;;
  match ftruncate_error newsize with
  | Some text => MMapError text
  | None =>
      c ← storage; set_storage (vector_resize newsize c);;
      update (set_size newsize);;
      map_segment 0;; mret ()
  end.

Definition checkWindow (f : MMapFile) : MMapFile :=
  if window_ f =? 0 then set_window (10 * page_size_ f) f
  else
    let window_index := window_ f / page_size_ f in
    let offset := u64 (window_ f - window_index * page_size_ f) in
    let window_index := if offset =? 0 then window_index else window_index + 1 in
    set_window (u64 (page_size_ f * window_index)) f.

(** Run on an object under construction: an exception discards it. *)
Definition build (f : MMapFile) (m : M (MMapFile * bytes) Z) : M bytes MMapFile := λ c,
  match m (f, c) with
  | (Ret _, (f', c')) => (Ret f', c')
  | (Throw e, (_, c')) => (Throw e, c')
  | (Undef, (_, c')) => (Undef, c')
  | (NoFuel, (_, c')) => (NoFuel, c')
  end.

(** [MMapFile(name, window, is_read_only)]; the state is the file's contents. *)
Definition open (name : bytes) (window : Z) (is_read_only : bool) : M bytes MMapFile :=
  match open_error name with
  | Some text => throw (RuntimeError text)
  | None =>
      c ← get;
      build (checkWindow (MkMMapFile Null (zlen c) is_read_only window 0 0 getpagesize))
            (map_segment 0)
  end.

Definition clone : M (MMapFile * bytes) MMapFile := λ s,
  let f := checkWindow (MkMMapFile Null (size_ s.1) false (window_ s.1) 0 0 (page_size_ s.1)) in
  let '(r, c) := build f (map_segment 0) s.2 in (r, (s.1, c)).
End mmap.
End MMap.

(** ** FileBuffer *)

Record FileBuffer := MkFileBuffer {
  file_ : MMapFile;
  holder_ : bytes;          (** the name in the shared [FileHolder] *)
  fb_window_ : Z;           (** [FileBuffer::window_] *)
}.

Module FileBuffer.
Section file_buffer.
Context `{Posix}.

(** A call on [file_]. *)
Definition on_file {A} (m : M (MMapFile * bytes) A) : M (FileBuffer * bytes) A :=
  zoom (λ s, (file_ s.1, s.2))
       (λ s' s, (MkFileBuffer s'.1 (holder_ s.1) (fb_window_ s.1), s'.2)) m.

(** [FileBuffer(name, window)]. *)
Definition open (name : bytes) (window : Z) : M bytes FileBuffer :=
  f ← MMap.open name window false; mret (MkFileBuffer f name (window_ f)).

Definition at_ (pos : Z) : M (FileBuffer * bytes) byte := on_file (MMap.at_ pos).
Definition size : M (FileBuffer * bytes) Z := on_file MMap.size.
Definition chunk (pos : Z) : M (FileBuffer * bytes) (Z * Z) := on_file (MMap.atSegment pos).
Definition resize (n : Z) : M (FileBuffer * bytes) unit := on_file (MMap.resize n).

Definition segment (pos : Z) : M (FileBuffer * bytes) (Z * Z) :=
  b ← self;
  let beg := u64 (fb_window_ b * (pos / fb_window_ b)) in
  mret (pos, u64 (beg + fb_window_ b)).

(** One turn of the copying loops of [read] and [write]: the chunk at [pos]
    and how much of it to use. *)
Definition next_chunk (pos left : Z) : M (FileBuffer * bytes) (Z * Z) :=
  '(p, n) ← chunk pos;
  if n =? 0 then throw (RuntimeError (str "Cannot fetch chunk"))
  else mret (p, Z.min n left).

Definition read_step (s : Z * bytes * Z) :
    M (FileBuffer * bytes) ((Z * bytes * Z) + bytes) :=
  let '(pos, data, read_len) := s in
  if 0 <? read_len then
    '(p, cur_len) ← next_chunk pos read_len;
    c ← storage;
    if p + cur_len <=? zlen c then
      mret (inl (pos + cur_len, data ++ slice p (p + cur_len) c, read_len - cur_len))
    else undef
  else mret (inr data).
Definition read (pos len : Z) : M (FileBuffer * bytes) bytes :=
  n ← size;
  if n <? u64 (pos + len) then throw (RuntimeError (str "Data is out of range"))
  else loop (S (Z.to_nat len)) read_step (pos, [], len).

Definition write_step (s : Z * bytes) : M (FileBuffer * bytes) ((Z * bytes) + unit) :=
  let '(pos, data) := s in
  if 0 <? zlen data then
    '(p, cur_len) ← next_chunk pos (zlen data);
    c ← storage;
    if p + cur_len <=? zlen c then
      set_storage (splice p (take (Z.to_nat cur_len) data) c);;
      mret (inl (pos + cur_len, drop (Z.to_nat cur_len) data))
    else undef
  else mret (inr ()).
Definition write (pos : Z) (data : bytes) : M (FileBuffer * bytes) Z :=
  n ← size;
  if n <? u64 (pos + zlen data) then throw (RuntimeError (str "Data is out of range"))
  else loop (S (length data)) write_step (pos, data);; mret (zlen data).

(** One turn of the loop of [find]: the state is [segment_pos] and [offset]. *)
Definition find_step (end_ : Z) (buf : bytes) (s : Z * Z) :
    M (FileBuffer * bytes) ((Z * Z) + Z) :=
  let '(segment_pos, offset) := s in
  b ← self;
  let pos := u64 (segment_pos + offset) in
  let length := u64 (fb_window_ b - offset + zlen buf) in
  let finish := end_ <=? u64 (pos + length) in
  let length := if finish then u64 (end_ - pos) else length in
  range ← on_file (MMap.atRange pos length);
  c ← storage;
  if range + length <=? zlen c then
    let base := slice range (range + length) c in
    let res := Z.of_nat (Range.find buf base) in
    if res =? zlen base then
      if finish then mret (inr end_)
      else mret (inl (u64 (segment_pos + fb_window_ b), 0))
    else mret (inr (res + pos))
  else undef.
Definition find (begin end_ : Z) (buf : bytes) : M (FileBuffer * bytes) Z :=
  if u64 (end_ - begin) <? zlen buf then mret end_
  else
    b ← self;
    let segment := begin / fb_window_ b in
    let segment_pos := fb_window_ b * segment in
    let offset := begin - segment_pos in
    loop (S (Z.to_nat (end_ - begin))) (find_step end_ buf) (segment_pos, offset).

(** The first loop of [trim] looks at the characters from [begin] on. *)
Definition trim_left_step (end_ : Z) (begin : Z) : M (FileBuffer * bytes) (Z + Z) :=
  if begin =? end_ then mret (inr begin)
  else x ← at_ begin; if isspace x then mret (inl (u64 (begin + 1))) else mret (inr begin).
(** [isspace(z)] for a 64-bit [z]: the conversion to [int] and the range of the
    classification table. *)
Definition isspace_u64 (z : Z) : outcome bool :=
  let i := if u32 z <? 2 ^ 31 then u32 z else u32 z - 2 ^ 32 in
  if (-128 <=? i) && (i <=? 255) then Ret (isspace_int i) else Undef.
(** The second loop tests [isspace(end - 1)], the position and not the
    character at it. *)
Definition trim_right_step (begin : Z) (end_ : Z) : outcome bool :=
  if begin =? end_ then Ret false else isspace_u64 (u64 (end_ - 1)).
Fixpoint trim_right (fuel : nat) (begin end_ : Z) : outcome Z :=
  match fuel with
  | O => NoFuel
  | S n => b ← trim_right_step begin end_;
           if (b : bool) then trim_right n begin (u64 (end_ - 1)) else Ret end_
  end.
Definition trim (begin end_ : Z) : M (FileBuffer * bytes) (Z * Z) :=
  begin ← loop (S (Z.to_nat (end_ - begin))) (trim_left_step end_) begin;
  end_ ← lift (trim_right (S (Z.to_nat (end_ - begin))) begin end_);
  mret (begin, end_).

Definition filename (b : FileBuffer) : bytes := holder_ b.

Definition getCopy : M (FileBuffer * bytes) FileBuffer :=
  b ← self; f ← on_file MMap.clone; mret (MkFileBuffer f (holder_ b) (fb_window_ b)).
End file_buffer.
End FileBuffer.

#[export] Instance FileBuffer_impl `{Posix} : DataBufferImpl FileBuffer := {|
  b_read := FileBuffer.read;
  b_write := FileBuffer.write;
  b_at := FileBuffer.at_;
  b_find := FileBuffer.find;
  b_trim := FileBuffer.trim;
  b_chunk := FileBuffer.chunk;
  b_segment := FileBuffer.segment;
  b_size := FileBuffer.size;
  b_resize := FileBuffer.resize;
  b_filename := FileBuffer.filename;
  b_getCopy := FileBuffer.getCopy;
|}.

(** ** Representation invariants *)

(** [mm_ok w f c]: the file of [f] holds [c], its window is [w], and what is
    mapped is the stretch of the file the fields record. *)
Definition mm_ok (w : Z) (f : MMapFile) (c : bytes) : Prop :=
  size_ f = zlen c ∧ zlen c < 2 ^ 62 ∧ window_ f = w ∧ 0 < w < 2 ^ 62 ∧
  0 < page_size_ f < 2 ^ 31 ∧ w mod page_size_ f = 0 ∧
  match pointer_ f with
  | Null => segment_start_ f = 0 ∧ segment_len_ f = 0
  | MapFailed => False
  | Mapped off =>
      off = segment_start_ f ∧ 0 <= segment_start_ f ∧ 0 < segment_len_ f ∧
      segment_start_ f + segment_len_ f < U64_MAX
  end.

Definition fb_ok (b : FileBuffer) (c : bytes) : Prop := mm_ok (fb_window_ b) (file_ b) c.

(** * Lemmas *)

(** [keeps w c P]: the postcondition of a method that only reads. *)
Definition keeps {A} (w : Z) (c : bytes) (P : A → Prop) : A → MMapFile * bytes → Prop :=
  λ r s, P r ∧ s.2 = c ∧ mm_ok w s.1 c.

Section mmap_lemmas.
Context `{PosixOk}.
Implicit Types (f : MMapFile) (c : bytes).

Lemma check_index_ok w f c index :
  mm_ok w f c → index < zlen c →
  wp (MMap.check_index index) (f, c) (λ _ s, s = (f, c)) noexn.
Proof.
  intros (Hs & _) Hi. unfold MMap.check_index. obj_steps.
  replace (size_ f <=? index) with false by lia. done.
Qed.

Lemma unmap_ok w f c :
  mm_ok w f c →
  wp MMap.unmap (f, c)
     (λ _ s, s.2 = c ∧ mm_ok w s.1 c ∧ pointer_ s.1 = Null ∧ page_size_ s.1 = page_size_ f) noexn.
Proof.
  intros Hok. unfold MMap.unmap. obj_steps.
  pose proof Hok as (? & ? & ? & ? & ? & ? & Hp).
  destruct (pointer_ f) eqn:E; [by obj_steps|done|].
  obj_steps. unfold mm_ok, set_mapping; simpl. tauto.
Qed.

(** Whatever is mapped, [map_range] returns a pointer to the byte at [begin],
    with the whole range mapped. *)
Lemma map_range_ok w f c begin end_ :
  mm_ok w f c → 0 <= begin → begin < end_ → end_ < 2 ^ 63 →
  wp (MMap.map_range begin end_) (f, c) (keeps w c (λ r, r = begin)) noexn.
Proof.
  intros Hok H1 H2 H3. unfold MMap.map_range, keeps. obj_steps.
  pose proof Hok as (Hs & Hc & Hw & Hw2 & Hpg & Hm & Hp).
  destruct (MMap.mapped2 begin end_ f) eqn:Em.
  - unfold MMap.mapped2 in Em. zbool. destruct (pointer_ f).
    + destruct Hp as [Hp1 Hp2]. rewrite Hp1, Hp2 in *. change (u64 (0 + 0)) with 0 in *. lia.
    + done.
    + obj_steps. split; [lia|done].
  - obj_steps. eapply wp_mono; [by apply unmap_ok| |done].
    intros _ [f' c'] (Hc' & Hok' & Hn & Hpg'). simpl in *. subst c'.
    set (base := page_size_ f * (begin / page_size_ f)).
    assert (0 <= base <= begin) as Hb.
    { unfold base. pose proof (Z.mul_div_le begin (page_size_ f) ltac:(lia)).
      split; [|done]. apply Z.mul_nonneg_nonneg; [lia|apply Z.div_pos; lia]. }
    clearbody base. clear Hm. unfold U64_MAX in *.
    rewrite (u64_small base), (u64_small (end_ - base)) by (unfold U64_MAX; lia).
    replace (end_ - base =? 0) with false by lia.
    rewrite mmap_succeeds by lia. obj_steps.
    destruct Hok' as (Hs' & _ & Hw' & _ & Hpg2 & Hm' & _).
    unfold mm_ok, set_mapping; simpl.
    split; [lia|]. split; [done|]. split_and!; try done; zlia.
Qed.

Lemma deref_ok w f c p x :
  mm_ok w f c → c !! Z.to_nat p = Some x →
  wp (MMap.deref p) (f, c) (keeps w c (λ r, r = x)) noexn.
Proof. intros Hok Hx. unfold MMap.deref. obj_steps. rewrite Hx. by obj_steps. Qed.

Lemma map_segment_ok w f c n :
  mm_ok w f c → 0 <= n → n * w < 2 ^ 62 →
  wp (MMap.map_segment n) (f, c) (keeps w c (λ r, r = n * w)) noexn.
Proof.
  intros Hok Hn Hnw. unfold MMap.map_segment. obj_steps.
  pose proof Hok as (_ & _ & -> & Hw2 & _).
  assert (0 <= n * w) by (apply Z.mul_nonneg_nonneg; lia).
  rewrite !u64_small by (unfold U64_MAX; rewrite ?u64_small; unfold U64_MAX; lia).
  apply map_range_ok; [done|lia..].
Qed.

Lemma mm_at_ok w f c index x :
  mm_ok w f c → 0 <= index → c !! Z.to_nat index = Some x →
  wp (MMap.at_ index) (f, c) (keeps w c (λ r, r = x)) noexn.
Proof.
  intros Hok H1 Hx. unfold MMap.at_. obj_steps.
  pose proof (lookup_lt_Some _ _ _ Hx) as Hlt.
  assert (index < zlen c) as Hi by (unfold zlen; lia).
  eapply wp_mono; [by eapply check_index_ok| |done].
  intros _ s ->. obj_steps. pose proof Hok as (_ & Hc & Hw & Hw2 & _ & _ & Hp).
  destruct (MMap.mapped index f) eqn:Em.
  - unfold MMap.mapped, MMap.mapped2 in Em. zbool. destruct (pointer_ f).
    + destruct Hp as [Hp1 Hp2]. rewrite Hp1, Hp2 in *. change (u64 (0 + 0)) with 0 in *.
      rewrite u64_small in * by (unfold U64_MAX; lia). lia.
    + done.
    + destruct Hp as [-> _]. eapply deref_ok; [done|].
      by replace (segment_start_ f + (index - segment_start_ f)) with index by lia.
  - rewrite Hw. obj_steps.
    pose proof (Z.mul_div_le index w ltac:(lia)).
    pose proof (Z.div_mod index w ltac:(lia)).
    eapply wp_mono; [apply map_segment_ok; [done|apply Z.div_pos; lia|lia]| |done].
    intros p [f' c'] (-> & Hc' & Hok'). simpl in *. subst c'.
    eapply deref_ok; [done|]. by replace (index / w * w + index mod w) with index by lia.
Qed.

Lemma atRange_ok w f c index len :
  mm_ok w f c → 0 <= index → 0 < len → index + len <= zlen c →
  wp (MMap.atRange index len) (f, c) (keeps w c (λ r, r = index)) noexn.
Proof.
  intros Hok H1 H2 H3. unfold MMap.atRange. pose proof Hok as (_ & Hc & _).
  obj_steps. eapply wp_mono; [eapply check_index_ok; [done|lia]| |done].
  intros _ s ->. obj_steps. replace (0 <? len) with true by lia.
  rewrite !u64_small by (unfold U64_MAX; lia).
  eapply wp_mono; [eapply check_index_ok; [done|lia]| |done].
  intros _ s ->. apply map_range_ok; [done|lia..].
Qed.

Lemma segment_end_spec w index :
  0 < w → 0 <= index →
  0 <= w * (index / w) <= index ∧ index < segment_end w index <= index + w.
Proof.
  intros Hw Hi. unfold segment_end.
  pose proof (Z.mul_div_le index w Hw). pose proof (Z.mul_succ_div_gt index w Hw).
  split; [split; [|done]|lia]. apply Z.mul_nonneg_nonneg; [lia|by apply Z.div_pos].
Qed.

Lemma atSegment_ok w f c index :
  mm_ok w f c → 0 <= index → index < zlen c →
  wp (MMap.atSegment index) (f, c)
     (keeps w c (λ r, r = (index, Z.min (segment_end w index) (zlen c) - index))) noexn.
Proof.
  intros Hok H1 H2. unfold MMap.atSegment. pose proof Hok as (Hs & Hc & Hw & Hw2 & _).
  obj_steps. eapply wp_mono; [by eapply check_index_ok| |done].
  intros _ s ->. obj_steps. rewrite Hw, Hs, (Z.mul_comm (index / w)).
  pose proof (segment_end_spec w index ltac:(lia) H1) as [Hb He]. unfold segment_end in *.
  assert (∀ x, 0 <= x < 2 ^ 63 → u64 x = x) as Hu
    by (intros; apply u64_small; unfold U64_MAX; lia).
  rewrite !(Hu (w * (index / w))), !(Hu (w * (index / w) + w)) by lia.
  eapply wp_mono; [apply map_range_ok; [done|lia..]| |done].
  intros p [f' c'] (-> & Hc' & Hok'). simpl in *. subst c'. obj_steps.
  unfold keeps; simpl. rewrite Hu by lia. split; [f_equal; lia|done].
Qed.
End mmap_lemmas.

Section file_buffer_lemmas.
Context `{PosixOk}.
Implicit Types (b : FileBuffer) (c : bytes).

(** [fkeeps w c P]: [keeps] for a [FileBuffer] of window [w]. *)
Definition fkeeps {A} (w : Z) (c : bytes) (P : A → Prop) : A → FileBuffer * bytes → Prop :=
  λ r s, P r ∧ s.2 = c ∧ fb_ok s.1 c ∧ fb_window_ s.1 = w.

Lemma on_file_ok {A} (m : M (MMapFile * bytes) A) b c (P : A → Prop) :
  wp m (file_ b, c) (keeps (fb_window_ b) c P) noexn →
  wp (FileBuffer.on_file m) (b, c) (fkeeps (fb_window_ b) c P) noexn.
Proof.
  intros Hm. unfold FileBuffer.on_file. apply wp_zoom. simpl.
  eapply wp_mono; [exact Hm| |done]. intros r [f' c'] (HP & Hc & Hok). simpl in *. subst.
  split_and!; done.
Qed.

Lemma chunk_ok b c pos :
  fb_ok b c → 0 <= pos → pos < zlen c →
  wp (FileBuffer.chunk pos) (b, c)
     (fkeeps (fb_window_ b) c
        (λ r, r = (pos, Z.min (segment_end (fb_window_ b) pos) (zlen c) - pos))) noexn.
Proof. intros. apply on_file_ok, atSegment_ok; done. Qed.

(** The next chunk is not empty and stays inside the file. *)
Lemma next_chunk_ok b c pos rest :
  fb_ok b c → 0 <= pos → pos < zlen c → 0 < rest →
  wp (FileBuffer.next_chunk pos rest) (b, c)
     (fkeeps (fb_window_ b) c
        (λ r, r.1 = pos ∧ 0 < r.2 ∧ r.2 <= rest ∧ pos + r.2 <= zlen c)) noexn.
Proof.
  intros Hok H1 H2 H3. unfold FileBuffer.next_chunk. obj_steps.
  eapply wp_mono; [by apply chunk_ok| |done].
  intros [p n] [b' c'] ([= -> ->] & Hc & Hok' & Hw). simpl in *. subst c'.
  pose proof Hok as (_ & _ & _ & Hw2 & _).
  pose proof (segment_end_spec (fb_window_ b) pos ltac:(lia) H1) as [_ He].
  replace (_ =? 0) with false by lia. obj_steps.
  unfold fkeeps. simpl. split_and!; done || lia.
Qed.

Lemma size_ok b c :
  fb_ok b c → wp FileBuffer.size (b, c) (fkeeps (fb_window_ b) c (λ r, r = zlen c)) noexn.
Proof.
  intros Hok. apply on_file_ok. unfold MMap.size. obj_steps.
  pose proof Hok as [Hs _]. split; [done|]. split; done.
Qed.

Definition read_inv (w pos len : Z) (c : bytes) (a : Z * bytes * Z) (s : FileBuffer * bytes) : Prop :=
  let '(pos', data, rest) := a in
  pos' = pos + zlen data ∧ rest = len - zlen data ∧ 0 <= rest ∧
  data = slice pos pos' c ∧ s.2 = c ∧ fb_ok s.1 c ∧ fb_window_ s.1 = w.

Lemma file_read_ok pos len b c :
  fb_ok b c → 0 <= pos → pos < zlen c → 0 <= len → pos + len <= zlen c →
  wp (FileBuffer.read pos len) (b, c)
     (fkeeps (fb_window_ b) c (λ r, r = slice pos (pos + len) c)) noexn.
Proof.
  intros Hok H1 H2 H3 H4. unfold FileBuffer.read. obj_steps.
  pose proof Hok as (_ & Hc & _).
  eapply wp_mono; [by apply size_ok| |done].
  intros n [b1 c1] (-> & Hc1 & Hok1 & Hw1). simpl in *. subst c1.
  rewrite u64_add by zlia. replace (zlen c <? pos + len) with false by lia. cbn beta iota.
  rewrite <- Hw1. apply (wp_loop (read_inv (fb_window_ b1) pos len c) (λ a, Z.to_nat a.2)).
  - intros [[pos' data] rest] [b2 c2] (-> & -> & Hl & Hd & Hc2 & Hok2 & Hw2). simpl in *. subst c2.
    apply wp_if; intros Hif; zbool.
    + obj_steps. eapply wp_mono; [apply next_chunk_ok; [done|zlia..]| |done].
      intros [p n] [b3 c3] ((Hp & Hn1 & Hn2 & Hn3) & Hc3 & Hok3 & Hw3). simpl in *. subst p c3.
      obj_steps. replace (_ <=? zlen c) with true by lia. obj_steps.
      pose proof (zlen_slice (pos + zlen data) (pos + zlen data + n) c
        ltac:(zlia) ltac:(lia) ltac:(lia)) as Hs.
      split; [|lia]. unfold read_inv. rewrite zlen_app, Hs.
      split_and!; simpl; try (lia || done || congruence).
      rewrite Hd at 1. rewrite slice_join by zlia. f_equal; lia.
    + obj_steps. unfold fkeeps. split_and!; try done. rewrite Hd. f_equal. lia.
  - unfold read_inv. change (zlen []) with 0. rewrite Z.add_0_r, slice_empty.
    split_and!; done || lia.
  - simpl. lia.
Qed.

Definition write_inv (w pos : Z) (all c : bytes) (a : Z * bytes) (s : FileBuffer * bytes) : Prop :=
  ∃ done, all = done ++ a.2 ∧ a.1 = pos + zlen done ∧
    s.2 = splice pos done c ∧ fb_ok s.1 s.2 ∧ fb_window_ s.1 = w.

(** Consistency depends on the contents of the file only by their length. *)
Lemma fb_ok_shape b c c' : zlen c = zlen c' → fb_ok b c → fb_ok b c'.
Proof. unfold fb_ok, mm_ok. by intros ->. Qed.

Lemma file_write_ok pos data b c :
  fb_ok b c → 0 <= pos → pos < zlen c → pos + zlen data <= zlen c →
  wp (FileBuffer.write pos data) (b, c)
     (λ r s, r = zlen data ∧ s.2 = splice pos data c ∧ fb_ok s.1 (splice pos data c) ∧
             fb_window_ s.1 = fb_window_ b) noexn.
Proof.
  intros Hok H1 H2 H3. unfold FileBuffer.write. obj_steps.
  pose proof Hok as (_ & Hc & _).
  eapply wp_mono; [by apply size_ok| |done].
  intros n [b1 c1] (-> & Hc1 & Hok1 & Hw1). simpl in *. subst c1.
  rewrite u64_add by zlia. replace (zlen c <? pos + zlen data) with false by lia.
  obj_steps. rewrite <- Hw1.
  apply (wp_loop (write_inv (fb_window_ b1) pos data c) (λ a, length a.2)).
  - intros [pos' d'] [b2 c2] (dn & Hd & Hp & Hc2 & Hok2 & Hw2). simpl in *. subst c2 pos'.
    assert (zlen data = zlen dn + zlen d') as Hz by (by rewrite Hd, zlen_app).
    assert (zlen (splice pos dn c) = zlen c) as Hl by (rewrite zlen_splice; zlia).
    apply wp_if; intros Hif; zbool.
    + obj_steps. eapply wp_mono; [apply next_chunk_ok; [done|zlia..]| |done].
      intros [p n] [b3 c3] ((Hp & Hn1 & Hn2 & Hn3) & Hc3 & Hok3 & Hw3). simpl in *. subst p c3.
      obj_steps. replace (_ <=? zlen (splice pos dn c)) with true by lia. obj_steps.
      set (d1 := take (Z.to_nat n) d') in *.
      assert (zlen d1 = n) as Hd1 by (unfold d1; clear -Hn1 Hn2; unfold zlen in *; rewrite length_take; lia).
      split; [|simpl; unfold zlen in *; rewrite length_drop; lia].
      exists (dn ++ d1). simpl. rewrite splice_splice by zlia.
      assert (d1 ++ drop (Z.to_nat n) d' = d') as Hcut by apply take_drop.
      split_and!; [by rewrite Hd, <- app_assoc, Hcut| |done| |congruence].
      { rewrite zlen_app. lia. }
      eapply fb_ok_shape; [|exact Hok3]. rewrite Hl, zlen_splice; zlia.
    + obj_steps. assert (d' = []) as -> by (apply zlen_zero; pose proof (zlen_nonneg d'); lia).
      rewrite app_nil_r in Hd. subst dn. simpl. by rewrite Hw2.
  - exists []. simpl. rewrite zlen_nil. unfold splice. simpl. rewrite Nat.add_0_r, take_drop.
    split_and!; done || lia.
  - simpl. lia.
Qed.

(** Every place the loop of [find] has passed is free of the pattern. *)
Definition find_inv (w begin end_ : Z) (buf c : bytes) (a : Z * Z) (s : FileBuffer * bytes) : Prop :=
  let '(segment_pos, offset) := a in
  0 <= segment_pos ∧ 0 <= offset < w ∧ begin <= segment_pos + offset < end_ ∧
  (∀ i, (i < Z.to_nat (segment_pos + offset - begin))%nat → ¬ occurs_at buf (slice begin end_ c) i) ∧
  s.2 = c ∧ fb_ok s.1 c ∧ fb_window_ s.1 = w.

(** What the search of the stretch [p, q) of the file says of the whole range. *)
Lemma window_found begin end_ p q buf c :
  buf ≠ [] → 0 <= begin → begin <= p → p < q → q <= end_ → end_ <= zlen c →
  (∀ i, (i < Z.to_nat (p - begin))%nat → ¬ occurs_at buf (slice begin end_ c) i) →
  (Range.find buf (slice p q c) < length (slice p q c))%nat →
  p + Z.of_nat (Range.find buf (slice p q c)) = find_result begin end_ buf c.
Proof.
  intros Hb H1 H2 H3 H4 H5 Hfree. unfold find_result. rewrite !Range.find_search.
  pose proof (zlen_slice begin end_ c ltac:(lia) ltac:(lia) ltac:(lia)) as Hl.
  pose proof (zlen_slice p q c ltac:(lia) ltac:(lia) ltac:(lia)) as Hlw.
  assert (slice p q c = take (Z.to_nat (q - p)) (drop (Z.to_nat (p - begin)) (slice begin end_ c))) as Hw.
  { apply slice_window; lia. }
  destruct (std_search_spec buf (slice p q c)) as [Hn Ho].
  set (r := std_search buf (slice p q c)) in *. intros Hlt. specialize (Ho Hlt).
  assert (length buf ≠ O) by (by destruct buf).
  rewrite Hw, occurs_at_take, occurs_at_drop in Ho by (unfold zlen in *; lia).
  destruct Ho as [Ho Hfit].
  rewrite (std_search_first buf (slice begin end_ c) (Z.to_nat (p - begin) + r)).
  - lia.
  - unfold zlen in *. lia.
  - done.
  - intros j Hj. destruct (decide (j < Z.to_nat (p - begin))%nat); [by apply Hfree|].
    intros Hoj. apply (Hn (j - Z.to_nat (p - begin))%nat); [lia|].
    rewrite Hw, occurs_at_take, occurs_at_drop by (unfold zlen in *; lia).
    split; [|lia]. by replace (Z.to_nat (p - begin) + (j - Z.to_nat (p - begin)))%nat with j by lia.
Qed.

(** ... and when it fails: no occurrence fits in it. *)
Lemma window_missed begin end_ p q buf c :
  buf ≠ [] → 0 <= begin → begin <= p → p < q → q <= end_ → end_ <= zlen c →
  (∀ i, (i < Z.to_nat (p - begin))%nat → ¬ occurs_at buf (slice begin end_ c) i) →
  Range.find buf (slice p q c) = length (slice p q c) →
  ∀ i, (i + length buf ≤ Z.to_nat (q - begin))%nat → ¬ occurs_at buf (slice begin end_ c) i.
Proof.
  intros Hb H1 H2 H3 H4 H5 Hfree Hf i Hi Ho. rewrite Range.find_search in Hf.
  rewrite std_search_none in Hf by done.
  destruct (decide (i < Z.to_nat (p - begin))%nat); [by eapply Hfree|].
  pose proof (zlen_slice begin end_ c ltac:(lia) ltac:(lia) ltac:(lia)) as Hl.
  apply (Hf (i - Z.to_nat (p - begin))%nat).
  rewrite (slice_window begin end_) by lia.
  assert (length buf ≠ O) by (by destruct buf).
  rewrite occurs_at_take, occurs_at_drop by lia. split; [|lia].
  by replace (Z.to_nat (p - begin) + (i - Z.to_nat (p - begin)))%nat with i by lia.
Qed.

Lemma find_step_ok begin end_ buf w c a s :
  buf ≠ [] → 0 <= begin → begin < end_ → end_ <= zlen c → zlen buf <= end_ - begin →
  find_inv w begin end_ buf c a s →
  wp (FileBuffer.find_step end_ buf a) s
     (λ r s', match r with
       | inl a' => find_inv w begin end_ buf c a' s' ∧
                   (Z.to_nat (end_ - (a'.1 + a'.2)) < Z.to_nat (end_ - (a.1 + a.2)))%nat
       | inr x => fkeeps w c (λ r, r = find_result begin end_ buf c) x s'
       end) noexn.
Proof.
  intros Hb H1 H2 H3 H4. destruct a as [sp off], s as [b c0].
  intros (I1 & I2 & I3 & I4 & I5 & I6 & I7). cbn [fst snd] in *. subst c0.
  unfold FileBuffer.find_step. obj_steps. rewrite I7.
  pose proof I6 as (_ & Hc & _ & Hw2 & _). rewrite I7 in Hw2.
  rewrite (u64_small (sp + off)), (u64_small (w - off + zlen buf)) by zlia.
  rewrite (u64_small (sp + off + _)) by zlia.
  set (finish := end_ <=? sp + off + (w - off + zlen buf)).
  set (len := if finish then u64 (end_ - (sp + off)) else w - off + zlen buf).
  assert (0 < len ∧ sp + off + len <= end_ ∧
          (finish = true → sp + off + len = end_) ∧
          (finish = false → len = w - off + zlen buf)) as (L1 & L2 & L3 & L4).
  { unfold len, finish. case_if; [rewrite u64_sub by zlia|]; split_and!; zlia || done. }
  clearbody len. rewrite <- I7. eapply wp_mono.
  { apply on_file_ok, atRange_ok; [done|lia..]. }
  2: done.
  intros p [b1 c1] (-> & Hc1 & Hok1 & Hw1). cbn [fst snd] in *. subst c1.
  obj_steps. replace (sp + off + len <=? zlen c) with true by lia. cbn beta iota.
  set (base := slice (sp + off) (sp + off + len) c).
  apply wp_if; intros Hfound.
  - assert (Range.find buf base = length base) as Hf by (unfold zlen in Hfound; lia).
    pose proof (window_missed begin end_ (sp + off) (sp + off + len) buf c Hb
      ltac:(lia) ltac:(lia) ltac:(lia) ltac:(lia) ltac:(lia) I4 Hf) as Hmiss.
    apply wp_if; intros Hfin.
    + obj_steps. unfold fkeeps. split_and!; try (done || congruence).
      unfold find_result. rewrite Range.find_search.
      rewrite (proj2 (std_search_none buf (slice begin end_ c) Hb)).
      * pose proof (zlen_slice begin end_ c ltac:(lia) ltac:(lia) ltac:(lia)). unfold zlen in *. lia.
      * intros i Ho. apply (Hmiss i); [|done].
        pose proof (occurs_at_bound _ _ _ Hb Ho).
        pose proof (zlen_slice begin end_ c ltac:(lia) ltac:(lia) ltac:(lia)).
        rewrite L3 by done. unfold zlen in *. lia.
    + obj_steps. rewrite I7. rewrite (u64_small (sp + w)) by zlia.
      assert (sp + w < end_) by (unfold finish in Hfin; zlia).
      split; [|cbn [fst snd]; lia].
      unfold find_inv. cbn [fst snd].
      split_and!; try (done || lia || congruence).
      intros i Hi. apply Hmiss. rewrite L4 by done. unfold zlen in *. lia.
  - obj_steps. unfold fkeeps. cbn [fst snd]. split_and!; try (done || congruence).
    assert (Range.find buf base ≠ length base) by (unfold zlen in Hfound; lia).
    pose proof (Range.find_le buf base).
    rewrite Z.add_comm. apply window_found; try (done || lia). fold base. lia.
Qed.

Lemma file_find_ok begin end_ buf b c :
  fb_ok b c → buf ≠ [] → 0 <= begin → begin < end_ → end_ <= zlen c →
  wp (FileBuffer.find begin end_ buf) (b, c)
     (fkeeps (fb_window_ b) c (λ r, r = find_result begin end_ buf c)) noexn.
Proof.
  intros Hok Hb H1 H2 H3. unfold FileBuffer.find. pose proof Hok as (_ & Hc & _ & Hw & _).
  rewrite u64_sub by zlia.
  pose proof (zlen_slice begin end_ c ltac:(lia) ltac:(lia) ltac:(lia)) as Hl.
  apply wp_if; intros Hif; zbool.
  - obj_steps. split; [|done]. unfold find_result.
    rewrite find_too_long by (unfold zlen in *; lia). unfold zlen in *. lia.
  - obj_steps. set (w := fb_window_ b) in *.
    pose proof (segment_end_spec w begin ltac:(lia) H1) as [Hs He]. unfold segment_end in He.
    apply (wp_loop (find_inv w begin end_ buf c) (λ a, Z.to_nat (end_ - (a.1 + a.2)))).
    + intros. by apply find_step_ok.
    + unfold find_inv. cbn [fst snd]. split_and!; try (done || lia).
    + cbn [fst snd]. lia.
Qed.

Lemma segment_limit_file k c pos : 0 < k < 2 ^ 62 → segment_limit k c pos = segment_end k pos.
Proof. intros. unfold segment_limit. by replace (k =? 0) with false by lia. Qed.

Lemma file_segment_ok pos b c :
  fb_ok b c → 0 <= pos → pos < zlen c →
  wp (FileBuffer.segment pos) (b, c)
     (λ r s, r = (pos, segment_end (fb_window_ b) pos) ∧ s = (b, c)) noexn.
Proof.
  intros Hok H1 H2. unfold FileBuffer.segment. obj_steps. pose proof Hok as (_ & Hc & _ & Hw & _).
  pose proof (segment_end_spec (fb_window_ b) pos ltac:(lia) H1) as [Hs He].
  unfold segment_end in *. rewrite !u64_small by (rewrite ?u64_small; zlia). done.
Qed.

(** A window that is a multiple of the page size is left alone. *)
Lemma checkWindow_id f :
  0 < page_size_ f → 0 < window_ f < U64_MAX → window_ f mod page_size_ f = 0 →
  MMap.checkWindow f = set_window (window_ f) f.
Proof.
  intros Hp Hw Hm. unfold MMap.checkWindow.
  replace (window_ f =? 0) with false by lia.
  pose proof (Z.div_mod (window_ f) (page_size_ f) ltac:(lia)) as Hd. rewrite Hm in Hd.
  replace (window_ f - window_ f / page_size_ f * page_size_ f) with 0 by lia.
  change (u64 0 =? 0) with true. cbn beta iota. f_equal.
  replace (page_size_ f * (window_ f / page_size_ f)) with (window_ f) by lia.
  by apply u64_small; unfold U64_MAX in *; lia.
Qed.

Lemma file_getCopy_ok b c :
  fb_ok b c →
  wp FileBuffer.getCopy (b, c)
     (λ b' s, s = (b, c) ∧ fb_ok b' c ∧ fb_window_ b' = fb_window_ b) noexn.
Proof.
  intros Hok. unfold FileBuffer.getCopy. obj_steps.
  pose proof Hok as (Hs & Hc & Hw & Hw2 & Hp & Hm & _).
  unfold FileBuffer.on_file. apply wp_zoom. cbn [fst snd].
  unfold MMap.clone, wp. cbn [fst snd].
  set (f0 := MkMMapFile Null (size_ (file_ b)) false (window_ (file_ b)) 0 0 (page_size_ (file_ b))).
  rewrite (checkWindow_id f0) by (simpl; unfold U64_MAX; rewrite ?Hw; lia || done).
  assert (mm_ok (fb_window_ b) (set_window (window_ f0) f0) c) as Hok0.
  { unfold mm_ok; simpl. split_and!; done || lia. }
  pose proof (map_segment_ok (fb_window_ b) _ c 0 Hok0 ltac:(lia) ltac:(lia)) as Hmap.
  unfold wp in Hmap. unfold MMap.build.
  destruct (MMap.map_segment 0 _) as [[r|e| |] [f' c']]; try done.
  destruct Hmap as (_ & Hc' & Hok'). cbn [fst snd] in *. subst c'.
  unfold mbind, M_bind, mret, M_ret. cbn [fst snd file_ holder_ fb_window_].
  split; [by destruct b|]. done.
Qed.

Lemma file_resize_ok n b c :
  fb_ok b c → 0 < n → n < 2 ^ 62 →
  wp (FileBuffer.resize n) (b, c)
     (λ _ s, s.2 = vector_resize n c ∧ fb_ok s.1 (vector_resize n c) ∧
             fb_window_ s.1 = fb_window_ b) noexn.
Proof.
  intros Hok H1 H2. unfold FileBuffer.resize, FileBuffer.on_file. apply wp_zoom.
  unfold MMap.resize. obj_steps.
  eapply wp_mono; [by apply unmap_ok| |done].
  intros _ [f' c'] (Hc' & Hok' & Hn & Hpg'). cbn [fst snd] in *. subst c'.
  rewrite ftruncate_succeeds by lia. obj_steps.
  assert (mm_ok (fb_window_ b) (set_size n f') (vector_resize n c)) as Hok2.
  { destruct Hok' as (Hs & Hc & Hw & Hw2 & Hp & Hm & Hptr). unfold mm_ok; simpl.
    rewrite zlen_vector_resize by lia. split_and!; done || lia. }
  eapply wp_mono; [apply (map_segment_ok (fb_window_ b) _ _ 0); [done|lia..]| |done].
  intros p [f2 c2] (-> & Hc2 & Hok3). cbn [fst snd] in *. subst c2. obj_steps.
  split_and!; done.
Qed.

(** [FileBuffer] honours the contract of [DataBufferImpl]; its windows are the
    segments. *)
Definition file_ok (k : Z) (b : FileBuffer) (c : bytes) : Prop := fb_ok b c ∧ fb_window_ b = k.

#[export] Instance FileBuffer_laws : BufferLaws FileBuffer.
Proof.
  refine {| b_ok := file_ok |}; unfold file_ok.
  - intros k b c [(_ & ? & _ & ? & _) <-]. lia.
  - intros k b c c' Hz [Hok Hw]. split; [by eapply fb_ok_shape|done].
  - intros k b c [Hok <-]. eapply wp_mono; [by apply size_ok| |done]. by intros ? ? (? & ? & ? & ?).
  - intros pos k b c x [Hok <-] Hp Hx.
    eapply wp_mono; [apply on_file_ok; by eapply mm_at_ok| |done]. by intros ? ? (? & ? & ? & ?).
  - intros pos len k b c [Hok <-] H1 H2 H3 H4.
    eapply wp_mono; [by apply file_read_ok| |done]. by intros ? ? (? & ? & ? & ?).
  - intros pos data k b c [Hok <-] H1 H2 H3.
    eapply wp_mono; [by apply file_write_ok| |done]. by intros ? ? (? & ? & ? & ?).
  - intros begin end_ buf k b c [Hok <-] Hb H1 H2 H3.
    eapply wp_mono; [by apply file_find_ok| |done]. by intros ? ? (? & ? & ? & ?).
  - intros pos k b c [Hok <-] H1 H2. rewrite segment_limit_file by apply Hok.
    eapply wp_mono; [by apply file_segment_ok| |done]. by intros ? ? (-> & ->).
  - intros pos k b c [Hok <-] H1 H2. rewrite segment_limit_file by apply Hok.
    eapply wp_mono; [by apply chunk_ok| |done]. by intros ? ? (? & ? & ? & ?).
  - intros k b c [Hok <-]. eapply wp_mono; [by apply file_getCopy_ok| |done].
    by intros ? ? (-> & ? & ?).
  - intros n k b c [Hok <-] H1 H2. eapply wp_mono; [by apply file_resize_ok| |done].
    by intros ? ? (? & ? & ?).
Defined.
End file_buffer_lemmas.

(** ** Opening a file *)

Section open_lemmas.
Context `{PosixOk}.

(** [checkWindow] rounds the window up to whole pages; no window means ten. *)
Lemma checkWindow_spec f :
  0 < page_size_ f < 2 ^ 31 → 0 <= window_ f < 2 ^ 61 →
  let w := window_ (MMap.checkWindow f) in
  0 < w < 2 ^ 62 ∧ w mod page_size_ f = 0 ∧
  (window_ f = 0 → w = 10 * page_size_ f) ∧
  (window_ f ≠ 0 → window_ f <= w < window_ f + page_size_ f).
Proof.
  intros Hp Hw. unfold MMap.checkWindow. case_if; cbn [window_ set_window].
  { split_and!; [lia|lia| |done|done]. apply Z_mod_mult. }
  set (p := page_size_ f) in *. set (x := window_ f) in *.
  pose proof (Z.div_mod x p ltac:(lia)) as Hd. pose proof (Z.mod_pos_bound x p ltac:(lia)) as Hm.
  assert (0 <= x / p) by (apply Z.div_pos; lia).
  rewrite (u64_small (x - x / p * p)) by (unfold U64_MAX; lia).
  set (q := if x - x / p * p =? 0 then x / p else x / p + 1).
  assert (x <= p * q < x + p) as Hq by (subst q; case_if; lia).
  rewrite u64_small by (unfold U64_MAX; lia). split_and!; try lia.
  rewrite Z.mul_comm. apply Z_mod_mult.
Qed.

Lemma checkWindow_fields f :
  MMap.checkWindow f = set_window (window_ (MMap.checkWindow f)) f.
Proof. unfold MMap.checkWindow. by case_if. Qed.

(** A freshly opened buffer is consistent with the contents of the file. *)
Lemma file_open_ok name window c :
  0 <= window < 2 ^ 61 → zlen c < 2 ^ 62 →
  wp (FileBuffer.open name window) c
     (λ b c', c' = c ∧ fb_ok b c ∧ holder_ b = name ∧
        fb_window_ b mod getpagesize = 0 ∧
        (window ≠ 0 → window <= fb_window_ b < window + getpagesize)) noexn.
Proof.
  intros Hw Hc. pose proof page_size_pos as Hp. unfold FileBuffer.open, MMap.open.
  rewrite open_succeeds. do 3 wp_step.
  set (f0 := MkMMapFile Null (zlen c) false window 0 0 getpagesize).
  destruct (checkWindow_spec f0) as (H1 & H2 & H3 & H4); [done..|].
  rewrite checkWindow_fields. set (w := window_ (MMap.checkWindow f0)) in *.
  assert (mm_ok w (set_window w f0) c) as Hok0 by (unfold mm_ok; simpl; split_and!; done || lia).
  pose proof (map_segment_ok w _ c 0 Hok0 ltac:(lia) ltac:(lia)) as Hmap.
  unfold wp in *. unfold MMap.build.
  destruct (MMap.map_segment 0 _) as [[r|e| |] [f' c']]; try done.
  destruct Hmap as (_ & Hc' & Hok'). simpl in Hc', Hok'. subst c'. simpl.
  pose proof Hok' as (_ & _ & Hw' & _). unfold fb_ok; simpl. rewrite Hw'. done.
Qed.
End open_lemmas.

(** The position [find_result] gives, in terms of occurrences in the storage. *)
Lemma find_result_first begin end_ buf c :
  buf ≠ [] → 0 <= begin → begin <= end_ → end_ <= zlen c →
  let r := find_result begin end_ buf c in
  begin <= r <= end_ ∧
  (∀ i, begin <= i < r → i + zlen buf <= end_ → ¬ occurs_at buf c (Z.to_nat i)) ∧
  (r < end_ → r + zlen buf <= end_ ∧ occurs_at buf c (Z.to_nat r)).
Proof.
  intros Hb H1 H2 H3. simpl. pose proof (find_result_bound begin end_ buf c H1 H2 H3) as Hr.
  pose proof (zlen_slice begin end_ c H1 H2 H3) as Hl. unfold find_result in *.
  rewrite Range.find_search in *. set (k := slice begin end_ c) in *.
  destruct (std_search_spec buf k) as [Hno Hyes].
  assert (∀ j, (j ≤ length k)%nat → occurs_at buf k j ↔
    occurs_at buf c (Z.to_nat begin + j) ∧ (j + length buf ≤ Z.to_nat (end_ - begin))%nat) as Ho.
  { intros j Hj. unfold k, slice. rewrite occurs_at_take, occurs_at_drop; [done|].
    unfold zlen in Hl. lia. }
  unfold zlen in *. split_and!; [lia..| |].
  - intros i Hi Hbuf Hocc. apply (Hno (Z.to_nat (i - begin)) ltac:(lia)), Ho; [lia|].
    replace (Z.to_nat begin + Z.to_nat (i - begin))%nat with (Z.to_nat i) by lia.
    split; [done|lia].
  - intros Hlt. specialize (Hyes ltac:(lia)). apply Ho in Hyes as [Hocc Hle]; [|lia].
    replace (Z.to_nat (begin + Z.of_nat (std_search buf k)))
      with (Z.to_nat begin + std_search buf k)%nat by lia.
    split; [lia|done].
Qed.

(** * Examples *)

(** A machine with pages of 8 bytes whose calls succeed. *)
Definition small_machine : Posix := {|
  getpagesize := 8;
  mmap_error _ _ := None;
  ftruncate_error _ := None;
  open_error _ := None;
|}.

Lemma small_machine_ok : @PosixOk small_machine.
Proof. split; [simpl; lia|done..]. Qed.

(** * Properties *)

(** C5: Whatever the window, [find] on an opened file gives the first position in
    the range where the pattern occurs, windows crossed included, or the end. *)
Theorem file_find_first `{PosixOk} name window c begin end_ buf :
  0 <= window < 2 ^ 61 → zlen c < 2 ^ 62 →
  buf ≠ [] → 0 <= begin < end_ → end_ <= zlen c →
  ∃ b r s, FileBuffer.open name window c = (Ret b, c) ∧
    FileBuffer.find begin end_ buf (b, c) = (Ret r, s) ∧ s.2 = c ∧ begin <= r <= end_ ∧
    (∀ i, begin <= i < r → i + zlen buf <= end_ → ¬ occurs_at buf c (Z.to_nat i)) ∧
    (r < end_ → r + zlen buf <= end_ ∧ occurs_at buf c (Z.to_nat r)).
Proof.
  intros Hw Hc Hb [H1 H2] H3.
  destruct (proj1 (wp_returns _ _ _) (file_open_ok name window c Hw Hc))
    as (b & c' & Eo & -> & Hok & _).
  destruct (proj1 (wp_returns _ _ _) (file_find_ok begin end_ buf b c Hok Hb H1 H2 H3))
    as (r & s & Ef & -> & Hs & _).
  exists b, (find_result begin end_ buf c), s. split_and!; try done;
    apply find_result_first; (done || lia).
Qed.

Lemma file_find_first_witness :
  0 <= 16 < 2 ^ 61 ∧ ∃ b r s,
    @FileBuffer.open small_machine (str "cache") 16 (str "0123456789abcdefghijkl") =
      (Ret b, str "0123456789abcdefghijkl") ∧
    @FileBuffer.find small_machine 2 22 (str "fgh") (b, str "0123456789abcdefghijkl") = (Ret r, s) ∧
    2 <= r <= 22.
Proof.
  split; [lia|].
  destruct (@file_find_first small_machine small_machine_ok (str "cache") 16
              (str "0123456789abcdefghijkl") 2 22 (str "fgh")
              ltac:(lia) ltac:(vm_compute; reflexivity) ltac:(discriminate) ltac:(lia)
              ltac:(vm_compute; discriminate))
    as (b & r & s & H1 & H2 & H3 & H4 & _).
  exists b, r, s. split; [exact H1|split; [exact H2|exact H4]].
Defined.

(** What is written into an opened file is read back, and the rest of the file
    keeps its bytes. *)
Theorem file_write_read `{PosixOk} name window c pos data :
  0 <= window < 2 ^ 61 → zlen c < 2 ^ 62 → 0 <= pos < zlen c → pos + zlen data <= zlen c →
  ∃ b s s', FileBuffer.open name window c = (Ret b, c) ∧
    FileBuffer.write pos data (b, c) = (Ret (zlen data), s) ∧
    s.2 = take (Z.to_nat pos) c ++ data ++ drop (Z.to_nat pos + length data) c ∧
    FileBuffer.read pos (zlen data) s = (Ret data, s').
Proof.
  intros Hw Hc [H1 H2] H3.
  destruct (proj1 (wp_returns _ _ _) (file_open_ok name window c Hw Hc))
    as (b & c' & Eo & -> & Hok & _).
  destruct (proj1 (wp_returns _ _ _) (file_write_ok pos data b c Hok H1 H2 H3))
    as (r & [b2 c2] & Ew & -> & Hs & Hok2 & _). simpl in Hs, Hok2. subst c2.
  pose proof (zlen_splice pos data c H1 H3) as Hz.
  destruct (proj1 (wp_returns _ _ _) (file_read_ok pos (zlen data) b2 (splice pos data c)
    Hok2 H1 ltac:(lia) ltac:(zlia) ltac:(lia))) as (r & s' & Er & -> & _).
  exists b, (b2, splice pos data c), s'. split_and!; try done.
  rewrite Er. repeat f_equal.
  assert (zlen (take (Z.to_nat pos) c) = pos) as Ht by (unfold zlen in *; rewrite length_take; lia).
  unfold splice. set (t := take (Z.to_nat pos) c) in *. rewrite <- Ht. apply slice_app_mid.
Qed.

Lemma file_write_read_witness : ∃ b s s',
    @FileBuffer.open small_machine (str "cache") 8 (str "0123456789abcdefghij") =
      (Ret b, str "0123456789abcdefghij") ∧
    @FileBuffer.write small_machine 6 (str "#########") (b, str "0123456789abcdefghij") = (Ret 9, s) ∧
    s.2 = str "012345#########fghij" ∧
    @FileBuffer.read small_machine 6 9 s = (Ret (str "#########"), s').
Proof.
  exact (@file_write_read small_machine small_machine_ok (str "cache") 8
    (str "0123456789abcdefghij") 6 (str "#########") ltac:(lia)
    ltac:(vm_compute; reflexivity) ltac:(split; vm_compute; (reflexivity || discriminate))
    ltac:(vm_compute; discriminate)).
Defined.

(** [FileBuffer::trim] tests the index of the last character, not the
    character: on eleven letters it gives the range [0, 9). *)
Theorem file_trim_cuts_letters :
  match @FileBuffer.open small_machine (str "cache") 16 (str "abcdefghijk") with
  | (Ret b, c) => fst (@FileBuffer.trim small_machine 0 11 (b, c))
  | _ => Undef
  end = Ret (0, 9).
Proof. vm_compute. reflexivity. Qed.
