(* ===== verification/DataBuffer.v ===== *)
(** * [DataBuffer] and its [SegmentIterator]
    (library/data_buffer.cpp, include/fastcgi2/data_buffer.h)

    The objects behind the shared pointers live in a [world]; several
    [DataBuffer]s, and the copies iterators make, may point to one object or
    to objects with one storage. *)
From S2P Require Import Prelude CLib Range Util Buffer FileBuffer.

Abbreviation loc := positive.

(** The two classes that implement [DataBufferImpl]. *)
Inductive impl :=
| IString (b : StringBuffer)
| IFile (b : FileBuffer).

Record object := MkObject { o_impl : impl; o_data : loc }.

(** Objects, and storages: vectors and files. *)
Record world := MkWorld { objs : gmap loc object; stores : gmap loc bytes }.

(** ** Virtual calls *)

Section dispatch.
Context `{Posix}.

Definition as_string (s : impl * bytes) : StringBuffer * bytes :=
  (match s.1 with IString b => b | IFile _ => MkStringBuffer end, s.2).
Definition on_string {A} (m : M (StringBuffer * bytes) A) : M (impl * bytes) A :=
  zoom as_string (λ s' _, (IString s'.1, s'.2)) m.
Definition on_filebuffer {A} (b : FileBuffer) (m : M (FileBuffer * bytes) A) : M (impl * bytes) A :=
  zoom (λ s, (b, s.2)) (λ s' _, (IFile s'.1, s'.2)) m.
Definition dispatch {A} (m : M (StringBuffer * bytes) A) (k : M (FileBuffer * bytes) A) :
    M (impl * bytes) A :=
  i ← self; match i with IString _ => on_string m | IFile b => on_filebuffer b k end.
End dispatch.

#[export] Instance impl_impl `{Posix} : DataBufferImpl impl := {|
  b_read pos len := dispatch (b_read pos len) (b_read pos len);
  b_write pos data := dispatch (b_write pos data) (b_write pos data);
  b_at pos := dispatch (b_at pos) (b_at pos);
  b_find begin end_ buf := dispatch (b_find begin end_ buf) (b_find begin end_ buf);
  b_trim begin end_ := dispatch (b_trim begin end_) (b_trim begin end_);
  b_chunk pos := dispatch (b_chunk pos) (b_chunk pos);
  b_segment pos := dispatch (b_segment pos) (b_segment pos);
  b_size := dispatch b_size b_size;
  b_resize n := dispatch (b_resize n) (b_resize n);
  b_filename i := match i with IString b => b_filename b | IFile b => b_filename b end;
  b_getCopy := dispatch (b ← b_getCopy; mret (IString b)) (b ← b_getCopy; mret (IFile b));
|}.

(** A call on the object at [l]. *)
Definition call {A} (l : loc) (m : M (impl * bytes) A) : M world A := λ w,
  match objs w !! l with
  | None => (Undef, w)
  | Some o =>
      match stores w !! o_data o with
      | None => (Undef, w)
      | Some c =>
          let '(r, (i', c')) := m (o_impl o, c) in
          (r, MkWorld (<[l := MkObject i' (o_data o)]> (objs w)) (<[o_data o := c']> (stores w)))
      end
  end.

(** [new]: an object on a storage that exists. *)
Definition new_object (i : impl) (data : loc) : M world loc := λ w,
  let l := fresh (dom (objs w)) in
  (Ret l, MkWorld (<[l := MkObject i data]> (objs w)) (stores w)).
Definition new_storage (c : bytes) : M world loc := λ w,
  let d := fresh (dom (stores w)) in
  (Ret d, MkWorld (objs w) (<[d := c]> (stores w))).

(** ** DataBuffer *)

Record DataBuffer := MkDataBuffer { data_ : option loc; begin_ : Z; end_ : Z }.
#[export] Instance DataBuffer_eq_dec : EqDecision DataBuffer.
Proof. solve_decision. Defined.

(** [DataBuffer::DataBuffer()]. *)
Definition nil_buffer : DataBuffer := MkDataBuffer None 0 0.

Section data_buffer.
Context `{Posix}.
Implicit Types (b : DataBuffer) (w : world).

(** [data_->m]: dereferencing a null pointer is undefined. *)
Definition deref b : M world loc :=
  match data_ b with Some l => mret l | None => undef end.
Definition vcall {A} b (m : M (impl * bytes) A) : M world A := l ← deref b; call l m.

(** [DataBuffer(buffer, begin, end)]. *)
Definition sub_buffer b (begin end_ : Z) : M world DataBuffer :=
  n ← vcall b b_size;
  if n <? end_ then throw OutOfRange else mret (MkDataBuffer (data_ b) begin end_).

(** [create(impl)] and [create(data, size)]. *)
Definition create_impl (l : loc) : M world DataBuffer :=
  n ← call l b_size; mret (MkDataBuffer (Some l) 0 n).
Definition create (data : bytes) : M world DataBuffer :=
  d ← new_storage data; l ← new_object (IString MkStringBuffer) d; create_impl l.

(** [DataBuffer::create(new FileBuffer(name, window))] on a file holding
    [contents]. *)
Definition create_file (name : bytes) (window : Z) (contents : bytes) : M world DataBuffer :=
  d ← new_storage contents;
  f ← lift (FileBuffer.open name window contents).1;
  l ← new_object (IFile f) d; create_impl l.

Definition beginIndex b : Z := begin_ b.
Definition endIndex b : Z := end_ b.
Definition isNil b : bool := match data_ b with None => true | Some _ => false end.
Definition empty b : bool := isNil b || (begin_ b =? end_ b).
Definition size b : Z := u64 (end_ b - begin_ b).

Definition checkIndex (index : Z) b : M world unit :=
  if (index =? 0) && (begin_ b =? 0) && (end_ b =? 0) then mret ()
  else if (index <? begin_ b) || (end_ b <=? index) then throw OutOfRange else mret ().

Definition read (pos len : Z) b : M world bytes :=
  if size b <=? pos then mret []
  else vcall b (b_read (u64 (pos + begin_ b)) (Z.min (u64 (end_ b - begin_ b - pos)) len)).
Definition write (pos : Z) (data : bytes) b : M world Z :=
  if size b <=? pos then mret 0
  else vcall b (b_write (u64 (pos + begin_ b))
    (take (Z.to_nat (Z.min (u64 (end_ b - begin_ b - pos)) (zlen data))) data)).

Definition resize (n : Z) b : M world DataBuffer :=
  vcall b (b_resize (u64 (begin_ b + n)));;
  mret (MkDataBuffer (data_ b) (begin_ b) (u64 (begin_ b + n))).

Definition at_ (pos : Z) b : M world byte :=
  checkIndex (u64 (begin_ b + pos)) b;; vcall b (b_at (u64 (begin_ b + pos))).

Definition find (pos : Z) (buf : bytes) b : M world Z :=
  checkIndex pos b;;
  r ← vcall b (b_find pos (end_ b) buf);
  mret (u64 (r - begin_ b)).

Definition trim b : M world DataBuffer :=
  if empty b then mret b
  else
    '(first, second) ← vcall b (b_trim (begin_ b) (end_ b));
    mret (MkDataBuffer (data_ b) first second).

Definition trimn (n e : Z) b : DataBuffer :=
  if empty b then b
  else
    let begin := u64 (begin_ b + n) in
    if end_ b <=? begin then MkDataBuffer (data_ b) (end_ b) (end_ b)
    else MkDataBuffer (data_ b) begin (Z.max (u64 (end_ b - e)) begin).

(** [split(delim, first, second)]: the result and the two buffers. *)
Definition split (delim : bytes) b : M world (bool * DataBuffer * DataBuffer) :=
  let first := b in
  let second := MkDataBuffer (data_ b) 0 0 in
  if empty b then mret (false, first, second)
  else
    res ← find (begin_ b) delim b;
    if res =? size b then mret (false, first, second)
    else
      let first_end := u64 (begin_ b + res) in
      mret (true, MkDataBuffer (data_ b) (begin_ b) first_end,
            MkDataBuffer (data_ b) (u64 (first_end + zlen delim)) (end_ b)).
Definition split_char (delim : byte) b : M world (bool * DataBuffer * DataBuffer) :=
  let first := b in
  let second := MkDataBuffer (data_ b) 0 0 in
  if empty b then mret (false, first, second)
  else
    res ← find (begin_ b) [delim] b;
    if res =? size b then mret (false, first, second)
    else
      let first_end := u64 (begin_ b + res) in
      mret (true, MkDataBuffer (data_ b) (begin_ b) first_end,
            MkDataBuffer (data_ b) (u64 (first_end + 1)) (end_ b)).

(** The comparing loops: [match_from eq data i b] is the loop over the
    characters [data] of the argument, compared with those of the buffer from
    [i] on; [match_back] runs from the ends backwards. *)
Fixpoint match_from (eq : byte → byte → bool) (data : bytes) (i : Z) b : M world bool :=
  match data with
  | [] => mret true
  | c :: data => d ← at_ i b; if eq c d then match_from eq data (i + 1) b else mret false
  end.
Fixpoint match_back (eq : byte → byte → bool) (rdata : bytes) (sz i : Z) b : M world bool :=
  match rdata with
  | [] => mret true
  | c :: rdata => d ← at_ (u64 (sz - i)) b; if eq c d then match_back eq rdata sz (i + 1) b else mret false
  end.
Definition same_char (c d : byte) : bool := bool_decide (c = d).
Definition same_char_ci (c d : byte) : bool := tolower c =? tolower d.

Definition startsWith (data : bytes) b : M world bool :=
  if size b <? zlen data then mret false else match_from same_char data 0 b.
Definition startsWithCI (data : bytes) b : M world bool :=
  if size b <? zlen data then mret false else match_from same_char_ci data 0 b.
Definition endsWith (data : bytes) b : M world bool :=
  if size b <? zlen data then mret false else match_back same_char (reverse data) (size b) 1 b.
Definition endsWithCI (data : bytes) b : M world bool :=
  if size b <? zlen data then mret false else match_back same_char_ci (reverse data) (size b) 1 b.

(** ** SegmentIterator *)

Record SegmentIterator := MkIterator { buffer_ : DataBuffer; pos_begin_ : Z; pos_end_ : Z }.

(** [SegmentIterator()], the end iterator. *)
Definition end_iterator : SegmentIterator := MkIterator nil_buffer 0 0.

(** [SegmentIterator(buffer)]: the iterator works on a copy of the object. *)
Definition begin_iterator b : M world SegmentIterator :=
  if empty b then mret end_iterator
  else
    l ← deref b;
    i ← call l b_getCopy;
    o ← get;
    l' ← (match objs o !! l with Some ob => new_object i (o_data ob) | None => undef end);
    let buffer := MkDataBuffer (Some l') (begin_ b) (end_ b) in
    segment ← vcall buffer (b_segment (begin_ b));
    mret (MkIterator buffer (begin_ b) (Z.min segment.2 (end_ b))).

Definition iterator_eq (x y : SegmentIterator) : bool :=
  bool_decide (data_ (buffer_ x) = data_ (buffer_ y)) &&
  (pos_begin_ x =? pos_begin_ y) && (pos_end_ x =? pos_end_ y).

(** [*it]: a pointer (an offset in the storage of the iterator's object) and a
    length. *)
Definition iterator_deref (x : SegmentIterator) : M world (Z * Z) :=
  if iterator_eq x end_iterator then mret (0, 0)
  else
    res ← vcall (buffer_ x) (b_chunk (pos_begin_ x));
    mret (res.1, Z.min res.2 (u64 (end_ (buffer_ x) - pos_begin_ x))).

Definition iterator_next (x : SegmentIterator) : M world SegmentIterator :=
  if iterator_eq x end_iterator then mret x
  else if end_ (buffer_ x) <=? pos_end_ x then mret end_iterator
  else
    segment ← vcall (buffer_ x) (b_segment (pos_end_ x));
    mret (MkIterator (buffer_ x) (pos_end_ x) (Z.min segment.2 (end_ (buffer_ x)))).

(** The postfix increment: its result, and the iterator after it. *)
Definition iterator_next_post (x : SegmentIterator) : M world (SegmentIterator * SegmentIterator) :=
  iter ← iterator_next x; mret (iter, x).

(** [for (SegmentIterator it = b.begin(), end; it != end; ++it) body]: the body
    gets the iterator and threads an accumulator. *)
Definition segment_step {S A} (wget : S → world) (wset : world → S → S)
    (body : A → SegmentIterator → M S A) (s : SegmentIterator * A) :
    M S ((SegmentIterator * A) + A) :=
  if iterator_eq s.1 end_iterator then mret (inr s.2)
  else
    a ← body s.2 s.1;
    it ← zoom wget wset (iterator_next s.1);
    mret (inl (it, a)).
Definition for_segments {S A} (wget : S → world) (wset : world → S → S)
    b (body : A → SegmentIterator → M S A) (a : A) : M S A :=
  it ← zoom wget wset (begin_iterator b);
  loop (2 + Z.to_nat (size b)) (segment_step wget wset body) (it, a).

(** The bytes a pointer into the storage of [b]'s object points to. *)
Definition peek b (p n : Z) : M world bytes :=
  vcall b (c ← storage; if p + n <=? zlen c then mret (slice p (p + n) c) else undef).

(** The bytes [*it] points to. *)
Definition segment_bytes (it : SegmentIterator) : M world bytes :=
  d ← iterator_deref it; peek (buffer_ it) d.1 d.2.

Definition toString b : M world bytes :=
  for_segments id (λ w _, w) b (λ str it, d ← segment_bytes it; mret (str ++ d)) [].
End data_buffer.

(** ** What a buffer shows *)

Section views.
Context `{PosixOk}.
Implicit Types (w : world) (b : DataBuffer) (c s : bytes).

Definition impl_ok (k : Z) (i : impl) c : Prop :=
  match i with IString b => b_ok k b c | IFile b => b_ok k b c end.

(** The object at [l] is consistent, its segments are those of parameter [k],
    its storage is [d] and holds [c]. *)
Definition holds w l d k c : Prop :=
  ∃ i, objs w !! l = Some (MkObject i d) ∧ stores w !! d = Some c ∧ impl_ok k i c.

(** [w'] follows [w] by reading only; by changing contents in place only; by
    changing the contents of storage [d] in place, to [c']; by changing
    storage [d] at most. *)
Definition wle w w' : Prop := ∀ l d k c, holds w l d k c → holds w' l d k c.
Definition wshape w w' : Prop :=
  ∀ l d k c, holds w l d k c → ∃ c', zlen c' = zlen c ∧ holds w' l d k c'.
Definition others d w w' : Prop :=
  ∀ l d2 k c, d2 ≠ d → holds w l d2 k c → holds w' l d2 k c.
Definition updates d c' w w' : Prop :=
  others d w w' ∧ ∀ l k c, holds w l d k c → zlen c' = zlen c ∧ holds w' l d k c'.

(** Buffer [b] is consistent and shows the bytes [s]. *)
Definition views w b s : Prop :=
  match data_ b with
  | None => begin_ b = 0 ∧ end_ b = 0 ∧ s = []
  | Some l => ∃ d k c, holds w l d k c ∧ 0 <= begin_ b ∧ begin_ b <= end_ b ∧
                       end_ b <= zlen c ∧ s = slice (begin_ b) (end_ b) c
  end.

(** The object behind [b] has its bytes in storage [d]. *)
Definition stored w b d : Prop := ∃ l k c, data_ b = Some l ∧ holds w l d k c.

(** The storage behind [b] ends where [b] ends. *)
Definition filled w b : Prop := ∀ l d k c, data_ b = Some l → holds w l d k c → zlen c = end_ b.

(** Iterator [it] points to the bytes [seg] of storage [d]. *)
Definition shows w (it : SegmentIterator) d k c (seg : bytes) : Prop :=
  ∃ l, data_ (buffer_ it) = Some l ∧ holds w l d k c ∧ 0 <= pos_begin_ it ∧
    pos_begin_ it < end_ (buffer_ it) ∧ end_ (buffer_ it) <= zlen c ∧
    pos_end_ it = Z.min (segment_limit k c (pos_begin_ it)) (end_ (buffer_ it)) ∧
    seg = slice (pos_begin_ it) (pos_end_ it) c.
(** Iterator [it] over [v] has passed [pre]. *)
Definition iter_at w d k c v (pre : bytes) (it : SegmentIterator) : Prop :=
  (it = end_iterator ∧ pre = v) ∨
  (∃ seg rest, shows w it d k c seg ∧ seg ≠ [] ∧ v = pre ++ seg ++ rest ∧
     (k = 0 → pre = [] ∧ rest = []) ∧ rest = slice (pos_end_ it) (end_ (buffer_ it)) c).

(** The object behind [b] is in memory, not a file. *)
Definition in_memory w b : Prop :=
  ∀ l, data_ b = Some l → ∃ d c, holds w l d 0 c.
End views.

(** * Lemmas *)

Section impl_laws.
Context `{PosixOk}.

Lemma dispatch_string {A} (m : M (StringBuffer * bytes) A) k (b : StringBuffer) (c : bytes)
    (Q : A → impl * bytes → Prop) :
  wp m (b, c) (λ r s, Q r (IString s.1, s.2)) noexn →
  wp (dispatch m k) (IString b, c) Q noexn.
Proof.
  intros Hm. unfold dispatch. obj_steps. unfold on_string. apply wp_zoom. simpl.
  eapply wp_mono; [exact Hm|done|done].
Qed.

Lemma dispatch_file {A} (m : M (StringBuffer * bytes) A) k (b : FileBuffer) (c : bytes)
    (Q : A → impl * bytes → Prop) :
  wp k (b, c) (λ r s, Q r (IFile s.1, s.2)) noexn →
  wp (dispatch m k) (IFile b, c) Q noexn.
Proof.
  intros Hm. unfold dispatch. obj_steps. unfold on_filebuffer. apply wp_zoom. simpl.
  eapply wp_mono; [exact Hm|done|done].
Qed.

(** The dynamic dispatch keeps the contract. *)
#[export] Instance impl_laws : BufferLaws impl.
Proof.
  refine {| b_ok := impl_ok |}.
  - intros k [b|b] c Hok; exact (b_ok_bound k b c Hok).
  - intros k [b|b] c c' Hz Hok; exact (b_ok_shape k b c c' Hz Hok).
  - intros k [b|b] c Hok; [apply dispatch_string|apply dispatch_file]; by apply b_size_ok.
  - intros pos k [b|b] c x Hok ? ?; [apply dispatch_string|apply dispatch_file]; by apply b_at_ok.
  - intros pos len k [b|b] c Hok ? ? ? ?;
      [apply dispatch_string|apply dispatch_file]; by apply b_read_ok.
  - intros pos data k [b|b] c Hok ? ? ?;
      [apply dispatch_string|apply dispatch_file]; by apply b_write_ok.
  - intros begin end_ buf k [b|b] c Hok ? ? ? ?;
      [apply dispatch_string|apply dispatch_file]; by apply b_find_ok.
  - intros pos k [b|b] c Hok ? ?;
      [apply dispatch_string|apply dispatch_file]; by apply b_segment_ok.
  - intros pos k [b|b] c Hok ? ?;
      [apply dispatch_string|apply dispatch_file]; by apply b_chunk_ok.
  - intros k [b|b] c Hok; [apply dispatch_string|apply dispatch_file]; obj_steps;
      (eapply wp_mono; [by apply b_getCopy_ok| |done]); intros i' s (? & ? & ?); by obj_steps.
  - intros n k [b|b] c Hok ? ?; [apply dispatch_string|apply dispatch_file]; by apply b_resize_ok.
Defined.

(** An object has one segment parameter. *)
Lemma impl_ok_fun k k' i c c' : impl_ok k i c → impl_ok k' i c' → k = k'.
Proof. destruct i as [b|b]; [intros [-> _] [-> _]; done|intros [_ <-] [_ <-]; done]. Qed.

(** Trimming a buffer in memory. *)
Lemma impl_trim_ok begin end_ k b c :
  impl_ok k (IString b) c → 0 <= begin → begin < end_ → end_ <= zlen c →
  wp (b_trim begin end_) (IString b, c)
     (λ r s, (begin <= r.1 ∧ r.1 <= r.2 ∧ r.2 <= end_ ∧
        slice r.1 r.2 c = Range.trim (slice begin end_ c)) ∧ s = (IString b, c)) noexn.
Proof.
  intros. apply dispatch_string. eapply wp_mono; [by apply (string_trim_ok begin end_ k b c)| |done].
  intros r s (? & ? & ? & ? & ->). done.
Qed.
End impl_laws.

Section world_lemmas.
Context `{PosixOk}.
Implicit Types (w : world) (b : DataBuffer) (c : bytes).

#[export] Instance wle_preorder : PreOrder wle.
Proof. split; [intros w ? ? ? ?; done|intros w1 w2 w3 H1 H2 l d k c Hh; auto]. Qed.

#[export] Instance wshape_preorder : PreOrder wshape.
Proof.
  split.
  - intros w l d k c Hh. by exists c.
  - intros w1 w2 w3 H1 H2 l d k c (c2 & Hl2 & Hh2)%H1.
    apply H2 in Hh2 as (c3 & Hl3 & Hh3). exists c3. split; [congruence|done].
Qed.

#[export] Instance others_preorder d : PreOrder (others d).
Proof. split; [intros w ? ? ? ? ? ?; done|intros w1 w2 w3 H1 H2 l d2 k c Hd Hh; auto]. Qed.

Lemma wle_wshape w w' : wle w w' → wshape w w'.
Proof. intros Hw l d k c Hh. exists c. auto. Qed.

Lemma wle_others d w w' : wle w w' → others d w w'.
Proof. intros Hw l d2 k c _. apply Hw. Qed.

Lemma updates_wshape d c' w w' : updates d c' w w' → wshape w w'.
Proof.
  intros [Ho Hu] l d2 k c Hh. destruct (decide (d2 = d)) as [->|Hd].
  - exists c'. by apply Hu in Hh.
  - exists c. auto.
Qed.

Lemma holds_fun w l d k c d2 k2 c2 : holds w l d k c → holds w l d2 k2 c2 → d = d2 ∧ c = c2.
Proof. intros (i & ? & ? & _) (i2 & ? & ? & _). by simplify_eq. Qed.

Lemma holds_bound w l d k c : holds w l d k c → zlen c < 2 ^ 62.
Proof. intros (i & _ & _ & Hok). apply (proj1 (@b_ok_bound impl _ impl_laws k i c Hok)). Qed.

(** A buffer that ends with its storage still does when lengths are kept. *)
Lemma filled_shape w w' b d : wshape w w' → stored w b d → filled w b → filled w' b.
Proof.
  intros Hs (l & k & c & Hl & Hh) Hf l2 d2 k2 c2 Hl2 Hh2. rewrite Hl in Hl2. injection Hl2 as <-.
  destruct (Hs _ _ _ _ Hh) as (c' & Hz & Hh'). destruct (holds_fun _ _ _ _ _ _ _ _ Hh2 Hh') as [_ ->].
  rewrite Hz. by eapply Hf.
Qed.

(** The storage of a buffer that shows all of it. *)
Lemma filled_contents w b d v :
  views w b v → stored w b d → filled w b → begin_ b = 0 → stores w !! d = Some v.
Proof.
  intros Hv (l & k & c & Hl & Hh) Hf Hb. unfold views in Hv. rewrite Hl in Hv.
  destruct Hv as (d2 & k2 & c2 & Hh2 & _ & _ & _ & ->).
  destruct (holds_fun _ _ _ _ _ _ _ _ Hh2 Hh) as [-> ->]. rewrite Hb, <- (Hf _ _ _ _ Hl Hh), slice_full.
  by destruct Hh as (i & _ & ? & _).
Qed.

(** ** Calls *)

Lemma call_reads {A} (m : M (impl * bytes) A) w l d k c (P : A → Prop) :
  holds w l d k c →
  (∀ i, impl_ok k i c → wp m (i, c) (λ r s, P r ∧ s.2 = c ∧ impl_ok k s.1 c) noexn) →
  wp (call l m) w (λ r w', P r ∧ wle w w') noexn.
Proof.
  intros (i & Hl & Hd & Hok) Hm. specialize (Hm i Hok).
  unfold call, wp in *. rewrite Hl. simpl. rewrite Hd.
  destruct (m (i, c)) as [[r|e| |] [i' c']]; try done. simpl in *.
  destruct Hm as (HP & -> & Hok'). split; [done|].
  intros l2 d2 k2 c2 (i2 & Hl2 & Hd2 & Hok2). unfold holds; simpl.
  rewrite (insert_id (stores w)) by done.
  destruct (decide (l = l2)) as [<-|Hne].
  - simplify_eq. rewrite (impl_ok_fun _ _ _ _ _ Hok2 Hok).
    exists i'. by rewrite lookup_insert_eq.
  - exists i2. by rewrite lookup_insert_ne.
Qed.

Lemma call_stores {A} (m : M (impl * bytes) A) w l d k c c' (P : A → Prop) :
  holds w l d k c →
  (∀ i, impl_ok k i c → wp m (i, c) (λ r s, P r ∧ s.2 = c' ∧ impl_ok k s.1 c') noexn) →
  wp (call l m) w
     (λ r w', P r ∧ holds w' l d k c' ∧ others d w w' ∧
              (zlen c' = zlen c → updates d c' w w')) noexn.
Proof.
  intros (i & Hl & Hd & Hok) Hm. specialize (Hm i Hok).
  unfold call, wp in *. rewrite Hl. simpl. rewrite Hd.
  destruct (m (i, c)) as [[r|e| |] [i' c1]]; try done. simpl in *.
  destruct Hm as (HP & -> & Hok').
  set (w' := MkWorld _ _).
  assert (others d w w') as Ho.
  { intros l2 d2 k2 c2 Hne (i2 & Hl2 & Hd2 & Hok2). unfold holds, w'; simpl.
    destruct (decide (l = l2)) as [<-|Hnl]; [by simplify_eq|].
    exists i2. by rewrite !lookup_insert_ne. }
  split_and!; [done| |done|].
  - exists i'. unfold w'; simpl. by rewrite !lookup_insert_eq.
  - intros Hz. split; [done|]. intros l2 k2 c2 (i2 & Hl2 & Hd2 & Hok2). simplify_eq.
    split; [done|]. unfold holds, w'; simpl. rewrite lookup_insert_eq.
    destruct (decide (l = l2)) as [<-|Hnl].
    + simplify_eq. rewrite (impl_ok_fun _ _ _ _ _ Hok2 Hok).
      exists i'. by rewrite lookup_insert_eq.
    + exists i2. rewrite lookup_insert_ne by done. split_and!; try done.
      exact (b_ok_shape k2 i2 c c' (eq_sym Hz) Hok2).
Qed.

(** A new object on a storage that is in use. *)
Lemma new_object_ok w i d k c :
  stores w !! d = Some c → impl_ok k i c →
  wp (new_object i d) w (λ l w', holds w' l d k c ∧ wle w w' ∧ stores w' = stores w) noexn.
Proof.
  intros Hd Hok. unfold new_object, wp. set (l := fresh _).
  assert (objs w !! l = None) as Hl by (apply not_elem_of_dom, is_fresh).
  split_and!; [|intros l2 d2 k2 c2 (i2 & Hl2 & Hd2 & Hok2)|done].
  - exists i. simpl. by rewrite lookup_insert_eq.
  - exists i2. simpl. rewrite lookup_insert_ne by congruence. done.
Qed.

Lemma new_storage_ok w c :
  wp (new_storage c) w (λ d w', stores w' !! d = Some c ∧ stores w !! d = None ∧ wle w w') noexn.
Proof.
  unfold new_storage, wp. set (d := fresh _).
  assert (stores w !! d = None) as Hd by (apply not_elem_of_dom, is_fresh).
  split_and!; [simpl; by rewrite lookup_insert_eq|done|].
  intros l2 d2 k2 c2 (i2 & Hl2 & Hd2 & Hok2). exists i2. simpl.
  by rewrite lookup_insert_ne by congruence.
Qed.
End world_lemmas.

(** ** Reading through a buffer *)

Section view_lemmas.
Context `{PosixOk}.
Implicit Types (w : world) (b : DataBuffer) (c : bytes) (l d : loc).

Lemma views_mono w w' b v : wle w w' → views w b v → views w' b v.
Proof.
  unfold views. intros Hw Hv. destruct (data_ b); [|done].
  destruct Hv as (d & k & c & Hh & Hr). exists d, k, c. auto.
Qed.

(** A non-empty buffer has an object, and its bounds are inside the storage. *)
Lemma view_loc w b v :
  views w b v → v ≠ [] →
  ∃ l d k c, data_ b = Some l ∧ holds w l d k c ∧ 0 <= begin_ b ∧ begin_ b < end_ b ∧
           end_ b <= zlen c ∧ zlen c < 2 ^ 62 ∧ v = slice (begin_ b) (end_ b) c.
Proof.
  unfold views. intros Hv Hn. destruct (data_ b) as [l|].
  - destruct Hv as (d & k & c & Hh & H1 & H2 & H3 & ->). exists l, d, k, c.
    pose proof (holds_bound _ _ _ _ _ Hh). split_and!; try done.
    destruct (decide (begin_ b = end_ b)) as [E|]; [|lia].
    rewrite E, slice_empty in Hn. done.
  - by destruct Hv as (_ & _ & ->).
Qed.

Lemma size_views w b v : views w b v → size b = zlen v ∧ end_ b = begin_ b + zlen v ∧
  0 <= begin_ b ∧ end_ b < 2 ^ 62.
Proof.
  unfold views, size. destruct (data_ b) as [l|].
  - intros (d & k & c & Hh & H1 & H2 & H3 & ->). pose proof (holds_bound _ _ _ _ _ Hh).
    rewrite zlen_slice, u64_sub by zlia. lia.
  - intros (-> & -> & ->). done.
Qed.

Lemma empty_views w b v : views w b v → empty b = Range.empty v.
Proof.
  unfold views, empty, isNil. destruct (data_ b) as [l|].
  - intros (d & k & c & Hh & H1 & H2 & H3 & ->).
    pose proof (zlen_slice _ _ c H1 H2 H3) as Hl. unfold Range.empty. simpl. lia.
  - intros (-> & -> & ->). done.
Qed.

Lemma vcall_reads {A} b (m : M (impl * bytes) A) w l d k c (P : A → Prop) :
  data_ b = Some l → holds w l d k c →
  (∀ i, impl_ok k i c → wp m (i, c) (λ r s, P r ∧ s.2 = c ∧ impl_ok k s.1 c) noexn) →
  wp (vcall b m) w (λ r w', P r ∧ wle w w') noexn.
Proof.
  intros Hb Hh Hm. unfold vcall, deref. rewrite Hb. wp_steps. by eapply call_reads.
Qed.

Lemma at_views w b v pos x :
  views w b v → 0 <= pos → v !! Z.to_nat pos = Some x →
  wp (at_ pos b) w (λ r w', r = x ∧ wle w w') noexn.
Proof.
  intros Hv Hp Hx. assert (v ≠ []) as Hn by (by intros ->).
  destruct (view_loc _ _ _ Hv Hn) as (l & d & k & c & Hb & Hh & H1 & H2 & H3 & H4 & ->).
  apply lookup_lt_Some in Hx as Hlt.
  pose proof (zlen_slice (begin_ b) (end_ b) c ltac:(lia) ltac:(lia) ltac:(lia)) as Hl.
  assert (pos < end_ b - begin_ b) as Hpos by (unfold zlen in *; lia).
  rewrite slice_lookup in Hx by lia.
  unfold at_, checkIndex. rewrite u64_add by zlia.
  replace ((begin_ b + pos <? begin_ b) || (end_ b <=? begin_ b + pos)) with false by lia.
  wp_step. case_if; wp_step; eapply vcall_reads; eauto;
    intros i Hok; apply (@b_at_ok impl _ impl_laws); auto; lia.
Qed.

(** Out of range, [at] throws. *)
Lemma at_out w b v pos :
  views w b v → 0 <= pos < 2 ^ 62 → zlen v <= pos → v ≠ [] →
  at_ pos b w = (Throw OutOfRange, w).
Proof.
  intros Hv Hp Hl Hn. destruct (size_views _ _ _ Hv) as (_ & He & H1 & H2).
  unfold at_, checkIndex. rewrite u64_add by zlia.
  assert (0 < zlen v) by (destruct v; [done|zlia]).
  replace ((begin_ b + pos =? 0) && (begin_ b =? 0) && (end_ b =? 0)) with false by lia.
  replace ((begin_ b + pos <? begin_ b) || (end_ b <=? begin_ b + pos)) with true by lia.
  done.
Qed.

(** [find] from the beginning of the buffer. *)
Lemma find_views w b v buf :
  views w b v → v ≠ [] → buf ≠ [] →
  wp (find (begin_ b) buf b) w (λ r w', r = Z.of_nat (Range.find buf v) ∧ wle w w') noexn.
Proof.
  intros Hv Hn Hbuf.
  destruct (view_loc _ _ _ Hv Hn) as (l & d & k & c & Hb & Hh & H1 & H2 & H3 & H4 & ->).
  unfold find, checkIndex.
  replace ((begin_ b <? begin_ b) || (end_ b <=? begin_ b)) with false by lia.
  wp_step. eapply wp_mono with (Q := λ _ w', w' = w); [case_if; wp_step; done| |done].
  intros [] w' ->. wp_step. eapply wp_mono;
    [eapply vcall_reads with (P := λ r, r = find_result (begin_ b) (end_ b) buf c); eauto| |done].
  - intros i Hok. apply (@b_find_ok impl _ impl_laws); auto; lia.
  - intros r w' [Hr Hw]. wp_step. split; [|exact Hw].
    pose proof (Range.find_le buf (slice (begin_ b) (end_ b) c)) as Hle.
    pose proof (zlen_slice (begin_ b) (end_ b) c ltac:(lia) ltac:(lia) ltac:(lia)) as Hl.
    assert (Z.of_nat (Range.find buf (slice (begin_ b) (end_ b) c)) <= end_ b - begin_ b)
      by (unfold zlen in *; lia).
    rewrite Hr. unfold find_result. rewrite u64_sub by zlia. lia.
Qed.

(** A part of what a buffer shows is shown by the buffer with its bounds. *)
Lemma sub_views w b v p q :
  views w b v → isNil b = false → 0 <= p → p <= q → q <= zlen v →
  views w (MkDataBuffer (data_ b) (begin_ b + p) (begin_ b + q)) (slice p q v).
Proof.
  intros Hv Hn Hp Hq Hl. unfold views, isNil in *; simpl. destruct (data_ b) as [l|]; [|done].
  destruct Hv as (d & k & c & Hh & H1 & H2 & H3 & ->).
  rewrite zlen_slice in Hl by lia. exists d, k, c. rewrite slice_slice by lia.
  split_and!; [done|lia..|done].
Qed.

Lemma nonempty_notnil w b v : views w b v → v ≠ [] → isNil b = false.
Proof. unfold views, isNil. destruct (data_ b); [done|]. by intros (_ & _ & ->). Qed.
End view_lemmas.

Section operations.
Context `{PosixOk}.
Implicit Types (w : world) (b : DataBuffer) (c v : bytes) (l d : loc).

Lemma find_le_zlen delim v : 0 <= Z.of_nat (Range.find delim v) <= zlen v.
Proof. pose proof (Range.find_le delim v). unfold zlen. lia. Qed.

(** Both results of [split] show what [Range::split] gives on the bytes the
    buffer shows, and belong to the same object. *)
Lemma split_views w b v delim :
  views w b v → delim ≠ [] →
  wp (split delim b) w
     (λ r w', wle w w' ∧ r.1.1 = (Range.split delim v).1.1 ∧
        views w' r.1.2 (Range.split delim v).1.2 ∧ views w' r.2 (Range.split delim v).2 ∧
        data_ r.1.2 = data_ b ∧ data_ r.2 = data_ b) noexn.
Proof.
  intros Hv Hd. assert (views w (MkDataBuffer (data_ b) 0 0) []) as Hnil.
  { unfold views in *; simpl. destruct (data_ b); [|done].
    destruct Hv as (d & k & c & Hh & H1 & H2 & H3 & ->). exists d, k, c.
    rewrite slice_empty. split_and!; (done || lia). }
  unfold split. rewrite (empty_views _ _ _ Hv). destruct (Range.empty v) eqn:He.
  - apply empty_spec in He as ->. wp_step. simpl.
    replace (Range.split delim []) with (false, @nil byte, @nil byte)
      by (by destruct delim as [|? [|? ?]]). done.
  - apply empty_false in He. pose proof (nonempty_notnil _ _ _ Hv He) as Hnn.
    wp_step. eapply wp_mono; [by apply (find_views w b v)| |done].
    intros r w' [-> Hw]. pose proof (find_le_zlen delim v).
    destruct (size_views _ _ _ Hv) as (-> & Hend & Hb & Hmax).
    unfold Range.split, Range.doSplit. case_decide as E; case_if; wp_step; simpl;
      try (unfold zlen in *; lia).
    + rewrite E, firstn_all. split_and!; try done; by eapply views_mono.
    + assert (length delim ≠ O) by (by destruct delim).
      assert (Z.of_nat (Range.find delim v) + zlen delim <= zlen v) as Hbd.
      { rewrite Range.find_search in *. pose proof (std_search_le delim v).
        destruct (std_search_spec delim v) as [_ Hocc].
        specialize (Hocc ltac:(lia)). apply occurs_at_bound in Hocc; [|done]. unfold zlen. lia. }
      rewrite u64_add by zlia. rewrite u64_add by zlia.
      eapply views_mono in Hv; [|exact Hw]. split_and!; try done.
      * rewrite take_slice, <- (Z.add_0_r (begin_ b)) at 1. apply sub_views; (done || lia).
      * rewrite drop_slice, Nat2Z.inj_add, Hend, <- Z.add_assoc. fold (zlen delim). apply sub_views; (done || zlia).
Qed.

Lemma split_char_views w b v delim :
  views w b v →
  wp (split_char delim b) w
     (λ r w', wle w w' ∧ r.1.1 = (Range.split_char delim v).1.1 ∧
        views w' r.1.2 (Range.split_char delim v).1.2 ∧ views w' r.2 (Range.split_char delim v).2 ∧
        data_ r.1.2 = data_ b ∧ data_ r.2 = data_ b) noexn.
Proof. intros Hv. by apply (split_views w b v [delim]). Qed.

(** [match_from] compares with the characters from [i] on. *)
Lemma match_from_views eq data w b v i :
  views w b v → (i + length data ≤ length v)%nat →
  wp (match_from eq data (Z.of_nat i) b) w
     (λ r w', wle w w' ∧ r = forallb (λ p, eq p.1 p.2) (zip data (take (length data) (drop i v))))
     noexn.
Proof.
  revert w i. induction data as [|x data IH]; intros w i Hv Hi; simpl in *.
  { by wp_step. }
  destruct (lookup_lt_is_Some_2 v i ltac:(lia)) as [y Hy].
  wp_step. eapply wp_mono; [apply (at_views w b v _ y); [done|lia|by rewrite Nat2Z.id]| |done].
  intros r w' [-> Hw]. rewrite (drop_S v y i Hy). simpl.
  destruct (eq x y); [|by wp_step]. simpl.
  replace (Z.of_nat i + 1) with (Z.of_nat (S i)) by lia.
  eapply wp_mono; [apply IH; [by eapply views_mono|lia]| |done].
  intros r w2 [Hw2 ->]. split; [by etrans|done].
Qed.

Lemma zip_same_char (p l : bytes) :
  length p = length l → forallb (λ q, same_char q.1 q.2) (zip p l) = bool_decide (l = p).
Proof.
  revert l; induction p as [|x p IH]; intros [|y l] Hl; simpl in *; try done.
  unfold same_char at 1; simpl. rewrite IH by lia.
  apply eq_true_iff_eq. rewrite andb_true_iff, !bool_decide_eq_true.
  split; [by intros [-> ->]|by intros [= -> ->]].
Qed.

(** [startsWith] is [Range::startsWith] of what the buffer shows. *)
Lemma startsWith_views w b v data :
  views w b v →
  wp (startsWith data b) w (λ r w', r = Range.startsWith data v ∧ wle w w') noexn.
Proof.
  intros Hv. unfold startsWith. destruct (size_views _ _ _ Hv) as (-> & _).
  unfold Range.startsWith, Range.size. case_if.
  - wp_step. by replace (zlen data <=? zlen v) with false by lia.
  - replace (zlen data <=? zlen v) with true by lia.
    eapply wp_mono; [apply (match_from_views same_char data w b v 0); [done|unfold zlen in *; lia]| |done].
    intros r w' [Hw ->]. split; [|done]. rewrite drop_0, zip_same_char; [done|].
    rewrite length_take. unfold zlen in *. lia.
Qed.

(** [match_back] compares with the characters from index [length v - i] down. *)
Lemma match_back_views eq rdata w b v i :
  views w b v → (0 < i)%nat → (i - 1 + length rdata ≤ length v)%nat →
  wp (match_back eq rdata (zlen v) (Z.of_nat i) b) w
     (λ r w', wle w w' ∧
        r = forallb (λ p, eq p.1 p.2) (zip rdata (take (length rdata) (drop (i - 1) (reverse v)))))
     noexn.
Proof.
  revert w i. induction rdata as [|x rdata IH]; intros w i Hv Hi Hl; simpl in *.
  { by wp_step. }
  destruct (size_views _ _ _ Hv) as (_ & He & Hb & Hmax).
  destruct (lookup_lt_is_Some_2 v (length v - i) ltac:(lia)) as [y Hy].
  assert (reverse v !! (i - 1)%nat = Some y) as Hy'.
  { rewrite reverse_lookup by lia. rewrite <- Hy. f_equal. lia. }
  rewrite u64_sub by (unfold zlen in *; zlia).
  wp_step. eapply wp_mono; [apply (at_views w b v _ y); [done|unfold zlen in *; lia|]| |done].
  { replace (Z.to_nat (zlen v - Z.of_nat i)) with (length v - i)%nat by (unfold zlen; lia). done. }
  intros r w' [-> Hw]. rewrite (drop_S _ _ _ Hy'). simpl.
  destruct (eq x y); [|by wp_step]. simpl.
  replace (Z.of_nat i + 1) with (Z.of_nat (S i)) by lia.
  replace (S (i - 1))%nat with (S i - 1)%nat by lia.
  eapply wp_mono; [apply IH; [by eapply views_mono|lia|lia]| |done].
  intros r w2 [Hw2 ->]. split; [by etrans|done].
Qed.

(** [endsWith] is [Range::endsWith] of what the buffer shows. *)
Lemma endsWith_views w b v data :
  views w b v →
  wp (endsWith data b) w (λ r w', r = Range.endsWith data v ∧ wle w w') noexn.
Proof.
  intros Hv. unfold endsWith. destruct (size_views _ _ _ Hv) as (-> & _).
  unfold Range.endsWith, Range.size. case_if.
  - wp_step. by replace (zlen data <=? zlen v) with false by lia.
  - replace (zlen data <=? zlen v) with true by lia.
    eapply wp_mono;
      [apply (match_back_views same_char (reverse data) w b v 1); [done|lia|]| |done].
    { rewrite length_reverse. unfold zlen in *. lia. }
    intros r w' [Hw ->]. split; [|done]. simpl. rewrite drop_0, zip_same_char.
    + rewrite length_reverse, take_reverse. apply bool_decide_ext.
      split; [by intros ?%(inj reverse)|by intros ->].
    + rewrite length_take, !length_reverse. unfold zlen in *. lia.
Qed.

(** [read] copies what the buffer shows from [pos] on, up to [len] bytes. *)
Lemma read_views w b v pos len :
  views w b v → 0 <= pos → 0 <= len →
  wp (read pos len b) w
     (λ r w', r = take (Z.to_nat len) (drop (Z.to_nat pos) v) ∧ wle w w') noexn.
Proof.
  intros Hv Hp Hlen. unfold read. destruct (size_views _ _ _ Hv) as (-> & He & Hb & Hmax).
  case_if.
  { wp_step. rewrite drop_ge by (unfold zlen in *; lia). by rewrite take_nil. }
  assert (v ≠ []) as Hn by (intros ->; zlia).
  destruct (view_loc _ _ _ Hv Hn) as (l & d & k & c & Hd & Hh & H1 & H2 & H3 & H4 & Hs).
  rewrite u64_add by zlia. rewrite u64_sub by zlia.
  eapply wp_mono; [eapply vcall_reads with
    (P := λ r, r = slice (pos + begin_ b)
       (pos + begin_ b + Z.min (end_ b - begin_ b - pos) len) c); eauto| |done].
  - intros i Hok. apply (@b_read_ok impl _ impl_laws); auto; lia.
  - intros r w' [-> Hw]. split; [|done]. rewrite Hs. unfold slice.
    rewrite skipn_firstn_comm, drop_drop, take_take. f_equal; [lia|]. f_equal. lia.
Qed.

Lemma stored_mono w w' b d : wle w w' → stored w b d → stored w' b d.
Proof. intros Hw (l & k & c & Hl & Hh). exists l, k, c. auto. Qed.

(** Another storage is not touched. *)
Lemma views_others w w' b v d d' :
  others d w w' → views w b v → stored w b d' → d' ≠ d → views w' b v ∧ stored w' b d'.
Proof.
  intros Ho Hv (l & k & c & Hl & Hh) Hne. pose proof (Ho _ _ _ _ Hne Hh) as Hh'.
  split; [|by exists l, k, c]. unfold views in *. rewrite Hl in *.
  destruct Hv as (d2 & k2 & c2 & Hh2 & Hr).
  destruct (holds_fun _ _ _ _ _ _ _ _ Hh Hh2) as [<- <-]. by exists d', k, c.
Qed.

(** [write] overwrites in place; only the storage of the buffer changes. *)
Lemma write_stored w b v d pos data :
  views w b v → stored w b d → 0 <= pos → pos + zlen data <= zlen v →
  wp (write pos data b) w
     (λ r w', r = zlen data ∧ views w' b (splice pos data v) ∧ stored w' b d ∧
              others d w w' ∧ wshape w w') noexn.
Proof.
  intros Hv Hst Hp Hlen. unfold write. destruct (size_views _ _ _ Hv) as (-> & He & Hb & Hmax).
  case_if.
  { wp_step. assert (data = []) as -> by (apply zlen_zero; zlia).
    assert (splice pos [] v = v) as ->
      by (unfold splice; simpl; by rewrite Nat.add_0_r, take_drop). done. }
  assert (v ≠ []) as Hn by (intros ->; zlia).
  destruct (view_loc _ _ _ Hv Hn) as (l & d' & k & c & Hd & Hh & H1 & H2 & H3 & H4 & Hs).
  destruct Hst as (l0 & k0 & c0 & Hl0 & Hh0). rewrite Hd in Hl0. injection Hl0 as <-.
  destruct (holds_fun _ _ _ _ _ _ _ _ Hh Hh0) as [<- <-]. clear Hh0.
  rewrite u64_add by zlia. rewrite u64_sub by zlia.
  rewrite Z.min_r by lia. rewrite to_nat_zlen, firstn_all.
  unfold vcall, deref. rewrite Hd. wp_steps.
  set (c' := splice (pos + begin_ b) data c).
  assert (zlen c' = zlen c) as Hc' by (apply zlen_splice; lia).
  eapply wp_mono; [apply (call_stores _ w l d' k c c' (λ r, r = zlen data)); [done|]| |done].
  - intros i Hok. apply (@b_write_ok impl _ impl_laws); auto; lia.
  - intros r w' (-> & Hh' & Ho & Hu). split_and!; [done| | |done|].
    + unfold views. rewrite Hd. exists d', k, c'. split_and!; [done|lia..|].
      rewrite Hs. unfold c'. symmetry. apply slice_splice; lia.
    + by exists l, k, c'.
    + by apply (updates_wshape d' c'), Hu.
Qed.

Lemma write_views w b v pos data :
  views w b v → 0 <= pos → pos + zlen data <= zlen v → data ≠ [] →
  wp (write pos data b) w
     (λ r w', r = zlen data ∧ views w' b (splice pos data v) ∧ wshape w w') noexn.
Proof.
  intros Hv Hp Hlen Hdn. assert (v ≠ []) as Hn by (intros ->; destruct data; [done|zlia]).
  destruct (view_loc _ _ _ Hv Hn) as (l & d & k & c & Hd & Hh & _).
  eapply wp_mono; [apply (write_stored w b v d pos data); [done|by exists l, k, c|done|done]| |done].
  intros r w' (? & ? & _ & _ & ?). done.
Qed.

(** [resize] keeps what the buffer showed at the front. *)
Lemma resize_stored w b v d n :
  views w b v → stored w b d → 0 < begin_ b + n → 0 <= n → begin_ b + n < 2 ^ 62 →
  wp (resize n b) w
     (λ b' w', b' = MkDataBuffer (data_ b) (begin_ b) (begin_ b + n) ∧
        stored w' b' d ∧ others d w w' ∧ filled w' b' ∧
        ∃ v', views w' b' v' ∧ zlen v' = n ∧ (zlen v <= n → take (length v) v' = v)) noexn.
Proof.
  intros Hv (l & k & c & Hl & Hh) Hpos Hn Hmax. unfold resize.
  destruct (size_views _ _ _ Hv) as (_ & He & Hb & _). rewrite u64_small by zlia.
  wp_step. unfold vcall, deref. rewrite Hl. wp_steps.
  set (c' := vector_resize (begin_ b + n) c).
  assert (zlen c' = begin_ b + n) as Hc' by (apply zlen_vector_resize; lia).
  eapply wp_mono; [apply (call_stores _ w l d k c c' (λ _, True)); [done|]| |done].
  { intros i Hok. eapply wp_mono; [by apply (@b_resize_ok impl _ impl_laws)| |done].
    intros r s [? ?]. done. }
  intros _ w' (_ & Hh' & Ho & _). wp_step. split_and!; [done|by exists l, k, c'|done| |].
  { intros l2 d2 k2 c2 [= <-] Hh2. by destruct (holds_fun _ _ _ _ _ _ _ _ Hh2 Hh') as [_ ->]. }
  exists (slice (begin_ b) (begin_ b + n) c'). split_and!.
  - unfold views; simpl. exists d, k, c'. split_and!; [done|lia..|done].
  - rewrite zlen_slice by lia. lia.
  - intros Hle. unfold views in Hv. rewrite Hl in Hv.
    destruct Hv as (d2 & k2 & c2 & Hh2 & H1 & H2 & H3 & Hvs).
    destruct (holds_fun _ _ _ _ _ _ _ _ Hh Hh2) as [<- <-].
    rewrite slice_take by (try lia; pose proof (zlen_slice (begin_ b) (begin_ b + n) c');
      unfold zlen in *; lia).
    rewrite Hvs at 2. replace (begin_ b + Z.of_nat (length v)) with (end_ b) by (unfold zlen in *; lia).
    unfold slice, c', vector_resize. unfold zlen in *.
    rewrite !drop_app_le by (rewrite length_take; lia).
    rewrite take_app_le by (rewrite length_drop, length_take; lia).
    rewrite skipn_firstn_comm, take_take. f_equal. lia.
Qed.

(** [trim] of a buffer in memory is [Range::trim]. *)
Lemma trim_views w b v :
  views w b v → in_memory w b →
  wp (trim b) w (λ b' w', views w' b' (Range.trim v) ∧ data_ b' = data_ b ∧ wle w w') noexn.
Proof.
  intros Hv Hm. unfold trim. rewrite (empty_views _ _ _ Hv). destruct (Range.empty v) eqn:He.
  { apply empty_spec in He as ->. by wp_step. }
  apply empty_false in He.
  destruct (view_loc _ _ _ Hv He) as (l & d & k & c & Hd & Hh & H1 & H2 & H3 & H4 & ->).
  destruct (Hm l Hd) as (d' & c' & Hob). wp_step.
  destruct (holds_fun _ _ _ _ _ _ _ _ Hh Hob) as [<- <-]. clear Hh. rename Hob into Hh.
  unfold vcall, deref. rewrite Hd. wp_steps.
  pose proof Hh as ([sb|fb] & Hob & Hst & Hok); [|destruct Hok as [(_ & _ & _ & Hw & _) Hk]; lia].
  unfold call, wp. rewrite Hob. simpl. rewrite Hst.
  pose proof (impl_trim_ok (begin_ b) (end_ b) 0 sb c Hok H1 H2 H3) as Ht. unfold wp in Ht.
  simpl in Ht. destruct (dispatch _ _ _) as [[[p q]|e| |] [i' c']]; try done.
  destruct Ht as ((Hp & Hpq & Hq & Hsl) & [=-> ->]). simpl in *.
  assert (wle w (MkWorld (<[l:=MkObject (IString sb) d]> (objs w)) (<[d:=c]> (stores w)))) as Hw.
  { rewrite !insert_id by done. by destruct w. }
  split_and!; [|done|done]. unfold views; simpl. exists d, 0, c.
  split_and!; [by apply Hw|lia..|done].
Qed.
End operations.

(** ** Iterating over the segments *)

Section segments.
Context `{PosixOk}.
Implicit Types (w : world) (b : DataBuffer) (c v : bytes) (l d : loc) (it : SegmentIterator).

Lemma segment_limit_gt k c pos : 0 <= k → 0 <= pos → pos < zlen c → pos < segment_limit k c pos.
Proof.
  intros. unfold segment_limit. case_if; [lia|].
  unfold segment_end. pose proof (Z.mod_pos_bound pos k ltac:(lia)).
  pose proof (Z.div_mod pos k ltac:(lia)). lia.
Qed.

Lemma holds_param w l d k c : holds w l d k c → 0 <= k.
Proof. intros (i & _ & _ & Hok). apply (proj2 (@b_ok_bound impl _ impl_laws k i c Hok)). Qed.

Lemma shows_keep w w' it d k c seg :
  (∀ l, data_ (buffer_ it) = Some l → holds w l d k c → holds w' l d k c) →
  shows w it d k c seg → shows w' it d k c seg.
Proof. intros Hw (l & Hl & Hh & Hr). exists l. auto. Qed.

Lemma shows_not_end w it d k c seg : shows w it d k c seg → iterator_eq it end_iterator = false.
Proof. intros (l & Hl & _). unfold iterator_eq; simpl. by rewrite Hl. Qed.

(** An iterator placed at a position inside its buffer. *)
Lemma place_iterator w l d k c buffer pos pre v :
  data_ buffer = Some l → holds w l d k c → 0 <= pos → pos < end_ buffer →
  end_ buffer <= zlen c → v = pre ++ slice pos (end_ buffer) c → (k = 0 → pre = []) →
  iter_at w d k c v pre (MkIterator buffer pos (Z.min (segment_limit k c pos) (end_ buffer))).
Proof.
  intros Hl Hh Hp He Hc Hv Hone. right.
  pose proof (segment_limit_gt k c pos (holds_param _ _ _ _ _ Hh) Hp ltac:(lia)) as Hlim.
  set (e := Z.min (segment_limit k c pos) (end_ buffer)).
  exists (slice pos e c), (slice e (end_ buffer) c). simpl. split_and!.
  - exists l. by split_and!.
  - intros E%(f_equal zlen). rewrite zlen_slice in E by lia.
    change (zlen []) with 0 in E. unfold e in E. lia.
  - rewrite slice_join by lia. done.
  - intros ->. split; [by apply Hone|].
    replace e with (end_ buffer) by (unfold e, segment_limit; simpl; lia). apply slice_empty.
  - done.
Qed.

Lemma begin_iterator_ok w b v l d k c :
  views w b v → data_ b = Some l → holds w l d k c →
  wp (begin_iterator b) w
     (λ it w', iter_at w' d k c v [] it ∧ wle w w' ∧
               (it ≠ end_iterator → end_ (buffer_ it) = end_ b ∧ pos_begin_ it = begin_ b)) noexn.
Proof.
  intros Hv Hd Hh. unfold begin_iterator. rewrite (empty_views _ _ _ Hv).
  destruct (Range.empty v) eqn:He.
  { apply empty_spec in He as ->. wp_step. split_and!; [by left|done|done]. }
  apply empty_false in He. destruct (size_views _ _ _ Hv) as (Hsz & Hend & _ & _).
  destruct (view_loc _ _ _ Hv He) as (l0 & d0 & k0 & c0 & Hd0 & Hh0 & H1 & H2 & H3 & H4 & ->).
  rewrite Hd in Hd0. injection Hd0 as <-.
  destruct (holds_fun _ _ _ _ _ _ _ _ Hh Hh0) as [<- <-]. clear Hh0.
  unfold deref. rewrite Hd. do 3 wp_step.
  eapply wp_mono; [apply (call_reads _ w l d k c (λ i', impl_ok k i' c)); [done|]| |done].
  { intros i Hok. by apply (@b_getCopy_ok impl _ impl_laws). }
  intros i' w1 [Hi' Hw1]. do 3 wp_step. pose proof (Hw1 _ _ _ _ Hh) as (i1 & Ho1 & Hs1 & Hok1).
  rewrite Ho1. simpl. eapply wp_mono; [by apply (new_object_ok w1 i' d k c)| |done].
  intros l' w2 (Hh2 & Hw2 & _). wp_step. unfold vcall, deref; simpl. do 2 wp_step.
  eapply wp_mono; [eapply (call_reads _ w2 l' d k c (λ r, r = (begin_ b, segment_limit k c (begin_ b))));
    [done|]| |done].
  { intros i Hok. apply (@b_segment_ok impl _ impl_laws); [done|lia..]. }
  intros r w3 [-> Hw3]. wp_step. cbn [fst snd]. split_and!.
  - apply (place_iterator w3 l' d k c (MkDataBuffer (Some l') (begin_ b) (end_ b))); simpl;
      [done|by apply Hw3|lia..|done|done].
  - etrans; [exact Hw1|]. by etrans.
  - by intros _.
Qed.

(** [*it] is a pointer to the segment and its length. *)
Lemma iterator_pointer_ok w it d k c seg :
  shows w it d k c seg →
  wp (iterator_deref it) w (λ r w', r = (pos_begin_ it, zlen seg) ∧ wle w w') noexn.
Proof.
  intros Hs. pose proof Hs as (l & Hl & Hh & H1 & H2 & H3 & He & ->).
  pose proof (holds_bound _ _ _ _ _ Hh).
  pose proof (segment_limit_gt k c _ (holds_param _ _ _ _ _ Hh) H1 ltac:(lia)) as Hlim.
  unfold iterator_deref. rewrite (shows_not_end _ _ _ _ _ _ Hs). wp_step.
  eapply wp_mono; [eapply (vcall_reads _ _ w l d k c (λ r, r = (pos_begin_ it,
     Z.min (segment_limit k c (pos_begin_ it)) (zlen c) - pos_begin_ it))); [done|done|]| |done].
  { intros i Hok. apply (@b_chunk_ok impl _ impl_laws); [done|lia..]. }
  intros r w1 [-> Hw1]. wp_step. cbn [fst snd]. rewrite u64_sub by zlia.
  split; [|done]. f_equal. rewrite zlen_slice by lia. lia.
Qed.

Lemma iterator_deref_ok w it d k c seg :
  shows w it d k c seg → wp (segment_bytes it) w (λ r w', r = seg ∧ wle w w') noexn.
Proof.
  intros Hs. pose proof Hs as (l & Hl & Hh & H1 & H2 & H3 & He & ->).
  pose proof (holds_bound _ _ _ _ _ Hh).
  pose proof (segment_limit_gt k c _ (holds_param _ _ _ _ _ Hh) H1 ltac:(lia)) as Hlim.
  unfold segment_bytes. wp_step. eapply wp_mono; [by eapply iterator_pointer_ok| |done].
  intros r w1 [-> Hw1]. cbn [fst snd].
  assert (pos_begin_ it + zlen (slice (pos_begin_ it) (pos_end_ it) c) = pos_end_ it) as Hn
    by (rewrite zlen_slice by lia; lia).
  unfold peek. eapply wp_mono; [eapply (vcall_reads _ _ w1 l d k c
    (λ r, r = slice (pos_begin_ it) (pos_end_ it) c)); [done|by apply Hw1|]| |done].
  - intros i Hok. obj_steps. rewrite Hn. replace (pos_end_ it <=? zlen c) with true by lia.
    by obj_steps.
  - intros r w2 [-> Hw2]. split; [done|]. by etrans.
Qed.

Lemma iterator_next_ok w it d k c v pre seg :
  shows w it d k c seg →
  v = pre ++ seg ++ slice (pos_end_ it) (end_ (buffer_ it)) c →
  (k = 0 → slice (pos_end_ it) (end_ (buffer_ it)) c = []) →
  wp (iterator_next it) w
     (λ it' w', iter_at w' d k c v (pre ++ seg) it' ∧ wle w w' ∧
        (it' ≠ end_iterator →
         pos_begin_ it < pos_begin_ it' < end_ (buffer_ it') ∧ buffer_ it' = buffer_ it)) noexn.
Proof.
  intros Hs Hv Hone. pose proof Hs as (l & Hl & Hh & H1 & H2 & H3 & He & Hseg).
  pose proof (segment_limit_gt k c _ (holds_param _ _ _ _ _ Hh) H1 ltac:(lia)) as Hlim.
  unfold iterator_next. rewrite (shows_not_end _ _ _ _ _ _ Hs). case_if.
  - wp_step. split_and!; [left|done|done]. split; [done|]. rewrite Hv.
    replace (end_ (buffer_ it)) with (pos_end_ it) by lia. by rewrite slice_empty, app_nil_r.
  - wp_step. eapply wp_mono; [eapply (vcall_reads _ _ w l d k c
      (λ r, r = (pos_end_ it, segment_limit k c (pos_end_ it)))); [done|done|]| |done].
    { intros i Hok. apply (@b_segment_ok impl _ impl_laws); [done|lia..]. }
    intros r w1 [-> Hw1]. wp_step. cbn [fst snd]. split_and!; [|done|simpl; split; [lia|done]].
    apply (place_iterator w1 l d k c); [done|by apply Hw1|lia..|by rewrite <- app_assoc|].
    intros Ho. apply Hone, (f_equal zlen) in Ho.
    rewrite zlen_slice in Ho by lia. change (zlen []) with 0 in Ho. lia.
Qed.

(** The rule for [for_segments]: an invariant [P] over the bytes passed, stable
    under reading, and a body that takes it over one segment and leaves the
    storage of the buffer as it is. *)
Lemma for_segments_ok {S A} (wget : S → world) (wset : world → S → S) b v
    (body : A → SegmentIterator → M S A) (P : bytes → A → S → Prop) E a s :
  (∀ w s, wget (wset w s) = w) →
  views (wget s) b v → P [] a s →
  (∀ pre a s w, P pre a s → wle (wget s) w → P pre a (wset w s)) →
  (∀ l d k c, data_ b = Some l → holds (wget s) l d k c →
   ∀ pre seg rest a s' it, v = pre ++ seg ++ rest → (k = 0 → pre = [] ∧ rest = []) →
     P pre a s' → shows (wget s') it d k c seg →
     wp (body a it) s' (λ a' s2, P (pre ++ seg) a' s2 ∧
        ∀ l', data_ (buffer_ it) = Some l' → holds (wget s') l' d k c → holds (wget s2) l' d k c) E) →
  wp (for_segments wget wset b body a) s (λ a' s', P v a' s') E.
Proof.
  intros Hlens Hv HP Hstable Hbody. unfold for_segments. wp_step. wp_step.
  destruct (data_ b) as [l|] eqn:Hb.
  2:{ unfold begin_iterator. rewrite (empty_views _ _ _ Hv). unfold views in Hv. rewrite Hb in Hv.
      destruct Hv as (_ & _ & ->). change (Range.empty []) with true. cbn iota. wp_step.
      apply (wp_loop (λ x t, x = (end_iterator, a) ∧ P [] a t) (λ _, O)); [|split; [done|by apply Hstable]|lia].
      intros x t [-> Ht]. unfold segment_step.
      change (iterator_eq (end_iterator, a).1 end_iterator) with true. cbn iota. by wp_step. }
  pose proof Hv as Hv0. unfold views in Hv0. rewrite Hb in Hv0.
  destruct Hv0 as (d & k & c & Hh & _). specialize (Hbody l d k c eq_refl Hh).
  eapply wp_mono; [by apply (begin_iterator_ok _ _ v l d k c)| |done].
  intros it w0 (Hit & Hw0 & Hsz).
  pose (I := λ (x : SegmentIterator * A) t, ∃ pre, iter_at (wget t) d k c v pre x.1 ∧ P pre x.2 t).
  pose (μ := λ x : SegmentIterator * A, if decide (data_ (buffer_ x.1) = None) then O
    else Datatypes.S (Z.to_nat (end_ (buffer_ x.1) - pos_begin_ x.1))).
  apply (wp_loop I μ).
  - intros [it1 a1] t (pre & Hat & HPt). simpl in Hat. unfold segment_step. cbn [fst snd].
    destruct Hat as [[-> ->]|(seg & rest & Hs & Hn & Hvs & Hone & Hr)].
    { change (iterator_eq end_iterator end_iterator) with true. cbn iota. by wp_step. }
    rewrite (shows_not_end _ _ _ _ _ _ Hs). wp_step.
    eapply wp_mono; [by apply (Hbody pre seg rest)| |done].
    intros a2 t2 [HP2 Hw2]. wp_step. wp_step. subst rest.
    eapply wp_mono; [apply (iterator_next_ok (wget t2) it1 d k c v pre seg);
      [by eapply shows_keep|done|intros Ho; by apply Hone]| |done].
    intros it2 w3 (Hat & Hw3 & Hlt). wp_step. split.
    + exists (pre ++ seg). cbn [fst snd]. rewrite Hlens. auto.
    + destruct Hs as (l1 & Hl & _ & _ & Hb2 & _).
      unfold μ; cbn [fst snd]. rewrite Hl. rewrite (decide_False (P := Some l1 = None)) by done.
      case_decide as E2; [lia|]. destruct Hlt as [? ->]; [by intros ->|]. lia.
  - exists []. cbn [fst snd]. rewrite Hlens. auto.
  - destruct (size_views _ _ _ Hv) as (Hsb & Heb & _). unfold μ; cbn [fst snd].
    case_decide as E2; [lia|]. destruct Hsz as [-> ->]; [by intros ->|]. rewrite Hsb. lia.
Qed.

Lemma in_memory_param w b l d k c : in_memory w b → data_ b = Some l → holds w l d k c → k = 0.
Proof.
  intros Hm Hl (i & Ho & _ & Hk). destruct (Hm l Hl) as (d0 & c0 & i0 & Ho0 & _ & Hk0).
  rewrite Ho in Ho0. injection Ho0 as -> _. by apply (impl_ok_fun _ _ _ _ _ Hk Hk0).
Qed.

(** [toString] gives exactly the bytes the buffer shows. *)
Lemma toString_views w b v :
  views w b v → wp (toString b) w (λ r w', r = v ∧ wle w w') noexn.
Proof.
  intros Hv. unfold toString.
  apply (for_segments_ok id (λ w _, w) b v _ (λ pre a w', a = pre ∧ wle w w')); try done.
  - intros pre a s w' [-> Hw] Hw'. split; [done|]. by etrans.
  - intros l d k c _ _ pre seg rest a s it _ _ [-> Hw] Hs. wp_step.
    eapply wp_mono; [by eapply iterator_deref_ok| |done].
    intros r w' [-> Hw']. wp_step. split; [split; [done|by etrans]|]. intros l' _. apply Hw'.
Qed.

Lemma create_impl_views w l d k c :
  holds w l d k c →
  wp (create_impl l) w (λ b w', views w' b c ∧ data_ b = Some l ∧ wle w w') noexn.
Proof.
  intros Hh. unfold create_impl. wp_step.
  eapply wp_mono; [apply (call_reads _ w l d k c (λ n, n = zlen c)); [done|]| |done].
  { intros i Hok. by apply (@b_size_ok impl _ impl_laws). }
  intros n w3 [-> Hw3]. wp_step. pose proof (Hw3 _ _ _ _ Hh) as Hh3. split_and!; [|done..].
  exists d, k, c. simpl. rewrite slice_full. split_and!; [done|zlia..|done].
Qed.

(** A buffer over an opened file shows the contents of the file. *)
Lemma create_file_views w name window c :
  0 <= window < 2 ^ 61 → zlen c < 2 ^ 62 →
  wp (create_file name window c) w (λ b w', views w' b c ∧ wle w w') noexn.
Proof.
  intros Hw Hc. unfold create_file. wp_step. eapply wp_mono; [apply new_storage_ok| |done].
  intros d w1 (Hd & _ & Hw1). wp_step.
  destruct (proj1 (wp_returns _ _ _) (file_open_ok name window c Hw Hc))
    as (f & c' & Eo & -> & Hok & _).
  rewrite Eo. cbn [fst]; wp_steps.
  eapply wp_mono; [apply (new_object_ok w1 (IFile f) d (fb_window_ f) c); [done|by split]| |done].
  intros l w2 (Hh & Hw2 & _). eapply wp_mono; [by eapply create_impl_views| |done].
  intros b w3 (Hv & _ & Hw3). split; [done|]. etrans; [exact Hw1|]. by etrans.
Qed.

(** A new buffer in memory shows its bytes. *)
Lemma create_views w data :
  zlen data < 2 ^ 62 →
  wp (create data) w (λ b w', views w' b data ∧ in_memory w' b ∧ wle w w') noexn.
Proof.
  intros Hz. unfold create. wp_step. eapply wp_mono; [apply new_storage_ok| |done].
  intros d w1 (Hd & _ & Hw1). wp_step.
  eapply wp_mono; [apply (new_object_ok w1 (IString MkStringBuffer) d 0 data); [done|by split]| |done].
  intros l w2 (Hh & Hw2 & _). eapply wp_mono; [by eapply create_impl_views| |done].
  intros b w3 (Hv & Hb & Hw3). split_and!; [done| |].
  - intros l2. rewrite Hb. intros [= <-]. exists d, data. by apply Hw3.
  - etrans; [exact Hw1|]. by etrans.
Qed.
End segments.

(** The postfix increment gives the next iterator and leaves its own where it is. *)
Lemma iterator_next_post_stays `{Posix} it r it' w w' :
  iterator_next_post it w = (Ret (r, it'), w') → it' = it ∧ iterator_next it w = (Ret r, w').
Proof. unfold iterator_next_post. intros E. returned E. injection E as <- <- <-. done. Qed.

(** * Properties *)

Definition empty_world : world := MkWorld ∅ ∅.

(** A buffer of an example world: the bytes [c] in a file with windows of eight
    bytes. *)
Lemma example_file (c : bytes) :
  (zlen c <? 1000) = true →
  ∃ w b, fst (@create_file small_machine (str "cache") 8 c empty_world) = Ret b ∧
         @views small_machine small_machine_ok w b c.
Proof.
  intros Hc. zbool. pose proof small_machine_ok as Hm.
  destruct (proj1 (wp_returns _ _ _) (@create_file_views small_machine small_machine_ok
    empty_world (str "cache") 8 c ltac:(lia) ltac:(lia))) as (b & w & E & Hv & _).
  exists w, b. by rewrite E.
Qed.

(** C7: [toString] terminates and gives exactly the bytes the buffer shows, segment
    by segment, for a buffer in memory and for one over a mapped file. *)
Theorem toString_contents `{PosixOk} w b v :
  views w b v → ∃ w', toString b w = (Ret v, w') ∧ views w' b v.
Proof.
  intros Hv. destruct (proj1 (wp_returns _ _ _) (toString_views w b v Hv)) as (r & w' & E & -> & Hw).
  exists w'. split; [done|]. by eapply views_mono.
Qed.

Lemma toString_contents_witness : ∃ w b w',
  @toString small_machine b w = (Ret (str "0123456789abcdefghijkl"), w').
Proof.
  destruct (example_file (str "0123456789abcdefghijkl") eq_refl) as (w & b & _ & Hv).
  destruct (@toString_contents small_machine small_machine_ok w b _ Hv) as (w' & E & _).
  exists w, b, w'. exact E.
Defined.

(** [split] divides what the buffer shows at the first occurrence of the
    delimiter, and leaves everything in the first part when there is none. *)
Theorem split_first_occurrence `{PosixOk} w b v delim :
  views w b v → delim ≠ [] →
  ∃ first second w', views w' b v ∧
    ((split delim b w = (Ret (false, first, second), w') ∧
      views w' first v ∧ views w' second [] ∧ ∀ i, ¬ occurs_at delim v i) ∨
     (∃ h t, v = h ++ delim ++ t ∧ split delim b w = (Ret (true, first, second), w') ∧
      views w' first h ∧ views w' second t ∧
      ∀ i, (i < length h)%nat → ¬ occurs_at delim v i)).
Proof.
  intros Hv Hd. destruct (proj1 (wp_returns _ _ _) (split_views w b v delim Hv Hd))
    as ([[found first] second] & w' & E & Hw & Hf & H1 & H2 & _). simpl in *.
  exists first, second, w'. split; [by eapply views_mono|].
  destruct (Range.split_cases delim v Hd) as [[Es Hno]|(h & t & Ev & Es & Hno)];
    rewrite Es in *; simpl in *; subst found.
  - left. split_and!; try done. intros i Ho.
    pose proof (occurs_at_bound _ _ _ Hd Ho). assert (length delim ≠ O) by (by destruct delim).
    apply (Hno i); [lia|done].
  - right. by exists h, t.
Qed.

Lemma split_first_occurrence_witness : ∃ w b first second w',
  @split small_machine (str "--B") b w = (Ret (true, first, second), w') ∧
  @views small_machine small_machine_ok w' second (str "tail").
Proof.
  destruct (example_file (str "012345--Btail") eq_refl) as (w & b & _ & Hv).
  destruct (@split_first_occurrence small_machine small_machine_ok w b _ (str "--B") Hv
    ltac:(discriminate)) as (f & s & w' & _ & [(_ & _ & _ & Hno)|(h & t & E & Es & _ & Ht & Hno)]).
  - exfalso. apply (Hno 6%nat). reflexivity.
  - exists w, b, f, s, w'. split; [exact Es|].
    assert (length h = 6)%nat as Hl.
    { pose proof (f_equal length E) as El. rewrite !length_app in El. simpl in El.
      destruct (decide (6 < length h)%nat) as [H6|H6].
      - exfalso. by apply (Hno 6%nat H6).
      - destruct (decide (length h = 6)%nat) as [|Hne]; [done|]. exfalso.
        do 6 (destruct h as [|? h]; [simpl in E; discriminate E|]). simpl in *. lia. }
    do 6 (destruct h as [|? h]; [simpl in Hl; discriminate Hl|]). destruct h; [|simpl in Hl; lia].
    simpl in E. injection E as _ _ _ _ _ _ E. rewrite <- E in Ht. exact Ht.
Defined.

(** [startsWith] and [endsWith] hold exactly of the prefixes and the suffixes
    of what the buffer shows. *)
Theorem starts_ends_contents `{PosixOk} w b v data :
  views w b v →
  ∃ s e w1 w2, startsWith data b w = (Ret s, w1) ∧ endsWith data b w1 = (Ret e, w2) ∧
    views w2 b v ∧ (s = true ↔ ∃ k, v = data ++ k) ∧ (e = true ↔ ∃ k, v = k ++ data).
Proof.
  intros Hv.
  destruct (proj1 (wp_returns _ _ _) (startsWith_views w b v data Hv)) as (s & w1 & Es & Hs & Hw1).
  apply (views_mono _ w1) in Hv; [|done].
  destruct (proj1 (wp_returns _ _ _) (endsWith_views w1 b v data Hv)) as (e & w2 & Ee & He & Hw2).
  exists s, e, w1, w2. split_and!; [done|done|by eapply views_mono| |]; subst.
  - by rewrite Range.startsWith_spec, is_prefix_spec.
  - apply Range.endsWith_spec.
Qed.

Lemma starts_ends_contents_witness : ∃ w b s e w1 w2,
  @startsWith small_machine (str "012345678") b w = (Ret s, w1) ∧
  @endsWith small_machine (str "012345678") b w1 = (Ret e, w2) ∧
  (s = true ↔ ∃ k, str "0123456789" = str "012345678" ++ k).
Proof.
  destruct (example_file (str "0123456789") eq_refl) as (w & b & _ & Hv).
  destruct (@starts_ends_contents small_machine small_machine_ok w b _ (str "012345678") Hv)
    as (s & e & w1 & w2 & H1 & H2 & _ & H3 & _).
  exists w, b, s, e, w1, w2. split; [exact H1|split; [exact H2|exact H3]].
Defined.

(** A write through a buffer is seen by every later read through it, and the
    bytes around it keep their values. *)
Theorem write_then_toString `{PosixOk} w b v pos data :
  views w b v → data ≠ [] → 0 <= pos → pos + zlen data <= zlen v →
  ∃ w1 w2, write pos data b w = (Ret (zlen data), w1) ∧
    toString b w1 = (Ret (take (Z.to_nat pos) v ++ data ++ drop (Z.to_nat pos + length data) v), w2).
Proof.
  intros Hv Hn Hp Hl.
  destruct (proj1 (wp_returns _ _ _) (write_views w b v pos data Hv Hp Hl Hn))
    as (r & w1 & Ew & -> & Hv1 & _).
  destruct (proj1 (wp_returns _ _ _) (toString_views w1 b _ Hv1)) as (r & w2 & Et & -> & _).
  by exists w1, w2.
Qed.

Lemma write_then_toString_witness : ∃ w b w1 w2,
  @write small_machine 6 (str "####") b w = (Ret 4, w1) ∧
  @toString small_machine b w1 = (Ret (str "012345####abc"), w2).
Proof.
  destruct (example_file (str "0123456789abc") eq_refl) as (w & b & _ & Hv).
  destruct (@write_then_toString small_machine small_machine_ok w b _ 6 (str "####") Hv
    ltac:(discriminate) ltac:(lia) ltac:(vm_compute; discriminate)) as (w1 & w2 & H1 & H2).
  exists w, b, w1, w2. split; [exact H1|exact H2].
Defined.
