(* ===== verification/BufferUtil.v ===== *)
(** * The overloads of [StringUtils::urldecode] and [StringUtils::parse] on a
    [DataBuffer] (library/util.cpp) *)
From S2P Require Import Prelude CLib Range Util Buffer FileBuffer DataBuffer.

Section buffer_util.
Context `{Posix}.
Implicit Types (data : DataBuffer).

(** [urldecode(DataBuffer)]: segment by segment, into one result. *)
Definition urldecode_buffer data : M world bytes :=
  for_segments id (λ w _, w) data
    (λ result it, chunk ← segment_bytes it; mret (urldecode_append chunk result)) [].

(** One turn of the loop of [parse(DataBuffer)]. *)
Definition parse_buffer_step (s : DataBuffer * list NamedValue) :
    M world ((DataBuffer * list NamedValue) + list NamedValue) :=
  let '(tmp, v) := s in
  if DataBuffer.empty tmp then mret (inr v)
  else
    '(_, head, tail) ← DataBuffer.split_char "&"%byte tmp;
    '(_, key, value) ← DataBuffer.split_char "="%byte head;
    if DataBuffer.empty key then mret (inl (tail, v))
    else
      k ← urldecode_buffer key;
      x ← urldecode_buffer value;
      mret (inl (tail, v ++ [(k, x)])).
Definition parse_buffer data (v : list NamedValue) : M world (list NamedValue) :=
  loop (2 + Z.to_nat (DataBuffer.size data)) parse_buffer_step (data, v).
End buffer_util.

(** * Lemmas *)

Section buffer_util_lemmas.
Context `{PosixOk}.
Implicit Types (data : DataBuffer) (w : world) (v : bytes).

(** In memory there is one segment, and the result is that of the string. *)
Lemma urldecode_buffer_ok w data v :
  views w data v → in_memory w data →
  wp (urldecode_buffer data) w (λ r w', r = urldecode v ∧ wle w w') noexn.
Proof.
  intros Hv Hm. unfold urldecode_buffer.
  apply (for_segments_ok id (λ w _, w) data v _
    (λ pre a w', a = urldecode pre ∧ wle w w')); try done.
  - intros pre a s w' [-> Hw] Hw'. split; [done|]. by etrans.
  - intros l d k c Hl Hh pre seg rest a s it Hvs Hone [-> Hw] Hs.
    destruct (Hone (in_memory_param _ _ _ _ _ _ Hm Hl Hh)) as [-> ->].
    rewrite app_nil_r in Hvs. simpl in *. subst seg. wp_step.
    eapply wp_mono; [by eapply iterator_deref_ok| |done].
    intros r w' [-> Hw']. wp_step. split; [split; [done|by etrans]|]. intros l' _. apply Hw'.
Qed.

Lemma in_memory_mono w w' data : wle w w' → in_memory w data → in_memory w' data.
Proof. intros Hw Hm l Hl. destruct (Hm l Hl) as (d & c & Hh). exists d, c. by apply Hw. Qed.

Lemma in_memory_data w b b' : data_ b' = data_ b → in_memory w b → in_memory w b'.
Proof. intros E Hm l Hl. apply Hm. congruence. Qed.

(** One turn consumes one field of the query string. *)
Lemma parse_buffer_step_ok w data v l :
  views w data v → in_memory w data →
  wp (parse_buffer_step (data, l)) w (λ r w', wle w w' ∧
    match parse_step (v, l), r with
    | inl (t, l'), inl (tail, l2) => l2 = l' ∧ views w' tail t ∧ data_ tail = data_ data
    | inr l', inr l2 => l2 = l'
    | _, _ => False
    end) noexn.
Proof.
  intros Hv Hm. unfold parse_buffer_step, parse_step. rewrite (empty_views _ _ _ Hv).
  destruct (Range.empty v); [by wp_step|]. wp_step.
  eapply wp_mono; [by apply split_char_views| |done].
  intros [[f1 head] tail] w1 (Hw1 & _ & Hh & Ht & Dh & Dt). simpl in *.
  destruct (Range.split_char "&"%byte v) as [[g1 vh] vt]. simpl in *. wp_step.
  eapply wp_mono; [by apply split_char_views| |done].
  intros [[f2 key] value] w2 (Hw2 & _ & Hk & Hx & Dk & Dx). simpl in *.
  destruct (Range.split_char "="%byte vh) as [[g2 vk] vx]. simpl in *.
  rewrite (empty_views _ _ _ Hk).
  assert (in_memory w2 data) as Hm2 by (apply (in_memory_mono w); [by etrans|done]).
  destruct (Range.empty vk).
  { wp_step. split; [by etrans|]. split_and!; [done|by eapply views_mono|done]. }
  wp_step. eapply wp_mono; [apply urldecode_buffer_ok; [done|]| |done].
  { eapply in_memory_data; [|exact Hm2]. congruence. }
  intros k w3 [-> Hw3]. wp_step.
  eapply wp_mono; [apply urldecode_buffer_ok; [by eapply views_mono|]| |done].
  { eapply in_memory_mono; [done|]. eapply in_memory_data; [|exact Hm2]. congruence. }
  intros x w4 [-> Hw4]. wp_step. assert (wle w1 w4) by (etrans; [done|by etrans]).
  split; [by etrans|]. split_and!; [done|by eapply views_mono|done].
Qed.

(** The loop of the parser, from any point. *)
Lemma parse_buffer_loop n v :
  (length v < n)%nat → ∀ w data l, views w data v → in_memory w data →
  wp (loop n parse_buffer_step (data, l)) w (λ r w', r = l ++ query_values v ∧ wle w w') noexn.
Proof.
  revert v. induction n as [|n IH]; intros v Hn w data l Hv Hm; [lia|].
  unfold loop; fold (@loop world). wp_step.
  eapply wp_mono; [by apply (parse_buffer_step_ok w data v l)| |done].
  intros r w' [Hw Hr].
  destruct (decide (v = [])) as [->|Hne].
  { rewrite parse_step_nil in Hr. destruct r as [|r]; [done|]. subst r. wp_step.
    unfold query_values. simpl. by rewrite app_nil_r. }
  destruct (Range.split_char "&"%byte v) as [[b h] t] eqn:Es.
  rewrite (parse_step_cons v l b h t Hne Es) in Hr. destruct r as [[tail l2]|]; [|done].
  destruct Hr as (-> & Ht & Dt).
  assert (length t < length v)%nat as Hlt.
  { eapply (Range.split_shorter ["&"%byte]); [done|done|exact Es]. }
  eapply wp_mono; [apply (IH t)|intros r w2 [-> Hw2]; split; [|by etrans]|done].
  - lia.
  - done.
  - eapply in_memory_data; [exact Dt|]. by eapply in_memory_mono.
  - rewrite <- app_assoc. f_equal. symmetry. by eapply query_values_step.
Qed.

(** On a buffer in memory the parser gives the values of the query string. *)
Lemma parse_buffer_ok w data v l :
  views w data v → in_memory w data →
  wp (parse_buffer data l) w (λ r w', r = l ++ query_values v ∧ wle w w') noexn.
Proof.
  intros Hv Hm. unfold parse_buffer. destruct (size_views _ _ _ Hv) as (-> & _).
  apply parse_buffer_loop; [rewrite to_nat_zlen; lia|done|done].
Qed.
End buffer_util_lemmas.

(** * Properties *)

(** C38: On a buffer in memory [parse(DataBuffer)] terminates and appends the same
    named values as [parse] on the bytes. *)
Theorem parse_buffer_equals_parse `{PosixOk} w data v l :
  views w data v → in_memory w data →
  ∃ r w', parse_buffer data l w = (Ret r, w') ∧ Util.parse v l = Ret r ∧ views w' data v.
Proof.
  intros Hv Hm.
  destruct (proj1 (wp_returns _ _ _) (parse_buffer_ok w data v l Hv Hm)) as (r & w' & E & -> & Hw).
  exists (l ++ query_values v), w'. split_and!; [done| |by eapply views_mono].
  apply parse_loop. lia.
Qed.

Lemma parse_buffer_equals_parse_witness : ∃ w data r w',
  @parse_buffer small_machine data [] w = (Ret r, w') ∧ Util.parse (str "a=1&b=%41") [] = Ret r.
Proof.
  destruct (proj1 (wp_returns _ _ _) (@create_views small_machine small_machine_ok empty_world
    (str "a=1&b=%41") ltac:(vm_compute; reflexivity))) as (data & w & _ & Hv & Hm & _).
  destruct (@parse_buffer_equals_parse small_machine small_machine_ok w data _ [] Hv Hm)
    as (r & w' & H1 & H2 & _).
  exists w, data, r, w'. split; [exact H1|exact H2].
Defined.

(** An escape that straddles the windows of a file is not decoded: with windows
    of eight bytes, [aaaaaa%41b] comes out as it went in. *)
Theorem urldecode_window_boundary :
  (let '(r, w) := @create_file small_machine (str "cache") 8 (str "aaaaaa%41b") empty_world in
   match r with
   | Ret b => fst (@urldecode_buffer small_machine b w)
   | _ => Undef
   end) = Ret (str "aaaaaa%41b") ∧
  urldecode (str "aaaaaa%41b") = str "aaaaaaAb".
Proof. split; vm_compute; reflexivity. Qed.
