(* ===== verification/HttpDate.v ===== *)
(** * [HttpDateUtils] (library/util.cpp)

    [gmtime_r] breaks a [time_t] down in the proleptic Gregorian calendar and
    fails when the year does not fit an [int]; [strftime] prints in the "C"
    locale. *)
From S2P Require Import Prelude CLib.

(** The fields of [struct tm] the format uses. *)
Record tm := MkTm {
  tm_sec : Z; tm_min : Z; tm_hour : Z;
  tm_mday : Z; tm_mon : Z; tm_year : Z; tm_wday : Z;
}.

(** Year, month (from 1) and day of a day counted from 1970-01-01, by eras of
    400 years that begin on the first of March. *)
Definition civil_from_days (days : Z) : Z * Z * Z :=
  let z := days + 719468 in
  let era := z / 146097 in
  let doe := z mod 146097 in
  let yoe := (doe - doe / 1460 + doe / 36524 - doe / 146096) / 365 in
  let doy := doe - (365 * yoe + yoe / 4 - yoe / 100) in
  let mp := (5 * doy + 2) / 153 in
  let d := doy - (153 * mp + 2) / 5 + 1 in
  let m := if mp <? 10 then mp + 3 else mp - 9 in
  (yoe + era * 400 + (if m <=? 2 then 1 else 0), m, d).

Definition gmtime_r (value : Z) : option tm :=
  let days := value / 86400 in
  let secs := value mod 86400 in
  let '(y, m, d) := civil_from_days days in
  if (- 2 ^ 31 <=? y - 1900) && (y - 1900 <? 2 ^ 31) then
    Some (MkTm (secs mod 60) (secs / 60 mod 60) (secs / 3600) d (m - 1) (y - 1900) ((days + 4) mod 7))
  else None.

Definition day_names : list bytes :=
  [str "Sun"; str "Mon"; str "Tue"; str "Wed"; str "Thu"; str "Fri"; str "Sat"].
Definition month_names : list bytes :=
  [str "Jan"; str "Feb"; str "Mar"; str "Apr"; str "May"; str "Jun";
   str "Jul"; str "Aug"; str "Sep"; str "Oct"; str "Nov"; str "Dec"].

(** The conversions of [strftime]: [%d], [%H], [%M], [%S] and [%Y]. *)
Definition two_digits (n : Z) : bytes := [chr (48 + n / 10); chr (48 + n mod 10)].
Definition year_digits (y : Z) : bytes :=
  if y <? 0 then "-"%byte :: decimal (- y) else decimal y.

Definition strftime_http (ts : tm) : bytes :=
  nth (Z.to_nat (tm_wday ts)) day_names [] ++ str ", " ++ two_digits (tm_mday ts) ++ str " " ++
  nth (Z.to_nat (tm_mon ts)) month_names [] ++ str " " ++ year_digits (tm_year ts + 1900) ++ str " " ++
  two_digits (tm_hour ts) ++ str ":" ++ two_digits (tm_min ts) ++ str ":" ++ two_digits (tm_sec ts) ++
  str " GMT".

(** [HttpDateUtils::format]; the text always fits the buffer of 255 bytes. *)
Definition format (value : Z) : outcome bytes :=
  match gmtime_r value with
  | Some ts => Ret (strftime_http ts)
  | None => Throw (RuntimeError (str "failed to format date"))
  end.

(** * [HttpDateUtils::parse]

    [strptime] of the "C" locale: white space of the format skips any white
    space, a number skips leading spaces and takes at most its width in
    digits, a name is compared without case and may be full or abbreviated.
    A field is set as soon as its conversion succeeds, so a text that fails
    later leaves it behind in the one [tm] all formats are tried with. *)
Definition full_day_names : list bytes :=
  [str "Sunday"; str "Monday"; str "Tuesday"; str "Wednesday"; str "Thursday"; str "Friday"; str "Saturday"].
Definition full_month_names : list bytes :=
  [str "January"; str "February"; str "March"; str "April"; str "May"; str "June";
   str "July"; str "August"; str "September"; str "October"; str "November"; str "December"].

Definition match_string (name rp : bytes) : option bytes :=
  if strncasecmp_eq (length name) name rp then Some (drop (length name) rp) else None.

(** The first name that fits, in full or abbreviated, with its index. *)
Fixpoint match_names (cnt : Z) (full short : list bytes) (rp : bytes) : option (Z * bytes) :=
  match full, short with
  | f :: full', s :: short' =>
      match match_string f rp, match_string s rp with
      | Some rp', _ | None, Some rp' => Some (cnt, rp')
      | None, None => match_names (cnt + 1) full' short' rp
      end
  | _, _ => None
  end.

(** [get_number(from, to, n)]: [n] digits at most, and no further digit once
    the value could not stay below [to]. *)
Fixpoint skip (p : byte → bool) (rp : bytes) : bytes :=
  match rp with
  | c :: rp' => if p c then skip p rp' else rp
  | [] => []
  end.
Fixpoint get_digits (n : nat) (to val : Z) (rp : bytes) : Z * bytes :=
  match n, rp with
  | S n', c :: rp' =>
      if isdigit_int (uchar c) then
        let val' := val * 10 + (uchar c - 48) in
        if val' * 10 <=? to then get_digits n' to val' rp' else (val', rp')
      else (val, rp)
  | _, _ => (val, rp)
  end.
Definition get_number (from to : Z) (n : nat) (rp : bytes) : option (Z * bytes) :=
  match skip (λ c, uchar c =? 32) rp with
  | c :: rp' =>
      if isdigit_int (uchar c) then
        let '(val, rest) := get_digits n to 0 (c :: rp') in
        if (val <? from) || (to <? val) then None else Some (val, rest)
      else None
  | [] => None
  end.

Section strptime.
Context (conversion : byte → bytes → tm → option bytes * tm).

Fixpoint strptime_with (fmt rp : bytes) (ts : tm) : option bytes * tm :=
  match fmt with
  | [] => (Some rp, ts)
  | f :: fmt' =>
      if isspace f then strptime_with fmt' (skip isspace rp) ts
      else match f, fmt' with
        | "%"%byte, c :: fmt'' =>
            match conversion c rp ts with
            | (Some rp', ts') => strptime_with fmt'' rp' ts'
            | (None, ts') => (None, ts')
            end
        | _, _ =>
            match rp with
            | c :: rp' => if bool_decide (c = f) then strptime_with fmt' rp' ts else (None, ts)
            | [] => (None, ts)
            end
        end
  end.
End strptime.

Definition set_field (r : option (Z * bytes)) (set : Z → tm) (ts : tm) : option bytes * tm :=
  match r with
  | Some (v, rp) => (Some rp, set v)
  | None => (None, ts)
  end.

Definition time_conversion (c : byte) (rp : bytes) (ts : tm) : option bytes * tm :=
  match c with
  | "H"%byte => set_field (get_number 0 23 2 rp)
      (λ v, MkTm (tm_sec ts) (tm_min ts) v (tm_mday ts) (tm_mon ts) (tm_year ts) (tm_wday ts)) ts
  | "M"%byte => set_field (get_number 0 59 2 rp)
      (λ v, MkTm (tm_sec ts) v (tm_hour ts) (tm_mday ts) (tm_mon ts) (tm_year ts) (tm_wday ts)) ts
  | "S"%byte => set_field (get_number 0 61 2 rp)
      (λ v, MkTm v (tm_min ts) (tm_hour ts) (tm_mday ts) (tm_mon ts) (tm_year ts) (tm_wday ts)) ts
  | _ => (None, ts)
  end.

(** [%T] is [%H:%M:%S]; a two digit year from 69 on is of the last century. *)
Definition conversion (c : byte) (rp : bytes) (ts : tm) : option bytes * tm :=
  match c with
  | "a"%byte | "A"%byte => set_field (match_names 0 full_day_names day_names rp)
      (λ v, MkTm (tm_sec ts) (tm_min ts) (tm_hour ts) (tm_mday ts) (tm_mon ts) (tm_year ts) v) ts
  | "b"%byte => set_field (match_names 0 full_month_names month_names rp)
      (λ v, MkTm (tm_sec ts) (tm_min ts) (tm_hour ts) (tm_mday ts) v (tm_year ts) (tm_wday ts)) ts
  | "d"%byte => set_field (get_number 1 31 2 rp)
      (λ v, MkTm (tm_sec ts) (tm_min ts) (tm_hour ts) v (tm_mon ts) (tm_year ts) (tm_wday ts)) ts
  | "Y"%byte => set_field (get_number 0 9999 4 rp)
      (λ v, MkTm (tm_sec ts) (tm_min ts) (tm_hour ts) (tm_mday ts) (tm_mon ts) (v - 1900) (tm_wday ts)) ts
  | "y"%byte => set_field (get_number 0 99 2 rp)
      (λ v, MkTm (tm_sec ts) (tm_min ts) (tm_hour ts) (tm_mday ts) (tm_mon ts)
              (if 69 <=? v then v else v + 100) (tm_wday ts)) ts
  | "T"%byte => strptime_with time_conversion (str "%H:%M:%S") rp ts
  | _ => (None, ts)
  end.
Definition strptime (rp fmt : bytes) (ts : tm) : option bytes * tm := strptime_with conversion fmt rp ts.

(** The day number of a date of the proleptic Gregorian calendar. *)
Definition days_from_civil (y m d : Z) : Z :=
  let y' := y - (if m <=? 2 then 1 else 0) in
  let yoe := y' mod 400 in
  let mp := if 2 <? m then m - 3 else m + 9 in
  let doy := (153 * mp + 2) / 5 + d - 1 in
  y' / 400 * 146097 + yoe * 365 + yoe / 4 - yoe / 100 + doy - 719468.

(** [mktime] with [tm_isdst = 0], in a zone whose standard time is always
    [timezone] seconds behind UTC. *)
Definition mktime (timezone : Z) (ts : tm) : Z :=
  days_from_civil (tm_year ts + 1900) (tm_mon ts + 1) (tm_mday ts) * 86400 +
  tm_hour ts * 3600 + tm_min ts * 60 + tm_sec ts + timezone.

Definition formats : list bytes :=
  [str "%a, %d %b %Y %T GMT"; str "%A, %d-%b-%y %T GMT"; str "%a %b %d %T %Y"].

Fixpoint parse_formats (timezone : Z) (fs : list bytes) (value : bytes) (ts : tm) : Z :=
  match fs with
  | [] => 0
  | f :: fs' =>
      match strptime value f ts with
      | (Some _, ts') => mktime timezone ts' - timezone
      | (None, ts') => parse_formats timezone fs' value ts'
      end
  end.
Definition parse (timezone : Z) (value : bytes) : Z :=
  parse_formats timezone formats value (MkTm 0 0 0 0 0 0 0).

(** The two older forms of an HTTP date. *)
Definition rfc850 (ts : tm) : bytes :=
  nth (Z.to_nat (tm_wday ts)) full_day_names [] ++ str ", " ++ two_digits (tm_mday ts) ++ str "-" ++
  nth (Z.to_nat (tm_mon ts)) month_names [] ++ str "-" ++ two_digits ((tm_year ts + 1900) mod 100) ++ str " " ++
  two_digits (tm_hour ts) ++ str ":" ++ two_digits (tm_min ts) ++ str ":" ++ two_digits (tm_sec ts) ++
  str " GMT".
Definition asctime (ts : tm) : bytes :=
  nth (Z.to_nat (tm_wday ts)) day_names [] ++ str " " ++ nth (Z.to_nat (tm_mon ts)) month_names [] ++ str " " ++
  (if tm_mday ts <? 10 then [" "%byte; chr (48 + tm_mday ts)] else two_digits (tm_mday ts)) ++ str " " ++
  two_digits (tm_hour ts) ++ str ":" ++ two_digits (tm_min ts) ++ str ":" ++ two_digits (tm_sec ts) ++ str " " ++
  year_digits (tm_year ts + 1900).

(** * Lemmas *)

Lemma format_epoch : format 0 = Ret (str "Thu, 01 Jan 1970 00:00:00 GMT").
Proof. vm_compute. reflexivity. Qed.

Lemma format_example : format 784111777 = Ret (str "Sun, 06 Nov 1994 08:49:37 GMT").
Proof. vm_compute. reflexivity. Qed.

(** ** The calendar *)

Definition year_of_era (doe : Z) : Z := (doe - doe / 1460 + doe / 36524 - doe / 146096) / 365.
Definition day_of_year (doe : Z) : Z :=
  doe - (365 * year_of_era doe + year_of_era doe / 4 - year_of_era doe / 100).

Lemma year_of_era_bounds doe : 0 <= doe < 146097 →
  0 <= year_of_era doe < 400 ∧ 0 <= day_of_year doe <= 365.
Proof.
  intros H. unfold day_of_year, year_of_era. Z.div_mod_to_equations. lia.
Qed.

Lemma month_of_day doy : 0 <= doy <= 365 →
  let mp := (5 * doy + 2) / 153 in 0 <= mp <= 11 ∧ 1 <= doy - (153 * mp + 2) / 5 + 1 <= 31.
Proof. intros H mp. unfold mp. Z.div_mod_to_equations. lia. Qed.

(** The date of a day has a month and a day in range, and is the day of that
    number. *)
Lemma days_of_civil days :
  let '(y, m, d) := civil_from_days days in
  1 <= m <= 12 ∧ 1 <= d <= 31 ∧ days_from_civil y m d = days.
Proof.
  unfold civil_from_days. set (z := days + 719468).
  assert (Hz : 0 <= z mod 146097 < 146097) by (apply Z.mod_pos_bound; lia).
  assert (Hera : z = z / 146097 * 146097 + z mod 146097)
    by (rewrite Z.mul_comm; apply Z.div_mod; lia).
  generalize dependent (z / 146097). intros era.
  generalize dependent (z mod 146097). intros doe Hdoe Hera.
  fold (year_of_era doe). fold (day_of_year doe).
  destruct (year_of_era_bounds doe Hdoe) as [Hy Hd].
  assert (Hdoe' : doe = 365 * year_of_era doe + year_of_era doe / 4 - year_of_era doe / 100 + day_of_year doe)
    by (unfold day_of_year; lia).
  generalize dependent (day_of_year doe). intros doy Hd Hdoe'.
  generalize dependent (year_of_era doe). intros yoe Hy Hdoe'.
  pose proof (month_of_day doy Hd) as [Hm Hday]. cbv zeta.
  set (mp := (5 * doy + 2) / 153) in *.
  assert (Hera2 : (yoe + era * 400) / 400 = era) by (rewrite Z.div_add by lia; rewrite Z.div_small; lia).
  assert (Hyoe : (yoe + era * 400) mod 400 = yoe) by (rewrite Z.mod_add by lia; apply Z.mod_small; lia).
  split; [destruct (Z.ltb_spec mp 10); lia|]. split; [lia|]. unfold days_from_civil.
  destruct (mp <? 10) eqn:E; cycle 1.
  - replace (mp - 9 <=? 2) with true by lia. replace (2 <? mp - 9) with false by lia.
    replace (yoe + era * 400 + 1 - 1) with (yoe + era * 400) by lia. rewrite Hera2, Hyoe.
    replace (mp - 9 + 9) with mp by lia. lia.
  - replace (mp + 3 <=? 2) with false by lia. replace (2 <? mp + 3) with true by lia.
    replace (yoe + era * 400 + 0 - 0) with (yoe + era * 400) by lia. rewrite Hera2, Hyoe.
    replace (mp + 3 - 3) with mp by lia. lia.
Qed.

(** The fields [gmtime_r] leaves, and their value. *)
Record tm_wf (ts : tm) : Prop := MkTmWf {
  wf_sec : 0 <= tm_sec ts <= 59;
  wf_min : 0 <= tm_min ts <= 59;
  wf_hour : 0 <= tm_hour ts <= 23;
  wf_mday : 1 <= tm_mday ts <= 31;
  wf_mon : 0 <= tm_mon ts <= 11;
  wf_wday : 0 <= tm_wday ts <= 6;
}.

Lemma gmtime_mktime value ts timezone :
  gmtime_r value = Some ts → tm_wf ts ∧ mktime timezone ts = value + timezone.
Proof.
  unfold gmtime_r. pose proof (days_of_civil (value / 86400)) as H.
  destruct (civil_from_days _) as [[y m] d]. destruct H as (Hm & Hd & Hdays).
  case_match; [|discriminate]. intros [= <-].
  pose proof (Z.mod_pos_bound value 86400 ltac:(lia)).
  split.
  - split; cbn; Z.div_mod_to_equations; lia.
  - unfold mktime; cbn.
    replace (y - 1900 + 1900) with y by lia. replace (m - 1 + 1) with m by lia. rewrite Hdays.
    Z.div_mod_to_equations. lia.
Qed.

(** ** [strptime] *)

Section format_steps.
Context (conv : byte → bytes → tm → option bytes * tm).

Lemma strptime_space f fmt rp ts :
  isspace f = true → strptime_with conv (f :: fmt) rp ts = strptime_with conv fmt (skip isspace rp) ts.
Proof. intros H. cbn [strptime_with]. by rewrite H. Qed.

Lemma strptime_char f fmt rp ts :
  isspace f = false → f ≠ "%"%byte →
  strptime_with conv (f :: fmt) (f :: rp) ts = strptime_with conv fmt rp ts.
Proof. intros H Hf. cbn [strptime_with]. rewrite H, bool_decide_true by done. by destruct f, fmt. Qed.

Lemma strptime_conversion c fmt rp ts rp' ts' :
  conv c rp ts = (Some rp', ts') →
  strptime_with conv ("%"%byte :: c :: fmt) rp ts = strptime_with conv fmt rp' ts'.
Proof. intros H. cbn [strptime_with]. replace (isspace "%"%byte) with false by done. by rewrite H. Qed.
End format_steps.

(** A run of digits is read to its value. *)
Definition is_digit (c : byte) : Prop := isdigit_int (uchar c) = true.
Definition not_digit (rp : bytes) : Prop :=
  match rp with c :: _ => isdigit_int (uchar c) = false | [] => True end.

Lemma digits_grow a l : 0 <= a → Forall is_digit l → l ≠ [] → a * 10 <= foldl digit_step a l.
Proof.
  intros Ha H. revert a Ha; induction H as [|c l Hc H IH]; intros a Ha Hl; [done|]. cbn [foldl].
  assert (a * 10 <= digit_step a c) by (unfold digit_step, is_digit, isdigit_int in *; lia).
  destruct l as [|d l]; [done|]. pose proof (IH (digit_step a c) ltac:(lia) ltac:(done)). lia.
Qed.

Lemma get_digits_run n to val l rp :
  0 <= val → Forall is_digit l → (length l <= n)%nat → not_digit rp ∨ length l = n →
  foldl digit_step val l <= to →
  get_digits n to val (l ++ rp) = (foldl digit_step val l, rp).
Proof.
  intros Hv H. revert n val Hv; induction H as [|c l Hc H IH]; intros n val Hv Hn Hrp Hto.
  - destruct n, rp; cbn; try done. destruct Hrp as [Hrp|Hrp]; [|done]. cbn in Hrp. by rewrite Hrp.
  - destruct n as [|n]; [cbn in Hn; lia|]. cbn [app get_digits foldl] in *.
    assert (val * 10 + (uchar c - 48) = digit_step val c) as -> by (unfold digit_step; lia).
    assert (0 <= digit_step val c) by (unfold digit_step, is_digit, isdigit_int in *; lia).
    unfold is_digit in Hc. rewrite Hc. cbn in Hn, Hrp. case_match eqn:E.
    + apply IH; [done|lia| |done]. destruct Hrp; [by left|right; lia].
    + destruct l as [|d l]; [done|].
      pose proof (digits_grow (digit_step val c) (d :: l) ltac:(done) ltac:(done) ltac:(done)). lia.
Qed.

Lemma get_number_run from to n l rp :
  Forall is_digit l → (0 < length l <= n)%nat → not_digit rp ∨ length l = n →
  from <= digits_value l <= to → get_number from to n (l ++ rp) = Some (digits_value l, rp).
Proof.
  intros H Hn Hrp Hv. destruct l as [|c l]; [cbn in Hn; lia|]. unfold get_number. cbn [app skip].
  pose proof (Forall_inv H) as Hc. unfold is_digit in Hc.
  replace (uchar c =? 32) with false by (unfold isdigit_int in Hc; lia). rewrite Hc.
  change (c :: l ++ rp) with ((c :: l) ++ rp).
  unfold digits_value in *. rewrite get_digits_run by (done || lia).
  by replace (_ || _) with false by lia.
Qed.

(** A number of two digits, and one of one digit. *)
Lemma is_digit_chr d : 0 <= d <= 9 → is_digit (chr (48 + d)).
Proof. intros. unfold is_digit, isdigit_int. rewrite uchar_chr, Z.mod_small by lia. lia. Qed.

Lemma digit_value d a : 0 <= d <= 9 → digit_step a (chr (48 + d)) = 10 * a + d.
Proof. intros. unfold digit_step. rewrite uchar_chr, Z.mod_small by lia. lia. Qed.

Lemma two_digits_range n : 0 <= n <= 99 → 0 <= n / 10 <= 9 ∧ 0 <= n mod 10 <= 9 ∧ 10 * (n / 10) + n mod 10 = n.
Proof. intros. Z.div_mod_to_equations. lia. Qed.

Lemma get_number_two from to n rp :
  from <= n <= to → 0 <= n <= 99 → get_number from to 2 (two_digits n ++ rp) = Some (n, rp).
Proof.
  intros H H0. destruct (two_digits_range n H0) as (Ha & Hb & Hn).
  assert (digits_value (two_digits n) = n) as Hv.
  { unfold digits_value, two_digits. cbn [foldl]. rewrite !digit_value; lia. }
  rewrite <- Hv at 2. apply get_number_run; [|cbn; lia|by right|lia].
  repeat constructor; by apply is_digit_chr.
Qed.

Lemma get_number_one from to n rp :
  from <= n <= to → 0 <= n <= 9 → not_digit rp →
  get_number from to 2 (chr (48 + n) :: rp) = Some (n, rp).
Proof.
  intros H H0 Hrp.
  assert (digits_value [chr (48 + n)] = n) as Hv by (unfold digits_value; cbn [foldl]; rewrite digit_value; lia).
  rewrite <- Hv at 2. apply (get_number_run _ _ _ [_]); [|cbn; lia|by left|lia].
  repeat constructor. by apply is_digit_chr.
Qed.

(** A year of at most four digits. *)
Lemma decimal_digits_length k f n acc :
  0 <= n < 10 ^ Z.of_nat (S k) → (length (decimal_digits f n acc) <= length acc + S k)%nat.
Proof.
  revert f n acc; induction k as [|k IH]; intros f n acc Hn; (destruct f as [|f]; [cbn; lia|]); cbn [decimal_digits].
  - change (10 ^ Z.of_nat 1) with 10 in Hn. replace (n <? 10) with true by lia. cbn. lia.
  - case_match; [cbn; lia|]. rewrite Nat2Z.inj_succ, Z.pow_succ_r in Hn by lia.
    etransitivity; [apply IH; split; [apply Z.div_pos; lia|apply Z.div_lt_upper_bound; lia]|]. cbn. lia.
Qed.

Lemma get_number_year y rp :
  0 <= y <= 9999 → not_digit rp → get_number 0 9999 4 (year_digits y ++ rp) = Some (y, rp).
Proof.
  intros H Hrp. unfold year_digits. replace (y <? 0) with false by lia.
  rewrite <- (decimal_value y) at 2 by lia.
  apply get_number_run; [apply decimal_digits_all; [lia|constructor]| |by left|rewrite decimal_value; lia].
  pose proof (decimal_nonempty y). pose proof (decimal_digits_length 3 20 y [] ltac:(cbn; lia)) as Hl.
  fold (decimal y) in Hl. destruct (decimal y); [done|cbn in Hl |- *; lia].
Qed.

(** A name followed by a character that no name goes on with. *)
Lemma match_day k rp c :
  0 <= k <= 6 → (c = ","%byte ∨ c = " "%byte) →
  match_names 0 full_day_names day_names (nth (Z.to_nat k) day_names [] ++ c :: rp) = Some (k, c :: rp).
Proof.
  intros H Hc. assert (k = 0 ∨ k = 1 ∨ k = 2 ∨ k = 3 ∨ k = 4 ∨ k = 5 ∨ k = 6) by lia.
  destruct_or!; subst; vm_compute; reflexivity.
Qed.
Lemma match_full_day k rp :
  0 <= k <= 6 →
  match_names 0 full_day_names day_names (nth (Z.to_nat k) full_day_names [] ++ rp) = Some (k, rp).
Proof.
  intros H. assert (k = 0 ∨ k = 1 ∨ k = 2 ∨ k = 3 ∨ k = 4 ∨ k = 5 ∨ k = 6) by lia.
  destruct_or!; subst; vm_compute; reflexivity.
Qed.
Lemma match_month k rp c :
  0 <= k <= 11 → (c = "-"%byte ∨ c = " "%byte) →
  match_names 0 full_month_names month_names (nth (Z.to_nat k) month_names [] ++ c :: rp) = Some (k, c :: rp).
Proof.
  intros H Hc.
  assert (k = 0 ∨ k = 1 ∨ k = 2 ∨ k = 3 ∨ k = 4 ∨ k = 5 ∨ k = 6 ∨ k = 7 ∨ k = 8 ∨ k = 9 ∨ k = 10 ∨ k = 11) by lia.
  destruct_or!; subst; vm_compute; reflexivity.
Qed.

Lemma skip_space rp : skip isspace (" "%byte :: rp) = skip isspace rp.
Proof. done. Qed.

Lemma skip_stop c rp : isspace c = false → skip isspace (c :: rp) = c :: rp.
Proof. intros H. cbn [skip]. by rewrite H. Qed.

Lemma is_digit_not_space c : is_digit c → isspace c = false.
Proof.
  unfold is_digit, isdigit_int, isspace, isspace_int. intros H. rewrite schar_nonneg by lia. lia.
Qed.

Lemma skip_digits l rp : Forall is_digit l → l ≠ [] → skip isspace (l ++ rp) = l ++ rp.
Proof. intros H Hl. destruct H; [done|]. apply skip_stop. by apply is_digit_not_space. Qed.

Lemma skip_two n rp : 0 <= n <= 99 → skip isspace (two_digits n ++ rp) = two_digits n ++ rp.
Proof.
  intros H. destruct (two_digits_range n H) as (Ha & Hb & _).
  apply skip_digits; [repeat constructor; by apply is_digit_chr|done].
Qed.

Lemma skip_one n rp : 0 <= n <= 9 → skip isspace (chr (48 + n) :: rp) = chr (48 + n) :: rp.
Proof. intros H. apply skip_stop, is_digit_not_space. by apply is_digit_chr. Qed.

Lemma skip_year y rp : 0 <= y → skip isspace (year_digits y ++ rp) = year_digits y ++ rp.
Proof.
  intros H. unfold year_digits. replace (y <? 0) with false by lia.
  apply skip_digits; [apply decimal_digits_all; [lia|constructor]|apply decimal_nonempty].
Qed.

Lemma skip_month k rp :
  0 <= k <= 11 → skip isspace (nth (Z.to_nat k) month_names [] ++ rp) = nth (Z.to_nat k) month_names [] ++ rp.
Proof.
  intros H.
  assert (k = 0 ∨ k = 1 ∨ k = 2 ∨ k = 3 ∨ k = 4 ∨ k = 5 ∨ k = 6 ∨ k = 7 ∨ k = 8 ∨ k = 9 ∨ k = 10 ∨ k = 11) by lia.
  destruct_or!; subst; reflexivity.
Qed.

(** Literal strings as the characters they are. *)
Ltac literals :=
  repeat match goal with
    |- context [str ?s] => let v := eval vm_compute in (str s) in change (str s) with v
    end; cbn [app].

(** Runs a format: an element of it at a time, and the number or the name of a
    conversion by its lemma. *)
Ltac skips :=
  repeat first
    [ rewrite skip_space | rewrite skip_two by lia | rewrite skip_one by lia | rewrite skip_year by lia
    | rewrite skip_month by lia | rewrite skip_stop by done ].
Ltac convert :=
  first
    [ by rewrite get_number_two by lia
    | by rewrite get_number_one by (done || lia)
    | by rewrite get_number_year by (done || lia)
    | by rewrite match_day by auto
    | by rewrite match_full_day by auto
    | by rewrite match_month by auto ].
Ltac format_step :=
  first
    [ rewrite strptime_space by reflexivity; skips
    | rewrite strptime_char by done
    | erewrite strptime_conversion; [|cbn [conversion time_conversion]; convert];
      cbn [tm_sec tm_min tm_hour tm_mday tm_mon tm_year tm_wday] ].

Lemma strptime_time h m s rp ts :
  0 <= h <= 23 → 0 <= m <= 59 → 0 <= s <= 59 →
  conversion "T" (two_digits h ++ ":"%byte :: two_digits m ++ ":"%byte :: two_digits s ++ rp) ts =
  (Some rp, MkTm s m h (tm_mday ts) (tm_mon ts) (tm_year ts) (tm_wday ts)).
Proof. intros Hh Hm Hs. cbn [conversion]. literals. by repeat format_step. Qed.

(** The formats of [formats], on the three forms, from any [tm]. *)
Section three_forms.
Context (ts : tm) (Hwf : tm_wf ts) (ts0 : tm).

Ltac run_format :=
  destruct Hwf as [Hs Hmi Hh Hd Hmo Hw], ts as [s mi h d mo y w], ts0; cbn [tm_sec tm_min tm_hour tm_mday tm_mon tm_year tm_wday] in *;
  unfold strptime; literals; repeat format_step.
Ltac run_time :=
  erewrite strptime_conversion by (rewrite strptime_time by lia; done);
  cbn [tm_sec tm_min tm_hour tm_mday tm_mon tm_year tm_wday]; repeat format_step.

Lemma strptime_http :
  0 <= tm_year ts + 1900 <= 9999 →
  strptime (strftime_http ts) (str "%a, %d %b %Y %T GMT") ts0 = (Some [], ts).
Proof.
  intros Hy. unfold strftime_http. run_format. run_time.
  cbn [strptime_with]. by replace (y + 1900 - 1900) with y by lia.
Qed.

Lemma strptime_rfc850 :
  1969 <= tm_year ts + 1900 <= 2068 →
  strptime (rfc850 ts) (str "%A, %d-%b-%y %T GMT") ts0 = (Some [], ts).
Proof.
  intros Hy. pose proof (Z.mod_pos_bound (tm_year ts + 1900) 100 ltac:(lia)). unfold rfc850.
  run_format. run_time. cbn [strptime_with]. repeat f_equal. case_match; Z.div_mod_to_equations; lia.
Qed.

Lemma strptime_asctime :
  0 <= tm_year ts + 1900 <= 9999 →
  strptime (asctime ts) (str "%a %b %d %T %Y") ts0 = (Some [], ts).
Proof.
  intros Hy. unfold asctime. rewrite <- (app_nil_r (year_digits _)). case_match; run_format; run_time;
    cbn [strptime_with]; by replace (y + 1900 - 1900) with y by lia.
Qed.

(** The formats that do not fit. *)
Lemma strptime_rfc850_first : ∃ ts', strptime (rfc850 ts) (str "%a, %d %b %Y %T GMT") ts0 = (None, ts').
Proof. unfold rfc850. run_format. by eexists. Qed.

Lemma strptime_asctime_first : ∃ ts', strptime (asctime ts) (str "%a, %d %b %Y %T GMT") ts0 = (None, ts').
Proof. unfold asctime. run_format. by eexists. Qed.

Lemma strptime_asctime_second : ∃ ts', strptime (asctime ts) (str "%A, %d-%b-%y %T GMT") ts0 = (None, ts').
Proof. unfold asctime. run_format. by eexists. Qed.
End three_forms.

Lemma parse_http timezone ts :
  tm_wf ts → 0 <= tm_year ts + 1900 <= 9999 → parse timezone (strftime_http ts) = mktime timezone ts - timezone.
Proof. intros Hwf Hy. unfold parse, formats. cbn [parse_formats]. by rewrite strptime_http. Qed.

Lemma parse_rfc850 timezone ts :
  tm_wf ts → 1969 <= tm_year ts + 1900 <= 2068 → parse timezone (rfc850 ts) = mktime timezone ts - timezone.
Proof.
  intros Hwf Hy. unfold parse, formats. cbn [parse_formats].
  destruct (strptime_rfc850_first ts Hwf (MkTm 0 0 0 0 0 0 0)) as [ts1 ->]. by rewrite strptime_rfc850.
Qed.

Lemma parse_asctime timezone ts :
  tm_wf ts → 0 <= tm_year ts + 1900 <= 9999 → parse timezone (asctime ts) = mktime timezone ts - timezone.
Proof.
  intros Hwf Hy. unfold parse, formats. cbn [parse_formats].
  destruct (strptime_asctime_first ts Hwf (MkTm 0 0 0 0 0 0 0)) as [ts1 ->].
  destruct (strptime_asctime_second ts Hwf ts1) as [ts2 ->]. by rewrite strptime_asctime.
Qed.

(** C25: [HttpDateUtils::parse] returns the time that was printed, in each of the
    three forms of an HTTP date and whatever the local time zone is: what
    [format] writes for a year of at most four digits, the form with dashes
    for the years 1969 to 2068, which its two digits stand for, and the form
    of [asctime]. *)
Theorem parse_http_dates timezone value ts :
  gmtime_r value = Some ts →
  (0 <= tm_year ts + 1900 <= 9999 →
   (∃ s, format value = Ret s ∧ parse timezone s = value) ∧ parse timezone (asctime ts) = value) ∧
  (1969 <= tm_year ts + 1900 <= 2068 → parse timezone (rfc850 ts) = value).
Proof.
  intros H. destruct (gmtime_mktime value ts timezone H) as [Hwf Hv]. split; intros Hy.
  - split; [|rewrite parse_asctime by done; lia].
    exists (strftime_http ts). split; [unfold format; by rewrite H|]. rewrite parse_http by done. lia.
  - rewrite parse_rfc850 by done. lia.
Qed.

(** The dates of section 3.3.1 of RFC 2616, read three hours east. *)
Lemma parse_http_dates_witness :
  gmtime_r 784111777 = Some (MkTm 37 49 8 6 10 94 0) ∧
  asctime (MkTm 37 49 8 6 10 94 0) = str "Sun Nov  6 08:49:37 1994" ∧
  rfc850 (MkTm 37 49 8 6 10 94 0) = str "Sunday, 06-Nov-94 08:49:37 GMT" ∧
  parse (-10800) (str "Sun, 06 Nov 1994 08:49:37 GMT") = 784111777 ∧
  parse (-10800) (asctime (MkTm 37 49 8 6 10 94 0)) = 784111777 ∧
  parse (-10800) (rfc850 (MkTm 37 49 8 6 10 94 0)) = 784111777.
Proof.
  do 3 (split; [reflexivity|]).
  destruct (parse_http_dates (-10800) 784111777 (MkTm 37 49 8 6 10 94 0) eq_refl) as [H1 H2].
  split; [reflexivity|]. split; [apply H1|apply H2]; cbn; lia.
Defined.
