(* ===== verification/Cookie.v ===== *)
(** * [Cookie] (library/cookie.cpp)

    A [Cookie] owns its [CookieData] and copies it when it is copied or
    assigned, so a cookie is the record of its data. *)
From S2P Require Import Prelude CLib Range Util Containers HttpDate.

Definition MAX_EXPIRES_TIME : Z := 2 ^ 31 - 1.

Record CookieData := MkCookieData {
  secure_ : bool;
  http_only_ : bool;
  encode_ : bool;
  expires_ : Z;
  name_ : bytes;
  value_ : bytes;
  path_ : bytes;
  domain_ : bytes;
}.

Module CookieData.
(** [CookieData(name, value)]. *)
Definition make (name value : bytes) : CookieData :=
  MkCookieData false false false 0 name value (str "/") [].

(** The accessors. *)
Definition name (c : CookieData) : bytes := name_ c.
Definition value (c : CookieData) : bytes := value_ c.
Definition secure (c : CookieData) : bool := secure_ c.
Definition httpOnly (c : CookieData) : bool := http_only_ c.
Definition expires (c : CookieData) : Z := expires_ c.
Definition path (c : CookieData) : bytes := path_ c.
Definition domain (c : CookieData) : bytes := domain_ c.
Definition permanent (c : CookieData) : bool := expires_ c =? MAX_EXPIRES_TIME.

(** The modifiers. *)
Definition set_secure (v : bool) (c : CookieData) : CookieData :=
  MkCookieData v (http_only_ c) (encode_ c) (expires_ c) (name_ c) (value_ c) (path_ c) (domain_ c).
Definition set_httpOnly (v : bool) (c : CookieData) : CookieData :=
  MkCookieData (secure_ c) v (encode_ c) (expires_ c) (name_ c) (value_ c) (path_ c) (domain_ c).
Definition set_expires (v : Z) (c : CookieData) : CookieData :=
  MkCookieData (secure_ c) (http_only_ c) (encode_ c) v (name_ c) (value_ c) (path_ c) (domain_ c).
Definition set_path (v : bytes) (c : CookieData) : CookieData :=
  MkCookieData (secure_ c) (http_only_ c) (encode_ c) (expires_ c) (name_ c) (value_ c) v (domain_ c).
Definition set_domain (v : bytes) (c : CookieData) : CookieData :=
  MkCookieData (secure_ c) (http_only_ c) (encode_ c) (expires_ c) (name_ c) (value_ c) (path_ c) v.
Definition set_permanent (v : bool) (c : CookieData) : CookieData :=
  set_expires (if v then MAX_EXPIRES_TIME else 0) c.
Definition urlEncode (v : bool) (c : CookieData) : CookieData :=
  MkCookieData (secure_ c) (http_only_ c) v (expires_ c) (name_ c) (value_ c) (path_ c) (domain_ c).

Definition toString (c : CookieData) : outcome bytes :=
  let stream := name_ c ++ str "=" ++ (if encode_ c then urlencode (value_ c) else value_ c) in
  let stream := if Range.empty (domain_ c) then stream else stream ++ str "; domain=" ++ domain_ c in
  let stream := if Range.empty (path_ c) then stream else stream ++ str "; path=" ++ path_ c in
  stream ← (if expires_ c =? 0 then Ret stream
            else date ← format (expires_ c); Ret (stream ++ str "; expires=" ++ date));
  let stream := if secure_ c then stream ++ str "; secure" else stream in
  let stream := if http_only_ c then stream ++ str "; HttpOnly" else stream in
  Ret stream.
End CookieData.

(** ** Cookie: every method is that of the data it owns *)

Definition make (name value : bytes) : CookieData := CookieData.make name value.
Definition copy (cookie : CookieData) : CookieData := cookie.
Definition name (c : CookieData) : bytes := CookieData.name c.
Definition value (c : CookieData) : bytes := CookieData.value c.
Definition secure (c : CookieData) : bool := CookieData.secure c.
Definition set_secure (v : bool) (c : CookieData) : CookieData := CookieData.set_secure v c.
Definition httpOnly (c : CookieData) : bool := CookieData.httpOnly c.
Definition set_httpOnly (v : bool) (c : CookieData) : CookieData := CookieData.set_httpOnly v c.
Definition expires (c : CookieData) : Z := CookieData.expires c.
Definition set_expires (v : Z) (c : CookieData) : CookieData := CookieData.set_expires v c.
Definition path (c : CookieData) : bytes := CookieData.path c.
Definition set_path (v : bytes) (c : CookieData) : CookieData := CookieData.set_path v c.
Definition domain (c : CookieData) : bytes := CookieData.domain c.
Definition set_domain (v : bytes) (c : CookieData) : CookieData := CookieData.set_domain v c.
Definition permanent (c : CookieData) : bool := CookieData.permanent c.
Definition set_permanent (v : bool) (c : CookieData) : CookieData := CookieData.set_permanent v c.
Definition toString (c : CookieData) : outcome bytes := CookieData.toString c.
Definition urlEncode (v : bool) (c : CookieData) : CookieData := CookieData.urlEncode v c.

(** [operator <] and [operator =]. *)
Definition op_lt (c d : CookieData) : bool := string_lt (name c) (name d).
Definition assign (_ cookie : CookieData) : CookieData := copy cookie.

(** A [std::set<Cookie>]: the cookies by their names, in the order of
    [operator <]; the replacement of an equivalent cookie is that of
    [RequestImpl::setCookie]. *)
Abbreviation CookieSet := (list (bytes * CookieData)).
Definition cookie_set (c : CookieData) (s : CookieSet) : CookieSet := map_set (name c) c s.

(** ** Specification: the attributes of a cookie and their concatenation *)

Definition attribute (b : bool) (a : bytes) : list bytes := if b then [a] else [].
Definition attributes (c : CookieData) : outcome (list bytes) :=
  date ← (if expires_ c =? 0 then Ret [] else d ← format (expires_ c); Ret [str "expires=" ++ d]);
  Ret ([name_ c ++ str "=" ++ (if encode_ c then urlencode (value_ c) else value_ c)] ++
       attribute (negb (Range.empty (domain_ c))) (str "domain=" ++ domain_ c) ++
       attribute (negb (Range.empty (path_ c))) (str "path=" ++ path_ c) ++
       date ++ attribute (secure_ c) (str "secure") ++ attribute (http_only_ c) (str "HttpOnly")).

Fixpoint join (sep : bytes) (l : list bytes) : bytes :=
  match l with
  | [] => []
  | [a] => a
  | a :: l => a ++ sep ++ join sep l
  end.

(** * Properties *)

(** A cookie is printed as its attributes separated by semicolons: the pair,
    then domain, path, date, [secure] and [HttpOnly], each exactly when it is
    set; the only failure is that of the date. *)
Theorem toString_attributes c :
  toString c = l ← attributes c; Ret (join (str "; ") l).
Proof.
  unfold toString, CookieData.toString, attributes. set (p := name_ c ++ _).
  destruct (Range.empty (domain_ c)), (Range.empty (path_ c)), (expires_ c =? 0);
    try (destruct (format (expires_ c)) as [date| | |]; try done);
    destruct (secure_ c), (http_only_ c); simpl; by rewrite <- ?app_assoc.
Qed.
