(* ===== verification/RequestState.v ===== *)
(** * The state of a request
    (class [RequestImpl] and class [File] of include/details/requestimpl.h)
    and the interfaces it is given: the stream of the web server
    ([RequestIOStream]) and the request cache ([RequestCache]). *)
From S2P Require Import Prelude CLib Range Util Containers Buffer FileBuffer DataBuffer HttpDate Cookie.

(** ** File *)

Record File := MkFile { f_name : bytes; f_type : bytes; f_data : DataBuffer }.

Module File.
Definition type (f : File) : bytes := f_type f.
Definition remoteName (f : File) : bytes := f_name f.
Definition data (f : File) : DataBuffer := f_data f.
End File.

(** ** RequestImpl *)

(** [stream_] says whether a stream is attached; the logger has no effect on
    the state and the cache is a parameter of the operations that use it. *)
Record RequestImpl := MkRequestImpl {
  headers_sent_ : bool;
  status_ : Z;
  processed_ : bool;
  delay_ : Z;
  stream_ : bool;
  vars_ : list (bytes * bytes);
  cookies_ : list (bytes * bytes);
  body_ : DataBuffer;
  headers_ : list (bytes * bytes);
  out_headers_ : list (bytes * bytes);
  out_cookies_ : CookieSet;
  files_ : list (bytes * File);
  args_ : list NamedValue;
}.

Section setters.
Context (r : RequestImpl).
Definition set_headers_sent (v : bool) : RequestImpl :=
  MkRequestImpl v (status_ r) (processed_ r) (delay_ r) (stream_ r) (vars_ r) (cookies_ r) (body_ r)
    (headers_ r) (out_headers_ r) (out_cookies_ r) (files_ r) (args_ r).
Definition set_status (v : Z) : RequestImpl :=
  MkRequestImpl (headers_sent_ r) v (processed_ r) (delay_ r) (stream_ r) (vars_ r) (cookies_ r) (body_ r)
    (headers_ r) (out_headers_ r) (out_cookies_ r) (files_ r) (args_ r).
Definition set_processed (v : bool) : RequestImpl :=
  MkRequestImpl (headers_sent_ r) (status_ r) v (delay_ r) (stream_ r) (vars_ r) (cookies_ r) (body_ r)
    (headers_ r) (out_headers_ r) (out_cookies_ r) (files_ r) (args_ r).
Definition set_delay (v : Z) : RequestImpl :=
  MkRequestImpl (headers_sent_ r) (status_ r) (processed_ r) v (stream_ r) (vars_ r) (cookies_ r) (body_ r)
    (headers_ r) (out_headers_ r) (out_cookies_ r) (files_ r) (args_ r).
Definition set_stream (v : bool) : RequestImpl :=
  MkRequestImpl (headers_sent_ r) (status_ r) (processed_ r) (delay_ r) v (vars_ r) (cookies_ r) (body_ r)
    (headers_ r) (out_headers_ r) (out_cookies_ r) (files_ r) (args_ r).
Definition set_vars (v : list (bytes * bytes)) : RequestImpl :=
  MkRequestImpl (headers_sent_ r) (status_ r) (processed_ r) (delay_ r) (stream_ r) v (cookies_ r) (body_ r)
    (headers_ r) (out_headers_ r) (out_cookies_ r) (files_ r) (args_ r).
Definition set_cookies (v : list (bytes * bytes)) : RequestImpl :=
  MkRequestImpl (headers_sent_ r) (status_ r) (processed_ r) (delay_ r) (stream_ r) (vars_ r) v (body_ r)
    (headers_ r) (out_headers_ r) (out_cookies_ r) (files_ r) (args_ r).
Definition set_body (v : DataBuffer) : RequestImpl :=
  MkRequestImpl (headers_sent_ r) (status_ r) (processed_ r) (delay_ r) (stream_ r) (vars_ r) (cookies_ r) v
    (headers_ r) (out_headers_ r) (out_cookies_ r) (files_ r) (args_ r).
Definition set_headers (v : list (bytes * bytes)) : RequestImpl :=
  MkRequestImpl (headers_sent_ r) (status_ r) (processed_ r) (delay_ r) (stream_ r) (vars_ r) (cookies_ r) (body_ r)
    v (out_headers_ r) (out_cookies_ r) (files_ r) (args_ r).
Definition set_out_headers (v : list (bytes * bytes)) : RequestImpl :=
  MkRequestImpl (headers_sent_ r) (status_ r) (processed_ r) (delay_ r) (stream_ r) (vars_ r) (cookies_ r) (body_ r)
    (headers_ r) v (out_cookies_ r) (files_ r) (args_ r).
Definition set_out_cookies (v : CookieSet) : RequestImpl :=
  MkRequestImpl (headers_sent_ r) (status_ r) (processed_ r) (delay_ r) (stream_ r) (vars_ r) (cookies_ r) (body_ r)
    (headers_ r) (out_headers_ r) v (files_ r) (args_ r).
Definition set_files (v : list (bytes * File)) : RequestImpl :=
  MkRequestImpl (headers_sent_ r) (status_ r) (processed_ r) (delay_ r) (stream_ r) (vars_ r) (cookies_ r) (body_ r)
    (headers_ r) (out_headers_ r) (out_cookies_ r) v (args_ r).
Definition set_args (v : list NamedValue) : RequestImpl :=
  MkRequestImpl (headers_sent_ r) (status_ r) (processed_ r) (delay_ r) (stream_ r) (vars_ r) (cookies_ r) (body_ r)
    (headers_ r) (out_headers_ r) (out_cookies_ r) (files_ r) v.
End setters.

(** [RequestImpl(logger, cache)]. *)
Definition new_request : RequestImpl :=
  MkRequestImpl false 200 false 0 false [] [] nil_buffer [] [] [] [] [].

(** ** What an operation of a request runs on

    The request, the world of buffers and the stream of the web server. *)
Record rstate (IO : Type) := MkState { rq : RequestImpl; wd : world; io : IO }.
Arguments MkState {IO} _ _ _.
Arguments rq {IO} _.
Arguments wd {IO} _.
Arguments io {IO} _.

Section access.
Context {IO : Type}.

Definition set_wd (w : world) (s : rstate IO) : rstate IO := MkState (rq s) w (io s).
Definition set_io (o : IO) (s : rstate IO) : rstate IO := MkState (rq s) (wd s) o.
Definition set_rq (r : RequestImpl) (s : rstate IO) : rstate IO := MkState r (wd s) (io s).

Definition request : M (rstate IO) RequestImpl := λ s, (Ret (rq s), s).
Definition update_rq (f : RequestImpl → RequestImpl) : M (rstate IO) unit :=
  λ s, (Ret (), set_rq (f (rq s)) s).
Definition on_world {A} (m : M world A) : M (rstate IO) A := zoom wd set_wd m.
Definition on_io {A} (m : M IO A) : M (rstate IO) A := zoom io set_io m.
Definition on_rq {A} (m : M RequestImpl A) : M (rstate IO) A := zoom rq set_rq m.
End access.

(** ** RequestIOStream (include/fastcgi2/request_io_stream.h)

    The sizes are [int]s.  [s_read n] gives the bytes it stored; [s_write_buf]
    is given the bytes the [streambuf] delivers. *)
Class RequestIOStream (IO : Type) := {
  s_read : Z → M IO bytes;
  s_write : bytes → Z → M IO Z;
  s_write_buf : bytes → M IO unit;
}.

(** Conversion of a 64-bit size to [int]. *)
Definition to_int (n : Z) : Z := if u32 n <? 2 ^ 31 then u32 n else u32 n - 2 ^ 32.

(** A stream that keeps everything it is given, and delivers what the client
    sends in order. *)
Class StreamLaws (IO : Type) `{RequestIOStream IO} := {
  sent : IO → bytes;
  incoming : IO → bytes;
  s_write_ok d n o : n = zlen d →
    wp (s_write d n) o (λ _ o', sent o' = sent o ++ d ∧ incoming o' = incoming o) noexn;
  s_write_buf_ok d o :
    wp (s_write_buf d) o (λ _ o', sent o' = sent o ++ d ∧ incoming o' = incoming o) noexn;
  s_read_ok n o : 0 <= n →
    wp (s_read n) o (λ r o', r = take (Z.to_nat n) (incoming o) ∧
                             incoming o' = drop (Z.to_nat n) (incoming o) ∧ sent o' = sent o) noexn;
}.

(** ** RequestCache (include/details/request_cache.h)

    The cache has a state of its own, which is kept beside the stream in [IO];
    [cache_save] is given the delay. *)
Record RequestCache (IO : Type) := MkRequestCache {
  minPostSize : Z;
  cache_create : M (rstate IO) DataBuffer;
  cache_save : Z → M (rstate IO) unit;
}.
Arguments MkRequestCache {IO} _ _ _.
Arguments minPostSize {IO} _.
Arguments cache_create {IO} _.
Arguments cache_save {IO} _ _.

(** * Lemmas *)

Section access_lemmas.
Context {IO : Type}.
Implicit Types (s : rstate IO) (E : exn → rstate IO → Prop).

Lemma wp_request s (Q : RequestImpl → rstate IO → Prop) E : Q (rq s) s → wp request s Q E.
Proof. done. Qed.

Lemma wp_update_rq f s (Q : unit → rstate IO → Prop) E :
  Q () (set_rq (f (rq s)) s) → wp (update_rq f) s Q E.
Proof. done. Qed.

Lemma wp_on_world {A} (m : M world A) s (Q : A → rstate IO → Prop) :
  wp m (wd s) (λ a w, Q a (set_wd w s)) noexn → wp (on_world m) s Q noexn.
Proof. intros Hm. apply wp_zoom. eapply wp_mono; [exact Hm|done|done]. Qed.

Lemma wp_on_io {A} (m : M IO A) s (Q : A → rstate IO → Prop) :
  wp m (io s) (λ a o, Q a (set_io o s)) noexn → wp (on_io m) s Q noexn.
Proof. intros Hm. apply wp_zoom. eapply wp_mono; [exact Hm|done|done]. Qed.
End access_lemmas.

(** Symbolic execution of an operation of a request. *)
Ltac rq_step :=
  lazymatch goal with
  | |- wp request _ _ _ => apply wp_request
  | |- wp (update_rq _) _ _ _ => apply wp_update_rq
  | _ => wp_step
  end; cbn [rq wd io set_rq set_wd set_io].
Ltac rq_steps := repeat rq_step.
