(* ===== verification/Parser.v ===== *)
(** * [Parser] (library/parser.cpp, include/details/parser.h) *)
From S2P Require Import Prelude CLib Range Util Containers Buffer FileBuffer DataBuffer BufferUtil HttpDate Cookie RequestState.

Definition RETURN_N : bytes := [Byte.x0a].
Definition RETURN_RN : bytes := [Byte.x0d; Byte.x0a].
Definition EMPTY_LINE_NN : bytes := [Byte.x0a; Byte.x0a].
Definition EMPTY_LINE_RNRN : bytes := [Byte.x0d; Byte.x0a; Byte.x0d; Byte.x0a].
Definition ONE_SPACE : bytes := [" "%byte].
Definition ONE_TAB : bytes := [Byte.x09].
Definition MINUS_PREFIX : bytes := str "--".
Definition NAME : bytes := str "name".
Definition FILENAME : bytes := str "filename".
Definition CONTENT_TYPE : bytes := str "CONTENT_TYPE".
Definition HEADER_RANGE : bytes := str "HTTP_".
Definition COOKIE_RANGE : bytes := str "HTTP_COOKIE".

Definition statusToString (status : Z) : bytes :=
  if status =? 200 then str "OK"
  else if status =? 201 then str "Created"
  else if status =? 202 then str "Accepted"
  else if status =? 203 then str "Partial Information"
  else if status =? 204 then str "No Response"
  else if status =? 301 then str "Moved"
  else if status =? 302 then str "Moved Temporarily"
  else if status =? 303 then str "Method"
  else if status =? 304 then str "Not Modified"
  else if status =? 400 then str "Bad request"
  else if status =? 401 then str "Unauthorized"
  else if status =? 402 then str "PaymentRequired"
  else if status =? 403 then str "Forbidden"
  else if status =? 404 then str "Not found"
  else if status =? 405 then str "Method not allowed"
  else if status =? 500 then str "Internal Error"
  else if status =? 501 then str "Not implemented"
  else if status =? 502 then str "Service temporarily overloaded"
  else if status =? 503 then str "Gateway timeout"
  else str "Unknown status".

(** [strncasecmp] looks at the characters after the trimmed range when it is
    short: they are white space or the terminator, which differ from those of
    [boundary] as the terminator does. *)
Definition getBoundary (range : bytes) : outcome bytes :=
  let '(_, head, tail) := Range.split_char ";"%byte range in
  let tail := Range.trim tail in
  if strncasecmp_eq 8 (str "boundary") tail then
    let '(_, key, value) := Range.split_char "="%byte tail in
    let boundary := Range.trim value in
    let quote := [Byte.x22] in
    boundary ← (if negb (Range.empty boundary) && Range.startsWith quote boundary then
        if (Range.size boundary <? 2) || negb (Range.endsWith quote boundary) then
          Throw (RuntimeError (str "incomplete boundary quotation"))
        else Ret (Range.trimn 1 1 boundary)
      else Ret boundary);
    Ret (str "--" ++ boundary)
  else Ret EMPTY_STRING.

(** ** Header names *)

Definition normalizeInputHeaderName_step (s : bytes * bytes) : (bytes * bytes) + bytes :=
  let '(tmp, res) := s in
  if Range.empty tmp then inr res
  else
    let '(splitted, head, tail) := Range.split_char "_"%byte tmp in
    let res := res ++ head in
    let res := if splitted then res ++ ["-"%byte] else res in
    inl (tail, res).
Definition normalizeInputHeaderName (range : bytes) : outcome bytes :=
  ploop (S (length range)) normalizeInputHeaderName_step (range, []).

Definition normalizeOutputHeaderName_step (s : bytes * bytes) : (bytes * bytes) + bytes :=
  let '(range, res) := s in
  if Range.empty range then inr res
  else
    let '(_, head, tail) := Range.split_char "-"%byte range in
    let res := match head with [] => res | c :: _ => res ++ [chr (toupper c)] end in
    let res := if 1 <? Range.size head then res ++ drop 1 head else res in
    let range := Range.trim tail in
    let res := if Range.empty range then res else res ++ ["-"%byte] in
    inl (range, res).
Definition normalizeOutputHeaderName (name : bytes) : outcome bytes :=
  ploop (S (length name)) normalizeOutputHeaderName_step (Range.trim name, []).

(** ** Maps: [has], [keys] and [get] *)

Section maps.
Context (keq : bytes → bytes → bool).
Definition has (m : list (bytes * bytes)) (key : bytes) : bool :=
  match hm_find keq key m with Some _ => true | None => false end.
Definition keys (m : list (bytes * bytes)) : list bytes := fst <$> m.
Definition get (m : list (bytes * bytes)) (key : bytes) : bytes :=
  match hm_find keq key m with Some v => v | None => EMPTY_STRING end.
End maps.

(** ** The environment *)

Section environment.
Context `{HashOrder}.

Definition addCookie (range : bytes) (cookies : list (bytes * bytes)) : list (bytes * bytes) :=
  let tmp := Range.trim range in
  let '(_, head, tail) := Range.split_char "="%byte tmp in
  if Range.empty head then cookies
  else hm_set var_eq (urldecode head) (urldecode tail) cookies.

Definition addHeader (key value : bytes) (headers : list (bytes * bytes)) :
    outcome (list (bytes * bytes)) :=
  name ← normalizeInputHeaderName key; Ret (hm_set header_eq name value headers).

Definition parseCookies_step (s : bytes * list (bytes * bytes)) :
    (bytes * list (bytes * bytes)) + list (bytes * bytes) :=
  let '(tmp, cookies) := s in
  if Range.empty tmp then inr cookies
  else
    let '(_, head, tail) := Range.split (str "; ") tmp in
    inl (Range.trim tail, addCookie head cookies).
Definition parseCookies (range : bytes) (cookies : list (bytes * bytes)) :
    outcome (list (bytes * bytes)) :=
  ploop (S (length range)) parseCookies_step (Range.trim range, cookies).

(** One variable of the environment, given as [KEY=value]. *)
Definition parse_variable (e : bytes) (r : RequestImpl) : outcome RequestImpl :=
  let '(_, key, value) := Range.split_char "="%byte e in
  if Range.op_eq COOKIE_RANGE key then
    cookies ← parseCookies value (cookies_ r);
    headers ← addHeader (Range.trimn (zlen HEADER_RANGE) 0 key) (Range.trim value) (headers_ r);
    Ret (set_headers (set_cookies r cookies) headers)
  else if Range.op_eq CONTENT_TYPE key then
    headers ← addHeader key (Range.trim value) (headers_ r);
    Ret (set_headers r headers)
  else if Range.startsWith HEADER_RANGE key then
    headers ← addHeader (Range.trimn (zlen HEADER_RANGE) 0 key) (Range.trim value) (headers_ r);
    Ret (set_headers r headers)
  else Ret (set_vars r (hm_set var_eq key value (vars_ r))).
Fixpoint parse (env : list bytes) (r : RequestImpl) : outcome RequestImpl :=
  match env with
  | [] => Ret r
  | e :: env => r ← parse_variable e r; parse env r
  end.
End environment.

(** ** Multipart bodies *)

Section multipart.
Context `{Posix} {IO : Type}.

(** [File(filename, type, content)]. *)
Definition make_file (filename type content : DataBuffer) : M world File :=
  t ← (if DataBuffer.empty type then mret [] else DataBuffer.toString type);
  if DataBuffer.empty filename then throw (RuntimeError (str "uploaded file without name"))
  else n ← DataBuffer.toString filename; mret (MkFile n t content).

(** [key.size() == s.size() && key.startsWith(s)]. *)
Definition key_is (starts : bytes → DataBuffer → M world bool) (s : bytes) (key : DataBuffer) :
    M world bool :=
  if zlen s =? DataBuffer.size key then starts s key else mret false.

(** The three buffers a part is described by. *)
Record part_info := MkPart { p_name : DataBuffer; p_filename : DataBuffer; p_type : DataBuffer }.

Definition parseLine_step (s : DataBuffer * part_info) :
    M world ((DataBuffer * part_info) + part_info) :=
  let '(line, p) := s in
  if DataBuffer.empty line then mret (inr p)
  else
    '(_, head, tail) ← DataBuffer.split_char ";"%byte line;
    '(_, key, value) ← DataBuffer.split_char "="%byte head;
    is_name ← key_is DataBuffer.startsWith NAME key;
    p ← (if (is_name : bool) then
           mret (MkPart (DataBuffer.trimn 1 1 value) (p_filename p) (p_type p))
         else
           is_file ← key_is DataBuffer.startsWith FILENAME key;
           if (is_file : bool) then
             mret (MkPart (p_name p) (DataBuffer.trimn 1 1 value) (p_type p))
           else
             is_type ← key_is DataBuffer.startsWithCI CONTENT_TYPE key;
             if (is_type : bool) then
               t ← DataBuffer.trim value; mret (MkPart (p_name p) (p_filename p) t)
             else mret p);
    line ← DataBuffer.trim tail;
    mret (inl (line, p)).
Definition parseLine (line : DataBuffer) (p : part_info) : M world part_info :=
  loop (2 + Z.to_nat (DataBuffer.size line)) parseLine_step (line, p).

(** The inner loop of [parsePart]: a header line and its continuation lines.
    The state is [line], [tail] and [lineFound]. *)
Definition header_line_step (part : DataBuffer) (s : DataBuffer * DataBuffer * bool) :
    M world ((DataBuffer * DataBuffer * bool) + (DataBuffer * DataBuffer)) :=
  let '(line, tail, lineFound) := s in
  if DataBuffer.empty tail then mret (inr (line, tail))
  else
    r ← DataBuffer.split RETURN_RN tail;
    '(_, subline, subtail) ← (if (r.1.1 : bool) then mret r else DataBuffer.split_char Byte.x0a tail);
    space ← DataBuffer.startsWith ONE_SPACE subline;
    continued ← (if (space : bool) then mret true else DataBuffer.startsWith ONE_TAB subline);
    if (continued : bool) then
      line ← DataBuffer.sub_buffer part (DataBuffer.beginIndex line) (DataBuffer.endIndex subline);
      mret (inl (line, subtail, true))
    else if (lineFound : bool) then mret (inr (line, tail))
    else mret (inl (subline, subtail, true)).
Definition header_line (part headers : DataBuffer) : M world (DataBuffer * DataBuffer) :=
  loop (2 + Z.to_nat (DataBuffer.size headers)) (header_line_step part) (nil_buffer, headers, false).

Definition part_headers_step (part : DataBuffer) (s : DataBuffer * part_info) :
    M world ((DataBuffer * part_info) + part_info) :=
  let '(headers, p) := s in
  if DataBuffer.empty headers then mret (inr p)
  else
    '(line, tail) ← header_line part headers;
    p ← parseLine line p;
    mret (inl (tail, p)).
Definition part_headers (part headers : DataBuffer) : M world part_info :=
  loop (2 + Z.to_nat (DataBuffer.size headers)) (part_headers_step part)
    (headers, MkPart nil_buffer nil_buffer nil_buffer).

Definition parsePart (part : DataBuffer) : M (rstate IO) unit :=
  r ← on_world (DataBuffer.split EMPTY_LINE_RNRN part);
  '(_, headers, content) ← (if (r.1.1 : bool) then mret r
                            else on_world (DataBuffer.split EMPTY_LINE_NN part));
  p ← on_world (part_headers part headers);
  if DataBuffer.empty (p_name p) then mret ()
  else
    name_str ← on_world (DataBuffer.toString (p_name p));
    if DataBuffer.empty (p_filename p) then
      arg ← on_world (DataBuffer.toString content);
      update_rq (λ r, set_args r (args_ r ++ [(name_str, arg)]))
    else
      f ← on_world (make_file (p_filename p) (p_type p) content);
      update_rq (λ r, set_files r (map_insert name_str f (files_ r))).

(** One turn of the loop of [parseMultipart]; [continue] leaves [data] as it
    is. *)
Definition parseMultipart_step (boundary : bytes) (data : DataBuffer) :
    M (rstate IO) (DataBuffer + unit) :=
  if DataBuffer.empty data then mret (inr ())
  else
    '(found, head, tail) ← on_world (DataBuffer.split boundary data);
    if (found : bool) && negb (DataBuffer.empty head) then
      rn ← on_world (DataBuffer.endsWith RETURN_RN head);
      head ← (if (rn : bool) then mret (DataBuffer.trimn 0 2 head)
              else
                n ← on_world (DataBuffer.endsWith RETURN_N head);
                if (n : bool) then mret (DataBuffer.trimn 0 1 head)
                else throw (RuntimeError (str "malformed multipart message")));
      minus ← (if DataBuffer.size head =? 2 then on_world (DataBuffer.startsWith MINUS_PREFIX head)
               else mret false);
      if (minus : bool) then mret (inl data)
      else
        rn ← on_world (DataBuffer.startsWith RETURN_RN head);
        head ← (if (rn : bool) then mret (DataBuffer.trimn 2 0 head)
                else
                  n ← on_world (DataBuffer.startsWith RETURN_N head);
                  if (n : bool) then mret (DataBuffer.trimn 1 0 head)
                  else throw (RuntimeError (str "malformed multipart message")));
        (if DataBuffer.empty head then mret () else parsePart head);;
        mret (inl tail)
    else
      (if DataBuffer.empty head then mret () else parsePart head);;
      mret (inl tail).
Definition parseMultipart (fuel : nat) (data : DataBuffer) (boundary : bytes) : M (rstate IO) unit :=
  loop fuel (parseMultipart_step boundary) data.
End multipart.

(** ** Specification vocabulary *)

(** A header name as the application sees it. *)
Definition dash (c : byte) : byte := if decide (c = "_"%byte) then "-"%byte else c.

(** The text of a [Cookie:] header and the map it stands for. *)
Definition cookie_pair (nv : bytes * bytes) : bytes :=
  urlencode nv.1 ++ "="%byte :: urlencode nv.2.
Fixpoint cookie_header (l : list (bytes * bytes)) : bytes :=
  match l with
  | [] => []
  | [nv] => cookie_pair nv
  | nv :: l => cookie_pair nv ++ str "; " ++ cookie_header l
  end.
Definition set_all `{HashOrder} (l m : list (bytes * bytes)) : list (bytes * bytes) :=
  foldl (λ m nv, hm_set var_eq nv.1 nv.2 m) m l.

(** * Lemmas *)

(** ** Names *)

Lemma normalizeInput_loop r res fuel :
  (length r < fuel)%nat →
  ploop fuel normalizeInputHeaderName_step (r, res) = Ret (res ++ (dash <$> r)).
Proof.
  revert res fuel. induction r as [r IH] using list_length_ind; intros res fuel Hf.
  destruct fuel as [|fuel]; [lia|]. cbn [ploop]. unfold normalizeInputHeaderName_step at 1.
  destruct (Range.empty r) eqn:Er.
  { apply empty_spec in Er as ->. by rewrite app_nil_r. }
  apply empty_false in Er. assert (length r ≠ O) by (by destruct r).
  assert (∀ h : bytes, "_"%byte ∉ h → dash <$> h = h) as Hdash.
  { intros h. induction h as [|c h IHh]; intros Hh; [done|].
    rewrite not_elem_of_cons in Hh. destruct Hh. csimpl. unfold dash at 1.
    rewrite decide_False by congruence. by rewrite IHh. }
  destruct (std_find_split "_"%byte r) as [Hn|(h & t & Hr & Hn)].
  - rewrite Range.split_char_notin, Hdash by done.
    destruct fuel as [|fuel]; [lia|]. done.
  - assert (length r = length h + S (length t))%nat by (by rewrite Hr, length_app).
    rewrite Hr at 1. rewrite Range.split_char_app by done. rewrite IH by lia.
    rewrite Hr, fmap_app, (Hdash h Hn). csimpl. unfold dash at 2. rewrite decide_True by done.
    by rewrite <- !app_assoc.
Qed.

Lemma normalizeInput_spec r : normalizeInputHeaderName r = Ret (dash <$> r).
Proof. apply (normalizeInput_loop r []). lia. Qed.

Lemma addHeader_spec `{HashOrder} key value headers :
  addHeader key value headers = Ret (hm_set header_eq (dash <$> key) value headers).
Proof. unfold addHeader. by rewrite normalizeInput_spec. Qed.

(** ** Cookies *)

Lemma parseCookies_loop `{HashOrder} r m fuel :
  (length r < fuel)%nat → ∃ m', ploop fuel parseCookies_step (r, m) = Ret m'.
Proof.
  intros Hf. destruct (ploop_rule (λ _ : bytes * list (bytes * bytes), True)
    (λ s, length s.1) parseCookies_step (λ _, True)) with (fuel := fuel) (a := (r, m))
    as (m' & E & _); [|done|done|by exists m'].
  intros [t c] _. unfold parseCookies_step. destruct (Range.empty t) eqn:Et; [done|].
  apply empty_false in Et. destruct (Range.split (str "; ") t) as [[f h] u] eqn:Es. simpl.
  split; [done|]. pose proof (Range.split_shorter (str "; ") t f h u ltac:(done) Et Es).
  pose proof (Range.length_trim u). lia.
Qed.

Lemma parseCookies_total `{HashOrder} r m : ∃ m', parseCookies r m = Ret m'.
Proof. apply parseCookies_loop. pose proof (Range.length_trim r). lia. Qed.

(** An encoded name or value has no white space and no separator. *)
Lemma urlencode_no_space s : Forall (λ c, isspace c = false) (urlencode s).
Proof.
  eapply Forall_impl; [apply urlencode_safe_all|]. intros c. simpl. intros Hc. by byte_cases c.
Qed.

Lemma tight_no_space r : Forall (λ c, isspace c = false) r → Range.tight r.
Proof.
  intros Hr. rewrite Forall_forall in Hr. split.
  - destruct r as [|c r]; simpl; [done|]. apply Hr. by left.
  - destruct (last r) as [c|] eqn:E; [|done]. apply Hr. by apply last_Some_elem_of.
Qed.

Lemma cookie_pair_no_space nv : Forall (λ c, isspace c = false) (cookie_pair nv).
Proof.
  unfold cookie_pair. apply Forall_app. split; [apply urlencode_no_space|].
  constructor; [done|apply urlencode_no_space].
Qed.

Lemma trim_no_space r : Forall (λ c, isspace c = false) r → Range.trim r = r.
Proof. intros. by apply Range.trim_tight, tight_no_space. Qed.

(** The cookies of a header that was printed from a list. *)
Lemma addCookie_pair `{HashOrder} nv m :
  nv.1 ≠ [] → addCookie (cookie_pair nv) m = hm_set var_eq nv.1 nv.2 m.
Proof.
  intros Hn. unfold addCookie. rewrite (trim_no_space (cookie_pair nv)) by apply cookie_pair_no_space.
  unfold cookie_pair at 1. rewrite Range.split_char_app by (by apply urlencode_notin).
  apply urlencode_nonempty, empty_false in Hn. rewrite Hn.
  rewrite <- (app_nil_r (urlencode nv.1)), <- (app_nil_r (urlencode nv.2)).
  rewrite !urldecode_urlencode_app. change (urldecode []) with (@nil byte). by rewrite !app_nil_r.
Qed.

Lemma cookie_pair_semicolon nv : ";"%byte ∉ cookie_pair nv.
Proof.
  unfold cookie_pair. rewrite not_elem_of_app, not_elem_of_cons.
  split_and!; [by apply urlencode_notin|done|by apply urlencode_notin].
Qed.

Lemma cookie_pair_nonempty nv : cookie_pair nv ≠ [].
Proof. unfold cookie_pair. by destruct (urlencode nv.1). Qed.

(** The separator does not occur before its place. *)
Lemma occurs_at_head d p h t i :
  d ∉ h → (i < length h)%nat → ¬ occurs_at (d :: p) (h ++ t) i.
Proof.
  unfold occurs_at. intros Hd Hi (k & Hk)%is_prefix_spec.
  apply Hd. destruct (lookup_lt_is_Some_2 h i Hi) as [x Hx].
  assert ((h ++ t) !! i = Some d) as E.
  { rewrite <- (Nat.add_0_r i), <- lookup_drop, Hk. done. }
  rewrite lookup_app_l in E by done. by apply list_elem_of_lookup_2 in E.
Qed.

Lemma cookie_header_tight l : Range.tight (cookie_header l).
Proof.
  assert (l ≠ [] → ∃ p q c d, cookie_header l = c :: p ∧ cookie_header l = q ++ [d] ∧
    isspace c = false ∧ isspace d = false) as Hl.
  { induction l as [|nv [|nv' l] IH]; [done| |]; intros _.
    - pose proof (cookie_pair_no_space nv) as Hp. pose proof (cookie_pair_nonempty nv) as Hn.
      change (cookie_header [nv]) with (cookie_pair nv).
      destruct (exists_last Hn) as (q & d & E). destruct (cookie_pair nv) as [|c p]; [done|].
      exists p, q, c, d. split_and!; [done|done|by inversion Hp|].
      rewrite E, Forall_app in Hp. destruct Hp as [_ Hp]. by inversion Hp.
    - destruct (IH ltac:(done)) as (p & q & c & d & _ & Eq & _ & Hd).
      change (cookie_header (nv :: nv' :: l))
        with (cookie_pair nv ++ str "; " ++ cookie_header (nv' :: l)).
      pose proof (cookie_pair_no_space nv) as Hp. pose proof (cookie_pair_nonempty nv) as Hn.
      destruct (cookie_pair nv) as [|c' p']; [done|].
      eexists _, _, c', d. split_and!; [done| |by inversion Hp|done].
      rewrite Eq. by rewrite !app_assoc. }
  destruct l as [|nv l]; [done|]. destruct (Hl ltac:(done)) as (p & q & c & d & E1 & E2 & Hc & Hd).
  split; [by rewrite E1|]. by rewrite E2, last_snoc.
Qed.

Lemma parseCookies_header `{HashOrder} l m fuel :
  Forall (λ nv : bytes * bytes, nv.1 ≠ []) l → (length (cookie_header l) < fuel)%nat →
  ploop fuel parseCookies_step (cookie_header l, m) = Ret (set_all l m).
Proof.
  intros Hl. revert m fuel. induction Hl as [|nv l Hn Hl IH]; intros m fuel Hf.
  { destruct fuel; [lia|done]. }
  destruct fuel as [|fuel]; [lia|]. cbn [ploop]. unfold parseCookies_step at 1.
  destruct l as [|nv' l].
  - change (cookie_header [nv]) with (cookie_pair nv) in *.
    pose proof (cookie_pair_nonempty nv) as Hne. rewrite (proj2 (empty_false _) Hne).
    assert (length (cookie_pair nv) ≠ O) by (by destruct (cookie_pair nv)).
    destruct (Range.split_cases (str "; ") (cookie_pair nv) ltac:(done)) as [[-> _]|(h & t & E & _)].
    + rewrite addCookie_pair by done. destruct fuel; [lia|]. done.
    + exfalso. apply (cookie_pair_semicolon nv). rewrite E. apply elem_of_app. right. by left.
  - change (cookie_header (nv :: nv' :: l))
      with (cookie_pair nv ++ str "; " ++ cookie_header (nv' :: l)) in *.
    rewrite (proj2 (empty_false _)) by (by destruct (cookie_pair nv)).
    rewrite Range.split_app_first;
      [|done|intros i Hi; apply occurs_at_head; [apply cookie_pair_semicolon|done]].
    rewrite addCookie_pair by done. rewrite Range.trim_tight by apply cookie_header_tight.
    rewrite !length_app in Hf. change (length (str "; ")) with 2%nat in Hf.
    rewrite IH; [done|lia].
Qed.

(** ** The environment *)

Lemma parse_variable_total `{HashOrder} e r : ∃ r', parse_variable e r = Ret r'.
Proof.
  unfold parse_variable. destruct (Range.split_char "="%byte e) as [[f key] value].
  rewrite !addHeader_spec. simpl.
  destruct (parseCookies_total value (cookies_ r)) as [m ->].
  repeat case_if; eexists; simpl; done.
Qed.

Lemma parse_total_ok `{HashOrder} env r : ∃ r', parse env r = Ret r'.
Proof.
  revert r; induction env as [|e env IH]; intros r; simpl; [by eexists|].
  destruct (parse_variable_total e r) as [r' ->]. apply IH.
Qed.

Lemma parse_app `{HashOrder} env env' r :
  parse (env ++ env') r = (r' ← parse env r; parse env' r').
Proof.
  revert r; induction env as [|e env IH]; intros r; simpl; [done|].
  destruct (parse_variable e r); simpl; [apply IH|done..].
Qed.

Lemma op_eq_false r t : r ≠ t → Range.op_eq r t = false.
Proof. rewrite <- Range.op_eq_spec. by destruct (Range.op_eq r t). Qed.

Lemma get_set `{HashOrder} keq `{!KeyEq keq} k v m k' :
  hash_wf keq m → get keq (hm_set keq k v m) k' = if keq k k' then v else get keq m k'.
Proof. intros Hw. unfold get. rewrite hm_set_find by done. by destruct (keq k k'). Qed.

Lemma parse_variable_header `{HashOrder} name value r :
  "="%byte ∉ name → name ≠ str "COOKIE" →
  parse_variable (str "HTTP_" ++ name ++ "="%byte :: value) r =
  Ret (set_headers r (hm_set header_eq (dash <$> name) (Range.trim value) (headers_ r))).
Proof.
  intros Hn Hc. unfold parse_variable. rewrite app_assoc, Range.split_char_app.
  2:{ rewrite not_elem_of_app. split; [|done]. by apply (bool_decide_unpack _). }
  rewrite op_eq_false.
  2:{ unfold COOKIE_RANGE. intros E. apply Hc. by apply (app_inv_head (str "HTTP_")). }
  rewrite op_eq_false by (unfold CONTENT_TYPE; done).
  rewrite Range.startsWith_spec. change HEADER_RANGE with (str "HTTP_").
  rewrite is_prefix_app, addHeader_spec.
  replace (Range.trimn (zlen (str "HTTP_")) 0 (str "HTTP_" ++ name)) with name; [done|].
  unfold Range.trimn. change (zlen (str "HTTP_") <? 0) with false. simpl.
  by rewrite Nat.sub_0_r, firstn_all.
Qed.

(** Every map of the request is well-formed after parsing. *)
Definition maps_wf (r : RequestImpl) : Prop :=
  hash_wf var_eq (vars_ r) ∧ hash_wf var_eq (cookies_ r) ∧ hash_wf header_eq (headers_ r).

Lemma addCookie_wf `{HashOrder} e m : hash_wf var_eq m → hash_wf var_eq (addCookie e m).
Proof.
  intros. unfold addCookie. destruct (Range.split_char _ _) as [[f h] t].
  case_if; [done|]. by apply (hm_set_wf var_eq).
Qed.

Lemma parseCookies_wf `{HashOrder} r m m' :
  hash_wf var_eq m → parseCookies r m = Ret m' → hash_wf var_eq m'.
Proof.
  unfold parseCookies. generalize (S (length r)), (Range.trim r). intros n. revert m.
  induction n as [|n IH]; intros m t Hm; [done|]. cbn [ploop]. unfold parseCookies_step at 1.
  case_if; [intros [= <-]; done|].
  destruct (Range.split (str "; ") t) as [[f h] u]. apply IH. by apply addCookie_wf.
Qed.

Lemma parse_variable_wf `{HashOrder} e r r' :
  maps_wf r → parse_variable e r = Ret r' → maps_wf r'.
Proof.
  intros (H1 & H2 & H3). unfold parse_variable.
  destruct (Range.split_char "="%byte e) as [[f key] value]. rewrite !addHeader_spec. simpl.
  destruct (parseCookies value (cookies_ r)) as [m| | |] eqn:Em; repeat case_if; try done;
    intros [= <-]; split_and!; simpl; try done;
    first [by apply (hm_set_wf header_eq)|by apply (hm_set_wf var_eq)|by eapply parseCookies_wf].
Qed.

Lemma parse_wf `{HashOrder} env r r' : maps_wf r → parse env r = Ret r' → maps_wf r'.
Proof.
  revert r; induction env as [|e env IH]; intros r Hr; simpl; [by intros [= <-]|].
  destruct (parse_variable e r) as [r1| | |] eqn:E; simpl; try done.
  apply IH. by eapply parse_variable_wf.
Qed.

(** What the answer is made from, which the environment of a request leaves alone. *)
Definition answer_part (r : RequestImpl) :=
  (headers_sent_ r, processed_ r, stream_ r, status_ r, out_headers_ r, out_cookies_ r).

Lemma parse_variable_answer `{HashOrder} e r r' : parse_variable e r = Ret r' → answer_part r' = answer_part r.
Proof.
  unfold parse_variable. destruct (Range.split_char "="%byte e) as [[f key] value]. rewrite !addHeader_spec. simpl.
  destruct (parseCookies value (cookies_ r)) as [m| | |]; repeat case_if; try done; by intros [= <-].
Qed.

Lemma parse_answer `{HashOrder} env r r' : parse env r = Ret r' → answer_part r' = answer_part r.
Proof.
  revert r; induction env as [|e env IH]; intros r; simpl; [by intros [= <-]|].
  destruct (parse_variable e r) as [r1| | |] eqn:E; simpl; try done.
  intros Hr. rewrite (IH _ Hr). by apply (parse_variable_answer e).
Qed.

(** * Properties *)

(** Parsing the environment terminates for every list of variables, and keeps
    the maps of the request well-formed: no two bindings with equal keys. *)
Theorem parse_total `{HashOrder} env r :
  maps_wf r → ∃ r', parse env r = Ret r' ∧ maps_wf r'.
Proof.
  intros Hr. destruct (parse_total_ok env r) as [r' E]. exists r'. split; [done|].
  by eapply parse_wf.
Qed.

Lemma parse_total_witness : maps_wf new_request ∧
  ∃ r', @parse cons_order [str "HTTP_A_B=1"; str "X=Y"; str "HTTP_COOKIE=a=b; c=d"] new_request = Ret r' ∧
        maps_wf r'.
Proof.
  split; [repeat split; constructor|].
  exact (@parse_total cons_order _ new_request ltac:(repeat split; constructor)).
Defined.

(** The application sees the variable [HTTP_NAME=value] as the header whose
    name has dashes for underscores, without white space around its value;
    the last one given wins and the other headers are not touched. *)
Theorem parse_header `{HashOrder} env r r1 name value k :
  maps_wf r → parse env r = Ret r1 →
  "="%byte ∉ name → name ≠ str "COOKIE" →
  ∃ r2, parse (env ++ [str "HTTP_" ++ name ++ "="%byte :: value]) r = Ret r2 ∧
    get header_eq (headers_ r2) k =
      (if header_eq (dash <$> name) k then Range.trim value else get header_eq (headers_ r1) k) ∧
    vars_ r2 = vars_ r1 ∧ cookies_ r2 = cookies_ r1.
Proof.
  intros Hr E1 Hn Hc. rewrite parse_app, E1.
  exists (set_headers r1 (hm_set header_eq (dash <$> name) (Range.trim value) (headers_ r1))).
  split_and!; [|simpl|done|done].
  - unfold mbind, outcome_bind, parse. by rewrite parse_variable_header.
  - apply parse_wf in E1 as (_ & _ & Hw); [|done]. by apply (get_set header_eq).
Qed.

Lemma parse_header_witness : ∃ r2,
  @parse cons_order ([str "A=1"] ++ [str "HTTP_" ++ str "X_Y" ++ "="%byte :: str " v "]) new_request = Ret r2 ∧
  get header_eq (headers_ r2) (str "x-y") = str "v".
Proof.
  destruct (@parse_header cons_order [str "A=1"] new_request
    (set_vars new_request [(str "A", str "1")]) (str "X_Y") (str " v ") (str "x-y")
    ltac:(repeat split; constructor) ltac:(vm_compute; reflexivity)
    ltac:(vm_compute; intros H; repeat (inversion H; subst; clear H; rename H2 into H)) ltac:(discriminate))
    as (r2 & H1 & H2 & _).
  exists r2. split; [exact H1|exact H2].
Defined.

(** C36: A [Cookie:] header printed from a list of cookies with encoded names and
    values is parsed back into these cookies, in order. *)
Theorem parseCookies_roundtrip `{HashOrder} l m :
  Forall (λ nv : bytes * bytes, nv.1 ≠ []) l →
  parseCookies (cookie_header l) m = Ret (set_all l m).
Proof.
  intros Hl. unfold parseCookies. rewrite (Range.trim_tight (cookie_header l)) by apply cookie_header_tight.
  apply parseCookies_header; [done|lia].
Qed.

Lemma parseCookies_roundtrip_witness :
  @parseCookies cons_order (str "a=1; b=x%3By") [] =
  Ret (@set_all cons_order [(str "a", str "1"); (str "b", str "x;y")] []).
Proof.
  exact (@parseCookies_roundtrip cons_order [(str "a", str "1"); (str "b", str "x;y")] []
           ltac:(repeat constructor; discriminate)).
Defined.

(** A body in which a closing delimiter is followed by another delimiter is
    never done: the loop of [parseMultipart] goes round without advancing,
    whatever the fuel. *)
Theorem parseMultipart_diverges fuel :
  (let '(r, w) := @create small_machine (str "--B--" ++ RETURN_RN ++ str "--B") empty_world in
   match r with
   | Ret b => fst (@parseMultipart small_machine unit fuel b (str "--B") (MkState new_request w ()))
   | _ => Undef
   end) = NoFuel.
Proof.
  set (p := @create _ _ _). vm_compute in p. unfold p. clear p. cbn beta iota zeta.
  set (w1 := MkWorld _ _). unfold parseMultipart.
  destruct fuel as [|fuel]; [done|]. unfold loop; fold (@loop (rstate unit)).
  set (b2 := MkDataBuffer (Some 1%positive) 3 10).
  assert (parseMultipart_step (H := small_machine) (str "--B") (MkDataBuffer (Some 1%positive) 0 10)
            (MkState new_request w1 ()) = (Ret (inl b2), MkState new_request w1 ())) as E1
    by (vm_compute; reflexivity).
  assert (parseMultipart_step (H := small_machine) (str "--B") b2
            (MkState new_request w1 ()) = (Ret (inl b2), MkState new_request w1 ())) as E2
    by (vm_compute; reflexivity).
  unfold mbind, M_bind. rewrite E1. clear E1. induction fuel as [|fuel IH]; [done|].
  unfold loop; fold (@loop (rstate unit)). unfold mbind, M_bind. rewrite E2. exact IH.
Qed.
