(* ===== verification/Serialize.v ===== *)
(** * Serialization of a request (library/requestimpl.cpp, from [serializeEnv]
    to [parse])

    The image is the one the request cache keeps in its files.  The functions
    that take a [DataBuffer&] and may resize it return the buffer. *)
From S2P Require Import Prelude CLib Range Util Containers Buffer FileBuffer DataBuffer HttpDate Cookie RequestState.

(** [std::string::max_size()]. *)
Definition STRING_MAX : Z := 2 ^ 62 - 7.

Section serialize.
Context `{Posix}.
Implicit Types (buffer src : DataBuffer) (pos : Z).

Definition serializeInt buffer pos (val : Z) : M world Z :=
  n ← DataBuffer.write pos (le_bytes 8 val) buffer; mret (u64 (pos + n)).

Definition serializeString buffer pos (val : bytes) : M world Z :=
  pos ← serializeInt buffer pos (zlen val);
  n ← DataBuffer.write pos val buffer; mret (u64 (pos + n)).

Definition serializeBuffer buffer pos src : M world Z :=
  pos ← serializeInt buffer pos (DataBuffer.size src);
  for_segments id (λ w _, w) src
    (λ pos it, chunk ← segment_bytes it; n ← DataBuffer.write pos chunk buffer; mret (u64 (pos + n))) pos.

(** The loops that add up sizes and that write names and values. *)
Definition pair_size (nv : bytes * bytes) : Z := zlen nv.1 + zlen nv.2 + 2 * 8.
Definition pairs_size (m : list (bytes * bytes)) : Z :=
  foldl (λ n nv, u64 (n + pair_size nv)) 0 m.
Fixpoint serializePairs buffer pos (m : list (bytes * bytes)) : M world Z :=
  match m with
  | [] => mret pos
  | nv :: m =>
      pos ← serializeString buffer pos nv.1;
      pos ← serializeString buffer pos nv.2;
      serializePairs buffer pos m
  end.

(** The second half of [serializeEnv]. *)
Definition serializeMaps (r : RequestImpl) buffer pos : M world Z :=
  pos ← serializeInt buffer pos (pairs_size (headers_ r));
  pos ← serializePairs buffer pos (headers_ r);
  pos ← serializeInt buffer pos (pairs_size (cookies_ r));
  pos ← serializePairs buffer pos (cookies_ r);
  pos ← serializeInt buffer pos (pairs_size (vars_ r));
  serializePairs buffer pos (vars_ r).
Definition serializeEnv (r : RequestImpl) buffer (add_size : Z) : M world (Z * DataBuffer) :=
  let header_size := pairs_size (headers_ r) in
  let cookie_size := pairs_size (cookies_ r) in
  let var_size := pairs_size (vars_ r) in
  buffer ← DataBuffer.resize (u64 (add_size + header_size + cookie_size + var_size + 3 * 8)) buffer;
  pos ← serializeMaps r buffer 0;
  mret (pos, buffer).

Definition file_size (f : bytes * File) : Z :=
  8 + zlen f.1 + 8 + zlen (f_name f.2) + 8 + zlen (f_type f.2) + 2 * 8.
Definition filesSerializedSize (r : RequestImpl) : Z :=
  foldl (λ n f, u64 (n + file_size f)) 0 (files_ r).
Definition argsSerializedSize (r : RequestImpl) : Z := pairs_size (args_ r).

Fixpoint serializeFiles_loop (body : DataBuffer) buffer pos (files : list (bytes * File)) : M world Z :=
  match files with
  | [] => mret pos
  | (name, f) :: files =>
      pos ← serializeString buffer pos name;
      pos ← serializeString buffer pos (f_name f);
      pos ← serializeString buffer pos (f_type f);
      let file := f_data f in
      pos ← serializeInt buffer pos (u64 (DataBuffer.beginIndex file - DataBuffer.beginIndex body));
      pos ← serializeInt buffer pos (u64 (DataBuffer.endIndex file - DataBuffer.beginIndex file));
      serializeFiles_loop body buffer pos files
  end.
Definition serializeFiles (r : RequestImpl) buffer pos : M world Z :=
  pos ← serializeInt buffer pos (filesSerializedSize r);
  serializeFiles_loop (body_ r) buffer pos (files_ r).

Definition serializeArgs (r : RequestImpl) buffer pos : M world Z :=
  pos ← serializeInt buffer pos (argsSerializedSize r);
  serializePairs buffer pos (args_ r).

Definition serialize (r : RequestImpl) buffer : M world DataBuffer :=
  let add_size := u64 (8 + DataBuffer.size (body_ r) + 8 + filesSerializedSize r + 8 + argsSerializedSize r) in
  '(pos, buffer) ← serializeEnv r buffer add_size;
  pos ← serializeBuffer buffer pos (body_ r);
  pos ← serializeFiles r buffer pos;
  pos ← serializeArgs r buffer pos;
  mret buffer.

(** ** Parsing the image *)

(** The position and the value: bytes past the end of the buffer are not read
    and leave the zeros of the variable. *)
Definition parseInt buffer pos : M world (Z * Z) :=
  d ← DataBuffer.read pos 8 buffer; mret (u64 (pos + zlen d), le_value d).

Definition parseString buffer pos : M world (Z * bytes) :=
  '(pos, len) ← parseInt buffer pos;
  if STRING_MAX <? len then throw LengthError
  else
    d ← DataBuffer.read pos len buffer;
    mret (u64 (pos + zlen d), vector_resize len d).

(** The beginning of a section: its first position and the one after it. *)
Definition parse_section buffer pos (what : bytes) : M world (Z * Z) :=
  '(pos, field_size) ← parseInt buffer pos;
  let pos_end := u64 (pos + field_size) in
  if DataBuffer.size buffer <? pos_end then throw (RuntimeError (str "Cannot parse request " ++ what))
  else mret (pos, pos_end).

(** The parsing functions of the request run on the request and the world. *)
Definition on_buffers {A} (m : M world A) : M (RequestImpl * world) A :=
  zoom snd (λ w s, (s.1, w)) m.
Definition update_request (f : RequestImpl → RequestImpl) : M (RequestImpl * world) unit :=
  modify (λ s, (f s.1, s.2)).

(** The loops over the names and values of a section, which add each pair to
    the request. *)
Definition parsePairs_step (add : bytes * bytes → RequestImpl → RequestImpl) buffer (pos_end pos : Z) :
    M (RequestImpl * world) (Z + Z) :=
  if pos <? pos_end then
    '(pos, name) ← on_buffers (parseString buffer pos);
    '(pos, value) ← on_buffers (parseString buffer pos);
    update_request (add (name, value));;
    mret (inl pos)
  else mret (inr pos).
Definition parsePairs (add : bytes * bytes → RequestImpl → RequestImpl) buffer pos (what : bytes) :
    M (RequestImpl * world) Z :=
  '(pos, pos_end) ← on_buffers (parse_section buffer pos what);
  loop (S (Z.to_nat (DataBuffer.size buffer))) (parsePairs_step add buffer pos_end) pos.

Context `{HashOrder}.

Definition add_header (nv : bytes * bytes) (r : RequestImpl) : RequestImpl :=
  set_headers r (hm_insert header_eq nv (headers_ r)).
Definition add_cookie (nv : bytes * bytes) (r : RequestImpl) : RequestImpl :=
  set_cookies r (hm_insert var_eq nv (cookies_ r)).
Definition add_var (nv : bytes * bytes) (r : RequestImpl) : RequestImpl :=
  set_vars r (hm_insert var_eq nv (vars_ r)).
Definition add_arg (nv : bytes * bytes) (r : RequestImpl) : RequestImpl :=
  set_args r (args_ r ++ [nv]).

Definition parseHeaders buffer pos : M (RequestImpl * world) Z :=
  parsePairs add_header buffer pos (str "headers").
Definition parseCookies buffer pos : M (RequestImpl * world) Z :=
  parsePairs add_cookie buffer pos (str "cookies").
Definition parseVars buffer pos : M (RequestImpl * world) Z :=
  parsePairs add_var buffer pos (str "vars").
Definition parseArgs buffer pos : M (RequestImpl * world) Z :=
  parsePairs add_arg buffer pos (str "args").

Definition parseBody buffer pos : M (RequestImpl * world) Z :=
  '(pos, pos_end) ← on_buffers (parse_section buffer pos (str "body"));
  body ← on_buffers (DataBuffer.sub_buffer buffer (u64 (pos + DataBuffer.beginIndex buffer))
                                           (u64 (pos_end + DataBuffer.beginIndex buffer)));
  update_request (λ r, set_body r body);;
  mret pos_end.

(** [File(name, type, content)] from strings. *)
Definition file_of_strings (name type : bytes) (content : DataBuffer) : M world File :=
  if Range.empty name then throw (RuntimeError (str "uploaded file without name"))
  else mret (MkFile name type content).

Definition parseFiles_step buffer (pos_end pos : Z) : M (RequestImpl * world) (Z + Z) :=
  if pos <? pos_end then
    '(pos, name) ← on_buffers (parseString buffer pos);
    '(pos, remote_name) ← on_buffers (parseString buffer pos);
    '(pos, type) ← on_buffers (parseString buffer pos);
    '(pos, offset) ← on_buffers (parseInt buffer pos);
    '(pos, length) ← on_buffers (parseInt buffer pos);
    s ← get;
    let body := body_ s.1 in
    file_buffer ← on_buffers (DataBuffer.sub_buffer body (u64 (offset + DataBuffer.beginIndex body))
                                (u64 (offset + length + DataBuffer.beginIndex body)));
    f ← on_buffers (file_of_strings remote_name type file_buffer);
    update_request (λ r, set_files r (map_insert name f (files_ r)));;
    mret (inl pos)
  else mret (inr pos).
Definition parseFiles buffer pos : M (RequestImpl * world) Z :=
  '(pos, pos_end) ← on_buffers (parse_section buffer pos (str "files"));
  loop (S (Z.to_nat (DataBuffer.size buffer))) (parseFiles_step buffer pos_end) pos.

Definition parse buffer : M (RequestImpl * world) unit :=
  pos ← parseHeaders buffer 0;
  pos ← parseCookies buffer pos;
  pos ← parseVars buffer pos;
  pos ← parseBody buffer pos;
  pos ← parseFiles buffer pos;
  pos ← parseArgs buffer pos;
  mret ().
End serialize.

(** ** The image of a request *)

Definition enc_int (v : Z) : bytes := le_bytes 8 v.
Definition enc_str (s : bytes) : bytes := enc_int (zlen s) ++ s.
Definition enc_pair (nv : bytes * bytes) : bytes := enc_str nv.1 ++ enc_str nv.2.
Definition enc_all {A} (enc : A → bytes) (l : list A) : bytes := concat (enc <$> l).
Definition enc_file (body : DataBuffer) (f : bytes * File) : bytes :=
  enc_str f.1 ++ enc_str (f_name f.2) ++ enc_str (f_type f.2) ++
  enc_int (begin_ (f_data f.2) - begin_ body) ++ enc_int (end_ (f_data f.2) - begin_ (f_data f.2)).

(** The request [r] whose body shows [vb]: six sections, each preceded by its
    length. *)
Definition image_env (r : RequestImpl) : bytes :=
  enc_str (enc_all enc_pair (headers_ r)) ++ enc_str (enc_all enc_pair (cookies_ r)) ++
  enc_str (enc_all enc_pair (vars_ r)).
Definition image_rest (r : RequestImpl) : bytes :=
  enc_str (enc_all (enc_file (body_ r)) (files_ r)) ++ enc_str (enc_all enc_pair (args_ r)).
Definition image (r : RequestImpl) (vb : bytes) : bytes := image_env r ++ enc_str vb ++ image_rest r.

(** [b]'s storage is not [d]. *)
Definition separate `{PosixOk} (w : world) (b : DataBuffer) (d : loc) : Prop :=
  ∀ l d' k c, data_ b = Some l → holds w l d' k c → d' ≠ d.

(** [m pos] writes [data] at [pos] into buffer [b] and returns the position
    after it, while buffer [src] shows [vs]. *)
Definition writes `{PosixOk} (b : DataBuffer) (d : loc) (src : DataBuffer) (vs : bytes)
    (m : Z → M world Z) (data : bytes) : Prop :=
  ∀ w v pos, views w b v → stored w b d → views w src vs → separate w src d →
    0 <= pos → pos + zlen data <= zlen v →
    wp (m pos) w (λ r w', r = pos + zlen data ∧ views w' b (splice pos data v) ∧ stored w' b d ∧
                          views w' src vs ∧ separate w' src d ∧ others d w w' ∧ wshape w w') noexn.

(** An uploaded file of a request with body [body] is a named part of it. *)
Definition file_wf (body : DataBuffer) (f : bytes * File) : Prop :=
  f_name f.2 ≠ [] ∧ data_ (f_data f.2) = data_ body ∧
  begin_ body <= begin_ (f_data f.2) ∧ begin_ (f_data f.2) <= end_ (f_data f.2) ∧
  end_ (f_data f.2) <= end_ body.

(** A request as the daemon builds it. *)
Definition request_wf `{PosixOk} (w : world) (r : RequestImpl) (vb : bytes) : Prop :=
  hash_wf header_eq (headers_ r) ∧ hash_wf var_eq (cookies_ r) ∧ hash_wf var_eq (vars_ r) ∧
  sorted_map (files_ r) ∧ Forall (file_wf (body_ r)) (files_ r) ∧ views w (body_ r) vb.

(** The same file in a body that begins elsewhere. *)
Definition relocate (body body' : DataBuffer) (f : File) : File :=
  MkFile (f_name f) (f_type f)
    (MkDataBuffer (data_ body') (begin_ body' + (begin_ (f_data f) - begin_ body))
       (begin_ body' + (end_ (f_data f) - begin_ body))).

(** [r'] in world [w'] is the request [r] of world [w]: the same maps up to the
    order of hash maps, the same arguments, and bodies and files that show the
    same bytes. *)
Definition same_request `{PosixOk} (w : world) (r : RequestImpl) (w' : world) (r' : RequestImpl) : Prop :=
  headers_ r' ≡ₚ headers_ r ∧ cookies_ r' ≡ₚ cookies_ r ∧ vars_ r' ≡ₚ vars_ r ∧ args_ r' = args_ r ∧
  (∃ vb, views w (body_ r) vb ∧ views w' (body_ r') vb) ∧
  Forall2 (λ f f', f'.1 = f.1 ∧ f_name f'.2 = f_name f.2 ∧ f_type f'.2 = f_type f.2 ∧
                   ∃ vf, views w (f_data f.2) vf ∧ views w' (f_data f'.2) vf)
          (files_ r) (files_ r').

(** * Lemmas *)

(** ** Sizes *)

Lemma zlen_enc_int v : zlen (enc_int v) = 8.
Proof. apply zlen_le_bytes. Qed.

Lemma zlen_enc_str s : zlen (enc_str s) = 8 + zlen s.
Proof. unfold enc_str. by rewrite zlen_app, zlen_enc_int. Qed.

#[export] Hint Rewrite zlen_enc_int zlen_enc_str : zlen.

Lemma zlen_enc_pair nv : zlen (enc_pair nv) = pair_size nv.
Proof. unfold enc_pair, pair_size. zlen_simp. lia. Qed.

Lemma zlen_enc_file body f : zlen (enc_file body f) = file_size f.
Proof. unfold enc_file, file_size. zlen_simp. lia. Qed.

Lemma enc_all_cons {A} (enc : A → bytes) x l : enc_all enc (x :: l) = enc x ++ enc_all enc l.
Proof. done. Qed.

(** The loops that add sizes up, from any start. *)
Lemma sizes_sum {A} (size : A → Z) (enc : A → bytes) l n :
  (∀ x, size x = zlen (enc x)) → 0 <= n → n + zlen (enc_all enc l) < U64_MAX →
  foldl (λ n x, u64 (n + size x)) n l = n + zlen (enc_all enc l).
Proof.
  intros Hs. revert n; induction l as [|x l IH]; intros n Hn Hl.
  - simpl. change (zlen (enc_all enc [])) with 0. lia.
  - rewrite enc_all_cons, zlen_app in *. simpl. rewrite Hs, u64_small by zlia.
    rewrite IH by zlia. lia.
Qed.

Lemma pairs_size_ok m :
  zlen (enc_all enc_pair m) < U64_MAX → pairs_size m = zlen (enc_all enc_pair m).
Proof.
  intros Hl. unfold pairs_size. rewrite (sizes_sum pair_size enc_pair); [lia| |lia|lia].
  intros x. symmetry. apply zlen_enc_pair.
Qed.

Lemma filesSize_ok r :
  zlen (enc_all (enc_file (body_ r)) (files_ r)) < U64_MAX →
  filesSerializedSize r = zlen (enc_all (enc_file (body_ r)) (files_ r)).
Proof.
  intros Hl. unfold filesSerializedSize.
  rewrite (sizes_sum file_size (enc_file (body_ r))); [lia| |lia|lia].
  intros x. symmetry. apply zlen_enc_file.
Qed.

(** ** Writing *)

Section writing.
Context `{PosixOk}.
Context (b : DataBuffer) (d : loc) (src : DataBuffer) (vs : bytes).

Lemma separate_others w w' :
  others d w w' → views w src vs → separate w src d → views w' src vs ∧ separate w' src d.
Proof.
  intros Ho Hv Hs. unfold separate in *. destruct (data_ src) as [l|] eqn:Hl.
  - pose proof Hv as Hv0. unfold views in Hv0. rewrite Hl in Hv0.
    destruct Hv0 as (d' & k & c & Hh & _). pose proof (Hs _ _ _ _ eq_refl Hh) as Hne.
    destruct (views_others w w' src vs d d') as [Hv' _]; [done|done|by exists l, k, c|done|].
    split; [done|]. intros l2 d2 k2 c2 [= <-] Hh2.
    destruct (holds_fun _ _ _ _ _ _ _ _ Hh2 (Ho _ _ _ _ Hne Hh)) as [-> _]. done.
  - split; [|done]. unfold views in *. by rewrite Hl in *.
Qed.

Lemma separate_mono w w' :
  wle w w' → views w src vs → separate w src d → views w' src vs ∧ separate w' src d.
Proof. intros Hw. apply separate_others. by apply wle_others. Qed.

Lemma writes_bind m1 m2 d1 d2 :
  writes b d src vs m1 d1 → writes b d src vs m2 d2 →
  writes b d src vs (λ pos, p ← m1 pos; m2 p) (d1 ++ d2).
Proof.
  intros H1 H2 w v pos Hv Hst Hs Hsep Hp Hl. rewrite zlen_app in *. wp_step.
  eapply wp_mono; [apply H1; try done; zlia| |done].
  intros r w1 (-> & Hv1 & Hst1 & Hs1 & Hsep1 & Ho1 & Hw1).
  assert (zlen (splice pos d1 v) = zlen v) as Hz by (apply zlen_splice; zlia).
  eapply wp_mono; [apply H2; try done; zlia| |done].
  intros r w2 (-> & Hv2 & Hst2 & Hs2 & Hsep2 & Ho2 & Hw2). rewrite splice_splice in Hv2 by zlia.
  split_and!; [lia|done..|by etrans|by etrans].
Qed.

Lemma writes_nil : writes b d src vs (λ pos, mret pos) [].
Proof.
  intros w v pos Hv Hst Hs Hsep Hp Hl. wp_step.
  assert (splice pos [] v = v) as -> by (unfold splice; simpl; by rewrite Nat.add_0_r, take_drop).
  change (zlen []) with 0. split_and!; [lia|done..].
Qed.

(** A plain write of [data]. *)
Lemma writes_data data :
  writes b d src vs (λ pos, n ← DataBuffer.write pos data b; mret (u64 (pos + n))) data.
Proof.
  intros w v pos Hv Hst Hs Hsep Hp Hl. wp_step.
  eapply wp_mono; [by apply write_stored| |done].
  intros r w' (-> & Hv' & Hst' & Ho & Hw'). wp_step.
  destruct (size_views _ _ _ Hv) as (_ & _ & _ & Hmax).
  destruct (separate_others _ _ Ho Hs Hsep).
  split_and!; try done. destruct (size_views _ _ _ Hv) as (_ & He & Hb & _). apply u64_small. zlia.
Qed.

Lemma writes_int v : writes b d src vs (λ pos, serializeInt b pos v) (enc_int v).
Proof. apply writes_data. Qed.

Lemma writes_string s : writes b d src vs (λ pos, serializeString b pos s) (enc_str s).
Proof. apply writes_bind; [apply writes_int|apply writes_data]. Qed.

Lemma writes_pairs m : writes b d src vs (λ pos, serializePairs b pos m) (enc_all enc_pair m).
Proof.
  induction m as [|nv m IH]; [apply writes_nil|]. rewrite enc_all_cons. unfold enc_pair.
  rewrite <- app_assoc. apply (writes_bind (λ pos, serializeString b pos nv.1)); [apply writes_string|].
  apply (writes_bind (λ pos, serializeString b pos nv.2)); [apply writes_string|exact IH].
Qed.

(** The loop over the segments of [src] while [b] is written. *)
Lemma writes_segments :
  writes b d src vs (λ pos, for_segments id (λ w _, w) src
    (λ pos it, chunk ← segment_bytes it; n ← DataBuffer.write pos chunk b; mret (u64 (pos + n))) pos) vs.
Proof.
  intros w v pos Hv Hst Hs Hsep Hp Hl.
  pose (P := λ (pre : bytes) (p : Z) w', p = pos + zlen pre ∧ views w' b (splice pos pre v) ∧
    stored w' b d ∧ views w' src vs ∧ separate w' src d ∧ others d w w' ∧ wshape w w').
  apply (for_segments_ok id (λ w _, w) src vs _ P); unfold P; try done.
  - split_and!; try done; [change (zlen []) with 0; lia|].
    by assert (splice pos [] v = v) as -> by (unfold splice; simpl; by rewrite Nat.add_0_r, take_drop).
  - intros pre p s w' (-> & Hv1 & Hst1 & Hs1 & Hsep1 & Ho1 & Hsh1) Hw.
    destruct (separate_mono _ _ Hw Hs1 Hsep1).
    split_and!; try done; [by eapply views_mono|by eapply stored_mono| |].
    + etrans; [done|]. by apply wle_others.
    + etrans; [done|]. by apply wle_wshape.
  - intros l ds k c Hsl Hh pre seg rest p s' it Hvs _ (-> & Hv1 & Hst1 & Hs1 & Hsep1 & Ho1 & Hw0) Hsh.
    pose proof (Hsep _ _ _ _ Hsl Hh) as Hne. rewrite Hvs, !zlen_app in Hl.
    assert (zlen (splice pos pre v) = zlen v) as Hz by (apply zlen_splice; zlia).
    wp_step. eapply wp_mono; [by eapply iterator_deref_ok| |done].
    intros chunk w1 [-> Hw1]. destruct (separate_mono _ _ Hw1 Hs1 Hsep1) as [Hs2 Hsep2].
    eapply wp_mono; [apply (writes_data seg w1 (splice pos pre v)); try done;
      [by eapply views_mono|by eapply stored_mono|zlia|zlia]| |done].
    intros r w2 (-> & Hv2 & Hst2 & Hs3 & Hsep3 & Ho2 & Hw2). rewrite splice_splice in Hv2 by zlia.
    assert (others d s' w2) as Ho by (etrans; [by apply wle_others|done]).
    split; [|intros l' _; by apply Ho].
    split_and!; try done; [rewrite zlen_app; lia|by etrans|].
    etrans; [done|]. etrans; [by apply wle_wshape|done].
Qed.

Lemma writes_buffer : writes b d src vs (λ pos, serializeBuffer b pos src) (enc_str vs).
Proof.
  intros w v pos Hv Hst Hs. destruct (size_views _ _ _ Hs) as (Esz & _).
  unfold serializeBuffer. rewrite Esz. revert w v pos Hv Hst Hs.
  exact (writes_bind _ _ _ _ (writes_int (zlen vs)) writes_segments).
Qed.

Lemma writes_files body files :
  writes b d src vs (λ pos, serializeFiles_loop body b pos files) (enc_all (enc_file body) files).
Proof.
  induction files as [|[name f] files IH]; [apply writes_nil|]. rewrite enc_all_cons.
  unfold enc_file at 1. cbn [fst snd serializeFiles_loop]. rewrite <- !app_assoc.
  apply (writes_bind (λ pos, serializeString b pos name)); [apply writes_string|].
  apply (writes_bind (λ pos, serializeString b pos (f_name f))); [apply writes_string|].
  apply (writes_bind (λ pos, serializeString b pos (f_type f))); [apply writes_string|].
  unfold enc_int. rewrite <- (le_bytes_u64 (begin_ (f_data f) - _)), <- (le_bytes_u64 (end_ _ - _)).
  apply (writes_bind (λ pos, serializeInt b pos _)); [apply writes_int|].
  apply (writes_bind (λ pos, serializeInt b pos _)); [apply writes_int|exact IH].
Qed.

(** The three maps. *)
Lemma writes_env r :
  zlen (image_env r) < U64_MAX →
  writes b d src vs (λ pos, serializeMaps r b pos) (image_env r).
Proof.
  unfold image_env. intros Hl. zlen_simp. unfold enc_str. rewrite <- !app_assoc.
  rewrite <- !pairs_size_ok by zlia.
  apply (writes_bind (λ pos, serializeInt b pos _)); [apply writes_int|].
  apply (writes_bind (λ pos, serializePairs b pos _)); [apply writes_pairs|].
  apply (writes_bind (λ pos, serializeInt b pos _)); [apply writes_int|].
  apply (writes_bind (λ pos, serializePairs b pos _)); [apply writes_pairs|].
  apply (writes_bind (λ pos, serializeInt b pos _)); [apply writes_int|apply writes_pairs].
Qed.

Lemma writes_rest r :
  zlen (image_rest r) < U64_MAX →
  writes b d src vs (λ pos, pos ← serializeFiles r b pos; serializeArgs r b pos) (image_rest r).
Proof.
  unfold image_rest. intros Hl. zlen_simp.
  apply (writes_bind (λ pos, serializeFiles r b pos)); unfold serializeFiles, serializeArgs, enc_str.
  - rewrite <- filesSize_ok by zlia.
    apply (writes_bind (λ pos, serializeInt b pos _)); [apply writes_int|apply writes_files].
  - unfold argsSerializedSize. rewrite <- pairs_size_ok by zlia.
    apply (writes_bind (λ pos, serializeInt b pos _)); [apply writes_int|apply writes_pairs].
Qed.
End writing.

Section serialize_lemmas.
Context `{PosixOk}.
Implicit Types (w : world) (b buffer : DataBuffer) (vb : bytes).

(** The size [serializeEnv] asks for. *)
Lemma env_size r n :
  0 <= n → n + zlen (image_env r) < U64_MAX →
  u64 (n + pairs_size (headers_ r) + pairs_size (cookies_ r) + pairs_size (vars_ r) + 3 * 8) =
  n + zlen (image_env r).
Proof.
  unfold image_env. intros Hn Hl. zlen_simp. rewrite !pairs_size_ok by zlia.
  rewrite u64_small by zlia. lia.
Qed.

(** [serializeEnv] makes room and writes the three maps at the front. *)
Lemma serializeEnv_ok w r buffer v0 d src vs n :
  views w buffer v0 → stored w buffer d → begin_ buffer = 0 →
  views w src vs → separate w src d → 0 <= n → n + zlen (image_env r) < 2 ^ 62 →
  wp (serializeEnv r buffer n) w
     (λ p w', p = (zlen (image_env r), MkDataBuffer (data_ buffer) 0 (n + zlen (image_env r))) ∧
        (∃ rest, zlen rest = n ∧ views w' p.2 (image_env r ++ rest)) ∧ stored w' p.2 d ∧
        views w' src vs ∧ separate w' src d ∧ others d w w' ∧ filled w' p.2) noexn.
Proof.
  intros Hv Hst Hb Hs Hsep Hn Hl. unfold serializeEnv. rewrite env_size by zlia.
  assert (24 <= zlen (image_env r)) by (unfold image_env; zlia).
  wp_step. eapply wp_mono; [apply (resize_stored w buffer v0 d); rewrite ?Hb; done || zlia| |done].
  intros b' w1 (Eb & Hst1 & Ho1 & Hf1 & v' & Hv1 & Hz & _). rewrite Hb, Z.add_0_l in Eb.
  destruct (separate_others d src vs _ _ Ho1 Hs Hsep) as [Hs1 Hsep1]. wp_step.
  eapply wp_mono; [apply (writes_env b' d src vs r ltac:(zlia) w1 v' 0); done || zlia| |done].
  intros pos w2 (-> & Hv2 & Hst2 & Hs2 & Hsep2 & Ho2 & Hw2). wp_step. cbn [snd].
  split_and!; try done; [by rewrite Eb| |by etrans|by eapply filled_shape].
  exists (drop (length (image_env r)) v'). split; [|exact Hv2].
  unfold zlen in *. rewrite length_drop. lia.
Qed.

(** [serialize] leaves exactly the image in the buffer. *)
Lemma serialize_ok w r buffer v0 d vb :
  views w buffer v0 → stored w buffer d → begin_ buffer = 0 →
  views w (body_ r) vb → separate w (body_ r) d → zlen (image r vb) < 2 ^ 62 →
  wp (serialize r buffer) w
     (λ b' w', views w' b' (image r vb) ∧ data_ b' = data_ buffer ∧ begin_ b' = 0 ∧
        views w' (body_ r) vb ∧ others d w w' ∧ stored w' b' d ∧ filled w' b') noexn.
Proof.
  intros Hv Hst Hb Hs Hsep Hl. unfold serialize. destruct (size_views _ _ _ Hs) as (-> & _).
  unfold image in *. set (tail := enc_str vb ++ image_rest r) in *. rewrite zlen_app in Hl.
  assert (u64 (8 + zlen vb + 8 + filesSerializedSize r + 8 + argsSerializedSize r) = zlen tail) as ->.
  { unfold tail, image_rest, argsSerializedSize in *. zlen_simp.
    rewrite filesSize_ok, pairs_size_ok by zlia. rewrite u64_small by zlia. lia. }
  wp_step. eapply wp_mono; [by apply (serializeEnv_ok w r buffer v0 d (body_ r) vb); try zlia| |done].
  intros p w1 (-> & (rest & Hr & Hv1) & Hst1 & Hs1 & Hsep1 & Ho1 & Hf1). cbn [fst snd] in *.
  set (b' := MkDataBuffer _ 0 _) in *.
  assert (zlen (image_env r ++ rest) = zlen (image_env r) + zlen tail) as Hz by (rewrite zlen_app; lia).
  assert (zlen tail = 8 + zlen vb + zlen (image_rest r)) as Ht by (unfold tail; zlen_simp; lia).
  wp_step. eapply wp_mono; [apply (writes_buffer b' d (body_ r) vb w1 (image_env r ++ rest)); done || zlia| |done].
  intros pos w2 (-> & Hv2 & Hst2 & Hs2 & Hsep2 & Ho2 & Hw2). apply wp_assoc. wp_step.
  eapply wp_mono; [apply (writes_rest b' d (body_ r) vb r ltac:(zlia) w2 _ _ Hv2); try done; try zlia| |done].
  { rewrite zlen_splice by zlia. zlia. }
  intros pos w3 (-> & Hv3 & Hst3 & Hs3 & Hsep3 & Ho3 & Hw3). wp_step.
  rewrite splice_splice in Hv3 by zlia. fold tail in Hv3. split_and!; try done.
  - unfold splice in Hv3. rewrite to_nat_zlen, take_app_length, drop_ge, app_nil_r in Hv3; [done|].
    unfold zlen in *. lia.
  - etrans; [done|]. by etrans.
  - eapply filled_shape; [etrans; [exact Hw2|exact Hw3]|exact Hst1|exact Hf1].
Qed.
End serialize_lemmas.

(** ** Reading the image back *)

Lemma wp_on_buffers {A} (m : M world A) (t : RequestImpl * world)
    (Q : A → RequestImpl * world → Prop) :
  wp m t.2 (λ a w, Q a (t.1, w)) noexn → wp (on_buffers m) t Q noexn.
Proof. intros Hm. apply wp_zoom. eapply wp_mono; [exact Hm|done|done]. Qed.

(** Read the next field of the image with [lem]: the view [Hv] moves on. *)
Tactic Notation "parse_next" uconstr(lem) "in" hyp(Hv) :=
  wp_step; apply wp_on_buffers;
  eapply wp_mono; [eapply lem; [exact Hv|..]; zlia| |done];
  let y := fresh "y" in let w1 := fresh "w" in let Hw := fresh "Hw" in
  intros y w1 [-> Hw]; cbn [fst snd] in *; rewrite <- zlen_app;
  apply (views_mono _ w1) in Hv; [|done]; rewrite app_assoc in Hv.
(** A chain of reading steps. *)
Ltac wle_chain := cbn [fst snd] in *; repeat first [eassumption|etrans; [eassumption|]].

Section parse_lemmas.
Context `{PosixOk}.
Implicit Types (w : world) (b buffer : DataBuffer) (v p q s : bytes) (r : RequestImpl).

(** Reading a piece in the middle. *)
Lemma read_mid w b p e q :
  views w b (p ++ e ++ q) →
  wp (DataBuffer.read (zlen p) (zlen e) b) w (λ y w', y = e ∧ wle w w') noexn.
Proof.
  intros Hv. eapply wp_mono; [by apply (read_views w b _ (zlen p) (zlen e) Hv); zlia| |done].
  intros x w' [-> Hw]. split; [|done].
  by rewrite !to_nat_zlen, drop_app_length, take_app_length.
Qed.

Lemma parseInt_ok w b p x q :
  views w b (p ++ enc_int x ++ q) → 0 <= x < U64_MAX →
  wp (parseInt b (zlen p)) w (λ y w', y = (zlen p + 8, x) ∧ wle w w') noexn.
Proof.
  intros Hv Hx. destruct (size_views _ _ _ Hv) as (_ & He & Hb & Hmax). zlen_simp.
  unfold parseInt. wp_step. change 8 with (zlen (enc_int x)).
  eapply wp_mono; [by eapply read_mid| |done]. intros d w' [-> Hw]. wp_step.
  rewrite zlen_enc_int, u64_small by zlia. unfold enc_int. by rewrite le_value_u64.
Qed.

Lemma parseString_ok w b p s q :
  views w b (p ++ enc_str s ++ q) →
  wp (parseString b (zlen p)) w (λ y w', y = (zlen p + zlen (enc_str s), s) ∧ wle w w') noexn.
Proof.
  intros Hv. destruct (size_views _ _ _ Hv) as (_ & He & Hb & Hmax). zlen_simp.
  unfold enc_str in Hv. rewrite <- app_assoc in Hv. unfold parseString. wp_step.
  eapply wp_mono; [by apply (parseInt_ok w b p _ _ Hv); zlia| |done].
  intros y w1 [-> Hw1]. replace (STRING_MAX <? zlen s) with false by (unfold STRING_MAX; zlia). wp_step.
  replace (zlen p + 8) with (zlen (p ++ enc_int (zlen s))) by (zlen_simp; lia).
  eapply wp_mono; [eapply (read_mid w1 b (p ++ enc_int (zlen s)) s q)| |done].
  { rewrite <- app_assoc. by eapply views_mono. }
  intros d w2 [-> Hw2]. wp_step. zlen_simp. rewrite u64_small by zlia.
  unfold vector_resize. rewrite to_nat_zlen, firstn_all, Nat.sub_diag, app_nil_r.
  split; [f_equal; lia|by etrans].
Qed.

(** The beginning of a section that holds [e]. *)
Lemma parse_section_ok w b p e q what :
  views w b (p ++ enc_str e ++ q) →
  wp (parse_section b (zlen p) what) w
     (λ y w', y = (zlen p + 8, zlen p + 8 + zlen e) ∧ wle w w') noexn.
Proof.
  intros Hv. destruct (size_views _ _ _ Hv) as (Hs & He & Hb & Hmax). zlen_simp.
  unfold enc_str in Hv. rewrite <- app_assoc in Hv. unfold parse_section. wp_step.
  eapply wp_mono; [by apply (parseInt_ok w b p _ _ Hv); zlia| |done].
  intros y w1 [-> Hw1]. rewrite u64_small, Hs by zlia.
  replace (_ <? _) with false by zlia. by wp_step.
Qed.

(** The loop over the pairs of a section. *)
Lemma parsePairs_loop add b m fuel : (length m < fuel)%nat → ∀ p q r w,
  views w b (p ++ enc_all enc_pair m ++ q) →
  wp (loop fuel (parsePairs_step add b (zlen p + zlen (enc_all enc_pair m))) (zlen p)) (r, w)
     (λ pos t, pos = zlen p + zlen (enc_all enc_pair m) ∧
               t.1 = foldl (λ r nv, add nv r) r m ∧ wle w t.2) noexn.
Proof.
  revert fuel. induction m as [|nv m IH]; intros fuel Hf p q r w Hv;
    (destruct fuel as [|fuel]; [simpl in Hf; lia|]); unfold loop; fold (@loop (RequestImpl * world)).
  - change (zlen (enc_all enc_pair [])) with 0. unfold parsePairs_step.
    replace (zlen p <? zlen p + 0) with false by lia. wp_steps. simpl. split; [lia|done].
  - rewrite enc_all_cons in *. unfold enc_pair at 1 in Hv. rewrite <- !app_assoc in Hv. wp_step.
    unfold parsePairs_step at 1. replace (_ <? _) with true by (zlen_simp; unfold enc_pair; zlia).
    parse_next parseString_ok in Hv. parse_next parseString_ok in Hv.
    unfold update_request. wp_steps. cbn [fst snd].
    set (p' := (p ++ enc_str nv.1) ++ enc_str nv.2) in *.
    replace (zlen p + zlen (enc_pair nv ++ enc_all enc_pair m))
      with (zlen p' + zlen (enc_all enc_pair m)) by (unfold p', enc_pair; zlen_simp; lia).
    eapply wp_mono; [apply (IH fuel ltac:(simpl in Hf; lia) p' q _ _ Hv)| |done].
    intros pos t (-> & Ht & Hwt). split_and!; [done| |wle_chain].
    rewrite Ht. destruct nv. done.
Qed.

Lemma enc_all_length {A} (enc : A → bytes) l :
  (∀ x, enc x ≠ []) → (length l ≤ length (enc_all enc l))%nat.
Proof.
  intros He. induction l as [|x l IH]; [done|]. rewrite enc_all_cons, length_app. simpl.
  specialize (He x). destruct (enc x); [done|]. simpl. lia.
Qed.

Lemma parsePairs_ok add w b p m q r what :
  views w b (p ++ enc_str (enc_all enc_pair m) ++ q) →
  wp (parsePairs add b (zlen p) what) (r, w)
     (λ pos t, pos = zlen (p ++ enc_str (enc_all enc_pair m)) ∧
               t.1 = foldl (λ r nv, add nv r) r m ∧ wle w t.2) noexn.
Proof.
  intros Hv. destruct (size_views _ _ _ Hv) as (Hs & _). unfold parsePairs. wp_step.
  apply wp_on_buffers. eapply wp_mono; [by eapply parse_section_ok| |done].
  intros y w1 [-> Hw1]. cbn [fst snd].
  replace (zlen p + 8) with (zlen (p ++ enc_int (zlen (enc_all enc_pair m)))) by (zlen_simp; lia).
  eapply wp_mono; [apply (parsePairs_loop _ b m) with (q := q)| |done].
  - rewrite Hs. pose proof (enc_all_length enc_pair m ltac:(done)). zlen_simp. unfold zlen. lia.
  - apply (views_mono w); [done|]. unfold enc_str in Hv. by rewrite <- !app_assoc in *.
  - intros pos t (-> & Ht & Hw). split_and!; [zlen_simp; lia|done|by etrans].
Qed.

Lemma sub_buffer_ok w b v x y :
  views w b v → isNil b = false → 0 <= x → x <= y → y <= zlen v →
  wp (DataBuffer.sub_buffer b (begin_ b + x) (begin_ b + y)) w
     (λ b' w', b' = MkDataBuffer (data_ b) (begin_ b + x) (begin_ b + y) ∧
               views w' b' (slice x y v) ∧ wle w w') noexn.
Proof.
  intros Hv Hn Hx Hxy Hy. destruct (size_views _ _ _ Hv) as (_ & He & _).
  unfold isNil in Hn. destruct (data_ b) as [l|] eqn:Hl; [|done].
  pose proof Hv as Hv0. unfold views in Hv0. rewrite Hl in Hv0.
  destruct Hv0 as (d & k & c & Hh & H1 & H2 & H3 & _).
  unfold DataBuffer.sub_buffer. wp_step.
  eapply wp_mono; [apply (vcall_reads b _ w l d k c (λ n, n = zlen c)); [done|done|]| |done].
  { intros i Hok. by apply (@b_size_ok impl _ impl_laws). }
  intros n w' [-> Hw]. replace (zlen c <? begin_ b + y) with false by lia. wp_step.
  split_and!; [by rewrite Hl| |done]. apply (views_mono w); [done|].
  apply sub_views; try done. unfold isNil. by rewrite Hl.
Qed.

Lemma parseBody_ok w b p vb q r :
  views w b (p ++ enc_str vb ++ q) → isNil b = false →
  wp (parseBody b (zlen p)) (r, w)
     (λ pos t, pos = zlen (p ++ enc_str vb) ∧
        t.1 = set_body r (MkDataBuffer (data_ b) (begin_ b + (zlen p + 8)) (begin_ b + (zlen p + 8 + zlen vb))) ∧
        views t.2 (body_ t.1) vb ∧ wle w t.2) noexn.
Proof.
  intros Hv Hn. destruct (size_views _ _ _ Hv) as (Hs & He & Hb & Hmax). unfold parseBody. wp_step.
  apply wp_on_buffers. eapply wp_mono; [by eapply parse_section_ok| |done].
  intros y w1 [-> Hw1]. wp_step. unfold DataBuffer.beginIndex. zlen_simp.
  rewrite !u64_small by zlia. rewrite !(Z.add_comm _ (begin_ b)). apply wp_on_buffers. cbn [fst snd].
  eapply wp_mono; [apply (sub_buffer_ok w1 b (p ++ enc_str vb ++ q));
    [by eapply views_mono|done|zlia..]| |done].
  intros body w2 (-> & Hv2 & Hw2). unfold update_request. wp_steps. cbn [fst snd body_ set_body].
  split_and!; [lia|done| |by etrans].
  replace (slice _ _ _) with vb in Hv2; [done|].
  replace (p ++ enc_str vb ++ q) with ((p ++ enc_int (zlen vb)) ++ vb ++ q)
    by (unfold enc_str; by rewrite <- !app_assoc).
  replace (zlen p + 8) with (zlen (p ++ enc_int (zlen vb))) by (zlen_simp; lia).
  symmetry. apply slice_app_mid.
Qed.

(** One file of the image. *)
Lemma parseFiles_step_ok w b p f q r vb body pos_end :
  views w b (p ++ enc_file body f ++ q) → views w (body_ r) vb → isNil (body_ r) = false →
  file_wf body f → zlen vb = end_ body - begin_ body → zlen p < pos_end → 0 <= begin_ body →
  end_ body < 2 ^ 62 →
  wp (parseFiles_step b pos_end (zlen p)) (r, w)
     (λ y t, y = inl (zlen (p ++ enc_file body f)) ∧
        t.1 = set_files r (map_insert f.1 (relocate body (body_ r) f.2) (files_ r)) ∧
        wle w t.2) noexn.
Proof.
  intros Hv Hvb Hnil (Hname & Hdata & H1 & H2 & H3) Hlen Hpos Hb0 He0. unfold parseFiles_step.
  replace (zlen p <? pos_end) with true by lia. unfold enc_file in Hv. rewrite <- !app_assoc in Hv.
  set (off := begin_ (f_data f.2) - begin_ body) in *.
  set (len := end_ (f_data f.2) - begin_ (f_data f.2)) in *.
  assert (0 <= off ∧ 0 <= len ∧ off + len <= zlen vb ∧ zlen vb < 2 ^ 62) as (Ho1 & Ho2 & Ho3 & Ho4)
    by (unfold off, len; lia).
  assert (off + len = end_ (f_data f.2) - begin_ body) as Hol by (unfold off, len; lia).
  do 3 parse_next parseString_ok in Hv.
  wp_step. apply wp_on_buffers. eapply wp_mono; [eapply parseInt_ok; [exact Hv|zlia]| |done].
  intros y w4 [-> Hw4]. cbn [fst snd]. change 8 with (zlen (enc_int off)). rewrite <- zlen_app.
  apply (views_mono _ w4) in Hv; [|done]. rewrite app_assoc in Hv.
  wp_step. apply wp_on_buffers. eapply wp_mono; [eapply parseInt_ok; [exact Hv|zlia]| |done].
  intros y' w5 [-> Hw5]. cbn [fst snd]. wp_steps. apply wp_on_buffers. cbn [fst snd].
  assert (wle w w5) as Hw05 by wle_chain.
  destruct (size_views _ _ _ Hvb) as (_ & Heb & Hbb & Hmb).
  unfold DataBuffer.beginIndex. rewrite !u64_small by zlia. rewrite !(Z.add_comm _ (begin_ (body_ r))).
  eapply wp_mono; [apply (sub_buffer_ok w5 (body_ r) vb);
    [by apply (views_mono w)|done|zlia..]| |done].
  intros fb w6 (-> & Hv6 & Hw6). wp_step. apply wp_on_buffers. unfold file_of_strings. cbn [fst snd].
  apply empty_false in Hname. rewrite Hname. wp_steps. unfold update_request. wp_steps. cbn [fst snd].
  rewrite Hol in *. split_and!; [|done|by etrans].
  f_equal. unfold enc_file. fold off len. zlen_simp. lia.
Qed.

(** The loop over the files. *)
Lemma parseFiles_loop b body vb fs fuel :
  zlen vb = end_ body - begin_ body → 0 <= begin_ body → end_ body < 2 ^ 62 →
  Forall (file_wf body) fs → (length fs < fuel)%nat → ∀ p q r w,
  views w b (p ++ enc_all (enc_file body) fs ++ q) →
  views w (body_ r) vb → isNil (body_ r) = false →
  wp (loop fuel (parseFiles_step b (zlen p + zlen (enc_all (enc_file body) fs))) (zlen p)) (r, w)
     (λ pos t, pos = zlen p + zlen (enc_all (enc_file body) fs) ∧
        t.1 = set_files r (foldl (λ m f, map_insert f.1 (relocate body (body_ r) f.2) m) (files_ r) fs) ∧
        wle w t.2) noexn.
Proof.
  intros Hvb Hb He Hfs. revert fuel.
  induction Hfs as [|f fs Hf Hfs IH]; intros fuel Hfuel p q r w Hv Hvr Hn;
    (destruct fuel as [|fuel]; [simpl in Hfuel; lia|]); unfold loop; fold (@loop (RequestImpl * world)).
  - change (zlen (enc_all _ [])) with 0. unfold parseFiles_step.
    replace (zlen p <? zlen p + 0) with false by lia. wp_steps. simpl.
    split_and!; [lia|by destruct r|done].
  - rewrite enc_all_cons in *. rewrite <- app_assoc in Hv. wp_step.
    eapply wp_mono; [apply (parseFiles_step_ok w b p f (enc_all (enc_file body) fs ++ q) r vb body); try done;
      zlen_simp; unfold enc_file; zlia| |done].
    intros y t (-> & Ht & Hw). destruct t as [r1 w1]. cbn [fst snd] in *. subst r1.
    apply (views_mono _ w1) in Hv, Hvr; [|done..]. rewrite app_assoc in Hv.
    rewrite (zlen_app (enc_file body f)), Z.add_assoc, <- zlen_app.
    eapply wp_mono; [apply (IH fuel ltac:(simpl in Hfuel; lia) (p ++ enc_file body f) q); done| |done].
    intros pos t (-> & -> & Hwt). split_and!; [done|done|wle_chain].
Qed.

Lemma parseFiles_ok w b p body vb fs q r :
  views w b (p ++ enc_str (enc_all (enc_file body) fs) ++ q) →
  views w (body_ r) vb → isNil (body_ r) = false →
  zlen vb = end_ body - begin_ body → 0 <= begin_ body → end_ body < 2 ^ 62 →
  Forall (file_wf body) fs →
  wp (parseFiles b (zlen p)) (r, w)
     (λ pos t, pos = zlen (p ++ enc_str (enc_all (enc_file body) fs)) ∧
        t.1 = set_files r (foldl (λ m f, map_insert f.1 (relocate body (body_ r) f.2) m) (files_ r) fs) ∧
        wle w t.2) noexn.
Proof.
  intros Hv Hvr Hn Hvb Hb He Hfs. destruct (size_views _ _ _ Hv) as (Hs & _). unfold parseFiles. wp_step.
  apply wp_on_buffers. eapply wp_mono; [by eapply parse_section_ok| |done].
  intros y w1 [-> Hw1]. cbn [fst snd] in *.
  replace (zlen p + 8) with (zlen (p ++ enc_int (zlen (enc_all (enc_file body) fs)))) by (zlen_simp; lia).
  eapply wp_mono; [apply (parseFiles_loop b body vb fs) with (q := q); try done| |done].
  - rewrite Hs. pose proof (enc_all_length (enc_file body) fs ltac:(done)). zlen_simp. unfold zlen. lia.
  - apply (views_mono w); [done|]. unfold enc_str in Hv. by rewrite <- !app_assoc in *.
  - by apply (views_mono w).
  - intros pos t (-> & Ht & Hw). split_and!; [zlen_simp; lia|done|by etrans].
Qed.

(** What the loops make of a request. *)
Lemma add_headers `{HashOrder} l r :
  foldl (λ r nv, add_header nv r) r l =
  set_headers r (foldl (λ m nv, hm_insert header_eq nv m) (headers_ r) l).
Proof. revert r; induction l as [|nv l IH]; intros r; [by destruct r|]. simpl. by rewrite IH. Qed.

Lemma add_cookies `{HashOrder} l r :
  foldl (λ r nv, add_cookie nv r) r l =
  set_cookies r (foldl (λ m nv, hm_insert var_eq nv m) (cookies_ r) l).
Proof. revert r; induction l as [|nv l IH]; intros r; [by destruct r|]. simpl. by rewrite IH. Qed.

Lemma add_vars `{HashOrder} l r :
  foldl (λ r nv, add_var nv r) r l =
  set_vars r (foldl (λ m nv, hm_insert var_eq nv m) (vars_ r) l).
Proof. revert r; induction l as [|nv l IH]; intros r; [by destruct r|]. simpl. by rewrite IH. Qed.

Lemma add_args l r : foldl (λ r nv, add_arg nv r) r l = set_args r (args_ r ++ l).
Proof.
  revert r; induction l as [|nv l IH]; intros r; simpl.
  - rewrite app_nil_r. by destruct r.
  - rewrite IH. unfold add_arg. simpl. by rewrite <- app_assoc.
Qed.

(** A file is the part of the body between its bounds. *)
Lemma file_views w body vb f :
  views w body vb → file_wf body f →
  views w (f_data f.2)
    (slice (begin_ (f_data f.2) - begin_ body) (end_ (f_data f.2) - begin_ body) vb).
Proof.
  intros Hv (_ & Hd & H1 & H2 & H3). destruct (size_views _ _ _ Hv) as (_ & He & Hb & _).
  destruct (isNil body) eqn:En.
  - unfold isNil, views in *. rewrite Hd. destruct (data_ body); [done|].
    destruct Hv as (E1 & E2 & ->). rewrite E1, E2 in *.
    split_and!; [lia|lia|]. unfold slice. by rewrite drop_nil, take_nil.
  - pose proof (sub_views w body vb (begin_ (f_data f.2) - begin_ body)
      (end_ (f_data f.2) - begin_ body) Hv En ltac:(lia) ltac:(lia) ltac:(lia)) as Hs.
    replace (MkDataBuffer _ _ _) with (f_data f.2) in Hs; [done|].
    destruct (f_data f.2); simpl in *. f_equal; [done|lia|lia].
Qed.

Lemma relocate_views w body body' vb f :
  views w body' vb → isNil body' = false → zlen vb = end_ body - begin_ body → file_wf body f →
  views w (f_data (relocate body body' f.2))
    (slice (begin_ (f_data f.2) - begin_ body) (end_ (f_data f.2) - begin_ body) vb).
Proof. intros Hv Hn Hz (_ & _ & H1 & H2 & H3). apply sub_views; done || lia. Qed.

(** Parsing the image of a request into an empty one. *)
Definition blank r : Prop :=
  headers_ r = [] ∧ cookies_ r = [] ∧ vars_ r = [] ∧ files_ r = [] ∧ args_ r = [].

Lemma parse_image `{HashOrder} w0 w b r r0 vb :
  request_wf w0 r vb → views w b (image r vb) → isNil b = false → blank r0 →
  wp (parse b) (r0, w) (λ _ t, same_request w0 r t.2 t.1 ∧ wle w t.2) noexn.
Proof.
  intros (Hhw & Hcw & Hvw & Hfs & Hfw & Hvb) Hv Hn (B1 & B2 & B3 & B4 & B5).
  destruct (size_views _ _ _ Hvb) as (_ & Heb & Hbb & Hmb).
  unfold image, image_env, image_rest in Hv. rewrite <- !app_assoc in Hv. unfold parse.
  wp_step. eapply wp_mono; [apply (parsePairs_ok _ w b [] _ _ _ _ Hv)| |done].
  intros pos [r1 w1] (-> & E1 & Hw1). cbn [fst snd] in *. apply (views_mono _ w1) in Hv; [|done].
  wp_step. eapply wp_mono; [apply (parsePairs_ok _ w1 b ([] ++ _) _ _ _ _ Hv)| |done].
  intros pos [r2 w2] (-> & E2 & Hw2). cbn [fst snd] in *. apply (views_mono _ w2) in Hv; [|done].
  rewrite app_assoc in Hv.
  wp_step. eapply wp_mono; [apply (parsePairs_ok _ w2 b _ _ _ _ _ Hv)| |done].
  intros pos [r3 w3] (-> & E3 & Hw3). cbn [fst snd] in *. apply (views_mono _ w3) in Hv; [|done].
  rewrite app_assoc in Hv.
  wp_step. eapply wp_mono; [apply (parseBody_ok w3 b _ vb _ _ Hv Hn)| |done].
  intros pos [r4 w4] (-> & E4 & Hvb4 & Hw4). cbn [fst snd] in *. apply (views_mono _ w4) in Hv; [|done].
  rewrite app_assoc in Hv. assert (isNil (body_ r4) = false) as Hn4 by (by rewrite E4).
  wp_step. eapply wp_mono; [apply (parseFiles_ok w4 b _ (body_ r) vb _ _ r4 Hv); done || lia| |done].
  intros pos [r5 w5] (-> & E5 & Hw5). cbn [fst snd] in *. apply (views_mono _ w5) in Hv; [|done].
  rewrite app_assoc in Hv. rewrite <- (app_nil_r (enc_str (enc_all enc_pair (args_ r)))) in Hv.
  wp_step. eapply wp_mono; [apply (parsePairs_ok _ w5 b _ _ _ _ _ Hv)| |done].
  intros pos [r6 w6] (-> & E6 & Hw6). wp_step. cbn [fst snd] in *.
  split; [|wle_chain]. assert (wle w4 w6) as Hw46 by wle_chain.
  rewrite add_headers, B1 in E1. rewrite add_cookies in E2. rewrite add_vars in E3. rewrite add_args in E6.
  assert (headers_ r1 ≡ₚ headers_ r) as P1 by (rewrite E1; by apply (hm_insert_all header_eq)).
  assert (cookies_ r2 ≡ₚ cookies_ r) as P2
    by (rewrite E2, E1; simpl; rewrite B2; by apply (hm_insert_all var_eq)).
  assert (vars_ r3 ≡ₚ vars_ r) as P3
    by (rewrite E3, E2, E1; simpl; rewrite B3; by apply (hm_insert_all var_eq)).
  assert (files_ r4 = []) as P4 by (rewrite E4, E3, E2, E1; done).
  assert (files_ r5 = (λ f, (f.1, relocate (body_ r) (body_ r4) f.2)) <$> files_ r) as P5.
  { rewrite E5, P4. cbn [files_ set_files].
    rewrite (map_insert_all (relocate (body_ r) (body_ r4))); [done|]. by apply sorted_map_fmap. }
  split_and!.
  - by rewrite E6, E5, E4, E3, E2.
  - by rewrite E6, E5, E4, E3.
  - by rewrite E6, E5, E4.
  - rewrite E6, E5, E4, E3, E2, E1. simpl. by rewrite B5.
  - exists vb. split; [done|]. rewrite E6, E5. by apply (views_mono w4).
  - rewrite E6. cbn [files_ set_args]. rewrite P5. apply Forall2_fmap_r, Forall_Forall2_diag.
    eapply Forall_impl; [exact Hfw|]. intros f Hf. split_and!; [done..|].
    eexists. split; [by apply (file_views w0 (body_ r) vb)|].
    apply relocate_views; [by apply (views_mono w4)|done|lia|done].
Qed.
End parse_lemmas.

(** ** Totality: whatever the bytes *)

Section total.
Context `{PosixOk}.
Context (b : DataBuffer) (v : bytes) (Hn : isNil b = false).
Implicit Types (w : world) (r : RequestImpl) (t : RequestImpl * world).

(** Any exception may end the parsing. *)
Abbreviation any := (λ _ _, True).

Lemma wp_on_buffers_any {A} (m : M world A) t (Q : A → RequestImpl * world → Prop) :
  wp m t.2 (λ a w, Q a (t.1, w)) any → wp (on_buffers m) t Q any.
Proof. intros Hm. apply wp_zoom. eapply wp_mono; [exact Hm|done|done]. Qed.

Lemma parseInt_total w pos :
  views w b v → 0 <= pos <= zlen v →
  wp (parseInt b pos) w (λ y w', pos <= y.1 <= zlen v ∧ (pos < zlen v → pos < y.1) ∧
     0 <= y.2 ∧ views w' b v) any.
Proof.
  intros Hv Hp. destruct (size_views _ _ _ Hv) as (_ & He & Hb & Hmax). unfold parseInt. wp_step.
  eapply wp_mono; [apply (read_views w b v pos 8); done || lia| |done].
  intros d w' [-> Hw]. wp_step. cbn [fst snd].
  assert (zlen (take (Z.to_nat 8) (drop (Z.to_nat pos) v)) = Z.min 8 (zlen v - pos)) as ->
    by (unfold zlen in *; rewrite length_take, length_drop; lia).
  rewrite u64_small by zlia. split_and!; [lia|lia|lia| |by eapply views_mono].
  generalize (take (Z.to_nat 8) (drop (Z.to_nat pos) v)). intros d.
  induction d as [|c d IH]; simpl; [lia|]. pose proof (uchar_bound c). lia.
Qed.

Lemma parseString_total w pos :
  views w b v → 0 <= pos <= zlen v →
  wp (parseString b pos) w (λ y w', pos <= y.1 <= zlen v ∧ (pos < zlen v → pos < y.1) ∧ views w' b v) any.
Proof.
  intros Hv Hp. unfold parseString. wp_step.
  eapply wp_mono; [by apply parseInt_total| |done].
  intros [pos1 len] w1 (Hp1 & Hlt & Hl & Hv1). cbn [fst snd] in *. case_if; [done|]. wp_step.
  destruct (size_views _ _ _ Hv1) as (_ & He & Hb & Hmax).
  eapply wp_mono; [apply (read_views w1 b v pos1 len); done || lia| |done].
  intros d w2 [-> Hw2]. wp_step. cbn [fst snd].
  assert (0 <= zlen (take (Z.to_nat len) (drop (Z.to_nat pos1) v)) <= zlen v - pos1)
    by (unfold zlen in *; rewrite length_take, length_drop; lia).
  rewrite u64_small by zlia. split_and!; [lia|lia|lia|by eapply views_mono].
Qed.

Lemma parse_section_total w pos what :
  views w b v → 0 <= pos <= zlen v →
  wp (parse_section b pos what) w
     (λ y w', 0 <= y.1 <= zlen v ∧ 0 <= y.2 <= zlen v ∧ views w' b v) any.
Proof.
  intros Hv Hp. destruct (size_views _ _ _ Hv) as (Hs & _). unfold parse_section. wp_step.
  eapply wp_mono; [by apply parseInt_total| |done].
  intros [pos1 n] w1 (Hp1 & _ & _ & Hv1). cbn [fst snd] in *. rewrite Hs. case_if; [done|]. wp_step.
  pose proof (u64_bound (pos1 + n)). cbn [fst snd]. split_and!; try done; lia.
Qed.

(** Read the next field with [lem], which always gives one. *)
Ltac read_any lem :=
  wp_step; apply wp_on_buffers_any; eapply wp_mono; [apply lem; done || lia| |done].

(** The loops end: each turn moves the position, which stays in the buffer. *)
Lemma section_loop_total step pos_end (I : RequestImpl → Prop) :
  pos_end <= zlen v →
  (∀ pos t, 0 <= pos < pos_end → I t.1 → views t.2 b v →
     wp (step pos) t (λ y t', ∃ pos', y = inl pos' ∧ pos < pos' <= zlen v ∧ I t'.1 ∧ views t'.2 b v) any) →
  (∀ pos t, pos_end <= pos → step pos t = (Ret (inr pos), t)) →
  ∀ pos t, 0 <= pos <= zlen v → I t.1 → views t.2 b v →
  wp (loop (S (Z.to_nat (DataBuffer.size b))) step pos) t
     (λ pos' t', 0 <= pos' <= zlen v ∧ I t'.1 ∧ views t'.2 b v) any.
Proof.
  intros Hend Hstep Hstop pos t Hp HI Hv. destruct (size_views _ _ _ Hv) as (-> & _).
  apply (wp_loop (λ pos t, 0 <= pos <= zlen v ∧ I t.1 ∧ views t.2 b v)
                 (λ pos, Z.to_nat (zlen v - pos))); [|done|lia].
  intros p u (Hpu & HIu & Hvu). destruct (decide (p < pos_end)).
  - eapply wp_mono; [apply Hstep; done || lia| |done].
    intros y t' (p' & -> & Hp' & HI' & Hv'). split; [split_and!; done || lia|lia].
  - unfold wp. rewrite Hstop by lia. done.
Qed.

Lemma parsePairs_total add what pos t (I : RequestImpl → Prop) :
  (∀ nv r, I r → I (add nv r)) → 0 <= pos <= zlen v → I t.1 → views t.2 b v →
  wp (parsePairs add b pos what) t (λ pos' t', 0 <= pos' <= zlen v ∧ I t'.1 ∧ views t'.2 b v) any.
Proof.
  intros Hadd Hp HI Hv. unfold parsePairs. wp_step. apply wp_on_buffers_any.
  eapply wp_mono; [by apply parse_section_total| |done].
  intros [p pe] w1 (Hp1 & Hpe & Hv1). cbn [fst snd] in *.
  apply section_loop_total with (pos_end := pe); [lia| | |done|done|done].
  - intros q u Hq HIu Hvu. unfold parsePairs_step. replace (q <? pe) with true by lia.
    read_any parseString_total.
    intros [q1 name] w2 (Hq1 & Hlt & Hv2). cbn [fst snd] in *.
    read_any parseString_total.
    intros [q2 value] w3 (Hq2 & _ & Hv3). cbn [fst snd] in *. unfold update_request. wp_steps.
    exists q2. cbn [fst snd]. split_and!; try done; [lia|lia|by apply Hadd].
  - intros q u Hq. unfold parsePairs_step. by replace (q <? pe) with false by lia.
Qed.

Lemma sub_buffer_total w body x y :
  views w b v → data_ body = data_ b →
  wp (DataBuffer.sub_buffer body x y) w (λ b' w', data_ b' = data_ b ∧ views w' b v) any.
Proof.
  intros Hv Hd. unfold isNil in Hn. destruct (data_ b) as [l|] eqn:Hl; [|done].
  pose proof Hv as Hv0. unfold views in Hv0. rewrite Hl in Hv0. destruct Hv0 as (d & k & c & Hh & _).
  unfold DataBuffer.sub_buffer. wp_step.
  eapply wp_mono; [apply (vcall_reads body _ w l d k c (λ n, n = zlen c)); [done|done|]| |done].
  { intros i Hok. by apply (@b_size_ok impl _ impl_laws). }
  intros n w' [-> Hw]. case_if; wp_step; [done|]. split; [done|by eapply views_mono].
Qed.

Lemma parseBody_total pos t :
  0 <= pos <= zlen v → views t.2 b v →
  wp (parseBody b pos) t (λ pos' t', 0 <= pos' <= zlen v ∧ data_ (body_ t'.1) = data_ b ∧ views t'.2 b v) any.
Proof.
  intros Hp Hv. unfold parseBody. wp_step. apply wp_on_buffers_any.
  eapply wp_mono; [by apply parse_section_total| |done].
  intros [p pe] w1 (Hp1 & Hpe & Hv1). cbn [fst snd] in *. wp_step. apply wp_on_buffers_any.
  eapply wp_mono; [by apply sub_buffer_total| |done].
  intros body w2 [Hb Hv2]. unfold update_request. wp_steps. done.
Qed.

Lemma parseFiles_total pos t :
  0 <= pos <= zlen v → data_ (body_ t.1) = data_ b → views t.2 b v →
  wp (parseFiles b pos) t (λ pos' t', 0 <= pos' <= zlen v ∧ views t'.2 b v) any.
Proof.
  intros Hp Hb Hv. unfold parseFiles. wp_step. apply wp_on_buffers_any.
  eapply wp_mono; [by apply parse_section_total| |done].
  intros [p pe] w1 (Hp1 & Hpe & Hv1). cbn [fst snd] in *.
  eapply wp_mono; [apply section_loop_total with (pos_end := pe) (I := λ r, data_ (body_ r) = data_ b);
    [lia| | |done|done|done]| |done].
  - intros q u Hq HIu Hvu. unfold parseFiles_step. replace (q <? pe) with true by lia.
    read_any parseString_total.
    intros [q1 name] w2 (Hq1 & Hlt & Hv2). cbn [fst snd] in *. read_any parseString_total.
    intros [q2 remote] w3 (Hq2 & _ & Hv3). cbn [fst snd] in *. read_any parseString_total.
    intros [q3 type] w4 (Hq3 & _ & Hv4). cbn [fst snd] in *. read_any parseInt_total.
    intros [q4 off] w5 (Hq4 & _ & _ & Hv5). cbn [fst snd] in *. read_any parseInt_total.
    intros [q5 len] w6 (Hq5 & _ & _ & Hv6). cbn [fst snd] in *. do 2 wp_step. wp_step.
    apply wp_on_buffers_any. cbn [fst snd].
    eapply wp_mono; [by apply sub_buffer_total| |done].
    intros fb w7 [_ Hv7]. wp_step. apply wp_on_buffers_any. unfold file_of_strings. cbn [fst snd].
    case_if; [done|]. wp_steps. unfold update_request. wp_steps. exists q5. cbn [fst snd].
    split_and!; try done; lia.
  - intros q u Hq. unfold parseFiles_step. by replace (q <? pe) with false by lia.
  - intros pos' t' (? & _ & ?). done.
Qed.

Lemma parse_image_total `{HashOrder} t : views t.2 b v → wp (parse b) t (λ _ _, True) any.
Proof.
  intros Hv. unfold parse, parseHeaders, parseCookies, parseVars, parseArgs. pose proof (zlen_nonneg v).
  do 3 (wp_step; eapply wp_mono; [apply (parsePairs_total _ _ _ _ (λ _, True)); done || lia| |done];
    clear Hv t; intros ? t (? & _ & Hv)).
  wp_step. eapply wp_mono; [by apply parseBody_total| |done]. intros pos1 t1 (? & ? & ?).
  wp_step. eapply wp_mono; [by apply parseFiles_total| |done]. intros pos2 t2 (? & ?).
  wp_step. eapply wp_mono; [apply (parsePairs_total _ _ _ _ (λ _, True)); done || lia| |done].
  intros. by wp_step.
Qed.
End total.

(** ** Buffers for the images *)

Section fresh.
Context `{PosixOk}.

(** A buffer created now shares its storage with no buffer that exists. *)
Lemma create_separate w data :
  zlen data < 2 ^ 62 →
  wp (DataBuffer.create data) w
     (λ b w', views w' b data ∧ begin_ b = 0 ∧ wle w w' ∧
        ∃ d, stored w' b d ∧ ∀ b2 v2, views w b2 v2 → separate w' b2 d) noexn.
Proof.
  intros Hz. unfold DataBuffer.create. wp_step. eapply wp_mono; [apply new_storage_ok| |done].
  intros d w1 (Hd & Hnone & Hw1). wp_step.
  eapply wp_mono; [apply (new_object_ok w1 (IString MkStringBuffer) d 0 data); [done|by split]| |done].
  intros l w2 (Hh & Hw2 & _). eapply wp_mono; [by eapply create_impl_views| |done].
  intros b w3 (Hv & Hb & Hw3). assert (wle w w3) as Hw by (etrans; [done|by etrans]).
  split_and!; [done| |done|].
  - unfold views in Hv. rewrite Hb in Hv.
    destruct (proj1 (wp_returns _ _ _) (create_impl_views w2 l d 0 data Hh)) as (b' & w' & E & _).
    destruct Hv as (d' & k & c & Hh' & H1 & H2 & H3 & Hs).
    destruct (holds_fun _ _ _ _ _ _ _ _ Hh' (Hw3 _ _ _ _ Hh)) as [-> ->].
    apply (f_equal zlen) in Hs. rewrite zlen_slice in Hs by done. lia.
  - exists d. split; [exists l, 0, data; auto|].
    intros b2 v2 Hv2 l2 d2 k c Hl2 Hh2. unfold views in Hv2. rewrite Hl2 in Hv2.
    destruct Hv2 as (d0 & k0 & c0 & Hh0 & _).
    destruct (holds_fun _ _ _ _ _ _ _ _ Hh2 (Hw _ _ _ _ Hh0)) as [-> _].
    destruct Hh0 as (i & _ & Hst & _). congruence.
Qed.
End fresh.

(** * Properties *)

(** C1: Serializing a request into a buffer and parsing the image into an empty
    request gives the request back: the same headers, cookies and variables up
    to the order of the hash maps, the same arguments in order, and the same
    bytes in the body and in every uploaded file. *)
Theorem serialize_parse `{PosixOk} `{HashOrder} w r vb buffer v0 d r0 :
  request_wf w r vb → views w buffer v0 → stored w buffer d → begin_ buffer = 0 →
  separate w (body_ r) d → zlen (image r vb) < 2 ^ 62 → blank r0 →
  ∃ buffer' w1 r' w2, serialize r buffer w = (Ret buffer', w1) ∧
    parse buffer' (r0, w1) = (Ret (), (r', w2)) ∧ same_request w r w2 r'.
Proof.
  intros Hr Hv Hst Hb Hsep Hl Hbl. pose proof Hr as (_ & _ & _ & _ & _ & Hvb).
  destruct (proj1 (wp_returns _ _ _) (serialize_ok w r buffer v0 d vb Hv Hst Hb Hvb Hsep Hl))
    as (b' & w1 & E1 & Hv1 & Hd1 & _).
  assert (isNil b' = false) as Hn.
  { unfold isNil. rewrite Hd1. destruct Hst as (l & k & c & -> & _). done. }
  destruct (proj1 (wp_returns _ _ _) (parse_image w w1 b' r r0 vb Hr Hv1 Hn Hbl))
    as ([] & [r' w2] & E2 & Hsame & _).
  by exists b', w1, r', w2.
Qed.

(** A request with every kind of data, for a body that is in memory. *)
Definition example_request (body : DataBuffer) : RequestImpl :=
  MkRequestImpl false 200 false 0 false [(str "QUERY_STRING", str "a=1")] [(str "sid", str "42")] body
    [(str "HOST", str "localhost")] [] [] [(str "f", MkFile (str "f.txt") (str "text/plain") body)]
    [(str "a", str "1")].

Lemma serialize_parse_witness : ∃ w body buffer buffer' w1 r' w2,
  @serialize small_machine (example_request body) buffer w = (Ret buffer', w1) ∧
  @parse small_machine cons_order buffer' (new_request, w1) = (Ret (), (r', w2)) ∧
  @same_request small_machine small_machine_ok w (example_request body) w2 r'.
Proof.
  destruct (proj1 (wp_returns _ _ _) (@create_views small_machine small_machine_ok empty_world
    (str "hello") ltac:(vm_compute; reflexivity))) as (body & w0 & _ & Hvb & _ & _).
  destruct (proj1 (wp_returns _ _ _) (@create_separate small_machine small_machine_ok w0
    [] ltac:(vm_compute; reflexivity))) as (buffer & w & _ & Hv & Hb & Hw & d & Hst & Hsep).
  destruct (@size_views small_machine small_machine_ok w0 body _ Hvb) as (_ & He & _).
  exists w, body, buffer.
  apply (@serialize_parse small_machine small_machine_ok cons_order w (example_request body)
           (str "hello") buffer [] d new_request).
  - split_and!.
    + repeat constructor.
    + repeat constructor.
    + repeat constructor.
    + repeat constructor.
    + constructor; [|constructor]. unfold file_wf; simpl.
      change (zlen (str "hello")) with 5 in He. split_and!; [discriminate|reflexivity|lia|lia|lia].
    + exact (@views_mono small_machine small_machine_ok w0 w body _ Hw Hvb).
  - exact Hv.
  - exact Hst.
  - exact Hb.
  - exact (Hsep _ _ Hvb).
  - unfold image, image_env, image_rest, enc_all. cbn [example_request files_ args_ headers_ cookies_ vars_
      fmap list_fmap concat]. rewrite !app_nil_r. unfold enc_file, enc_pair. zlen_simp.
    vm_compute. reflexivity.
  - repeat split.
Defined.

(** C6: Whatever the bytes of a cached file are, parsing them ends in a request or
    in an exception; it neither loops nor reads outside the buffer. *)
Theorem parse_any_image `{PosixOk} `{HashOrder} w b v r :
  views w b v → isNil b = false →
  ∃ t, parse b (r, w) = (Ret (), t) ∨ ∃ e, parse b (r, w) = (Throw e, t).
Proof.
  intros Hv Hn. pose proof (parse_image_total b v Hn (r, w) Hv) as Hp. unfold wp in Hp.
  destruct (parse b (r, w)) as [[[]|e| |] t]; try done; exists t; eauto.
Qed.

Lemma parse_any_image_witness : ∃ w b t,
  @parse small_machine cons_order b (new_request, w) = (Ret (), t) ∨
  ∃ e, @parse small_machine cons_order b (new_request, w) = (Throw e, t).
Proof.
  destruct (example_file (str "0123456789abcdefghijkl") eq_refl) as (w & b & E & Hv).
  destruct (@parse_any_image small_machine small_machine_ok cons_order w b _ new_request Hv)
    as [t Ht].
  - vm_compute in E. injection E as <-. reflexivity.
  - exists w, b, t. exact Ht.
Defined.
