(* ===== verification/RequestImpl.v ===== *)
(** * [RequestImpl] (library/requestimpl.cpp): the accessors, the operations of
    a handler on its answer, [attach] and [reset] *)
From S2P Require Import Prelude CLib Range Util Containers Buffer FileBuffer DataBuffer BufferUtil HttpDate Cookie RequestState Parser Serialize.

Definition HEAD : bytes := str "HEAD".
Definition HOST_KEY : bytes := str "host".
Definition CONTENT_TYPE_KEY : bytes := str "content-type".
Definition CONTENT_LENGTH_KEY : bytes := str "content-length".
Definition HTTPS_KEY : bytes := str "HTTPS".
Definition SERVER_ADDR_KEY : bytes := str "SERVER_ADDR".
Definition SERVER_PORT_KEY : bytes := str "SERVER_PORT".
Definition PATH_INFO_KEY : bytes := str "PATH_INFO".
Definition PATH_TRANSLATED_KEY : bytes := str "PATH_TRANSLATED".
Definition SCRIPT_NAME_KEY : bytes := str "SCRIPT_NAME".
Definition SCRIPT_FILENAME_KEY : bytes := str "SCRIPT_FILENAME".
Definition DOCUMENT_ROOT_KEY : bytes := str "DOCUMENT_ROOT".
Definition REMOTE_USER_KEY : bytes := str "REMOTE_USER".
Definition REMOTE_ADDR_KEY : bytes := str "REMOTE_ADDR".
Definition QUERY_STRING_KEY : bytes := str "QUERY_STRING".
Definition REQUEST_METHOD_KEY : bytes := str "REQUEST_METHOD".

(** [boost::lexical_cast]: [None] is [bad_lexical_cast]. *)
Class LexicalCast := {
  cast_u16 : bytes → option Z;
  cast_streamsize : bytes → option Z;
  cast_string : Z → bytes;
}.

(** What the casts do on the texts of numbers, and the range of a streamsize. *)
Class LexicalCastOk `{LexicalCast} := {
  cast_string_decimal n : 0 <= n < 2 ^ 16 → cast_string n = decimal n;
  cast_streamsize_decimal n : 0 <= n < 2 ^ 63 → cast_streamsize (decimal n) = Some n;
  cast_streamsize_nil : cast_streamsize [] = None;
  cast_streamsize_range text n : cast_streamsize text = Some n → - 2 ^ 63 <= n < 2 ^ 63;
}.

(** ** Accessors *)

Section accessors.
Context (r : RequestImpl).

Definition var (key : bytes) : bytes := Parser.get var_eq (vars_ r) key.
Definition header (key : bytes) : bytes := Parser.get header_eq (headers_ r) key.

Definition getHost : bytes := header HOST_KEY.
Definition getServerAddr : bytes := var SERVER_ADDR_KEY.
Definition getPathInfo : bytes := var PATH_INFO_KEY.
Definition getPathTranslated : bytes := var PATH_TRANSLATED_KEY.
Definition getScriptName : bytes := var SCRIPT_NAME_KEY.
Definition getScriptFilename : bytes := var SCRIPT_FILENAME_KEY.
Definition getDocumentRoot : bytes := var DOCUMENT_ROOT_KEY.
Definition getRemoteUser : bytes := var REMOTE_USER_KEY.
Definition getRemoteAddr : bytes := var REMOTE_ADDR_KEY.
Definition getQueryString : bytes := var QUERY_STRING_KEY.
Definition getRequestMethod : bytes := var REQUEST_METHOD_KEY.
Definition getContentType : bytes := header CONTENT_TYPE_KEY.

Definition countArgs : Z := u32 (zlen (args_ r)).
Fixpoint find_arg (name : bytes) (args : list NamedValue) : option bytes :=
  match args with
  | [] => None
  | i :: args => if string_eq i.1 name then Some i.2 else find_arg name args
  end.
Definition hasArg (name : bytes) : bool :=
  match find_arg name (args_ r) with Some _ => true | None => false end.
Definition getArg (name : bytes) : bytes :=
  match find_arg name (args_ r) with Some v => v | None => EMPTY_STRING end.
Definition getArgs (name : bytes) : list bytes :=
  snd <$> filter (λ i, string_eq i.1 name = true) (args_ r).
(** [std::set<std::string>] as the keys of an ordered map. *)
Definition argNames : list bytes :=
  fst <$> foldl (λ names i, map_insert i.1 () names) [] (args_ r).

Definition countHeaders : Z := u32 (zlen (headers_ r)).
Definition hasHeader (name : bytes) : bool := Parser.has header_eq (headers_ r) name.
Definition getHeader (name : bytes) : bytes := Parser.get header_eq (headers_ r) name.
Definition headerNames : list bytes := Parser.keys (headers_ r).

Definition countCookie : Z := u32 (zlen (cookies_ r)).
Definition hasCookie (name : bytes) : bool := Parser.has var_eq (cookies_ r) name.
Definition getCookie (name : bytes) : bytes := Parser.get var_eq (cookies_ r) name.
Definition cookieNames : list bytes := Parser.keys (cookies_ r).

Definition hasFile (name : bytes) : bool :=
  match map_find name (files_ r) with Some _ => true | None => false end.
Definition remoteFiles : list bytes := fst <$> files_ r.
Definition remoteFileName (name : bytes) : bytes :=
  match map_find name (files_ r) with Some f => File.remoteName f | None => EMPTY_STRING end.
Definition remoteFileType (name : bytes) : bytes :=
  match map_find name (files_ r) with Some f => File.type f | None => EMPTY_STRING end.

Definition isSecure : bool := negb (Range.empty (var HTTPS_KEY)) && string_eq (str "on") (var HTTPS_KEY).
Definition requestBody : DataBuffer := body_ r.
Definition outputHeader (name : bytes) : bytes := Parser.get header_eq (out_headers_ r) name.
Definition isProcessed : bool := processed_ r.
Definition status : Z := status_ r.
End accessors.

(** ** Operations *)

Section operations.
Context `{HashOrder} `{Posix} `{LexicalCast} {IO : Type} `{RequestIOStream IO}.

Definition getServerPort (r : RequestImpl) : outcome Z :=
  let res := var r SERVER_PORT_KEY in
  if Range.empty res then Ret 80
  else match cast_u16 res with Some n => Ret n | None => Throw BadLexicalCast end.
Definition getContentLength (r : RequestImpl) : outcome Z :=
  match cast_streamsize (header r CONTENT_LENGTH_KEY) with
  | Some n => Ret n
  | None => Throw BadLexicalCast
  end.

Definition remoteFile (r : RequestImpl) (name : bytes) : M world DataBuffer :=
  match map_find name (files_ r) with
  | Some f => mret (File.data f)
  | None => DataBuffer.sub_buffer (body_ r) 0 0
  end.

(** [stream_->write(buf, size)]. *)
Definition out (d : bytes) : M (rstate IO) unit :=
  on_io (s_write d (to_int (zlen d)));; mret ().

Definition CRLF : bytes := [Byte.x0d; Byte.x0a].
Fixpoint write_headers (hs : list (bytes * bytes)) : M (rstate IO) unit :=
  match hs with
  | [] => mret ()
  | i :: hs => out i.1;; out (str ": ");; out i.2;; out CRLF;; write_headers hs
  end.
Fixpoint write_cookies (cs : CookieSet) : M (rstate IO) unit :=
  match cs with
  | [] => mret ()
  | i :: cs =>
      out (str "Set-Cookie: ");;
      cookie ← lift (Cookie.toString i.2);
      out cookie;; out CRLF;; write_cookies cs
  end.

Definition status_line (r : RequestImpl) : bytes :=
  decimal (status_ r) ++ str " " ++ Parser.statusToString (status_ r).

Definition sendHeadersInternal : M (rstate IO) unit :=
  r ← request;
  if headers_sent_ r then mret ()
  else
    update_rq (λ r, set_out_headers r (hm_set header_eq (str "Status") (status_line r) (out_headers_ r)));;
    r ← request;
    (if stream_ r then
       write_headers (out_headers_ r);;
       write_cookies (out_cookies_ r);;
       out CRLF
     else mret ());;
    update_rq (λ r, set_headers_sent r true).
Definition sendHeaders : M (rstate IO) unit := sendHeadersInternal.

Definition already_sent {A} (what : bytes) : M (rstate IO) A :=
  throw (RuntimeError (str "Error in RequestImpl::" ++ what ++ str "'")).

Definition setCookie (cookie : CookieData) : M (rstate IO) unit :=
  r ← request;
  if headers_sent_ r then
    already_sent (str "setCookie: headers already sent: cookie - '" ++
                  Cookie.name cookie ++ str "=" ++ Cookie.value cookie)
  else update_rq (λ r, set_out_cookies r (cookie_set cookie (out_cookies_ r))).

Definition setStatus (status : Z) : M (rstate IO) unit :=
  r ← request;
  if headers_sent_ r then
    already_sent (str "setStatus headers already sent: status - '" ++ cast_string status)
  else update_rq (λ r, set_status r status).

Definition sendError (status : Z) : M (rstate IO) unit :=
  r ← request;
  if headers_sent_ r then
    already_sent (str "setError headers already sent: status - '" ++ cast_string status)
  else
    update_rq (λ r, set_out_headers (set_out_cookies r []) []);;
    update_rq (λ r, set_status r status);;
    update_rq (λ r, set_out_headers r
      (hm_insert header_eq (str "Content-type", str "text/html") (out_headers_ r)));;
    sendHeadersInternal;;
    r ← request;
    if stream_ r then
      out (str "<html><body><h1>");;
      out (cast_string status);;
      out (str " ");;
      out (Parser.statusToString status);;
      out (str "</h1></body></html>")
    else mret ().

Definition setHeader (name value : bytes) : M (rstate IO) unit :=
  r ← request;
  if headers_sent_ r then
    already_sent (str "setCookie: headers already sent: header - '" ++ name ++ str ": " ++ value)
  else
    n ← lift (Parser.normalizeOutputHeaderName name);
    update_rq (λ r, set_out_headers r (hm_set header_eq n value (out_headers_ r))).

Definition write_body (r : RequestImpl) : bool :=
  stream_ r && negb (string_eq HEAD (getRequestMethod r)).
Definition write_buf (buf : bytes) : M (rstate IO) unit :=
  sendHeaders;;
  r ← request;
  if write_body r then on_io (s_write_buf buf) else mret ().
Definition write (buf : bytes) : M (rstate IO) Z :=
  sendHeaders;;
  r ← request;
  (if write_body r then out buf else mret ());;
  mret (zlen buf).

Definition markAsProcessed : M (rstate IO) unit := update_rq (λ r, set_processed r true).
Definition tryAgain (delay : Z) : M (rstate IO) unit := update_rq (λ r, set_delay r delay).

(** [reset] leaves [processed_], [delay_] and [body_] as they are. *)
Definition reset_request (r : RequestImpl) : RequestImpl :=
  MkRequestImpl false 200 (processed_ r) (delay_ r) false [] [] (body_ r) [] [] [] [] [].
Definition reset : M (rstate IO) unit := update_rq reset_request.

(** ** attach *)

(** [n] bytes of the stream to a pointer into the storage of [b]. *)
Definition poke (b : DataBuffer) (p : Z) (d : bytes) : M world unit :=
  DataBuffer.vcall b (c ← storage;
    if p + zlen d <=? zlen c then set_storage (splice p d c) else undef).
Definition read_segment (rsz : Z) (it : SegmentIterator) : M (rstate IO) Z :=
  '(p, n) ← on_world (DataBuffer.iterator_deref it);
  d ← on_io (s_read (to_int n));
  on_world (poke (buffer_ it) p d);;
  mret (u64 (rsz + zlen d)).
Definition read_body (body : DataBuffer) : M (rstate IO) Z :=
  for_segments wd set_wd body read_segment 0.

Definition run_parser (m : RequestImpl → outcome RequestImpl) : M (rstate IO) unit :=
  r ← request; r ← lift (m r); update_rq (λ _, r).
Definition parse_query (query : bytes) : M (rstate IO) unit :=
  run_parser (λ r, args ← Util.parse query (args_ r); Ret (set_args r args)).

(** The buffer for the body: a part of a buffer of the cache, after the
    serialized environment, or a buffer in memory. *)
Definition make_body (cache : option (RequestCache IO)) (size : Z) : M (rstate IO) DataBuffer :=
  let in_memory : M (rstate IO) DataBuffer :=
    body ← on_world (DataBuffer.create EMPTY_STRING);
    update_rq (λ r, set_body r body);;
    body ← on_world (DataBuffer.resize size body);
    update_rq (λ r, set_body r body);;
    mret nil_buffer in
  match cache with
  | Some c =>
      if minPostSize c <=? size then
        post_buffer ← cache_create c;
        r ← request;
        '(shift, post_buffer) ← on_world (serializeEnv r post_buffer (u64 (size + 8)));
        shift ← on_world (serializeInt post_buffer shift size);
        body ← on_world (DataBuffer.sub_buffer post_buffer
                 (u64 (DataBuffer.beginIndex post_buffer + shift)) (DataBuffer.endIndex post_buffer));
        update_rq (λ r, set_body r body);;
        mret post_buffer
      else in_memory
  | None => in_memory
  end.

(** The part of [attach] that depends on the type of the body. *)
Definition parse_body : M (rstate IO) unit :=
  r ← request;
  let type := getContentType r in
  if strncasecmp_eq 19 (str "multipart/form-data") type then
    boundary ← lift (Parser.getBoundary type);
    if Range.empty boundary then mret ()
    else Parser.parseMultipart (2 + Z.to_nat (DataBuffer.size (body_ r))) (body_ r) boundary
  else if negb (strncasecmp_eq 10 (str "text/plain") type) &&
          negb (strncasecmp_eq 24 (str "application/octet-stream") type) then
    args ← on_world (parse_buffer (body_ r) (args_ r));
    update_rq (λ r, set_args r args)
  else mret ().

(** [attach(stream, env)]; [None] stands for a null pointer. *)
Definition attach (cache : option (RequestCache IO)) (stream : bool) (env : option (list bytes)) :
    M (rstate IO) unit :=
  if negb stream then throw (RuntimeError (str "Stream is NULL"))
  else
  match env with
  | None => throw (RuntimeError (str "ENV is NULL"))
  | Some env =>
      update_rq (λ r, set_stream r true);;
      run_parser (Parser.parse env);;
      r ← request;
      let query := getQueryString r in
      if negb (string_eq (str "POST") (getRequestMethod r)) &&
         negb (string_eq (str "PUT") (getRequestMethod r)) then parse_query query
      else
        n ← lift (getContentLength r);
        let size := u64 n in
        post_buffer ← make_body cache size;
        r ← request;
        rsz ← read_body (body_ r);
        if negb (rsz =? size) then throw (RuntimeError (str "failed to read request entity"))
        else
          (if Range.empty query then mret () else parse_query query);;
          parse_body;;
          if DataBuffer.isNil post_buffer then mret ()
          else
            r ← request;
            let pos := DataBuffer.size post_buffer in
            post_buffer ← on_world (DataBuffer.resize
              (u64 (pos + 2 * 8 + filesSerializedSize r + argsSerializedSize r)) post_buffer);
            pos ← on_world (serializeFiles r post_buffer pos);
            pos ← on_world (serializeArgs r post_buffer pos);
            mret ()
  end.

(** [parse(buffer)] on the state of the request. *)
Definition parse_cached (buffer : DataBuffer) : M (rstate IO) unit :=
  zoom (λ s, (rq s, wd s)) (λ p s, MkState p.1 p.2 (io s)) (Serialize.parse buffer).

Definition saveToCache (cache : option (RequestCache IO)) : M (rstate IO) unit :=
  match cache with
  | Some c =>
      r ← request; cache_save c (delay_ r)
  | None => mret ()
  end.
End operations.

(** ** What a handler does with its answer *)

Inductive op :=
| OSetHeader (name value : bytes)
| OSetCookie (cookie : CookieData)
| OSetStatus (status : Z)
| OSendError (status : Z)
| OWrite (buf : bytes)
| OWriteBuf (buf : bytes)
| OSendHeaders.

Section ops.
Context `{HashOrder} `{Posix} `{LexicalCast} {IO : Type} `{RequestIOStream IO}.

Definition run_op (o : op) : M (rstate IO) unit :=
  match o with
  | OSetHeader name value => setHeader name value
  | OSetCookie cookie => setCookie cookie
  | OSetStatus status => setStatus status
  | OSendError status => sendError status
  | OWrite buf => write buf;; mret ()
  | OWriteBuf buf => write_buf buf
  | OSendHeaders => sendHeaders
  end.

(** The state after a sequence of operations; the handler goes on after an
    exception. *)
Definition run_ops (l : list op) (s : rstate IO) : rstate IO := foldl (λ s o, (run_op o s).2) s l.
End ops.

(** ** Specification vocabulary *)

(** A text whose length fits the [int] of [RequestIOStream::write]. *)
Definition short (d : bytes) : Prop := zlen d < 2 ^ 31.
Definition header_text (h : bytes * bytes) : bytes := h.1 ++ str ": " ++ h.2 ++ CRLF.
Definition cookie_text (t : bytes) : bytes := str "Set-Cookie: " ++ t ++ CRLF.
(** The head of an answer with headers [hs] and printed cookies [ts]. *)
Definition header_block (hs : list (bytes * bytes)) (ts : list bytes) : bytes :=
  concat (header_text <$> hs) ++ concat (cookie_text <$> ts) ++ CRLF.

Definition header_ok (h : bytes * bytes) : Prop := short h.1 ∧ short h.2.
(** Cookie [c] is printed as [t]. *)
Definition prints (c : bytes * CookieData) (t : bytes) : Prop := Cookie.toString c.2 = Ret t ∧ short t.
Definition answer_ok (r : RequestImpl) : Prop :=
  Forall header_ok (out_headers_ r) ∧ ∃ ts, Forall2 prints (out_cookies_ r) ts.

Definition op_ok (o : op) : Prop :=
  match o with
  | OSetHeader name value => short name ∧ short value
  | OSetCookie c => ∃ t, prints (Cookie.name c, c) t
  | OSetStatus _ => True
  | OSendError status => 0 <= status < 2 ^ 16
  | OWrite buf => short buf
  | OWriteBuf _ => True
  | OSendHeaders => True
  end.

(** * Lemmas *)

Section lengths.
Lemma to_int_short d : short d → to_int (zlen d) = zlen d.
Proof.
  unfold short, to_int. intros Hs. pose proof (zlen_nonneg d).
  rewrite wrap_small by lia. by replace (zlen d <? 2 ^ 31) with true by lia.
Qed.

Lemma zlen_decimal n : zlen (decimal n) <= 20.
Proof.
  unfold decimal. assert (∀ f m acc, zlen (decimal_digits f m acc) <= Z.of_nat f + zlen acc) as Hd.
  { induction f as [|f IH]; intros m acc; simpl; [lia|]. case_if; [zlia|].
    specialize (IH (m / 10) (chr (48 + m mod 10) :: acc)). zlia. }
  apply (Hd 20%nat n []).
Qed.

Lemma zlen_statusToString n : zlen (Parser.statusToString n) <= 40.
Proof. unfold Parser.statusToString. repeat (case_if; [vm_compute; discriminate|]). vm_compute. discriminate. Qed.

Lemma status_line_short r : short (status_line r).
Proof.
  unfold short, status_line. pose proof (zlen_decimal (status_ r)).
  pose proof (zlen_statusToString (status_ r)). zlen_simp. change (zlen (str " ")) with 1. lia.
Qed.

(** A normalized header name is no longer than the name. *)
Lemma normalizeOutput_loop range res fuel :
  (length range < fuel)%nat →
  ∃ n, ploop fuel Parser.normalizeOutputHeaderName_step (range, res) = Ret n ∧
       (length n ≤ length res + length range)%nat.
Proof.
  intros Hf. destruct (ploop_rule
    (λ s : bytes * bytes, (length s.2 + length s.1 ≤ length res + length range)%nat)
    (λ s, length s.1) Parser.normalizeOutputHeaderName_step
    (λ n, (length n ≤ length res + length range)%nat)) with (fuel := fuel) (a := (range, res))
    as (n & E & Hn); [|simpl; lia|done|by exists n].
  intros [g s] Hi. unfold Parser.normalizeOutputHeaderName_step. simpl in Hi.
  destruct (Range.empty g) eqn:Eg; [simpl; lia|]. apply empty_false in Eg.
  destruct (Range.split_char "-"%byte g) as [[f h] t] eqn:Es.
  pose proof (Range.length_trim t) as Ht.
  assert (length h + length t + (if Range.empty (Range.trim t) then 0 else 1) ≤ length g)%nat as Hl.
  { destruct (std_find_split "-"%byte g) as [Hn|(h' & t' & -> & Hn)].
    - rewrite Range.split_char_notin in Es by done. injection Es as <- <- <-. simpl. lia.
    - rewrite Range.split_char_app in Es by done. injection Es as <- <- <-.
      rewrite length_app. simpl. destruct (Range.empty _); lia. }
  pose proof (Range.split_shorter ["-"%byte] g f h t ltac:(done) Eg Es) as Hsh.
  cbn [fst snd]. split; [|lia].
  destruct (Range.empty (Range.trim t)), h as [|c h]; try (destruct h);
    cbn [length] in *; unfold Range.size, zlen; cbn [length];
    repeat case_if; rewrite ?length_app; cbn [length drop]; lia.
Qed.

Lemma normalizeOutput_short name :
  short name → ∃ n, Parser.normalizeOutputHeaderName name = Ret n ∧ short n.
Proof.
  intros Hs. pose proof (Range.length_trim name).
  destruct (normalizeOutput_loop (Range.trim name) [] (S (length name))) as (n & E & Hn); [lia|].
  exists n. split; [exact E|]. unfold short, zlen in *. simpl in Hn. lia.
Qed.
End lengths.

Section answer.
Context `{HashOrder} `{Posix} `{LexicalCastOk} {IO : Type} `{StreamLaws IO}.
Implicit Types (s t : rstate IO).

(** [m] only writes [d] to the stream. *)
Definition emits (m : M (rstate IO) unit) (d : bytes) : Prop := ∀ s,
  wp m s (λ _ t, rq t = rq s ∧ wd t = wd s ∧ sent (io t) = sent (io s) ++ d) noexn.

Lemma emits_ret : emits (mret ()) [].
Proof. intros s. wp_step. by rewrite app_nil_r. Qed.

Lemma emits_bind m k d e : emits m d → emits k e → emits (m;; k) (d ++ e).
Proof.
  intros Hm Hk s. wp_step. eapply wp_mono; [apply Hm| |done]. intros _ t (E1 & E2 & E3).
  eapply wp_mono; [apply Hk| |done]. intros _ u (F1 & F2 & F3).
  rewrite F1, F2, F3, E3, app_assoc. done.
Qed.

Lemma emits_out d : short d → emits (out d) d.
Proof.
  intros Hd s. unfold out. rewrite to_int_short by done. wp_step. apply wp_on_io.
  eapply wp_mono; [by apply s_write_ok| |done]. intros _ o [Ho _]. by wp_step.
Qed.

Lemma emits_headers hs : Forall header_ok hs → emits (write_headers hs) (concat (header_text <$> hs)).
Proof.
  induction 1 as [|h hs [Hk Hv] Hs IH]; [apply emits_ret|].
  change (concat (header_text <$> h :: hs)) with (header_text h ++ concat (header_text <$> hs)).
  unfold header_text at 1. rewrite <- !app_assoc. cbn [write_headers].
  apply (emits_bind (out h.1)); [by apply emits_out|].
  apply (emits_bind (out (str ": "))); [by apply emits_out|]. apply (emits_bind (out h.2)); [by apply emits_out|].
  apply (emits_bind (out CRLF)); [by apply emits_out|exact IH].
Qed.

Lemma emits_cookies cs ts : Forall2 prints cs ts → emits (write_cookies cs) (concat (cookie_text <$> ts)).
Proof.
  induction 1 as [|c t cs ts [Ht Hs] Hc IH]; [apply emits_ret|].
  change (concat (cookie_text <$> t :: ts)) with (cookie_text t ++ concat (cookie_text <$> ts)).
  unfold cookie_text at 1. rewrite <- !app_assoc. cbn [write_cookies]. rewrite Ht.
  apply (emits_bind (out (str "Set-Cookie: "))); [by apply emits_out|].
  apply (emits_bind (out t)); [by apply emits_out|].
  apply (emits_bind (out CRLF)); [by apply emits_out|exact IH].
Qed.

(** The request once its headers are sent. *)
Definition after_headers (r : RequestImpl) : RequestImpl :=
  set_headers_sent
    (set_out_headers r (hm_set header_eq (str "Status") (status_line r) (out_headers_ r))) true.

Lemma hm_set_ok k v hs : Forall header_ok hs → short k → short v → Forall header_ok (hm_set header_eq k v hs).
Proof.
  intros Hs Hk Hv. unfold hm_set. destruct (hm_find header_eq k hs).
  - induction Hs as [|[k' v'] hs [Hk1 Hv1] Hs IH]; [constructor|]. cbn [hm_replace].
    destruct (header_eq k' k); constructor; done.
  - rewrite hm_place_perm. by constructor.
Qed.

(** Headers are sent once; the second time nothing is written. *)
Lemma sendHeaders_sent s : headers_sent_ (rq s) = true → sendHeadersInternal s = (Ret (), s).
Proof. intros Hs. unfold sendHeadersInternal, mbind, M_bind, request. by rewrite Hs. Qed.

Lemma sendHeaders_ok s ts :
  headers_sent_ (rq s) = false → stream_ (rq s) = true → Forall header_ok (out_headers_ (rq s)) →
  Forall2 prints (out_cookies_ (rq s)) ts →
  wp sendHeadersInternal s (λ _ t, rq t = after_headers (rq s) ∧ wd t = wd s ∧
     sent (io t) = sent (io s) ++ header_block (out_headers_ (after_headers (rq s))) ts) noexn.
Proof.
  intros Hs Hst Hh Hc. unfold sendHeadersInternal. rq_step. rq_step. rewrite Hs. rq_steps.
  cbn [stream_ set_out_headers]. rewrite Hst. cbn [out_headers_ set_out_headers out_cookies_].
  set (hs := hm_set _ _ _ _). assert (Forall header_ok hs) as Hhs.
  { apply hm_set_ok; [done|done|apply status_line_short]. }
  assert (emits (write_headers hs;; write_cookies (out_cookies_ (rq s));; out CRLF)
    (header_block hs ts)) as He.
  { apply emits_bind; [by apply emits_headers|]. apply emits_bind; [by apply emits_cookies|by apply emits_out]. }
  eapply wp_mono; [apply He| |done]. intros _ t (E1 & E2 & E3). rq_steps.
  unfold after_headers. by rewrite E1, E2, E3.
Qed.

(** The text of the page [sendError] writes. *)
Definition error_page (status : Z) : bytes :=
  str "<html><body><h1>" ++ decimal status ++ str " " ++ Parser.statusToString status ++
  str "</h1></body></html>".

(** ** The answer as a state machine *)

(** Nothing has been sent yet, or the headers of the request have been, and
    then some content. *)
Definition answering (s0 s : rstate IO) : Prop :=
  stream_ (rq s) = true ∧
  ((headers_sent_ (rq s) = false ∧ sent (io s) = sent (io s0) ∧ answer_ok (rq s)) ∨
   (headers_sent_ (rq s) = true ∧ ∃ ts content,
      Forall2 prints (out_cookies_ (rq s)) ts ∧
      sent (io s) = sent (io s0) ++ header_block (out_headers_ (rq s)) ts ++ content ∧
      ∃ v, hm_find header_eq (str "Status") (out_headers_ (rq s)) = Some v)).

Lemma hm_set_status r :
  ∃ v, hm_find header_eq (str "Status") (out_headers_ (after_headers r)) = Some v.
Proof.
  cbn [after_headers out_headers_ set_headers_sent set_out_headers]. unfold hm_set.
  destruct (hm_find header_eq (str "Status") (out_headers_ r)) eqn:E.
  - eexists. rewrite (hm_replace_find header_eq), keq_refl, E. done.
  - destruct (hm_find header_eq (str "Status") (hm_place _ _)) as [x|] eqn:F; [by exists x|].
    exfalso. apply (hm_find_none header_eq) in F. rewrite Forall_forall in F.
    assert ((str "Status", status_line r) ∈ hm_place (out_headers_ r) (str "Status", status_line r)) as Hin
      by (rewrite hm_place_perm; by left).
    specialize (F _ Hin). simpl in F. by rewrite keq_refl in F.
Qed.

(** Sending the headers, from either state. *)
Lemma answering_headers s0 s :
  answering s0 s →
  wp sendHeadersInternal s (λ _ t, answering s0 t ∧ headers_sent_ (rq t) = true ∧
     getRequestMethod (rq t) = getRequestMethod (rq s)) noexn.
Proof.
  intros (Hst & [(Hs & Hsent & Hh & ts & Hts)|(Hs & Hsent)]).
  - eapply wp_mono; [by apply (sendHeaders_ok s ts)| |done]. intros _ t (E1 & E2 & E3).
    rewrite E1. split_and!; [|done|done]. split; [by rewrite E1|]. right. rewrite E1. split; [done|].
    exists ts, []. rewrite app_nil_r, E3, Hsent. split_and!; [done|done|apply hm_set_status].
  - unfold wp. rewrite sendHeaders_sent by done. split_and!; [|done|done]. split; [done|]. by right.
Qed.

(** Content after the headers. *)
Lemma answering_content s0 s m d :
  answering s0 s → headers_sent_ (rq s) = true → emits m d →
  wp m s (λ _ t, answering s0 t) noexn.
Proof.
  intros (Hst & [(Hs & _)|(Hs & ts & c & Hts & Hsent & Hv)]) Hs' Hm; [congruence|].
  eapply wp_mono; [apply Hm| |done]. intros _ t (E1 & E2 & E3).
  split; [by rewrite E1|]. right. rewrite E1. split; [done|]. exists ts, (c ++ d).
  rewrite E3, Hsent, <- !app_assoc. done.
Qed.

(** Once the headers are sent, an operation on them throws and changes nothing. *)
Lemma set_after_headers s : headers_sent_ (rq s) = true →
  (∀ name value, ∃ e, setHeader name value s = (Throw e, s)) ∧
  (∀ cookie, ∃ e, setCookie cookie s = (Throw e, s)) ∧
  (∀ status, ∃ e, setStatus status s = (Throw e, s)) ∧
  (∀ status, ∃ e, sendError status s = (Throw e, s)).
Proof.
  intros Hs. unfold setHeader, setCookie, setStatus, sendError, mbind, M_bind, request. rewrite Hs.
  split_and!; intros; eexists; done.
Qed.

(** A change of the request that keeps its headers unsent. *)
Lemma answering_update s0 s f :
  answering s0 s → headers_sent_ (rq s) = false →
  stream_ (f (rq s)) = true → headers_sent_ (f (rq s)) = false → answer_ok (f (rq s)) →
  answering s0 (set_rq (f (rq s)) s).
Proof.
  intros (Hst & [(Hs & Hsent & Ha)|(Hs & _)]) Hs' H1' H2' H3'; [|congruence].
  split; [done|]. left. done.
Qed.

Lemma prints_set c (t : bytes) cs ts :
  prints (Cookie.name c, c) t → Forall2 prints cs ts →
  ∃ ts', Forall2 prints (cookie_set c cs) ts'.
Proof.
  intros Hc Hcs. unfold cookie_set.
  induction Hcs as [|[k x] u cs ts Hx Hcs [ts' IH]]; simpl.
  - exists [t]. by constructor.
  - repeat case_if.
    + exists (t :: u :: ts). constructor; [exact Hc|]. by constructor.
    + exists (u :: ts'). constructor; [exact Hx|done].
    + exists (t :: ts). constructor; [exact Hc|done].
Qed.

Lemma emits_error status : 0 <= status < 2 ^ 16 →
  emits (out (str "<html><body><h1>");; out (cast_string status);; out (str " ");;
         out (Parser.statusToString status);; out (str "</h1></body></html>")) (error_page status).
Proof.
  intros Hst. rewrite cast_string_decimal by done. unfold error_page.
  pose proof (zlen_decimal status). pose proof (zlen_statusToString status).
  repeat (apply emits_bind; [apply emits_out; unfold short; (lia || by vm_compute)|]).
  by apply emits_out.
Qed.

Lemma sendError_answering s0 s status :
  answering s0 s → headers_sent_ (rq s) = false → 0 <= status < 2 ^ 16 →
  wp (sendError status) s (λ _ t, answering s0 t ∧ headers_sent_ (rq t) = true) noexn.
Proof.
  intros Ha Hs Hst. unfold sendError. rq_step. rq_step. rewrite Hs. rq_steps.
  match goal with |- wp _ ?x _ _ => set (s1 := x) end.
  assert (answering s0 s1) as Ha1.
  { destruct Ha as (Hstr & [(_ & Hsent & _)|(Hs' & _)]); [|congruence].
    split; [done|]. left. split_and!; [done|done|].
    split; [|by exists []]. cbn. rewrite hm_place_perm. by repeat constructor. }
  eapply wp_mono; [by apply answering_headers| |done].
  intros _ t (Hat & Hts & _). rq_steps. pose proof (proj1 Hat) as ->.
  destruct Hat as (Hstr & [(Hf & _)|(Hs2 & ts & c & Hp & Hsent & Hv)]); [congruence|].
  eapply wp_mono; [by apply emits_error| |done]. intros _ u (E1 & E2 & E3). rewrite E1.
  split; [|done]. split; [by rewrite E1|]. right. rewrite E1. split; [done|].
  exists ts, (c ++ error_page status). rewrite E3, Hsent, <- !app_assoc. done.
Qed.

Lemma wp_state {A} (m : M (rstate IO) A) s (P : rstate IO → Prop) :
  wp m s (λ _ t, P t) noexn → P (m s).2.
Proof. unfold wp. destruct (m s) as [[]]; done. Qed.

Lemma write_buf_answering s0 s buf :
  answering s0 s → wp (write_buf buf) s (λ _ t, answering s0 t) noexn.
Proof.
  intros Ha. unfold write_buf. rq_step. eapply wp_mono; [by apply answering_headers| |done].
  intros _ t (Hat & Hts & _). rq_steps. apply wp_if; intros _; [|by rq_step].
  apply (answering_content s0 t _ buf); [done|done|]. intros u. apply wp_on_io.
  eapply wp_mono; [by apply s_write_buf_ok| |done]. by intros _ o [? _].
Qed.

Lemma write_answering s0 s buf :
  answering s0 s → short buf → wp (write buf;; mret ()) s (λ _ t, answering s0 t) noexn.
Proof.
  intros Ha Hb. unfold write. do 2 rq_step. eapply wp_mono; [by apply answering_headers| |done].
  intros _ t (Hat & Hts & _). rq_steps. eapply wp_mono with (Q := λ _ u, answering s0 u);
    [apply wp_if; intros _; [|by rq_step]|intros _ u Hu; by rq_steps|done].
  apply (answering_content s0 t _ buf); [done|done|by apply emits_out].
Qed.

(** Every operation keeps the answer well-formed, exceptions included. *)
Lemma run_op_answering s0 s o : answering s0 s → op_ok o → answering s0 (run_op o s).2.
Proof.
  intros Ha Ho. destruct (headers_sent_ (rq s)) eqn:Hs.
  - destruct (set_after_headers s Hs) as (F1 & F2 & F3 & F4).
    destruct o as [name value|cookie|st|st|buf|buf|]; simpl in *.
    + destruct (F1 name value) as [e ->]. done.
    + destruct (F2 cookie) as [e ->]. done.
    + destruct (F3 st) as [e ->]. done.
    + destruct (F4 st) as [e ->]. done.
    + eapply (wp_state (write buf;; mret ())); by apply write_answering.
    + eapply (wp_state (write_buf buf)); by apply write_buf_answering.
    + eapply (wp_state sendHeaders). eapply wp_mono; [by apply answering_headers| |done]. by intros ? ? [].
  - assert (answer_ok (rq s)) as (Hh & ts & Hts).
    { destruct Ha as (_ & [(_ & _ & ?)|(? & _)]); [done|congruence]. }
    destruct o as [name value|cookie|st|st|buf|buf|]; simpl in *.
    + destruct Ho as [Hn Hv]. destruct (normalizeOutput_short name Hn) as (n & En & Hns).
      unfold setHeader, mbind, M_bind, request. rewrite Hs, En. simpl.
      apply (answering_update s0 s (λ r, set_out_headers r _)); try done; [apply Ha|].
      split; [by apply hm_set_ok|by exists ts].
    + destruct Ho as [t Ht]. unfold setCookie, mbind, M_bind, request. rewrite Hs. simpl.
      apply (answering_update s0 s (λ r, set_out_cookies r _)); try done; [apply Ha|].
      split; [done|]. by eapply prints_set.
    + unfold setStatus, mbind, M_bind, request. rewrite Hs. simpl.
      apply (answering_update s0 s (λ r, set_status r _)); try done; [apply Ha|]. by split; [|exists ts].
    + eapply (wp_state (sendError st)). eapply wp_mono; [by apply sendError_answering| |done]. by intros ? ? [].
    + eapply (wp_state (write buf;; mret ())); by apply write_answering.
    + eapply (wp_state (write_buf buf)); by apply write_buf_answering.
    + eapply (wp_state sendHeaders). eapply wp_mono; [by apply answering_headers| |done]. by intros ? ? [].
Qed.
End answer.

(** ** Examples: a stream on two strings, and casts of decimal numbers *)

Record Tape := MkTape { t_out : bytes; t_in : bytes }.

#[export] Instance Tape_stream : RequestIOStream Tape := {|
  s_read n := λ t, (Ret (take (Z.to_nat n) (t_in t)), MkTape (t_out t) (drop (Z.to_nat n) (t_in t)));
  s_write d n := λ t, (Ret n, MkTape (t_out t ++ take (Z.to_nat n) d) (t_in t));
  s_write_buf d := λ t, (Ret (), MkTape (t_out t ++ d) (t_in t));
|}.

#[export] Instance Tape_laws : StreamLaws Tape.
Proof.
  refine {| sent := t_out; incoming := t_in |}.
  - intros d n o ->. unfold wp; simpl. by rewrite to_nat_zlen, firstn_all.
  - intros d o. done.
  - intros n o Hn. done.
Defined.

Definition cast_decimal (bound : Z) (l : bytes) : option Z :=
  if negb (Range.empty l) && forallb (λ c, isdigit_int (uchar c)) l && (digits_value l <? bound)
  then Some (digits_value l) else None.
Definition decimal_cast : LexicalCast := {|
  cast_u16 := cast_decimal (2 ^ 16);
  cast_streamsize := cast_decimal (2 ^ 63);
  cast_string := decimal;
|}.

Lemma decimal_cast_ok : @LexicalCastOk decimal_cast.
Proof.
  split; [done| |done|].
  2: { intros text n. simpl. unfold cast_decimal. case_if; [|done]. intros [= <-].
    split; [etrans; [|by apply digits_value_nonneg]|]; lia. }
  intros n Hn. simpl. unfold cast_decimal. rewrite decimal_value by lia.
  pose proof (decimal_nonempty n) as Hne. apply empty_false in Hne. rewrite Hne.
  assert (forallb (λ c, isdigit_int (uchar c)) (decimal n) = true) as ->.
  { apply forallb_forall. intros c Hc. pose proof (decimal_digits_all 20 n [] ltac:(lia) ltac:(constructor)) as Hd.
    rewrite Forall_forall in Hd. by apply Hd, list_elem_of_In. }
  by replace (n <? 2 ^ 63) with true by lia.
Qed.

(** * Properties *)


Definition attached_request : RequestImpl := set_stream new_request true.


(** Once the headers are sent, every operation that would change them throws
    and leaves the request, the buffers and the stream as they are. *)
Theorem headers_frozen `{HashOrder} `{Posix} `{LexicalCast} {IO} `{RequestIOStream IO} (s : rstate IO) :
  headers_sent_ (rq s) = true →
  (∀ name value, ∃ e, setHeader name value s = (Throw e, s)) ∧
  (∀ cookie, ∃ e, setCookie cookie s = (Throw e, s)) ∧
  (∀ status, ∃ e, setStatus status s = (Throw e, s)) ∧
  (∀ status, ∃ e, sendError status s = (Throw e, s)) ∧
  sendHeaders s = (Ret (), s).
Proof.
  intros Hs. destruct (set_after_headers s Hs) as (H1' & H2' & H3' & H4').
  split_and!; try done. by apply sendHeaders_sent.
Qed.

Lemma headers_frozen_witness : ∃ e,
  @setHeader cons_order Tape (str "A") (str "B")
    (MkState (set_headers_sent new_request true) empty_world (MkTape [] [])) =
  (Throw e, MkState (set_headers_sent new_request true) empty_world (MkTape [] [])).
Proof.
  exact (proj1 (@headers_frozen cons_order small_machine decimal_cast Tape Tape_stream
    (MkState (set_headers_sent new_request true) empty_world (MkTape [] [])) eq_refl) (str "A") (str "B")).
Defined.
