(* ===== verification/Attach.v ===== *)
(** * Reading a request ([RequestImpl::attach])

    The body of a request goes from the stream of the web server into a buffer,
    segment by segment; then the arguments are parsed. *)
From S2P Require Import Prelude CLib Range Util Containers Buffer FileBuffer DataBuffer BufferUtil.
From S2P Require Import HttpDate Cookie RequestState Parser Serialize RequestImpl.

(** * Lemmas *)

Section fill.
Context `{PosixOk} {IO : Type} `{StreamLaws IO}.
Implicit Types (s t : rstate IO) (w : world).

Lemma segment_limit_zlen k c c' pos : zlen c' = zlen c → segment_limit k c' pos = segment_limit k c pos.
Proof. intros Hz. unfold segment_limit. by rewrite Hz. Qed.

Lemma slice_splice_before p x data (c : bytes) :
  0 <= x → x <= p → p <= zlen c → slice 0 x (splice p data c) = slice 0 x c.
Proof.
  intros. unfold slice, splice. change (Z.to_nat 0) with O. rewrite !drop_0, take_app_le, take_take; [f_equal; lia|].
  rewrite length_take. unfold zlen in *. lia.
Qed.

Lemma updates_shows w w' it d k c c' seg :
  shows w it d k c seg → updates d c' w w' →
  shows w' it d k c' (slice (pos_begin_ it) (pos_end_ it) c').
Proof.
  intros (l & Hl & Hh & H1' & H2' & H3' & He & _) [_ Hu]. destruct (Hu _ _ _ Hh) as [Hz Hh'].
  exists l. rewrite (segment_limit_zlen _ _ _ _ Hz). split_and!; try done. lia.
Qed.

(** Bytes are stored where an iterator points to. *)
Lemma poke_ok w it d k c seg data :
  shows w it d k c seg → zlen data <= zlen seg →
  wp (poke (buffer_ it) (pos_begin_ it) data) w
     (λ _ w', updates d (splice (pos_begin_ it) data c) w w') noexn.
Proof.
  intros Hs Hd. pose proof Hs as (l & Hl & Hh & H1' & H2' & H3' & He & ->).
  pose proof (segment_limit_gt k c _ (holds_param _ _ _ _ _ Hh) H1' ltac:(lia)) as Hlim.
  rewrite zlen_slice in Hd by lia. unfold poke, vcall, deref. rewrite Hl. wp_steps.
  set (c' := splice (pos_begin_ it) data c).
  assert (zlen c' = zlen c) as Hz by (apply zlen_splice; lia).
  eapply wp_mono; [apply (call_stores _ w l d k c c' (λ _, True)); [done|]| |done].
  - intros i Hok. obj_steps. replace (pos_begin_ it + zlen data <=? zlen c) with true by lia. obj_steps.
    split_and!; [done|done|].
    by apply (@b_ok_shape impl _ impl_laws k i c c').
  - intros _ w' (_ & _ & _ & Hu). by apply Hu.
Qed.

(** What the storage of a buffer holds after a segment was overwritten. *)
Lemma fill_segment w it d k c b e (pre seg rest : bytes) data :
  shows w it d k c seg → end_ (buffer_ it) = e → 0 <= b → b + zlen pre = pos_begin_ it →
  slice b e c = pre ++ seg ++ rest → zlen data <= zlen seg →
  let c' := splice (pos_begin_ it) data c in
  let seg' := data ++ drop (length data) seg in
  slice b e c' = pre ++ seg' ++ rest ∧ slice (pos_begin_ it) (pos_end_ it) c' = seg' ∧
  rest = slice (pos_end_ it) e c'.
Proof.
  intros (l & Hl & Hh & H1' & H2' & H3' & He & Hseg) Hee Hb0 Hb Hv Hd c' seg'.
  pose proof (zlen_nonneg pre). pose proof (zlen_nonneg data).
  pose proof (segment_limit_gt k c _ (holds_param _ _ _ _ _ Hh) H1' ltac:(lia)) as Hlim.
  assert (zlen seg = pos_end_ it - pos_begin_ it) as Hzs by (rewrite Hseg, zlen_slice; lia).
  assert (length (take (length data) seg) = length data) as Hlt
    by (rewrite length_take; unfold zlen in *; lia).
  assert (slice b e c' = pre ++ seg' ++ rest) as E1.
  { unfold c'. replace (pos_begin_ it) with (zlen pre + b) by lia. rewrite slice_splice by lia.
    rewrite Hv, <- (take_drop (length data) seg), <- app_assoc. rewrite splice_app by done.
    unfold seg'. by rewrite <- !app_assoc. }
  assert (length seg' = length seg) as Hls.
  { unfold seg'. rewrite length_app, length_drop. unfold zlen in *. lia. }
  split_and!; [done| |].
  - unfold c'. pose proof (slice_splice 0 (pos_begin_ it) (pos_end_ it) data c ltac:(lia) ltac:(lia) ltac:(lia)
      ltac:(lia) ltac:(lia)) as Es. rewrite Z.add_0_l in Es. rewrite Es, <- Hseg.
    rewrite <- (take_drop (length data) seg) at 1.
    exact (splice_app [] (take (length data) seg) data (drop (length data) seg) Hlt).
  - assert (zlen (slice b e c') = e - b) as Hz.
    { assert (zlen c' = zlen c) by (apply zlen_splice; lia). apply zlen_slice; lia. }
    rewrite (slice_window b e) by lia. rewrite E1, app_assoc.
    replace (Z.to_nat (pos_end_ it - b)) with (length (pre ++ seg'))
      by (rewrite length_app, Hls; unfold zlen in *; lia).
    rewrite drop_app_length. rewrite take_ge; [done|].
    rewrite E1 in Hz. revert Hz. zlen_simp. unfold zlen in *. lia.
Qed.

(** Where an iterator that has passed [pre] points to. *)
Lemma iter_at_pos w d k c b e pre it :
  iter_at w d k c (slice b e c) pre it → it ≠ end_iterator → end_ (buffer_ it) = e →
  0 <= b → b <= e → e <= zlen c → pos_begin_ it = b + zlen pre.
Proof.
  intros [[-> _]|(seg & rest & (l & Hl & Hh & H1' & H2' & H3' & He & ->) & Hn & Hv & _ & ->)] Hit <- Hb Hbe Hec;
    [done|].
  pose proof (segment_limit_gt k c _ (holds_param _ _ _ _ _ Hh) H1' ltac:(lia)) as Hlim.
  apply (f_equal zlen) in Hv. rewrite !zlen_app, !zlen_slice in Hv by lia. lia.
Qed.

Lemma shows_nonempty w it d k c seg : shows w it d k c seg → it ≠ end_iterator.
Proof. intros Hs ->. by apply shows_not_end in Hs. Qed.

(** The state while the body is read: [pre] has been filled from [inc], and what
    is before the buffer in its storage, which held [c0], is left alone. *)
Definition filling (s : rstate IO) (b : DataBuffer) (l d : loc) (k : Z) (c0 inc : bytes)
    (x : SegmentIterator * Z) (t : rstate IO) : Prop :=
  ∃ pre c, zlen c = zlen c0 ∧ slice 0 (begin_ b) c = slice 0 (begin_ b) c0 ∧ iter_at (wd t) d k c (slice (begin_ b) (end_ b) c) pre x.1 ∧
    (x.1 ≠ end_iterator → end_ (buffer_ x.1) = end_ b) ∧ holds (wd t) l d k c ∧
    others d (wd s) (wd t) ∧ rq t = rq s ∧ sent (io t) = sent (io s) ∧
    incoming (io t) = drop (length pre) inc ∧ x.2 = Z.min (zlen pre) (zlen inc) ∧
    (zlen pre <= zlen inc → pre = take (length pre) inc).

Lemma iterator_eq_spec x y : iterator_eq x y = true → data_ (buffer_ x) = data_ (buffer_ y).
Proof. unfold iterator_eq. intros [[E _]%andb_true_iff _]%andb_true_iff. by apply bool_decide_eq_true in E. Qed.

(** An iterator of the loop that compares equal to the end is the end. *)
Lemma filling_end s b l d k c0 inc it n t :
  filling s b l d k c0 inc (it, n) t → data_ (buffer_ it) = None → it = end_iterator.
Proof.
  intros (pre & c & _ & _ & Hat & _) Hn. cbn [fst] in Hat.
  destruct Hat as [[? _]|(seg & rest & (l1 & Hl & _) & _)]; [done|congruence].
Qed.

(** One segment. *)
Lemma fill_step s b l d k c0 inc it n t :
  0 <= begin_ b → begin_ b <= end_ b → end_ b <= zlen c0 → end_ b - begin_ b < 2 ^ 31 →
  filling s b l d k c0 inc (it, n) t → it ≠ end_iterator →
  wp (read_segment n it) t (λ n' u,
    wp (zoom wd set_wd (iterator_next it)) u (λ it' u', filling s b l d k c0 inc (it', n') u' ∧
      (it' ≠ end_iterator → pos_begin_ it < pos_begin_ it' < end_ b ∧ data_ (buffer_ it') = data_ (buffer_ it)))
      noexn) noexn.
Proof.
  intros Hb Hbe Hez Hsz (pre & c & Hz & Hfront & Hat & Hend & Hh & Ho & Hrq & Hsent & Hin & Hn & Hpre) Hit.
  cbn [fst snd] in *. specialize (Hend Hit).
  pose proof (iter_at_pos _ _ _ _ _ _ _ _ Hat Hit Hend Hb Hbe ltac:(lia)) as Hpos.
  destruct Hat as [[-> _]|(seg & rest & Hs & Hsn & Hv & Hone & Hr)]; [done|].
  pose proof (zlen_slice (begin_ b) (end_ b) c Hb Hbe ltac:(lia)) as Hzv. rewrite Hv, !zlen_app in Hzv.
  pose proof (zlen_nonneg pre). pose proof (zlen_nonneg seg). pose proof (zlen_nonneg rest).
  unfold read_segment. wp_step. apply wp_on_world.
  eapply wp_mono; [by eapply iterator_pointer_ok| |done]. intros r w1 [-> Hw1]. cbn iota. wp_step. apply wp_on_io.
  assert (to_int (zlen seg) = zlen seg) as -> by (apply to_int_short; unfold short; lia).
  eapply wp_mono; [by apply s_read_ok| |done]. intros data o (Hdata & Hin' & Hsent'). cbn [io set_wd] in Hdata, Hin', Hsent'.
  wp_step. apply wp_on_world. cbn [wd set_io set_wd].
  rewrite to_nat_zlen, Hin in Hdata, Hin'. rewrite drop_drop in Hin'.
  assert (zlen data <= zlen seg) as Hds by (rewrite Hdata; unfold zlen; rewrite length_take; lia).
  assert (shows w1 it d k c seg) as Hs1 by (eapply shows_keep; [|exact Hs]; auto).
  destruct (fill_segment w1 it d k c (begin_ b) (end_ b) pre seg rest data Hs1 Hend Hb ltac:(lia) Hv Hds) as (F1 & F2 & F3).
  set (c' := splice (pos_begin_ it) data c) in *. set (seg' := data ++ drop (length data) seg) in *.
  assert (length seg' = length seg) as Hls
    by (unfold seg', zlen in *; rewrite length_app, length_drop; lia).
  eapply wp_mono; [by eapply poke_ok| |done]. intros a w2 Hu. cbn beta in Hu. fold c' in Hu. wp_step. wp_step. cbn [wd set_wd set_io].
  pose proof (updates_shows _ _ _ _ _ _ _ _ Hs1 Hu) as Hs2. rewrite F2 in Hs2.
  destruct (proj2 Hu l k c (Hw1 _ _ _ _ Hh)) as [Hz' Hh2].
  eapply wp_mono; [apply (iterator_next_ok w2 it d k c' (slice (begin_ b) (end_ b) c') pre seg'); [done| |]| |done].
  { rewrite F1, F3, Hend. done. }
  { intros Hk. rewrite Hend, <- F3. by apply Hone. }
  intros it2 w3 (Hat2 & Hw3 & Hlt). split.
  - exists (pre ++ seg'), c'. cbn [fst snd rq wd io set_wd set_io].
    split; [lia|]. split; [by rewrite <- Hfront; apply slice_splice_before; lia|]. split; [exact Hat2|]. split; [intros Hn2; destruct (Hlt Hn2) as [_ ->]; done|].
    split; [by apply Hw3|]. split.
    { etrans; [exact Ho|]. etrans; [by apply wle_others|]. etrans; [apply Hu|by apply wle_others]. }
    split; [done|]. split; [by rewrite Hsent'|]. split; [by rewrite Hin', length_app, Hls|].
    assert (zlen data = Z.min (zlen seg) (Z.max 0 (zlen inc - zlen pre))) as Hzd.
    { rewrite Hdata. unfold zlen. rewrite length_take, length_drop. lia. }
    assert (zlen seg' = zlen seg) as Hzs by (unfold zlen; lia).
    split.
    + rewrite u64_small by (unfold U64_MAX; pose proof (zlen_nonneg inc); lia). rewrite zlen_app.
      pose proof (zlen_nonneg inc). lia.
    + rewrite zlen_app. intros Hle. rewrite length_app, Hls. unfold seg'.
      assert (length data = length seg) as Hl by (unfold zlen in *; lia).
      rewrite Hl, drop_all, app_nil_r, Hdata, <- take_take_drop. f_equal. apply Hpre. lia.
  - intros Hn2. destruct (Hlt Hn2) as [Hp Hb2]. rewrite Hb2, Hend in Hp. rewrite Hb2. by split.
Qed.

(** The body is filled with what the stream delivers, whatever its segments. *)
Lemma read_body_ok s b v l d k c :
  views (wd s) b v → data_ b = Some l → holds (wd s) l d k c → zlen v < 2 ^ 31 →
  wp (read_body b) s (λ n t, n = Z.min (zlen v) (zlen (incoming (io s))) ∧
    rq t = rq s ∧ sent (io t) = sent (io s) ∧ incoming (io t) = drop (length v) (incoming (io s)) ∧
    others d (wd s) (wd t) ∧ ∃ c', zlen c' = zlen c ∧ slice 0 (begin_ b) c' = slice 0 (begin_ b) c ∧ holds (wd t) l d k c' ∧
    (zlen v <= zlen (incoming (io s)) → views (wd t) b (take (length v) (incoming (io s))))) noexn.
Proof.
  intros Hv Hd Hh Hsz. destruct (size_views _ _ _ Hv) as (Hsb & Heb & Hb0 & _).
  pose proof (zlen_nonneg v). assert (end_ b <= zlen c ∧ v = slice (begin_ b) (end_ b) c) as [Hec Hvc].
  { unfold views in Hv. rewrite Hd in Hv. destruct Hv as (d2 & k2 & c2 & Hh2 & _ & _ & H3' & ->).
    destruct (holds_fun _ _ _ _ _ _ _ _ Hh Hh2) as [<- <-]. done. }
  set (inc := incoming (io s)). unfold read_body, for_segments. wp_step. wp_step.
  eapply wp_mono; [by apply (begin_iterator_ok _ _ v l d k c)| |done].
  intros it w0 (Hit & Hw0 & Hpos). rewrite Hvc in Hit.
  set (s0 := set_wd w0 s). assert (filling s b l d k c inc (it, 0) s0) as Hf.
  { exists [], c. cbn [fst snd]. split; [done|]. split; [done|]. split; [exact Hit|]. split; [by intros Hn; apply Hpos|].
    split; [by apply Hw0|]. split; [by apply wle_others|]. split_and!; try done.
    pose proof (zlen_nonneg inc). change (zlen (@nil byte)) with 0. lia. }
  eapply wp_mono with (Q := λ n t, filling s b l d k c inc (end_iterator, n) t);
    [|intros n t (pre & c' & Hz & Hfront & Hat & _ & Hh' & Ho & Hrq & Hs & Hin & Hn & Hpre)|done].
  - apply (wp_loop (λ x t, filling s b l d k c inc x t) (λ x, if decide (data_ (buffer_ x.1) = None) then O
      else S (Z.to_nat (end_ b - pos_begin_ x.1)))); [|exact Hf|].
    + intros [it1 n1] t Ht. unfold segment_step. cbn [fst snd].
      destruct (iterator_eq it1 end_iterator) eqn:Ei.
      { apply iterator_eq_spec in Ei. apply (filling_end _ _ _ _ _ _ _ _ _ _ Ht) in Ei as ->. by wp_step. }
      assert (it1 ≠ end_iterator) as Hn1 by (by intros ->).
      wp_step. eapply wp_mono; [apply (fill_step s b l d k c inc); [lia..|exact Ht|done]| |done].
      intros n2 u Hu. cbn beta in Hu. wp_step. eapply wp_mono; [exact Hu| |done].
      intros it2 u2 [Hf2 Hlt]. wp_step. split; [exact Hf2|]. cbn [fst snd].
      assert (data_ (buffer_ it1) ≠ None) as Hd1
        by (intros E; by apply (filling_end _ _ _ _ _ _ _ _ _ _ Ht) in E).
      rewrite (decide_False (P := data_ (buffer_ it1) = None)) by done. case_decide as Hd2; [lia|].
      destruct Hlt as [Hp _]; [by intros ->|]. lia.
    + cbn [fst snd]. case_decide as E2; [lia|]. destruct Hpos as [_ ->]; [by intros ->|]. rewrite Hsb. lia.
  - destruct Hat as [[_ Hpv]|(seg & rest & Hs' & _)]; [|by apply shows_nonempty in Hs'].
    cbn [snd] in *. assert (length pre = length v) as Hlp.
    { rewrite Hpv. assert (zlen (slice (begin_ b) (end_ b) c') = zlen v) as E by (rewrite zlen_slice; lia).
      unfold zlen in E. lia. }
    assert (zlen pre = zlen v) as Hzp by (unfold zlen; by rewrite Hlp). rewrite Hzp in Hn, Hpre. rewrite Hlp in *.
    split_and!; [done..|]. exists c'. split_and!; [done|done|done|]. intros Hle. rewrite <- (Hpre Hle), Hpv.
    unfold views. rewrite Hd. exists d, k, c'. split_and!; [done|lia..|done].
Qed.
End fill.

Section attach.
Context `{HashOrder} `{PosixOk} `{LexicalCast} {IO : Type} `{StreamLaws IO}.
Implicit Types (s t : rstate IO) (w : world).

Lemma wp_run_parser m r s (Q : unit → rstate IO → Prop) E :
  m (rq s) = Ret r → Q () (set_rq r s) → wp (run_parser m) s Q E.
Proof. intros Hm HQ. unfold run_parser, wp, mbind, M_bind, request, lift, update_rq. by rewrite Hm. Qed.

Lemma wp_parse_query query s (Q : unit → rstate IO → Prop) E :
  Q () (set_rq (set_args (rq s) (args_ (rq s) ++ query_values query)) s) → wp (parse_query query) s Q E.
Proof.
  intros HQ. eapply wp_run_parser; [|exact HQ]. unfold Util.parse. by rewrite parse_loop by lia.
Qed.

(** An object whose segments are the whole storage is a vector. *)
Lemma memory_impl i c : impl_ok 0 i c → i = IString MkStringBuffer.
Proof. destruct i as [[]|f]; [done|]. intros [(_ & _ & _ & Hw & _) E]. lia. Qed.

Lemma memory_resize n i c :
  impl_ok 0 i c → 0 <= n < 2 ^ 62 →
  wp (b_resize n) (i, c) (λ _ x, x.2 = vector_resize n c ∧ impl_ok 0 x.1 (vector_resize n c)) noexn.
Proof.
  intros Hok Hn. apply memory_impl in Hok as ->. unfold wp. cbn. unfold StringBuffer.resize, VECTOR_MAX.
  replace (2 ^ 63 - 1 <? n) with false by lia. cbn. split; [done|]. split; [done|]. rewrite zlen_vector_resize by lia. lia.
Qed.

(** [resize] of a buffer in memory. *)
Lemma resize_memory w b v l n :
  views w b v → in_memory w b → data_ b = Some l → 0 <= n → begin_ b + n < 2 ^ 62 →
  wp (DataBuffer.resize n b) w (λ b' w', data_ b' = Some l ∧ begin_ b' = begin_ b ∧
    in_memory w' b' ∧ ∃ v', views w' b' v' ∧ zlen v' = n) noexn.
Proof.
  intros Hv Hm Hl Hn Hmax. destruct (Hm l Hl) as (d & c & Hh). unfold DataBuffer.resize.
  destruct (size_views _ _ _ Hv) as (_ & He & Hb & _). rewrite u64_small by zlia.
  wp_step. unfold vcall, deref. rewrite Hl. wp_steps.
  set (c' := vector_resize (begin_ b + n) c).
  assert (zlen c' = begin_ b + n) as Hc' by (apply zlen_vector_resize; lia).
  eapply wp_mono; [apply (call_stores _ w l d 0 c c' (λ _, True)); [done|]| |done].
  { intros i Hok. eapply wp_mono; [apply memory_resize; [done|lia]| |done]. intros r x [? ?]. done. }
  intros _ w' (_ & Hh' & _ & _). wp_step. split_and!; [done|done| |].
  - intros l2 [= <-]. by exists d, c'.
  - exists (slice (begin_ b) (begin_ b + n) c'). split; [|rewrite zlen_slice by lia; lia].
    unfold views; simpl. exists d, 0, c'. split_and!; [done|lia..|done].
Qed.

Lemma create_some data w b w' : DataBuffer.create data w = (Ret b, w') → is_Some (data_ b).
Proof.
  intros E. unfold DataBuffer.create, DataBuffer.create_impl in E. returned E. injection E as <- _. by eexists.
Qed.

(** The body of a request of [size] bytes does not go into the cache. *)
Definition in_process (cache : option (RequestCache IO)) (size : Z) : Prop :=
  match cache with Some c => size < minPostSize c | None => True end.

Lemma make_body_process cache size : in_process cache size → make_body cache size = make_body None size.
Proof. destruct cache as [c|]; [|done]. intros Hc. unfold make_body. by replace (minPostSize c <=? size) with false by (simpl in Hc; lia). Qed.

(** The buffer for a body that is kept in memory. *)
Lemma make_body_memory s n :
  0 <= n < 2 ^ 31 →
  wp (make_body None n) s (λ b t, b = nil_buffer ∧ io t = io s ∧ ∃ body v l d c,
    rq t = set_body (rq s) body ∧ views (wd t) body v ∧ in_memory (wd t) body ∧
    data_ body = Some l ∧ holds (wd t) l d 0 c ∧ zlen v = n) noexn.
Proof.
  intros Hn. unfold make_body. rq_step. apply wp_on_world.
  destruct (proj1 (wp_returns _ _ _) (create_views (wd s) EMPTY_STRING eq_refl)) as (b & w1 & E & Hv & Hm & Hw1).
  unfold wp at 1. rewrite E. rq_steps. apply wp_on_world. cbn [wd set_rq set_wd].
  destruct (size_views _ _ _ Hv) as (_ & He & Hb & _).
  destruct (create_some _ _ _ _ E) as [l Hl].
  assert (begin_ b = 0) as Hb0 by (unfold DataBuffer.create, DataBuffer.create_impl in E; returned E; by injection E as <- _).
  eapply wp_mono; [apply (resize_memory w1 b EMPTY_STRING l n); [done|done|done|lia..]| |done].
  intros b' w2 (Hl' & _ & Hm' & v' & Hv' & Hz). rq_steps. split_and!; [done|done|].
  destruct (Hm' l Hl') as (d & c & Hh). exists b', v', l, d, c. split_and!; done.
Qed.

(** A vector cannot have the size that a negative length is converted to. *)
Lemma make_body_negative s n :
  - 2 ^ 63 <= n < 0 →
  wp (make_body None (u64 n)) s (λ _ _, False) (λ e t, e = LengthError ∧ io t = io s ∧
    ∃ body, rq t = set_body (rq s) body).
Proof.
  intros Hn. unfold make_body, on_world. wp_step. wp_step.
  destruct (proj1 (wp_returns _ _ _) (create_views (wd s) EMPTY_STRING eq_refl)) as (b & w1 & E & Hv & Hm & Hw1).
  unfold wp at 1. rewrite E. rq_step. rq_step. rq_step. rq_step.
  destruct (create_some _ _ _ _ E) as [l Hl]. destruct (Hm l Hl) as (d & c & i & Hi & Hc & Hok).
  apply memory_impl in Hok as ->.
  assert (begin_ b = 0) as Hb0 by (unfold DataBuffer.create, DataBuffer.create_impl in E; returned E; by injection E as <- _).
  assert (u64 (0 + u64 n) = 2 ^ 64 + n) as Hu.
  { rewrite Z.add_0_l. unfold u64, wrap. rewrite Z.mod_mod by done. symmetry. apply (Z.mod_unique _ _ (-1)); lia. }
  unfold DataBuffer.resize, vcall, deref, wp, mbind, M_bind, call. rewrite Hl, Hb0, Hu. cbn [mret M_ret]. rewrite Hi. cbn [o_data].
  rewrite Hc. cbn [o_impl b_resize impl_impl]. cbn. unfold StringBuffer.resize, VECTOR_MAX.
  replace (2 ^ 63 - 1 <? 2 ^ 64 + n) with true by lia. cbn. split_and!; [done|done|by exists b].
Qed.

(** Neither a form of parts nor a type whose content is left alone. *)
Definition form_type (type : bytes) : Prop :=
  strncasecmp_eq 19 (str "multipart/form-data") type = false ∧
  strncasecmp_eq 10 (str "text/plain") type = false ∧
  strncasecmp_eq 24 (str "application/octet-stream") type = false.

(** A body in memory, of a type that is parsed as arguments. *)
Lemma parse_body_form s v :
  form_type (getContentType (rq s)) → views (wd s) (body_ (rq s)) v → in_memory (wd s) (body_ (rq s)) →
  wp parse_body s (λ _ t, rq t = set_args (rq s) (args_ (rq s) ++ query_values v) ∧
    wle (wd s) (wd t) ∧ io t = io s) noexn.
Proof.
  intros (Hf1 & Hf2 & Hf3) Hv Hm. unfold parse_body. rq_step. rq_step. cbn zeta. rewrite Hf1, Hf2, Hf3. cbn [negb andb].
  rq_step. apply wp_on_world. eapply wp_mono; [by apply parse_buffer_ok| |done].
  intros a w [-> Hw]. by rq_steps.
Qed.

(** The query string of a request with a body: an empty one adds nothing. *)
Lemma wp_parse_some_query query s (Q : unit → rstate IO → Prop) E :
  Q () (set_rq (set_args (rq s) (args_ (rq s) ++ query_values query)) s) →
  wp (if Range.empty query then mret () else parse_query query) s Q E.
Proof.
  intros HQ. destruct (Range.empty query) eqn:Eq; [|by apply wp_parse_query].
  apply empty_spec in Eq as ->. change (query_values []) with (@nil NamedValue) in HQ. rewrite app_nil_r in HQ.
  apply wp_ret. destruct s as [[] w o]. exact HQ.
Qed.

(** [attach] of a request whose body is kept in memory, up to the parsing of the
    body: it shows what the stream delivered. *)
Lemma attach_body cache (env : list bytes) s r (n : Z) (Q : unit → rstate IO → Prop) (E : exn → rstate IO → Prop) :
  Parser.parse env (set_stream (rq s) true) = Ret r →
  getRequestMethod r = str "POST" ∨ getRequestMethod r = str "PUT" →
  getContentLength r = Ret n → 0 <= n < 2 ^ 31 → in_process cache n →
  let inc := incoming (io s) in
  (∀ body u, n <= zlen inc → views (wd u) body (take (Z.to_nat n) inc) → in_memory (wd u) body →
     rq u = set_args (set_body r body) (args_ r ++ query_values (getQueryString r)) →
     incoming (io u) = drop (Z.to_nat n) inc → sent (io u) = sent (io s) → wp parse_body u Q E) →
  wp (attach cache true (Some env)) s Q
    (λ e t, (zlen inc < n ∧ e = RuntimeError (str "failed to read request entity") ∧
       sent (io t) = sent (io s) ∧ ∃ body, rq t = set_body r body) ∨ E e t).
Proof.
  intros Ep Hm Hl Hn Hc inc Hbody. unfold attach. cbn [negb]. rq_step. rq_step.
  wp_step. eapply wp_run_parser; [exact Ep|]. rq_steps. cbn zeta.
  assert (negb (string_eq (str "POST") (getRequestMethod r)) && negb (string_eq (str "PUT") (getRequestMethod r)) = false)
    as -> by (destruct Hm as [-> | ->]; reflexivity).
  rewrite Hl. rq_steps. rewrite u64_small by (unfold U64_MAX; lia). cbn zeta. rq_steps. rewrite make_body_process by done.
  eapply wp_mono; [by apply make_body_memory| |done]. intros b t (-> & Hio & body & v & l & d & c & Hrq & Hv & Hmem & Hb & Hh & Hz).
  rq_steps. rewrite Hrq. cbn [body_ set_body].
  eapply wp_mono; [apply (read_body_ok t body v l d 0 c); [done|done|done|lia]| |done].
  intros m u (-> & Hrq2 & Hsent & Hin & _ & c' & _ & _ & Hh' & Hviews). rewrite Hio in *. cbn [io set_rq] in *.
  fold inc in Hin, Hviews |- *. rewrite Hz in *.
  assert (length v = Z.to_nat n) as Hlen by (unfold zlen in Hz; lia). rewrite Hlen in *.
  destruct (Z.min n (zlen inc) =? n) eqn:Em; zbool; cbn [negb]; [|rq_step; left; split_and!; [lia|done|done|]].
  2: { exists body. by rewrite Hrq2, Hrq. }
  specialize (Hviews ltac:(lia)). rq_step. apply wp_parse_some_query. rq_step. rewrite Hrq2, Hrq.
  eapply wp_mono; [apply (Hbody body); cbn [wd rq io set_rq]; [lia|exact Hviews| |done..]| |by intros ? ? ?; right].
  - intros l2 Hl2. rewrite Hb in Hl2. injection Hl2 as <-. by exists d, c'.
  - intros [] x HQ. change (DataBuffer.isNil nil_buffer) with true. by rq_steps.
Qed.

(** A length that is no number, or a negative one. *)
Lemma attach_bad_length cache (env : list bytes) s r :
  Parser.parse env (set_stream (rq s) true) = Ret r →
  getRequestMethod r = str "POST" ∨ getRequestMethod r = str "PUT" →
  match getContentLength r with Ret n => - 2 ^ 63 <= n < 0 ∧ in_process cache (u64 n) | _ => True end →
  wp (attach cache true (Some env)) s (λ _ _, False)
    (λ e t, e = match getContentLength r with Ret _ => LengthError | _ => BadLexicalCast end ∧
       io t = io s ∧ (rq t = r ∨ ∃ body, rq t = set_body r body)).
Proof.
  intros Ep Hm Hl. unfold attach. cbn [negb]. rq_step. rq_step.
  wp_step. eapply wp_run_parser; [exact Ep|]. rq_steps. cbn zeta.
  assert (negb (string_eq (str "POST") (getRequestMethod r)) && negb (string_eq (str "PUT") (getRequestMethod r)) = false)
    as -> by (destruct Hm as [-> | ->]; reflexivity).
  wp_step. destruct (getContentLength r) as [n|e| |] eqn:El; unfold getContentLength in El;
    destruct (cast_streamsize _); try done.
  - destruct Hl as [Hn Hc]. rq_steps. cbn zeta. rewrite make_body_process by done.
    eapply wp_mono; [by apply make_body_negative|done|]. intros e t (-> & Hio & body & Hrq).
    split_and!; [done|by rewrite Hio|right; by exists body].
  - injection El as <-. unfold wp, lift. by split_and!; [..|left].
Qed.
End attach.

(** [wp] with exceptions, as cases. *)
Lemma wp_cases {S A} (m : M S A) (s : S) (Q : A → S → Prop) E :
  wp m s Q E → (∃ a t, m s = (Ret a, t) ∧ Q a t) ∨ (∃ e t, m s = (Throw e, t) ∧ E e t).
Proof. unfold wp. destruct (m s) as [[a|e| |] t]; intros HQ; try done; [left|right]; by eexists _, _. Qed.

(** * Properties *)

(** Reading the body fills its buffer: over memory or over a file mapped in
    windows of any size, a buffer of [n] bytes shows the next [n] bytes of the
    stream afterwards, the stream is advanced by as much, and the number of
    bytes that were read is returned, fewer only when the stream ends. *)
Theorem read_body_fills `{PosixOk} {IO} `{StreamLaws IO} (s : rstate IO) (b : DataBuffer) (v : bytes) :
  views (wd s) b v → v ≠ [] → zlen v < 2 ^ 31 →
  ∃ t, read_body b s = (Ret (Z.min (zlen v) (zlen (incoming (io s)))), t) ∧
    rq t = rq s ∧ incoming (io t) = drop (length v) (incoming (io s)) ∧
    (zlen v <= zlen (incoming (io s)) → views (wd t) b (take (length v) (incoming (io s)))).
Proof.
  intros Hv Hn Hz. destruct (view_loc _ _ _ Hv Hn) as (l & d & k & c & Hl & Hh & _).
  destruct (proj1 (wp_returns _ _ _) (read_body_ok s b v l d k c Hv Hl Hh Hz))
    as (n & t & E & -> & Hrq & _ & Hin & _ & c' & _ & _ & _ & Hb).
  exists t. split_and!; done.
Qed.

Lemma read_body_fills_witness : ∃ w b t,
  @read_body small_machine Tape Tape_stream b (MkState new_request w (MkTape [] (str "abcdefghijklmnopqrstuvwxyz"))) =
    (Ret 22, t) ∧ @views small_machine small_machine_ok (wd t) b (str "abcdefghijklmnopqrstuv").
Proof.
  destruct (example_file (str "0123456789abcdefghijkl") eq_refl) as (w & b & _ & Hv).
  destruct (@read_body_fills small_machine small_machine_ok Tape Tape_stream Tape_laws
    (MkState new_request w (MkTape [] (str "abcdefghijklmnopqrstuvwxyz"))) b _ Hv ltac:(discriminate) ltac:(vm_compute; reflexivity))
    as (t & E & _ & _ & Hb).
  exists w, b, t. split; [exact E|]. apply Hb. vm_compute. discriminate.
Defined.

(** A request without a body: [attach] always ends, its arguments are those of
    the query string, after those it had, and nothing else is done to it than
    reading its environment. *)
Theorem attach_get `{HashOrder} `{Posix} `{LexicalCast} {IO} `{RequestIOStream IO}
    (cache : option (RequestCache IO)) (env : list bytes) (s : rstate IO) (r : RequestImpl) :
  Parser.parse env (set_stream (rq s) true) = Ret r →
  getRequestMethod r ≠ str "POST" → getRequestMethod r ≠ str "PUT" →
  attach cache true (Some env) s =
    (Ret (), set_rq (set_args r (args_ r ++ query_values (getQueryString r))) s).
Proof.
  intros Ep H1' H2'. unfold attach. cbn [negb].
  assert (string_eq (str "POST") (getRequestMethod r) = false) as F1 by (apply bool_decide_eq_false; congruence).
  assert (string_eq (str "PUT") (getRequestMethod r) = false) as F2 by (apply bool_decide_eq_false; congruence).
  unfold run_parser, parse_query, mbind, M_bind, update_rq, request, lift. cbn [rq set_rq]. rewrite Ep. cbn beta iota zeta. cbn [rq set_rq].
  rewrite F1, F2. cbn [negb andb]. unfold run_parser, mbind, M_bind, request, lift. cbn [rq set_rq].
  unfold Util.parse. rewrite parse_loop by lia. done.
Qed.

Lemma attach_get_witness : ∃ t,
  @attach cons_order small_machine decimal_cast Tape Tape_stream None true
    (Some [str "REQUEST_METHOD=GET"; str "QUERY_STRING=a=1&b=%20"]) (MkState new_request empty_world (MkTape [] [])) = (Ret (), t) ∧
  args_ (rq t) = [(str "a", str "1"); (str "b", str " ")].
Proof.
  eexists. rewrite (@attach_get cons_order small_machine decimal_cast Tape Tape_stream None
    [str "REQUEST_METHOD=GET"; str "QUERY_STRING=a=1&b=%20"] (MkState new_request empty_world (MkTape [] []))
    (set_vars (set_stream new_request true)
      [(str "QUERY_STRING", str "a=1&b=%20"); (str "REQUEST_METHOD", str "GET")])
    ltac:(vm_compute; reflexivity) ltac:(vm_compute; discriminate) ltac:(vm_compute; discriminate)).
  split; [reflexivity|]. vm_compute. reflexivity.
Defined.


