(* ===== verification/Multipart.v ===== *)
(** * Multipart bodies ([Parser::parseMultipart], library/parser.cpp)

    What the parser does with the body of a form of parts that is kept in
    memory: how it reads the attributes of a header line, the header lines of a
    part, the parts of a body, and what [RequestImpl::attach] makes of it. *)
From S2P Require Import Prelude CLib Range Util Containers Buffer FileBuffer DataBuffer BufferUtil.
From S2P Require Import HttpDate Cookie RequestState Parser Serialize RequestImpl Attach.

(** ** Specification vocabulary *)

(** What is known of a part: its name, file name and type. *)
Record part_text := MkText { t_name : bytes; t_filename : bytes; t_type : bytes }.

(** The attribute [key=value] of a header line. *)
Definition attribute (i : part_text) (kv : bytes * bytes) : part_text :=
  if bool_decide (kv.1 = NAME) then MkText (Range.trimn 1 1 kv.2) (t_filename i) (t_type i)
  else if bool_decide (kv.1 = FILENAME) then MkText (t_name i) (Range.trimn 1 1 kv.2) (t_type i)
  else if (zlen CONTENT_TYPE =? zlen kv.1) &&
          forallb (λ p, same_char_ci p.1 p.2) (zip CONTENT_TYPE kv.1)
       then MkText (t_name i) (t_filename i) (Range.trim kv.2)
  else i.

(** The attributes of a line. *)
Inductive attributes : bytes → list (bytes * bytes) → Prop :=
| attributes_nil : attributes [] []
| attributes_cons v f h t g k x l :
    v ≠ [] → Range.split_char ";"%byte v = (f, h, t) → Range.split_char "="%byte h = (g, k, x) →
    attributes (Range.trim t) l → attributes v ((k, x) :: l).

(** A header line that is read as one line. *)
Definition header_ok (h : bytes) : bool :=
  negb (Range.empty h) && forallb (λ c, negb (bool_decide (c = Byte.x0d)) && negb (bool_decide (c = Byte.x0a))) h &&
  negb (Range.startsWith ONE_SPACE h) && negb (Range.startsWith ONE_TAB h).
Fixpoint header_lines (l : list bytes) : bytes :=
  match l with
  | [] => []
  | [h] => h
  | h :: l => h ++ RETURN_RN ++ header_lines l
  end.

(** The lines of a header; the last one may be ended by a line break. *)
Inductive lines : bytes → list bytes → Prop :=
| lines_nil : lines [] []
| lines_last h : header_ok h = true → lines h [h]
| lines_cons h v l : header_ok h = true → lines v l → lines (h ++ RETURN_RN ++ v) (h :: l).

(** The parts of a form, as a browser sends them: fields and uploaded files. *)
Inductive part :=
| Field (name value : bytes)
| Upload (name filename type content : bytes).
Definition quoted (s : bytes) : bytes := [Byte.x22] ++ s ++ [Byte.x22].
Definition DISPOSITION : bytes := str "Content-Disposition: form-data".
Definition part_lines (p : part) : list bytes :=
  match p with
  | Field n _ => [DISPOSITION ++ str "; name=" ++ quoted n]
  | Upload n f t _ => [DISPOSITION ++ str "; name=" ++ quoted n ++ str "; filename=" ++ quoted f; str "Content-Type: " ++ t]
  end.
Definition part_content (p : part) : bytes := match p with Field _ v | Upload _ _ _ v => v end.
Definition part_body (p : part) : bytes := header_lines (part_lines p) ++ EMPTY_LINE_RNRN ++ part_content p.
Definition part_bytes (p : part) : bytes := RETURN_RN ++ part_body p ++ RETURN_RN.
Definition closing : bytes := MINUS_PREFIX ++ RETURN_RN.
Definition multipart_body (boundary : bytes) (ps : list part) : bytes :=
  boundary ++ foldr (λ p rest, part_bytes p ++ boundary ++ rest) closing ps.

(** No separator of header lines or attributes. *)
Definition plain (s : bytes) : bool :=
  forallb (λ c, negb (bool_decide (c = Byte.x0d)) && negb (bool_decide (c = Byte.x0a)) && negb (bool_decide (c = ";"%byte))) s.
(** A part that can be sent with a boundary: the boundary does not occur in it. *)
Definition part_ok (boundary : bytes) (p : part) : bool :=
  match p with
  | Field n _ => plain n && negb (Range.empty n)
  | Upload n f t _ => plain n && negb (Range.empty n) && plain f && negb (Range.empty f) &&
                      plain t && negb (bool_decide ("="%byte ∈ t))
  end && (Range.find boundary (part_bytes p ++ boundary) =? length (part_bytes p))%nat.
Definition boundary_ok (boundary : bytes) : bool :=
  negb (Range.empty boundary) && (Range.find boundary closing =? length closing)%nat.

Definition fields (ps : list part) : list (bytes * bytes) :=
  omap (λ p, match p with Field n v => Some (n, v) | _ => None end) ps.
Definition uploads (ps : list part) : list (bytes * bytes * bytes) :=
  omap (λ p, match p with Upload n f _ v => Some (n, f, v) | _ => None end) ps.
Definition insert_file (files : list (bytes * File)) (u : bytes * bytes * bytes * DataBuffer) : list (bytes * File) :=
  let '(n, f, _, content) := u in map_insert n (MkFile f [] content) files.

(** What the lines of a part say of it. *)
Definition part_attributes (p : part) : list (list (bytes * bytes)) :=
  match p with
  | Field n _ => [[(DISPOSITION, []); (NAME, quoted n)]]
  | Upload n f t _ => [[(DISPOSITION, []); (NAME, quoted n); (FILENAME, quoted f)]; [(str "Content-Type: " ++ t, [])]]
  end.
Definition part_says (p : part) : part_text :=
  match p with Field n _ => MkText n [] [] | Upload n f _ _ => MkText n f [] end.

(** ** Buffers and requests *)

Section vocabulary.
Context `{PosixOk}.
Implicit Types (w : world) (b : DataBuffer) (v : bytes) (r : RequestImpl).

(** Buffer [b] is in memory and shows [v]. *)
Definition text w b v : Prop := views w b v ∧ in_memory w b.
Definition info w (p : part_info) (i : part_text) : Prop :=
  text w (p_name p) (t_name i) ∧ text w (p_filename p) (t_filename i) ∧ text w (p_type p) (t_type i).

(** What the request [r'] has got from the parts [ps], its state having been
    [r]: the fields are arguments, in order; a file is kept under the name of
    its part unless there is one already, and its content is a buffer. *)
Definition received w r (ps : list part) r' : Prop :=
  ∃ cs, Forall2 (λ u c, text w c u.2) (uploads ps) cs ∧
    r' = set_files (set_args r (args_ r ++ fields ps)) (foldl insert_file (files_ r) (zip (uploads ps) cs)).
End vocabulary.

(** * Lemmas *)

Section text.
Context `{PosixOk}.
Implicit Types (w : world) (b : DataBuffer) (v : bytes).

Lemma text_mono w w' b v : wle w w' → text w b v → text w' b v.
Proof. intros Hw [Hv Hm]. split; [by eapply views_mono|by eapply in_memory_mono]. Qed.

Lemma text_of w w' b b' v v' : text w b v → wle w w' → data_ b' = data_ b → views w' b' v' → text w' b' v'.
Proof. intros [_ Hm] Hw E Hv. split; [done|]. eapply in_memory_data; [exact E|]. by eapply in_memory_mono. Qed.

Lemma info_mono w w' p i : wle w w' → info w p i → info w' p i.
Proof. intros Hw (H1 & H2 & H3). split_and!; by eapply text_mono. Qed.

Lemma text_nil w : text w nil_buffer [].
Proof. by split. Qed.

Lemma split_text w b v delim f h t :
  text w b v → delim ≠ [] → Range.split delim v = (f, h, t) →
  wp (DataBuffer.split delim b) w (λ r w', ∃ head tail, r = (f, head, tail) ∧ wle w w' ∧
    text w' head h ∧ text w' tail t) noexn.
Proof.
  intros Ht Hd Es. eapply wp_mono; [apply split_views; [apply Ht|done]| |done].
  intros [[g head] tail] w' (Hw & Hf & Hh & Htl & D1 & D2). rewrite Es in *. cbn [fst snd] in *. subst g.
  exists head, tail. split_and!; [done..| |]; by eapply text_of.
Qed.

Lemma split_char_text w b v delim f h t :
  text w b v → Range.split_char delim v = (f, h, t) →
  wp (DataBuffer.split_char delim b) w (λ r w', ∃ head tail, r = (f, head, tail) ∧ wle w w' ∧
    text w' head h ∧ text w' tail t) noexn.
Proof. intros Ht Es. by apply (split_text w b v [delim]). Qed.

Lemma trim_text w b v :
  text w b v → wp (DataBuffer.trim b) w (λ b' w', wle w w' ∧ text w' b' (Range.trim v)) noexn.
Proof.
  intros Ht. eapply wp_mono; [apply trim_views; apply Ht| |done].
  intros b' w' (Hv & Hd & Hw). split; [done|]. by eapply text_of.
Qed.

(** [trimn] is [Range::trimn] as long as no more than the buffer is cut off at
    its end. *)
Lemma trimn_views w b v n e :
  views w b v → 0 <= n < 2 ^ 62 → 0 <= e → e <= zlen v ∨ v = [] →
  views w (DataBuffer.trimn n e b) (Range.trimn n e v) ∧ data_ (DataBuffer.trimn n e b) = data_ b.
Proof.
  intros Hv Hn He Hev. unfold DataBuffer.trimn, Range.trimn. rewrite (empty_views _ _ _ Hv).
  replace (n <? 0) with false by lia. replace (e <? 0) with false by lia.
  destruct (Range.empty v) eqn:Em.
  { apply empty_spec in Em as ->. by rewrite drop_nil, take_nil. }
  apply empty_false in Em. pose proof (nonempty_notnil _ _ _ Hv Em) as Hnn.
  destruct (size_views _ _ _ Hv) as (_ & Hend & Hb & Hmax). pose proof (zlen_nonneg v).
  destruct Hev as [Hev|?]; [|done]. rewrite u64_small by (unfold U64_MAX; lia).
  case_if; cbn [data_]; split; try done.
  - rewrite drop_ge, take_nil by (unfold zlen in *; lia).
    pose proof (sub_views w b v (zlen v) (zlen v) Hv Hnn ltac:(lia) ltac:(lia) ltac:(lia)) as Hs.
    rewrite slice_empty, <- Hend in Hs. exact Hs.
  - rewrite u64_small by (unfold U64_MAX; lia). set (q := Z.max n (zlen v - e)).
    replace (Z.max (end_ b - e) (begin_ b + n)) with (begin_ b + q) by lia.
    replace (take _ (drop (Z.to_nat n) v)) with (slice n q v).
    + apply sub_views; (done || lia).
    + unfold slice. f_equal. rewrite length_drop. unfold zlen in *. lia.
Qed.

Lemma trimn_text w b v n e :
  text w b v → 0 <= n < 2 ^ 62 → 0 <= e → e <= zlen v ∨ v = [] →
  text w (DataBuffer.trimn n e b) (Range.trimn n e v).
Proof.
  intros Ht Hn He Hev. destruct (trimn_views w b v n e (proj1 Ht) Hn He Hev) as [Hv Hd]. by eapply text_of.
Qed.

(** The key of an attribute is compared with a name. *)
Lemma key_is_text w b v s :
  text w b v → wp (key_is DataBuffer.startsWith s b) w (λ r w', r = bool_decide (v = s) ∧ wle w w') noexn.
Proof.
  intros Ht. unfold key_is. destruct (size_views _ _ _ (proj1 Ht)) as (-> & _). case_if.
  - eapply wp_mono; [apply startsWith_views; apply Ht| |done]. intros r w' [-> Hw]. split; [|done].
    rewrite Range.startsWith_spec. apply eq_true_iff_eq. rewrite is_prefix_spec, bool_decide_eq_true.
    split; [|by intros ->; exists []; rewrite app_nil_r].
    intros [k ->]. zlen_simp. assert (zlen k = 0) as Hk by lia. destruct k; [by rewrite app_nil_r|].
    unfold zlen in Hk. cbn in Hk. lia.
  - wp_step. split; [|done]. symmetry. apply bool_decide_eq_false. by intros ->.
Qed.

Lemma key_is_ci_text w b v s :
  text w b v → wp (key_is DataBuffer.startsWithCI s b) w
    (λ r w', r = (zlen s =? zlen v) && forallb (λ p, same_char_ci p.1 p.2) (zip s v) ∧ wle w w') noexn.
Proof.
  intros Ht. unfold key_is, DataBuffer.startsWithCI. destruct (size_views _ _ _ (proj1 Ht)) as (-> & _).
  destruct (zlen s =? zlen v) eqn:El; [|by wp_step]. zbool. replace (zlen v <? zlen s) with false by lia.
  eapply wp_mono; [apply (match_from_views _ _ _ _ v 0); [apply Ht|unfold zlen in *; lia]| |done].
  intros r w' [Hw ->]. split; [|done]. rewrite drop_0. rewrite take_ge by (unfold zlen in *; lia). done.
Qed.

(** ** The attributes of a line *)

Lemma attributes_length v l : attributes v l → (length l ≤ length v)%nat.
Proof.
  induction 1 as [|v f h t g k x l Hv Es _ _ IH]; [done|]. cbn.
  pose proof (Range.length_trim t). pose proof (Range.split_shorter [";"%byte] v f h t ltac:(done) Hv Es). lia.
Qed.

(** Every line has attributes. *)
Lemma attributes_exist v : ∃ l, attributes v l.
Proof.
  induction v as [v IH] using list_length_ind. destruct (decide (v = [])) as [->|Hv]; [by eexists; constructor|].
  destruct (Range.split_char ";"%byte v) as [[f h] t] eqn:Es.
  destruct (Range.split_char "="%byte h) as [[g k] x] eqn:Ek.
  pose proof (Range.length_trim t). pose proof (Range.split_shorter [";"%byte] v f h t ltac:(done) Hv Es).
  destruct (IH (Range.trim t) ltac:(lia)) as [l Hl]. eexists. by econstructor.
Qed.

(** One attribute is read. *)
Lemma parseLine_step_ok w line v p i f h t g k x :
  text w line v → info w p i → v ≠ [] → Range.split_char ";"%byte v = (f, h, t) →
  Range.split_char "="%byte h = (g, k, x) →
  wp (parseLine_step (line, p)) w (λ r w', ∃ line' p', r = inl (line', p') ∧ wle w w' ∧
    text w' line' (Range.trim t) ∧ info w' p' (attribute i (k, x))) noexn.
Proof.
  intros Ht Hi Hv Es Ek. unfold parseLine_step. rewrite (empty_views _ _ _ (proj1 Ht)).
  destruct (Range.empty v) eqn:Em; [by apply empty_spec in Em|].
  wp_step. eapply wp_mono; [by eapply split_char_text| |done]. intros r1 w1 (head & tail & -> & Hw1 & Hh & Htl).
  wp_step. eapply wp_mono; [by eapply split_char_text| |done]. intros r2 w2 (key & value & -> & Hw2 & Hk & Hx).
  assert (wle w w2) as H02 by (by etrans).
  assert (∀ w', wle w2 w' → text w' (DataBuffer.trimn 1 1 value) (Range.trimn 1 1 x)) as Hq.
  { intros w' Hw'. apply trimn_text; [by eapply text_mono|lia..|]. destruct x; [by right|left; zlia]. }
  apply (info_mono _ _ _ _ H02) in Hi. apply (text_mono _ _ _ _ Hw2) in Htl. clear Hw1 Hw2.
  wp_step. eapply wp_mono; [by apply key_is_text| |done]. intros r3 w3 [-> Hw3].
  wp_step. eapply wp_mono with (Q := λ p' w', wle w2 w' ∧ info w' p' (attribute i (k, x))).
  - unfold attribute. cbn [fst snd]. case_bool_decide.
    { wp_step. split; [done|]. apply (info_mono _ _ _ _ Hw3) in Hi as (I1 & I2 & I3). split_and!; cbn; auto. }
    wp_step. eapply wp_mono; [apply key_is_text; by eapply text_mono| |done]. intros r4 w4 [-> Hw4].
    assert (wle w2 w4) as H24 by (by etrans). case_bool_decide.
    { wp_step. split; [done|]. apply (info_mono _ _ _ _ H24) in Hi as (I1 & I2 & I3). split_and!; cbn; auto. }
    wp_step. eapply wp_mono; [apply key_is_ci_text; by eapply text_mono| |done]. intros r5 w5 [-> Hw5].
    assert (wle w2 w5) as H25 by (by etrans). destruct (_ && _).
    + wp_step. eapply wp_mono; [apply trim_text; by eapply text_mono| |done]. intros b' w6 [Hw6 Hb'].
      assert (wle w2 w6) as H26 by (by etrans). wp_step. split; [done|].
      apply (info_mono _ _ _ _ H26) in Hi as (I1 & I2 & I3). split_and!; cbn; auto.
    + wp_step. split; [done|]. by eapply info_mono.
  - intros p' w4 [Hw4 Hp']. wp_step. eapply wp_mono; [apply trim_text; by eapply text_mono| |done].
    intros line' w5 [Hw5 Hl']. wp_step. exists line', p'. split_and!; [done|by etrans; [|etrans]|done|by eapply info_mono].
  - done.
Qed.

(** [parseLine] reads all attributes of the line. *)
Lemma parseLine_ok w line v l p i :
  attributes v l → text w line v → info w p i →
  wp (parseLine line p) w (λ p' w', wle w w' ∧ info w' p' (foldl attribute i l)) noexn.
Proof.
  intros Ha Ht. unfold parseLine. destruct (size_views _ _ _ (proj1 Ht)) as (-> & _).
  pose proof (attributes_length _ _ Ha) as Hl. assert (length l < 2 + Z.to_nat (zlen v))%nat as Hn by (unfold zlen; lia).
  revert Hn Ht. generalize (2 + Z.to_nat (zlen v))%nat. clear Hl. intros n.
  revert w line p i n. induction Ha as [|v f h t g k x l Hv Es Ek Ha IH]; intros w line p i n Hn Ht Hi.
  - destruct n as [|n]; [cbn in Hn; lia|]. unfold loop; fold (@loop world). wp_step. unfold parseLine_step at 1.
    rewrite (empty_views _ _ _ (proj1 Ht)). cbn [Range.empty]. wp_steps. done.
  - destruct n as [|n]; [lia|]. cbn in Hn. unfold loop; fold (@loop world). wp_step.
    eapply wp_mono; [by eapply parseLine_step_ok| |done]. intros r w1 (line' & p' & -> & Hw & Ht' & Hi').
    eapply wp_mono; [apply (IH w1 line' p' (attribute i (k, x)) n); [lia|done|done]| |done].
    intros p2 w2 [Hw2 Hi2]. split; [by etrans|done].
Qed.

(** ** The header lines of a part *)

Lemma header_ok_spec h :
  header_ok h = true → h ≠ [] ∧ (Byte.x0d ∉ h) ∧ (Byte.x0a ∉ h) ∧
  Range.startsWith ONE_SPACE h = false ∧ Range.startsWith ONE_TAB h = false.
Proof.
  unfold header_ok. intros [[[Hn Hc]%andb_true_iff Hs]%andb_true_iff Ht]%andb_true_iff.
  split; [by intros ->|]. rewrite forallb_forall in Hc.
  split_and!; [| |by destruct (Range.startsWith ONE_SPACE h)|by destruct (Range.startsWith ONE_TAB h)];
    intros E%list_elem_of_In; specialize (Hc _ E); by vm_compute in Hc.
Qed.

(** A line feed that does not occur, or occurs after a line. *)
Lemma split_rn_none h : Byte.x0d ∉ h → Range.split RETURN_RN h = (false, h, []).
Proof.
  intros Hh. destruct (Range.split_cases RETURN_RN h ltac:(done)) as [[E _]|(a & b & -> & _)]; [done|].
  exfalso. apply Hh. rewrite !elem_of_app. right; left. by left.
Qed.

Lemma occurs_at_first p c l i : occurs_at (c :: p) l i → l !! i = Some c.
Proof.
  unfold occurs_at. intros [k Hk]%is_prefix_spec. rewrite <- (Nat.add_0_r i), <- lookup_drop. by rewrite Hk.
Qed.

Lemma split_rn_app h t : Byte.x0d ∉ h → Range.split RETURN_RN (h ++ RETURN_RN ++ t) = (true, h, t).
Proof.
  intros Hh. apply Range.split_app_first; [done|]. intros i Hi Ho. apply occurs_at_first in Ho.
  rewrite lookup_app_l in Ho by done. apply Hh. by eapply list_elem_of_lookup_2.
Qed.

Lemma header_lines_cons h l :
  header_lines (h :: l) = if decide (l = []) then h else h ++ RETURN_RN ++ header_lines l.
Proof. by destruct l. Qed.

Lemma header_lines_ok l : Forall (λ h, header_ok h = true) l → lines (header_lines l) l.
Proof.
  induction 1 as [|h l Hh _ IH]; [constructor|]. rewrite header_lines_cons. case_decide; [subst|]; by constructor.
Qed.

(** The first line and the others. *)
Lemma lines_inv v h l :
  lines v (h :: l) → header_ok h = true ∧ ∃ rest, lines rest l ∧ (v = h ∧ rest = [] ∨ v = h ++ RETURN_RN ++ rest).
Proof.
  inversion 1; subst; (split; [done|]); [exists []|eexists]; (split; [constructor || done|]); auto.
Qed.

Lemma lines_nonempty v h l : lines v (h :: l) → Range.empty v = false.
Proof.
  intros ([Hh _]%header_ok_spec & rest & _ & Hv)%lines_inv.
  destruct (Range.empty v) eqn:E; [|done]. apply empty_spec in E as ->. destruct Hv as [[<- _]|Hv]; [done|].
  by apply (f_equal length) in Hv; rewrite !length_app in Hv; cbn in Hv; lia.
Qed.

Lemma lines_length v l : lines v l → (length l ≤ length v)%nat.
Proof.
  induction 1 as [|h Hh|h v l Hh _ IH]; rewrite ?length_app; cbn; [lia| |lia].
  apply header_ok_spec in Hh as [Hh _]. destruct h; cbn; [done|lia].
Qed.

(** The split of the remaining headers into the next line and the others. *)
Lemma split_line w b v h l :
  lines v (h :: l) → text w b v →
  wp (r ← DataBuffer.split RETURN_RN b;
      if (r.1.1 : bool) then mret r else DataBuffer.split_char Byte.x0a b) w
    (λ r w', ∃ f subline subtail rest, r = (f, subline, subtail) ∧ wle w w' ∧ text w' subline h ∧
       lines rest l ∧ text w' subtail rest) noexn.
Proof.
  intros ((Hne & Hr & Hn & _)%header_ok_spec & rest & Hl & [[-> ->]| ->])%lines_inv Ht; wp_step.
  - eapply wp_mono; [eapply split_text; [done|done|by apply split_rn_none]| |done].
    intros r w1 (a & b' & -> & Hw1 & _). cbn [fst snd]. cbn iota.
    eapply wp_mono; [eapply split_char_text; [by eapply text_mono|by apply Range.split_char_notin]| |done].
    intros r w2 (c & d & -> & Hw2 & Hc & Hd). exists false, c, d, []. split_and!; [done|by etrans|done..].
  - eapply wp_mono; [eapply split_text; [done|done|by apply split_rn_app]| |done].
    intros r w1 (a & b' & -> & Hw1 & Ha & Hb). cbn [fst snd]. cbn iota. wp_step. by exists true, a, b', rest.
Qed.

Lemma header_line_step_ok w part line tail v h l (found : bool) :
  lines v (h :: l) → text w tail v →
  wp (header_line_step part (line, tail, found)) w (λ r w', wle w w' ∧
    if found then r = inr (line, tail)
    else ∃ subline subtail rest, r = inl (subline, subtail, true) ∧ text w' subline h ∧
           lines rest l ∧ text w' subtail rest) noexn.
Proof.
  intros Hv Ht. destruct (lines_inv _ _ _ Hv) as ((_ & _ & _ & Hs & Hb)%header_ok_spec & _).
  unfold header_line_step. rewrite (empty_views _ _ _ (proj1 Ht)), (lines_nonempty _ _ _ Hv).
  apply wp_assoc, wp_bind. eapply wp_mono; [by eapply split_line| |done].
  intros r w1 (f & subline & subtail & rest & -> & Hw1 & Hsub & Hl & Hst). cbn iota.
  wp_step. eapply wp_mono; [apply startsWith_views, Hsub| |done]. intros b w2 [-> Hw2]. rewrite Hs.
  wp_step. eapply wp_mono; [eapply startsWith_views, views_mono; [done|apply Hsub]| |done].
  intros b w3 [-> Hw3]. rewrite Hb. assert (wle w1 w3) as H13 by (by etrans).
  destruct found; wp_step; (split; [by etrans|]); [done|].
  exists subline, subtail, rest. split_and!; [done|by eapply text_mono|done|by eapply text_mono].
Qed.

Lemma header_line_ok w part headers v h l :
  lines v (h :: l) → text w headers v →
  wp (header_line part headers) w (λ r w', wle w w' ∧ text w' r.1 h ∧ ∃ rest, lines rest l ∧ text w' r.2 rest) noexn.
Proof.
  intros Hv Ht. unfold header_line. destruct (size_views _ _ _ (proj1 Ht)) as (-> & _).
  pose proof (lines_length _ _ Hv) as Hlen. cbn in Hlen.
  replace (2 + Z.to_nat (zlen v))%nat with (3 + Nat.pred (length v))%nat by (unfold zlen; lia).
  generalize (Nat.pred (length v)). intros n. cbn [Nat.add].
  unfold loop; fold (@loop world). wp_step.
  eapply wp_mono; [by eapply header_line_step_ok| |done]. intros r w1 (Hw1 & sl & st & rest & -> & Hsl & Hl & Hst).
  wp_step. destruct l as [|k l].
  - inversion Hl; subst. unfold header_line_step. rewrite (empty_views _ _ _ (proj1 Hst)).
    change (Range.empty []) with true. wp_steps. split_and!; [done..|]. by exists [].
  - eapply wp_mono; [by eapply header_line_step_ok| |done]. intros r w2 (Hw2 & ->). wp_step.
    cbn [fst snd]. split_and!; [by etrans|by eapply text_mono|]. exists rest. split; [done|by eapply text_mono].
Qed.

(** The lines and their attributes. *)
Lemma part_headers_ok w part headers v (ls : list (list (bytes * bytes))) hs :
  lines v hs → Forall2 attributes hs ls → text w headers v →
  wp (part_headers part headers) w
    (λ p w', wle w w' ∧ info w' p (foldl attribute (MkText [] [] []) (mjoin ls))) noexn.
Proof.
  intros Hv Hls Ht. unfold part_headers. destruct (size_views _ _ _ (proj1 Ht)) as (-> & _).
  pose proof (lines_length _ _ Hv) as Hlen.
  assert (length hs < 2 + Z.to_nat (zlen v))%nat as Hn by (unfold zlen; lia).
  assert (info w (MkPart nil_buffer nil_buffer nil_buffer) (MkText [] [] [])) as Hi by (by split_and!; apply text_nil).
  revert Hn Hv Ht Hi. clear Hlen. generalize (2 + Z.to_nat (zlen v))%nat.
  generalize (MkPart nil_buffer nil_buffer nil_buffer) (MkText [] [] []). intros p i n. revert w headers v p i n.
  induction Hls as [|h a hs ls Ha Hls IH]; intros w headers v p i n Hn Hv Ht Hi;
    (destruct n as [|n]; [cbn in Hn; lia|]); unfold loop; fold (@loop world); wp_step; unfold part_headers_step at 1;
    rewrite (empty_views _ _ _ (proj1 Ht)).
  { inversion Hv; subst. change (Range.empty []) with true. wp_steps. done. }
  rewrite (lines_nonempty _ _ _ Hv).
  wp_step. eapply wp_mono; [by eapply header_line_ok| |done].
  intros [line tail] w1 (Hw1 & Hline & rest & Hrest & Htl). cbn [fst snd] in *. wp_step.
  eapply wp_mono; [eapply parseLine_ok; [done|done|by eapply info_mono]| |done]. intros p' w2 [Hw2 Hp']. wp_step.
  eapply wp_mono; [apply (IH w2 tail rest p' (foldl attribute i a) n); [cbn in Hn; lia|done|by eapply text_mono|done]| |done].
  intros p2 w3 [Hw3 Hp2]. split; [by etrans; [|etrans]|]. cbn [mjoin list_join]. by rewrite foldl_app.
Qed.
End text.

(** ** The text of a part *)

Lemma plain_spec s : plain s = true → (Byte.x0d ∉ s) ∧ (Byte.x0a ∉ s) ∧ ";"%byte ∉ s.
Proof.
  unfold plain. rewrite forallb_forall. intros Hc.
  split_and!; intros E%list_elem_of_In; specialize (Hc _ E); by vm_compute in Hc.
Qed.

Lemma trimn_quoted s : Range.trimn 1 1 (quoted s) = s.
Proof.
  unfold Range.trimn, quoted. cbn [app]. change (1 <? 0) with false. cbn iota zeta.
  change (drop (Z.to_nat 1) (Byte.x22 :: s ++ [Byte.x22])) with (s ++ [Byte.x22]).
  rewrite length_app. apply take_app_length'. cbn. lia.
Qed.

(** A value without an equals sign, the last attribute, and one before others. *)
Lemma attributes_bare h : h ≠ [] → ";"%byte ∉ h → "="%byte ∉ h → attributes h [(h, [])].
Proof. intros Hn H1 H2. econstructor; [done|by apply Range.split_char_notin..|constructor]. Qed.

Lemma attributes_last k x :
  ";"%byte ∉ k → ";"%byte ∉ x → "="%byte ∉ k → attributes (k ++ "="%byte :: x) [(k, x)].
Proof.
  intros Hk Hx He. apply (attributes_cons _ false (k ++ "="%byte :: x) [] true k x []);
    [by destruct k| |by apply Range.split_char_app|constructor].
  apply Range.split_char_notin. rewrite elem_of_app, elem_of_cons. naive_solver.
Qed.

Lemma attributes_more h g k x rest l :
  ";"%byte ∉ h → Range.split_char "="%byte h = (g, k, x) → attributes rest l → Range.tight rest →
  attributes (h ++ str "; " ++ rest) ((k, x) :: l).
Proof.
  intros Hh Hs Hl Ht. eapply (attributes_cons _ true h (" "%byte :: rest)).
  - by destruct h.
  - by apply Range.split_char_app.
  - exact Hs.
  - pose proof (Range.trim_spaces [" "%byte] rest [] ltac:(by repeat constructor) ltac:(constructor) Ht) as E.
    rewrite app_nil_r in E. cbn [app] in E. by rewrite E.
Qed.

Lemma last_quoted p s : last (p ++ quoted s) = Some Byte.x22.
Proof. unfold quoted. by rewrite !app_assoc, last_snoc. Qed.

Lemma tight_attribute k x : "="%byte ∉ k → match k with c :: _ => isspace c = false | [] => False end →
  Range.tight (k ++ "="%byte :: quoted x).
Proof.
  intros _ Hk. split; [by destruct k|].
  change (k ++ "="%byte :: quoted x) with (k ++ ["="%byte] ++ quoted x). by rewrite app_assoc, last_quoted.
Qed.

Lemma split_name k x : "="%byte ∉ k → Range.split_char "="%byte (k ++ "="%byte :: x) = (true, k, x).
Proof. apply Range.split_char_app. Qed.

Lemma quoted_notin c s : c ≠ Byte.x22 → c ∉ s → c ∉ quoted s.
Proof. intros. unfold quoted. rewrite !elem_of_app, !list_elem_of_singleton. naive_solver. Qed.

Ltac notin := lazymatch goal with
  | |- _ ∉ quoted _ => apply quoted_notin; [discriminate|done]
  | |- _ ∉ str _ => rewrite list_elem_of_In; vm_compute; intuition discriminate
  | |- _ ∉ ?k => rewrite list_elem_of_In; vm_compute; intuition discriminate
  end.
Lemma part_attributes_ok boundary p :
  part_ok boundary p = true → Forall2 attributes (part_lines p) (part_attributes p).
Proof.
  assert (Range.split_char "="%byte DISPOSITION = (false, DISPOSITION, [])) as Ed by (vm_compute; reflexivity).
  assert (";"%byte ∉ DISPOSITION) as Hd by notin.
  assert ((";"%byte ∉ NAME) ∧ ("="%byte ∉ NAME) ∧ (";"%byte ∉ FILENAME) ∧ ("="%byte ∉ FILENAME)) as (N1 & N2 & F1 & F2)
    by (split_and!; notin).
  unfold part_ok. destruct p as [n v|n f t v]; rewrite !andb_true_iff.
  - intros [[(Hr & Hn & Hs)%plain_spec _] _]. repeat constructor.
    apply (attributes_more DISPOSITION false DISPOSITION [] (NAME ++ "="%byte :: quoted n)); [done|done| |].
    + apply attributes_last; [done|notin|done].
    + by apply tight_attribute.
  - intros [[[[[[(Hr & Hn & Hs)%plain_spec _] (Fr & Fn & Fs)%plain_spec] _] (Tr & Tn & Ts)%plain_spec] Te] _].
    constructor; [|constructor; [|constructor]].
    + apply (attributes_more DISPOSITION false DISPOSITION [] (NAME ++ "="%byte :: quoted n ++ str "; " ++ FILENAME ++ "="%byte :: quoted f));
        [done|done| |].
      * assert (NAME ++ "="%byte :: quoted n ++ str "; " ++ FILENAME ++ "="%byte :: quoted f =
          (NAME ++ "="%byte :: quoted n) ++ str "; " ++ (FILENAME ++ "="%byte :: quoted f)) as -> by (by rewrite <- app_assoc).
        apply (attributes_more _ true NAME (quoted n)).
        -- rewrite elem_of_app, elem_of_cons. pose proof (quoted_notin ";"%byte n). naive_solver.
        -- by apply split_name.
        -- apply attributes_last; [done|notin|done].
        -- by apply tight_attribute.
      * split; [done|].
        replace (NAME ++ _) with ((NAME ++ "="%byte :: quoted n ++ str "; " ++ FILENAME ++ ["="%byte]) ++ quoted f)
          by (by rewrite <- !app_assoc, <- app_comm_cons, <- !app_assoc).
        by rewrite last_quoted.
    + apply negb_true_iff, bool_decide_eq_false in Te.
      assert ((";"%byte ∉ str "Content-Type: ") ∧ ("="%byte ∉ str "Content-Type: ")) as [C1 C2] by (split; notin).
      apply attributes_bare; [done|rewrite elem_of_app; naive_solver..].
Qed.

Lemma part_attributes_say p :
  foldl attribute (MkText [] [] []) (mjoin (part_attributes p)) = part_says p.
Proof.
  assert (∀ i, attribute i (DISPOSITION, []) = i) as Hd by (intros []; vm_compute; reflexivity).
  assert (∀ i n, attribute i (NAME, quoted n) = MkText n (t_filename i) (t_type i)) as Hn.
  { intros i n. unfold attribute. cbn [fst snd]. by rewrite bool_decide_true, trimn_quoted. }
  assert (∀ i f, attribute i (FILENAME, quoted f) = MkText (t_name i) f (t_type i)) as Hf.
  { intros i f. unfold attribute. cbn [fst snd].
    rewrite bool_decide_false by discriminate. by rewrite bool_decide_true, trimn_quoted. }
  destruct p as [n v|n f t v]; cbn [part_attributes mjoin list_join app foldl part_says]; rewrite Hd, Hn; [done|].
  rewrite Hf. unfold attribute. cbn [fst snd t_name t_filename t_type].
  do 2 (rewrite bool_decide_false by (intros E; apply (f_equal head) in E; vm_compute in E; discriminate)).
  replace (zlen CONTENT_TYPE =? zlen (str "Content-Type: " ++ t)) with false; [done|].
  symmetry. rewrite zlen_app. change (zlen CONTENT_TYPE) with 12. change (zlen (str "Content-Type: ")) with 14.
  pose proof (zlen_nonneg t). lia.
Qed.

(** The lines of a header are not empty, so its end is the first empty line. *)
Lemma header_end (l : list bytes) v i :
  Forall (λ h, header_ok h = true) l → (i < length (header_lines l))%nat →
  ¬ occurs_at EMPTY_LINE_RNRN (header_lines l ++ EMPTY_LINE_RNRN ++ v) i.
Proof.
  intros Hl. revert i. induction Hl as [|h l Hh Hl IH]; intros i Hi Ho; [cbn in Hi; lia|].
  apply header_ok_spec in Hh as (Hne & Hr & _).
  assert (∀ j, (j < length h)%nat → ¬ occurs_at EMPTY_LINE_RNRN (h ++ drop (length h) (header_lines (h :: l) ++ EMPTY_LINE_RNRN ++ v)) j) as Hin.
  { intros j Hj Hoj. apply occurs_at_first in Hoj. rewrite lookup_app_l in Hoj by done.
    apply Hr. by eapply list_elem_of_lookup_2. }
  rewrite header_lines_cons in *. case_decide as E.
  { apply (Hin i); [done|]. by rewrite drop_app_length. }
  rewrite <- app_assoc, drop_app_length in Hin. rewrite <- !app_assoc in *.
  destruct (decide (i < length h)%nat) as [?|Hih]; [by apply (Hin i)|]. rewrite !length_app in Hi. cbn in Hi.
  destruct (decide (i = length h)) as [->|?].
  - unfold occurs_at in Ho. rewrite drop_app_length in Ho. apply is_prefix_spec in Ho as [k Hk].
    cbn [RETURN_RN EMPTY_LINE_RNRN app] in Hk. injection Hk as Hk. inversion Hl as [|h2 l2 Hh2 _ E2]; [done|]. subst l.
    apply header_ok_spec in Hh2 as (Hne2 & Hr2 & _). rewrite header_lines_cons in Hk. apply Hr2.
    destruct h2 as [|c h2]; [done|]. case_decide; injection Hk as -> _; by left.
  - destruct (decide (i = S (length h))) as [->|?].
    + apply occurs_at_first in Ho. rewrite lookup_app_r in Ho by lia. replace (S (length h) - length h)%nat with 1%nat in Ho by lia.
      done.
    + apply (IH (i - length h - 2)%nat); [lia|].
      replace i with (length h + 2 + (i - length h - 2))%nat in Ho by lia. apply occurs_at_drop in Ho.
      by rewrite <- drop_drop, drop_app_length in Ho.
Qed.

Lemma header_ok_intro h :
  match head h with Some c => isspace c = false | None => False end → Byte.x0d ∉ h → Byte.x0a ∉ h → header_ok h = true.
Proof.
  intros Hc Hr Hn. destruct h as [|c h]; [done|]. unfold header_ok. rewrite !Range.startsWith_spec, !andb_true_iff. split_and!; [done| | |].
  - rewrite forallb_forall. intros d Hd%list_elem_of_In. rewrite andb_true_iff, !negb_true_iff, !bool_decide_eq_false.
    split; intros ->; done.
  - apply negb_true_iff, not_true_iff_false. rewrite is_prefix_spec. intros [k [= -> _]]. done.
  - apply negb_true_iff, not_true_iff_false. rewrite is_prefix_spec. intros [k [= -> _]]. done.
Qed.

(** Constants and quoted names without line breaks. *)
Ltac no_break := rewrite ?not_elem_of_app; split_and?; try done; notin.

Lemma part_lines_ok boundary p : part_ok boundary p = true → Forall (λ h, header_ok h = true) (part_lines p).
Proof.
  unfold part_ok. destruct p as [n v|n f t v]; rewrite !andb_true_iff.
  - intros [[(Hr & Hn & _)%plain_spec _] _]. constructor; [|constructor]. apply header_ok_intro; [done|no_break..].
  - intros [[[[[[(Hr & Hn & _)%plain_spec _] (Fr & Fn & _)%plain_spec] _] (Tr & Tn & _)%plain_spec] _] _].
    constructor; [|constructor; [|constructor]]; (apply header_ok_intro; [done|no_break..]).
Qed.

(** ** The parts of a body *)

Section parts.
Context `{PosixOk} {IO : Type}.
Implicit Types (w : world) (s t : rstate IO) (r : RequestImpl).

Lemma received_nil w r : received w r [] r.
Proof. exists []. split; [constructor|]. cbn. rewrite app_nil_r. by destruct r. Qed.

Lemma received_cons w w' r p r1 ps r2 :
  wle w w' → received w r [p] r1 → received w' r1 ps r2 → received w' r (p :: ps) r2.
Proof.
  intros Hw (cs & Hcs & ->) (cs2 & Hcs2 & ->). exists (cs ++ cs2).
  assert (fields (p :: ps) = fields [p] ++ fields ps) as Ef by (by destruct p).
  assert (uploads (p :: ps) = uploads [p] ++ uploads ps) as Eu by (by destruct p).
  rewrite Ef, Eu. split.
  - apply Forall2_app; [|done]. eapply Forall2_impl; [exact Hcs|]. intros u c. by apply text_mono.
  - rewrite zip_with_app by (by eapply Forall2_length). rewrite foldl_app. cbn [args_ files_ set_args set_files].
    by rewrite <- app_assoc.
Qed.

Lemma make_file_ok w filename type content f c :
  text w filename f → f ≠ [] → text w type [] → text w content c →
  wp (make_file filename type content) w (λ x w', x = MkFile f [] content ∧ wle w w') noexn.
Proof.
  intros Hf Hn Ht Hc. unfold make_file. rewrite (empty_views _ _ _ (proj1 Ht)), (empty_views _ _ _ (proj1 Hf)).
  change (Range.empty []) with true. wp_steps.
  destruct (Range.empty f) eqn:E; [by apply empty_spec in E|]. wp_step.
  eapply wp_mono; [apply toString_views, Hf| |done]. intros x w' [-> Hw]. by wp_steps.
Qed.

Lemma parsePart_ok boundary p b s :
  part_ok boundary p = true → text (wd s) b (part_body p) →
  wp (parsePart b) s (λ _ t, wle (wd s) (wd t) ∧ io t = io s ∧ received (wd t) (rq s) [p] (rq t)) noexn.
Proof.
  intros Hok Ht. pose proof (part_lines_ok _ _ Hok) as Hl. unfold parsePart. rq_step. apply wp_on_world.
  eapply wp_mono; [eapply split_text; [exact Ht|done|]| |done].
  { apply Range.split_app_first; [done|]. intros i Hi. by apply header_end. }
  intros x w1 (headers & content & -> & Hw1 & Hh & Hc). cbn [fst snd]. cbn iota. rq_step. rq_step. rq_step. apply wp_on_world.
  cbn [wd set_wd].
  eapply wp_mono; [eapply part_headers_ok; [by apply header_lines_ok|by eapply part_attributes_ok|done]| |done].
  intros pi w2 [Hw2 Hpi]. rewrite part_attributes_say in Hpi.
  destruct Hpi as (P1 & P2 & P3). rewrite (empty_views _ _ _ (proj1 P1)).
  apply (text_mono _ _ _ _ Hw2) in Hc. assert (wle (wd s) w2) as H02 by (by etrans). clear Hw1 Hw2 Hh Ht Hl.
  unfold part_ok in Hok. destruct p as [n v|n f t v]; rewrite !andb_true_iff, !negb_true_iff in Hok;
    cbn [part_says t_name t_filename t_type part_content] in *.
  - destruct Hok as [[_ Hn] _]. rewrite Hn. rq_step. apply wp_on_world. cbn [wd set_wd].
    eapply wp_mono; [apply toString_views, P1| |done]. intros y w3 [-> Hw3]. rewrite (empty_views _ _ _ (proj1 P2)).
    change (Range.empty []) with true. cbn iota. rq_step. apply wp_on_world. cbn [wd set_wd].
    eapply wp_mono; [eapply toString_views, views_mono; [done|apply Hc]| |done]. intros y w4 [-> Hw4]. rq_step.
    split_and!; [by etrans; [|etrans]|done|]. exists []. by split; [constructor|destruct s as [[] ? ?]].
  - destruct Hok as [[[[[[_ Hn] _] Hf] _] _] _]. rewrite Hn. rq_step. apply wp_on_world. cbn [wd set_wd].
    eapply wp_mono; [apply toString_views, P1| |done]. intros y w3 [-> Hw3]. rewrite (empty_views _ _ _ (proj1 P2)), Hf.
    rq_step. apply wp_on_world. cbn [wd set_wd].
    eapply wp_mono; [apply (make_file_ok w3 _ _ _ f v); [by eapply text_mono|by intros ->|by eapply text_mono..]| |done].
    intros y w4 [-> Hw4]. rq_step.
    split_and!; [by etrans; [|etrans]|done|]. exists [content]. cbn. split.
    + constructor; [|constructor]. eapply text_mono; [|exact Hc]. by etrans.
    + rewrite app_nil_r. by destruct s as [[] ? ?].
Qed.

(** A boundary that is found at the end is found there whatever follows. *)
Lemma split_boundary boundary x rest :
  boundary ≠ [] → Range.find boundary (x ++ boundary) = length x →
  Range.split boundary (x ++ boundary ++ rest) = (true, x, rest).
Proof.
  intros Hb Hf. apply Range.split_app_first; [done|]. intros i Hi Ho.
  rewrite Range.find_search in Hf. apply (proj1 (std_search_spec boundary (x ++ boundary)) i); [lia|].
  replace (x ++ boundary) with (take (length (x ++ boundary)) (x ++ boundary ++ rest))
    by (by rewrite app_assoc, take_app_length).
  rewrite length_app. apply occurs_at_take; [lia|]. split; [done|lia].
Qed.

Lemma part_body_size p : 4 <= zlen (part_body p).
Proof.
  unfold part_body. rewrite !zlen_app. change (zlen EMPTY_LINE_RNRN) with 4.
  pose proof (zlen_nonneg (header_lines (part_lines p))). pose proof (zlen_nonneg (part_content p)). lia.
Qed.

Lemma endsWith_app x p : Range.endsWith p (x ++ p) = true.
Proof. apply Range.endsWith_spec. by exists x. Qed.
Lemma startsWith_app x p : Range.startsWith p (p ++ x) = true.
Proof. rewrite Range.startsWith_spec. apply is_prefix_spec. by exists x. Qed.
Lemma trimn_end x p : Range.trimn 0 (zlen p) (x ++ p) = x.
Proof.
  pose proof (zlen_nonneg p). unfold Range.trimn. replace (zlen p <? 0) with false by lia. cbn [Z.ltb Z.compare].
  change (drop (Z.to_nat 0) (x ++ p)) with (x ++ p). rewrite length_app, to_nat_zlen, Nat.add_sub. apply take_app_length.
Qed.
Lemma trimn_start x p : Range.trimn (zlen p) 0 (p ++ x) = x.
Proof.
  pose proof (zlen_nonneg p). unfold Range.trimn. replace (zlen p <? 0) with false by lia. cbn [Z.ltb Z.compare].
  rewrite to_nat_zlen, drop_app_length. change (Z.to_nat 0) with O. rewrite Nat.sub_0_r. apply firstn_all.
Qed.

(** One part. *)
Lemma parseMultipart_part boundary p data rest s :
  boundary ≠ [] → part_ok boundary p = true → text (wd s) data (part_bytes p ++ boundary ++ rest) →
  wp (parseMultipart_step boundary data) s (λ x t, ∃ tail, x = inl tail ∧ text (wd t) tail rest ∧
    wle (wd s) (wd t) ∧ io t = io s ∧ received (wd t) (rq s) [p] (rq t)) noexn.
Proof.
  intros Hb Hok Ht. unfold parseMultipart_step. rewrite (empty_views _ _ _ (proj1 Ht)).
  pose proof (part_body_size p) as Hsz. change (Range.empty (part_bytes p ++ boundary ++ rest)) with false. cbn iota.
  rq_step. apply wp_on_world. eapply wp_mono; [eapply split_text; [exact Ht|done|]| |done].
  { apply split_boundary; [done|]. unfold part_ok in Hok. apply andb_true_iff in Hok as [_ Hf]. by apply Nat.eqb_eq. }
  intros x w1 (head & tail & -> & Hw1 & Hh & Htl). cbn iota. rewrite (empty_views _ _ _ (proj1 Hh)).
  change (Range.empty (part_bytes p)) with false. cbn [negb andb]. cbn iota.
  rq_step. apply wp_on_world. cbn [wd set_wd]. eapply wp_mono; [eapply endsWith_views, Hh| |done]. intros y w2 [-> Hw2].
  unfold part_bytes at 1. rewrite app_assoc, endsWith_app. rq_steps.
  set (head2 := DataBuffer.trimn 0 2 head).
  assert (text w2 head2 (RETURN_RN ++ part_body p)) as Hh2.
  { apply (text_mono _ _ _ _ Hw2) in Hh. unfold part_bytes in Hh. rewrite app_assoc in Hh.
    pose proof (trimn_end (RETURN_RN ++ part_body p) RETURN_RN) as E. change (zlen RETURN_RN) with 2 in E.
    rewrite <- E. apply trimn_text; [done|lia..|].
    left. rewrite !zlen_app. change (zlen RETURN_RN) with 2. lia. }
  destruct (size_views _ _ _ (proj1 Hh2)) as (-> & _). rewrite zlen_app. change (zlen RETURN_RN) with 2.
  replace (2 + zlen (part_body p) =? 2) with false by lia. rq_steps. apply wp_on_world. cbn [wd set_wd].
  eapply wp_mono; [eapply startsWith_views, Hh2| |done]. intros y w3 [-> Hw3]. rewrite startsWith_app. rq_steps.
  assert (text w3 (DataBuffer.trimn 2 0 head2) (part_body p)) as Hh3.
  { pose proof (trimn_start (part_body p) RETURN_RN) as E. change (zlen RETURN_RN) with 2 in E.
    rewrite <- E. apply trimn_text; [by eapply text_mono|lia..|].
    left. rewrite !zlen_app. change (zlen RETURN_RN) with 2. lia. }
  rewrite (empty_views _ _ _ (proj1 Hh3)). destruct (Range.empty _) eqn:Em.
  { apply empty_spec in Em. rewrite Em in Hsz. change (zlen []) with 0 in Hsz. lia. }
  eapply wp_mono; [by eapply parsePart_ok| |done]. intros _ t (Hw4 & Hio & Hr). cbn [wd rq io set_wd] in *.
  rq_step. exists tail. split_and!; [done| | |done|done].
  - eapply text_mono; [|exact Htl]. by etrans; [|etrans].
  - by etrans; [|etrans; [|etrans]].
Qed.

(** What follows the last boundary says nothing. *)
Lemma parsePart_closing b s :
  text (wd s) b closing →
  wp (parsePart b) s (λ _ t, wle (wd s) (wd t) ∧ io t = io s ∧ rq t = rq s) noexn.
Proof.
  intros Ht. unfold parsePart. rq_step. apply wp_on_world.
  eapply wp_mono; [eapply (split_text _ _ _ EMPTY_LINE_RNRN false closing []); [exact Ht|done|vm_compute; reflexivity]| |done].
  intros x w1 (h1 & c1 & -> & Hw1 & _ & _). cbn [fst snd]. cbn iota. rq_step. apply wp_on_world. cbn [wd set_wd].
  eapply wp_mono; [eapply (split_text _ _ _ EMPTY_LINE_NN false closing []);
    [by eapply text_mono|done|vm_compute; reflexivity]| |done].
  intros x w2 (headers & content & -> & Hw2 & Hh & Hc). cbn iota. rq_step. apply wp_on_world. cbn [wd set_wd].
  eapply wp_mono; [eapply (part_headers_ok w2 b headers closing [[(MINUS_PREFIX, [])]] [MINUS_PREFIX])| |done].
  - apply (lines_cons MINUS_PREFIX []); [vm_compute; reflexivity|constructor].
  - constructor; [|constructor]. apply attributes_bare; [done|notin..].
  - done.
  - intros pi w3 [Hw3 (P1 & _)]. change (text w3 (p_name pi) []) in P1. rewrite (empty_views _ _ _ (proj1 P1)).
    cbn [t_name]. change (Range.empty []) with true. cbn iota. rq_step. split_and!; [by etrans; [|etrans]|done..].
Qed.

(** The turns of the loop before the first part and after the last one. *)
Lemma parseMultipart_opening boundary data rest s :
  boundary ≠ [] → text (wd s) data (boundary ++ rest) →
  wp (parseMultipart_step boundary data) s (λ x t, ∃ tail, x = inl tail ∧ text (wd t) tail rest ∧
    wle (wd s) (wd t) ∧ io t = io s ∧ rq t = rq s) noexn.
Proof.
  intros Hb Ht. unfold parseMultipart_step. rewrite (empty_views _ _ _ (proj1 Ht)).
  destruct (Range.empty _) eqn:E; [by apply empty_spec, app_eq_nil in E as [? _]|].
  rq_step. apply wp_on_world. eapply wp_mono; [eapply (split_text _ _ _ _ true [] rest); [exact Ht|done|]| |done].
  { apply (Range.split_app_first boundary []); [done|cbn; lia]. }
  intros x w1 (head & tail & -> & Hw1 & Hh & Htl). cbn iota. rewrite (empty_views _ _ _ (proj1 Hh)).
  change (Range.empty []) with true. cbn [negb andb]. rq_steps. by exists tail.
Qed.

Lemma parseMultipart_closing boundary data s :
  boundary_ok boundary = true → text (wd s) data closing →
  wp (parseMultipart_step boundary data) s (λ x t, ∃ tail, x = inl tail ∧ text (wd t) tail [] ∧
    wle (wd s) (wd t) ∧ io t = io s ∧ rq t = rq s) noexn.
Proof.
  intros [Hb Hf]%andb_true_iff Ht. apply Nat.eqb_eq in Hf. unfold parseMultipart_step.
  rewrite (empty_views _ _ _ (proj1 Ht)). change (Range.empty closing) with false. cbn iota.
  rq_step. apply wp_on_world. eapply wp_mono; [eapply (split_text _ _ _ _ false closing []); [exact Ht|by intros ->|]| |done].
  { unfold Range.split, Range.doSplit. by rewrite Hf, decide_True, firstn_all by done. }
  intros x w1 (head & tail & -> & Hw1 & Hh & Htl). cbn iota. cbn [andb]. rewrite (empty_views _ _ _ (proj1 Hh)).
  change (Range.empty closing) with false. cbn iota. rq_step.
  eapply wp_mono; [by eapply parsePart_closing| |done]. intros _ t (Hw & Hio & Hr). cbn [wd io rq set_wd] in *. rq_step.
  exists tail. split_and!; [done|by eapply text_mono|by etrans|done..].
Qed.

Lemma parts_loop boundary ps n data s :
  boundary_ok boundary = true → Forall (λ p, part_ok boundary p = true) ps → (length ps + 1 < n)%nat →
  text (wd s) data (foldr (λ p rest, part_bytes p ++ boundary ++ rest) closing ps) →
  wp (loop n (parseMultipart_step boundary) data) s (λ _ t,
    wle (wd s) (wd t) ∧ io t = io s ∧ received (wd t) (rq s) ps (rq t)) noexn.
Proof.
  intros Hb Hps. assert (boundary ≠ []) as Hne by (by intros ->). revert data s n.
  induction Hps as [|p ps Hp _ IH]; intros data s n Hn Ht; (destruct n as [|n]; [lia|]); cbn [foldr length] in *;
    unfold loop; fold (@loop (rstate IO)); wp_step.
  - eapply wp_mono; [by apply parseMultipart_closing| |done]. intros x t (tail & -> & Htl & Hw & Hio & Hr).
    destruct n as [|n]; [lia|]. unfold loop; fold (@loop (rstate IO)). wp_step. unfold parseMultipart_step at 1.
    rewrite (empty_views _ _ _ (proj1 Htl)). change (Range.empty []) with true. wp_steps.
    split_and!; [done..|]. rewrite Hr. apply received_nil.
  - eapply wp_mono; [by apply (parseMultipart_part boundary p)| |done]. intros x t (tail & -> & Htl & Hw & Hio & Hr).
    eapply wp_mono; [apply IH; [lia|done]| |done]. intros _ u (Hw2 & Hio2 & Hr2).
    split_and!; [by etrans|by rewrite Hio2|by eapply received_cons].
Qed.

(** The whole body. *)
Lemma parseMultipart_ok boundary ps data s :
  boundary_ok boundary = true → Forall (λ p, part_ok boundary p = true) ps →
  text (wd s) data (multipart_body boundary ps) →
  wp (Parser.parseMultipart (2 + Z.to_nat (DataBuffer.size data)) data boundary) s (λ _ t,
    wle (wd s) (wd t) ∧ io t = io s ∧ received (wd t) (rq s) ps (rq t)) noexn.
Proof.
  intros Hb Hps Ht. assert (boundary ≠ []) as Hne by (by intros ->). unfold Parser.parseMultipart.
  destruct (size_views _ _ _ (proj1 Ht)) as (-> & _).
  assert (length ps + 1 < 1 + Z.to_nat (zlen (multipart_body boundary ps)))%nat as Hn.
  { unfold multipart_body, zlen. rewrite Nat2Z.id, length_app. assert (length boundary ≠ O) by (by destruct boundary).
    enough (length ps ≤ length (foldr (λ p rest, part_bytes p ++ boundary ++ rest) closing ps))%nat by lia.
    clear. induction ps as [|p ps IH]; cbn [foldr length]; [lia|]. unfold part_bytes at 1.
    rewrite !length_app. change (length RETURN_RN) with 2%nat. lia. }
  change (2 + ?n)%nat with (S (1 + n)). revert Hn. generalize (1 + Z.to_nat (zlen (multipart_body boundary ps)))%nat. intros n Hn.
  unfold loop; fold (@loop (rstate IO)). wp_step.
  eapply wp_mono; [by apply parseMultipart_opening| |done]. intros x t (tail & -> & Htl & Hw & Hio & Hr).
  eapply wp_mono; [apply (parts_loop boundary ps); [done|done|lia|done]| |done]. intros _ u (Hw2 & Hio2 & Hr2).
  split_and!; [by etrans|by rewrite Hio2|by rewrite <- Hr].
Qed.
End parts.

(** * Properties *)

(** C19: A form of parts, sent as a browser does and kept in memory: [attach] ends,
    the stream is advanced by the body, and the request has received each part
    as it was sent: the fields are arguments after those of the query string,
    in their order, and the files are there with their names and contents.  The
    type of a file is lost: the header that gives it is not recognised. *)
Theorem attach_multipart `{HashOrder} `{PosixOk} `{LexicalCast} {IO} `{StreamLaws IO}
    (env : list bytes) (s : rstate IO) (r : RequestImpl) (boundary rest : bytes) (ps : list part) :
  Parser.parse env (set_stream (rq s) true) = Ret r →
  getRequestMethod r = str "POST" ∨ getRequestMethod r = str "PUT" →
  strncasecmp_eq 19 (str "multipart/form-data") (getContentType r) = true →
  getBoundary (getContentType r) = Ret boundary → boundary_ok boundary = true →
  Forall (λ p, part_ok boundary p = true) ps →
  let content := multipart_body boundary ps in
  getContentLength r = Ret (zlen content) → zlen content < 2 ^ 31 → incoming (io s) = content ++ rest →
  ∃ t body, attach None true (Some env) s = (Ret (), t) ∧ incoming (io t) = rest ∧ sent (io t) = sent (io s) ∧
    views (wd t) body content ∧
    received (wd t) (set_args (set_body r body) (args_ r ++ query_values (getQueryString r))) ps (rq t).
Proof.
  intros Ep Hm Ht Hb Hok Hps content Hl Hmax Hin.
  assert (0 < zlen content) as Hpos.
  { unfold content, multipart_body. rewrite zlen_app. pose proof (zlen_nonneg (foldr
      (λ p rest, part_bytes p ++ boundary ++ rest) closing ps)). destruct boundary; [done|]. unfold zlen in *. cbn. lia. }
  assert (take (Z.to_nat (zlen content)) (content ++ rest) = content ∧
          drop (Z.to_nat (zlen content)) (content ++ rest) = rest) as [Et Ed]
    by (rewrite to_nat_zlen, take_app_length, drop_app_length; done).
  pose proof (zlen_nonneg rest).
  set (Q := λ (_ : unit) (t : rstate IO), ∃ body, incoming (io t) = rest ∧ sent (io t) = sent (io s) ∧
    views (wd t) body content ∧
    received (wd t) (set_args (set_body r body) (args_ r ++ query_values (getQueryString r))) ps (rq t)).
  assert (wp (attach None true (Some env)) s Q (λ e t, zlen (incoming (io s)) < zlen content ∧
    e = RuntimeError (str "failed to read request entity"))) as Hw.
  { eapply wp_mono; [apply (attach_body None env s r (zlen content) Q noexn); [done..|lia|done|]|done|by intros e t [(? & ? & _)|[]]].
    intros body u _ Hv Hmem Hrq Hi Hs. rewrite Hin, ?Et, ?Ed in *. unfold parse_body. rq_step. rq_step. cbn zeta. rewrite Hrq.
    change (getContentType _) with (getContentType r). rewrite Ht. wp_step. rewrite Hb. wp_step.
    destruct (Range.empty boundary) eqn:Eb; [apply empty_spec in Eb as ->; done|].
    eapply wp_mono; [apply (parseMultipart_ok boundary ps body); [done|done|by split]| |done].
    intros a t (Hw & Hio & Hr). exists body. rewrite Hio. split_and!; [done|done|by eapply views_mono|by rewrite Hrq in Hr]. }
  apply wp_cases in Hw as [([] & t & E & body & HQ)|(e & t & _ & Hlt & _)].
  - by exists t, body.
  - rewrite Hin, zlen_app in Hlt. lia.
Qed.

Lemma attach_multipart_witness : ∃ t content,
  @attach cons_order small_machine decimal_cast Tape Tape_stream None true
    (Some [str "REQUEST_METHOD=POST"; str "CONTENT_TYPE=multipart/form-data; boundary=xyz"; str "HTTP_CONTENT_LENGTH=166"])
    (MkState new_request empty_world (MkTape [] (multipart_body (str "--xyz")
       [Field (str "a") (str "1=2"); Upload (str "f") (str "n.txt") (str "text/plain") (str "--xy")] ++ str "next"))) = (Ret (), t) ∧
  args_ (rq t) = [(str "a", str "1=2")] ∧ files_ (rq t) = [(str "f", MkFile (str "n.txt") [] content)] ∧
  @views small_machine small_machine_ok (wd t) content (str "--xy") ∧ incoming (io t) = str "next".
Proof.
  set (ps := [Field (str "a") (str "1=2"); Upload (str "f") (str "n.txt") (str "text/plain") (str "--xy")]).
  set (env := [str "REQUEST_METHOD=POST"; str "CONTENT_TYPE=multipart/form-data; boundary=xyz"; str "HTTP_CONTENT_LENGTH=166"]).
  set (r := set_headers (set_vars (set_stream new_request true) [(str "REQUEST_METHOD", str "POST")])
              [(str "CONTENT-LENGTH", str "166"); (str "CONTENT-TYPE", str "multipart/form-data; boundary=xyz")]).
  set (s := MkState new_request empty_world (MkTape [] (multipart_body (str "--xyz") ps ++ str "next"))).
  destruct (@attach_multipart cons_order small_machine small_machine_ok decimal_cast Tape Tape_stream Tape_laws
    env s r (str "--xyz") (str "next") ps
    ltac:(vm_compute; reflexivity) ltac:(left; reflexivity) ltac:(vm_compute; reflexivity) ltac:(vm_compute; reflexivity)
    ltac:(vm_compute; reflexivity) ltac:(repeat constructor) ltac:(vm_compute; reflexivity)
    ltac:(vm_compute; reflexivity) ltac:(reflexivity)) as (t & body & E & Hi & _ & _ & cs & Hcs & Hr).
  change (uploads ps) with [(str "f", str "n.txt", str "--xy")] in *.
  inversion Hcs as [|u c us cs2 Hc Hcs2]; subst. inversion Hcs2; subst.
  exists t, c. split; [exact E|]. rewrite Hr. split; [reflexivity|]. split; [reflexivity|]. split; [apply Hc|exact Hi].
Defined.
