(* ===== verification/Forms.v ===== *)
(** * Forms of parts, whatever their bytes ([Parser::parseMultipart], library/parser.cpp)

    Which bodies in memory the parser of parts accepts, which it refuses with an
    exception, and on which its loop never ends. *)
From S2P Require Import Prelude CLib Range Util Containers Buffer FileBuffer DataBuffer BufferUtil.
From S2P Require Import HttpDate Cookie RequestState Parser Serialize RequestImpl Attach Multipart.

(** ** Specification vocabulary *)

(** What becomes of a body. *)
Inductive verdict := Parsed | Malformed | Endless.

(** A piece without the line break at its end. *)
Definition strip_break (h : bytes) : option bytes :=
  if Range.endsWith RETURN_RN h then Some (Range.trimn 0 2 h)
  else if Range.endsWith RETURN_N h then Some (Range.trimn 0 1 h) else None.

(** The piece [h] of a body, before a boundary when [found]: between two
    boundaries it has a line break at each end, and the closing delimiter
    before another boundary is never left. *)
Definition piece (found : bool) (h : bytes) : verdict :=
  if found && negb (Range.empty h) then
    match strip_break h with
    | None => Malformed
    | Some h =>
        if bool_decide (h = MINUS_PREFIX) then Endless
        else if Range.startsWith RETURN_RN h || Range.startsWith RETURN_N h then Parsed else Malformed
    end
  else Parsed.

(** The first piece that is not accepted decides. *)
Fixpoint pieces (n : nat) (boundary v : bytes) : verdict :=
  match n with
  | O => Parsed
  | S n =>
      if Range.empty v then Parsed
      else
        let '(found, h, t) := Range.split boundary v in
        match piece found h with Parsed => pieces n boundary t | r => r end
  end.
Definition form_verdict (boundary v : bytes) : verdict := pieces (S (length v)) boundary v.

Definition malformed : exn := RuntimeError (str "malformed multipart message").

(** * Lemmas *)

Section headers.
Context `{PosixOk}.
Implicit Types (w : world) (b part line tail : DataBuffer) (v : bytes).

(** Where the buffers of a split begin. *)
Lemma split_begins delim b w r w' :
  DataBuffer.split delim b w = (Ret r, w') → begin_ r.1.2 = begin_ b ∧ (end_ r.2 = end_ b ∨ begin_ r.2 = end_ r.2).
Proof.
  unfold DataBuffer.split. destruct (DataBuffer.empty b); [intros [= <- _]; auto|]. intros E. returned E.
  destruct (_ =? _); injection E as <- _; cbn; auto.
Qed.

Lemma split_placed w b v delim :
  text w b v → delim ≠ [] → v ≠ [] →
  wp (DataBuffer.split delim b) w (λ r w', ∃ f head tail h t, r = (f, head, tail) ∧ wle w w' ∧
    text w' head h ∧ text w' tail t ∧ data_ head = data_ b ∧ data_ tail = data_ b ∧
    begin_ head = begin_ b ∧ (length t < length v)%nat ∧ (t ≠ [] → begin_ b <= begin_ tail)) noexn.
Proof.
  intros Ht Hd Hv. pose proof (split_views w b v delim (proj1 Ht) Hd) as Hs.
  destruct (proj1 (wp_returns _ _ _) Hs) as ([[f head] tail] & w' & E & Hw & Hf & Hh & Htl & D1 & D2).
  pose proof (split_begins _ _ _ _ _ E) as [B1 B2]. unfold wp. rewrite E.
  destruct (Range.split delim v) as [[g h] t] eqn:Es. cbn [fst snd] in *.
  pose proof (Range.split_shorter delim v g h t Hd Hv Es) as Hl.
  exists f, head, tail, h, t. split_and!; try done; [by eapply text_of|by eapply text_of|].
  intros Hn. destruct (size_views _ _ _ (proj1 Ht)) as (_ & Eb & _). destruct (size_views _ _ _ Htl) as (_ & Et & _).
  assert (zlen t ≠ 0) by (destruct t; [done|unfold zlen; cbn; lia]). unfold zlen in *. destruct B2; lia.
Qed.

(** The next line of a header and what follows it. *)
Lemma next_line w tail v :
  text w tail v → v ≠ [] →
  wp (r ← DataBuffer.split RETURN_RN tail;
      if (r.1.1 : bool) then mret r else DataBuffer.split_char Byte.x0a tail) w
    (λ r w', ∃ f sub subtail h t, r = (f, sub, subtail) ∧ wle w w' ∧ text w' sub h ∧ text w' subtail t ∧
       data_ sub = data_ tail ∧ data_ subtail = data_ tail ∧ begin_ sub = begin_ tail ∧
       (length t < length v)%nat ∧ (t ≠ [] → begin_ tail <= begin_ subtail)) noexn.
Proof.
  intros Ht Hv. wp_step. eapply wp_mono; [by apply split_placed| |done].
  intros r w1 (f & sub & subtail & h & t & -> & Hw & H3). cbn [fst snd]. destruct f.
  - wp_step. by exists true, sub, subtail, h, t.
  - eapply wp_mono; [apply (split_placed w1 tail v [Byte.x0a]); [by eapply text_mono|done|done]| |done].
    intros r w2 (f & sub2 & subtail2 & h2 & t2 & -> & Hw2 & H4).
    exists f, sub2, subtail2, h2, t2. split; [done|]. split; [by etrans|done].
Qed.

(** The loop over a line and its continuations. *)
Definition line_inv part (v : bytes) (s : DataBuffer * DataBuffer * bool) w : Prop :=
  let '(line, tail, found) := s in
  (∃ x, text w line x) ∧ (line = nil_buffer ∨ data_ line = data_ part) ∧
  ∃ t, text w tail t ∧ data_ tail = data_ part ∧ (t ≠ [] → begin_ line <= begin_ tail) ∧
    (if found : bool then (length t < length v)%nat else t = v).

Lemma sub_text w part line sub x h :
  text w sub h → data_ sub = data_ part → is_Some (data_ part) → text w line x → begin_ line <= begin_ sub →
  wp (DataBuffer.sub_buffer part (DataBuffer.beginIndex line) (DataBuffer.endIndex sub)) w
    (λ b w', wle w w' ∧ data_ b = data_ part ∧ begin_ b = begin_ line ∧ ∃ y, text w' b y) noexn.
Proof.
  intros Hs Hd [l Hl] Hx Hb. destruct (size_views _ _ _ (proj1 Hx)) as (_ & _ & Hb0 & _).
  pose proof (proj1 Hs) as Hv. unfold views in Hv. rewrite Hd, Hl in Hv. destruct Hv as (d & k & c & Hh & B1 & B2 & B3 & _).
  unfold DataBuffer.sub_buffer, DataBuffer.beginIndex, DataBuffer.endIndex, vcall, deref. rewrite Hl. wp_steps.
  eapply wp_mono; [eapply (call_reads _ w l d k c (λ n, n = zlen c)); [done|intros i Hok; by apply (@b_size_ok impl _ impl_laws)]| |done].
  intros n w' [-> Hw]. replace (zlen c <? end_ sub) with false by lia. wp_step. split_and!; [done|done|done|].
  exists (slice (begin_ line) (end_ sub) c). eapply text_of; [exact Hs|done|cbn; congruence|].
  unfold views; cbn. exists d, k, c. split_and!; [by apply Hw|lia..|done].
Qed.

Lemma line_step part v s w :
  is_Some (data_ part) → line_inv part v s w →
  wp (header_line_step part s) w (λ r w', wle w w' ∧
    match r with
    | inl s' => line_inv part v s' w' ∧ (Z.to_nat (DataBuffer.size s'.1.2) < Z.to_nat (DataBuffer.size s.1.2))%nat
    | inr (line, tail) => (v ≠ [] → line_inv part v (line, tail, true) w')
    end) noexn.
Proof.
  intros Hp. destruct s as [[line tail] found]. intros ((x & Hx) & Hlp & t & Ht & Hd & Hb & Hf).
  unfold header_line_step. rewrite (empty_views _ _ _ (proj1 Ht)). destruct (Range.empty t) eqn:Em.
  { apply empty_spec in Em as ->. wp_step. split; [done|]. intros Hv. split; [by exists x|]. split; [done|].
    exists []. split_and!; [done..|]. destruct v; [done|cbn; lia]. }
  apply empty_false in Em. apply wp_assoc, wp_bind. eapply wp_mono; [by apply next_line| |done].
  intros r w1 (f & sub & subtail & h & t2 & -> & Hw1 & Hh & Ht2 & D1 & D2 & B1 & Hlt & B2). cbn iota.
  assert (length t2 < length v)%nat as Hlv by (destruct found; subst; lia).
  assert (Z.to_nat (DataBuffer.size subtail) < Z.to_nat (DataBuffer.size tail))%nat as Hsz.
  { destruct (size_views _ _ _ (proj1 Ht)) as (-> & _). destruct (size_views _ _ _ (proj1 Ht2)) as (-> & _).
    rewrite !to_nat_zlen. exact Hlt. }
  wp_step. eapply wp_mono; [eapply startsWith_views, Hh| |done]. intros space w2 [_ Hw2].
  wp_step. eapply wp_mono with (Q := λ _ w3, wle w1 w3).
  { destruct space; [by wp_step|]. eapply wp_mono; [eapply startsWith_views, views_mono; [done|apply Hh]| |done].
    intros b w3 [_ Hw3]. by etrans. }
  2: done. intros continued w3 Hw3. assert (wle w w3) as H03 by (by etrans).
  destruct continued; [|destruct found; wp_step; (split; [done|])].
  - wp_step. eapply wp_mono;
      [eapply (sub_text w3 part line sub x h); [by apply (text_mono w1)|congruence|done|by apply (text_mono w)|rewrite B1; by apply Hb]| |done].
    intros line' w4 (Hw4 & D4 & B4 & y & Hy). wp_step. split; [by etrans|]. split; [|exact Hsz].
    split; [by exists y|]. split; [by right|]. exists t2. assert (wle w1 w4) by (by etrans).
    split_and!; [by apply (text_mono w1)|congruence|intros Hn; specialize (B2 Hn); specialize (Hb Em); lia|done].
  - intros _. split; [exists x; by apply (text_mono w)|]. split; [done|]. exists t. split_and!; [by apply (text_mono w)|done..].
  - split; [|exact Hsz]. split; [exists h; by apply (text_mono w1)|]. split; [right; congruence|].
    exists t2. split_and!; [by apply (text_mono w1)|congruence|intros Hn; rewrite B1; by apply B2|done].
Qed.

Lemma header_line_any w part headers v :
  text w headers v → v ≠ [] → data_ headers = data_ part →
  wp (header_line part headers) w (λ r w', wle w w' ∧ (∃ x, text w' r.1 x) ∧
    ∃ t, text w' r.2 t ∧ data_ r.2 = data_ part ∧ (length t < length v)%nat) noexn.
Proof.
  intros Ht Hv Hd. unfold header_line.
  assert (is_Some (data_ part)) as Hp.
  { rewrite <- Hd. destruct (view_loc _ _ _ (proj1 Ht) Hv) as (l & d & k & c & -> & _). by eexists. }
  eapply wp_mono; [apply (wp_loop (λ s w1, wle w w1 ∧ line_inv part v s w1)
    (λ s, Z.to_nat (DataBuffer.size s.1.2)) _ (λ r w', wle w w' ∧ line_inv part v (r, true) w'))| |done].
  - intros s w1 [Hw1 Hs]. eapply wp_mono; [by apply (line_step part v)| |done].
    intros [s'|[line tail]] w2 [Hw2 Hr]; [destruct Hr|specialize (Hr Hv)]; (split_and?; [by etrans|done..]).
  - split; [done|]. split; [exists []; apply text_nil|]. split; [by left|]. exists v. split_and!; [done..| |done].
    intros _. destruct (size_views _ _ _ (proj1 Ht)) as (_ & _ & Hb & _). exact Hb.
  - cbn [fst snd]. lia.
  - intros [line tail] w' (Hw & Hx & _ & t & Htl & Hdt & _ & Hlt). cbn [fst snd]. split_and!; [done..|]. by exists t.
Qed.

(** The lines of a part, and their attributes. *)
Lemma part_headers_any w part headers v :
  text w headers v → data_ headers = data_ part →
  wp (part_headers part headers) w (λ p w', wle w w' ∧ ∃ i, info w' p i) noexn.
Proof.
  intros Ht Hd. unfold part_headers.
  apply (wp_loop (λ s w1, wle w w1 ∧ (∃ i, info w1 s.2 i) ∧ ∃ t, text w1 s.1 t ∧ data_ s.1 = data_ part)
    (λ s, Z.to_nat (DataBuffer.size s.1))); [|split; [done|]|cbn [fst snd]; lia].
  2: { cbn [fst snd]. split; [exists (MkText [] [] []); by split_and!; apply text_nil|by exists v]. }
  intros [headers' p] w1 (Hw1 & [i Hi] & t & Htl & Hdt). cbn [fst snd] in *. unfold part_headers_step.
  rewrite (empty_views _ _ _ (proj1 Htl)). destruct (Range.empty t) eqn:Em.
  { wp_step. split; [done|by exists i]. }
  apply empty_false in Em. wp_step. eapply wp_mono; [by apply header_line_any| |done].
  intros [line tail] w2 (Hw2 & (x & Hx) & t2 & Ht2 & Hd2 & Hlt). cbn [fst snd] in *.
  destruct (attributes_exist x) as [l Hl]. wp_step.
  eapply wp_mono; [eapply parseLine_ok; [exact Hl|exact Hx|by eapply info_mono]| |done].
  intros p' w3 [Hw3 Hp']. wp_step. split.
  - split; [by etrans; [|etrans]|]. split; [by eexists|]. exists t2. split; [by eapply text_mono|done].
  - cbn [fst snd]. destruct (size_views _ _ _ (proj1 Htl)) as (-> & _).
    destruct (size_views _ _ _ (proj1 Ht2)) as (-> & _). by rewrite !to_nat_zlen.
Qed.
End headers.

Section forms.
Context `{PosixOk} {IO : Type}.
Implicit Types (w : world) (s t : rstate IO).

(** The stream and the answer of a request are left alone. *)
Definition reads_form s t : Prop :=
  wle (wd s) (wd t) ∧ io t = io s ∧ answer_part (rq t) = answer_part (rq s).

Lemma reads_form_trans s t u : reads_form s t → reads_form t u → reads_form s u.
Proof. intros (W1 & I1 & A1) (W2 & I2 & A2). split_and!; [by etrans|congruence..]. Qed.

Lemma make_file_any w filename type content f ty :
  text w filename f → f ≠ [] → text w type ty →
  wp (make_file filename type content) w (λ _ w', wle w w') noexn.
Proof.
  intros Hf Hn Ht. unfold make_file. rewrite (empty_views _ _ _ (proj1 Ht)), (empty_views _ _ _ (proj1 Hf)).
  wp_step. eapply wp_mono with (Q := λ _ w', wle w w').
  { destruct (Range.empty ty); [by wp_step|]. eapply wp_mono; [apply toString_views, Ht| |done]. by intros ? ? [_ ?]. }
  2: done. intros a w1 Hw1. destruct (Range.empty f) eqn:E; [by apply empty_spec in E|]. wp_step.
  eapply wp_mono; [eapply toString_views, views_mono; [done|apply Hf]| |done]. intros x w2 [_ Hw2]. wp_step. by etrans.
Qed.

(** Whatever the bytes of a part are, it is read without an exception. *)
Lemma parsePart_any b v s :
  text (wd s) b v → wp (parsePart b) s (λ _ t, reads_form s t) noexn.
Proof.
  intros Ht. unfold parsePart.
  assert (∀ delim w, delim ≠ [] → wle (wd s) w → wp (DataBuffer.split delim b) w (λ r w', wle (wd s) w' ∧
    data_ r.1.2 = data_ b ∧ (∃ h, text w' r.1.2 h) ∧ ∃ c, text w' r.2 c) noexn) as Hsplit.
  { intros delim w Hd Hw. apply (text_mono _ _ _ _ Hw) in Ht.
    eapply wp_mono; [apply split_views; [apply Ht|done]| |done].
    intros [[f h] c] w' (Hw' & _ & Hh & Hc & D1 & D2). cbn [fst snd] in *.
    split_and!; [by etrans|done|eexists; by eapply text_of|eexists; by eapply text_of]. }
  rq_step. apply wp_on_world. eapply wp_mono; [by apply Hsplit| |done]. intros r w1 H1'. rq_step.
  eapply wp_mono with (Q := λ r t, rq t = rq s ∧ io t = io s ∧ wle (wd s) (wd t) ∧ data_ r.1.2 = data_ b ∧
    (∃ h, text (wd t) r.1.2 h) ∧ ∃ c, text (wd t) r.2 c).
  { destruct r.1.1; [by rq_step|]. apply wp_on_world. eapply wp_mono; [apply Hsplit; [done|apply H1']| |done].
    by intros r2 w2 H2'. }
  2: done. intros [[f headers] content] t1 (Hr1 & Hi1 & Hw1 & Hd & [h Hh] & [c Hc]). cbn [fst snd] in *.
  rq_step. apply wp_on_world. eapply wp_mono; [by eapply part_headers_any| |done].
  intros p w2 [Hw2 [i (P1 & P2 & P3)]]. rewrite (empty_views _ _ _ (proj1 P1)), (empty_views _ _ _ (proj1 P2)).
  assert (wle (wd s) w2) as H02 by (by etrans).
  destruct (Range.empty (t_name i)); [rq_step; by split_and!; [..|rewrite <- Hr1]|].
  rq_step. apply wp_on_world. cbn [wd set_wd]. eapply wp_mono; [apply toString_views, P1| |done]. intros y w3 [_ Hw3].
  assert (wle (wd s) w3) as H03 by (by etrans).
  destruct (Range.empty (t_filename i)) eqn:Ef; rq_step; apply wp_on_world; cbn [wd set_wd].
  - eapply wp_mono; [eapply toString_views, views_mono, Hc; by etrans| |done]. intros z w4 [_ Hw4]. rq_step.
    split_and!; [by etrans|done|by rewrite <- Hr1].
  - eapply wp_mono; [apply (make_file_any w3 _ _ _ (t_filename i) (t_type i)); [by apply (text_mono w2)|by apply empty_false|by apply (text_mono w2)]| |done].
    intros z w4 Hw4. rq_step. split_and!; [by etrans|done|by rewrite <- Hr1].
Qed.

(** Cutting a line break off a piece that has one. *)
Lemma trimn_piece w b h n e :
  text w b h → 0 <= n <= 2 → 0 <= e <= zlen h → text w (DataBuffer.trimn n e b) (Range.trimn n e h).
Proof. intros Ht Hn He. apply trimn_text; [done|lia..|left; lia]. Qed.

Lemma endsWith_length p h : Range.endsWith p h = true → zlen p <= zlen h.
Proof. unfold Range.endsWith, Range.size. case_if; [lia|done]. Qed.

(** The line break at the end of a piece before a boundary. *)
Lemma strip_ok head h s :
  text (wd s) head h →
  wp (rn ← on_world (DataBuffer.endsWith RETURN_RN head);
      if (rn : bool) then mret (DataBuffer.trimn 0 2 head)
      else
        n ← on_world (DataBuffer.endsWith RETURN_N head);
        if (n : bool) then mret (DataBuffer.trimn 0 1 head) else throw malformed) s
    (λ b t, reads_form s t ∧ ∃ h', strip_break h = Some h' ∧ text (wd t) b h')
    (λ e t, reads_form s t ∧ e = malformed ∧ strip_break h = None).
Proof.
  intros Ht. unfold strip_break, on_world. wp_step. wp_step.
  eapply wp_mono; [eapply endsWith_views, Ht| |done]. intros a w1 [-> Hw1].
  destruct (Range.endsWith RETURN_RN h) eqn:E1; [|wp_step; wp_step].
  - wp_step. split; [done|]. eexists. split; [done|]. apply endsWith_length in E1.
    apply trimn_piece; [by eapply text_mono|lia|]. change (zlen RETURN_RN) with 2 in E1. lia.
  - cbn [wd set_wd]. eapply wp_mono; [eapply endsWith_views, views_mono; [done|apply Ht]| |done]. intros c w2 [-> Hw2].
    assert (wle (wd s) w2) by (by etrans).
    destruct (Range.endsWith RETURN_N h) eqn:E2; wp_step; (split; [done|]); [|done].
    eexists. split; [done|]. apply endsWith_length in E2.
    apply trimn_piece; [by apply (text_mono (wd s))|lia|]. change (zlen RETURN_N) with 1 in E2. lia.
Qed.

(** The line break at its start, and the part. *)
Lemma part_ok_any (tail : DataBuffer) head h s :
  text (wd s) head h →
  wp (rn ← on_world (DataBuffer.startsWith RETURN_RN head);
      head ← (if (rn : bool) then mret (DataBuffer.trimn 2 0 head)
              else
                n ← on_world (DataBuffer.startsWith RETURN_N head);
                if (n : bool) then mret (DataBuffer.trimn 1 0 head) else throw malformed);
      (if DataBuffer.empty head then mret () else parsePart head);;
      mret (inl tail : DataBuffer + unit)) s
    (λ x t, reads_form s t ∧ Range.startsWith RETURN_RN h || Range.startsWith RETURN_N h = true ∧ x = inl tail)
    (λ e t, reads_form s t ∧ Range.startsWith RETURN_RN h || Range.startsWith RETURN_N h = false ∧ e = malformed).
Proof.
  intros Ht. pose proof (zlen_nonneg h). unfold on_world. wp_step. wp_step.
  eapply wp_mono; [eapply startsWith_views, Ht| |done]. intros a w1 [-> Hw1]. wp_step.
  eapply wp_mono with (Q := λ b t, reads_form s t ∧ (∃ h', text (wd t) b h') ∧
      Range.startsWith RETURN_RN h || Range.startsWith RETURN_N h = true)
    (E := λ e t, reads_form s t ∧ Range.startsWith RETURN_RN h || Range.startsWith RETURN_N h = false ∧ e = malformed).
  - destruct (Range.startsWith RETURN_RN h); [|wp_step; wp_step].
    + wp_step. split_and!; [done| |done]. eexists. apply trimn_piece; [by eapply text_mono|lia..].
    + cbn [wd set_wd]. eapply wp_mono; [eapply startsWith_views, views_mono; [done|apply Ht]| |done]. intros c w2 [-> Hw2].
      assert (wle (wd s) w2) as H02 by (by etrans). destruct (Range.startsWith RETURN_N h); wp_step; [|by split_and!].
      split_and!; [done| |done]. eexists. apply trimn_piece; [by apply (text_mono (wd s))|lia..].
  - intros b t (Hr & [h' Hh] & Ho). wp_step. destruct (DataBuffer.empty b); [by wp_step; wp_step|].
    eapply wp_mono; [by eapply parsePart_any| |done]. intros [] u Hu. wp_step. split; [by eapply reads_form_trans|done].
  - done.
Qed.

(** One turn of the loop. *)
Lemma form_step boundary data v s found h rest :
  boundary ≠ [] → text (wd s) data v → v ≠ [] → Range.split boundary v = (found, h, rest) →
  wp (parseMultipart_step boundary data) s (λ x t, reads_form s t ∧
      match piece found h with
      | Parsed => ∃ tail, x = inl tail ∧ text (wd t) tail rest
      | Endless => x = inl data
      | Malformed => False
      end)
    (λ e t, reads_form s t ∧ e = malformed ∧ piece found h = Malformed).
Proof.
  intros Hb Ht Hv Es. unfold parseMultipart_step. rewrite (empty_views _ _ _ (proj1 Ht)).
  destruct (Range.empty v) eqn:Em; [by apply empty_spec in Em|].
  wp_step. apply wp_zoom. eapply wp_mono; [by eapply split_text| |done].
  intros r w1 (head & tail & -> & Hw1 & Hh & Htl). cbn iota. rewrite (empty_views _ _ _ (proj1 Hh)).
  set (s1 := set_wd w1 s). assert (reads_form s s1) as H1' by done. unfold piece. destruct (found && _) eqn:Ef.
  2: { wp_step. eapply wp_mono with (Q := λ _ t, reads_form s1 t).
    - destruct (Range.empty h); [by wp_step|]. eapply wp_mono; [by eapply parsePart_any| |done]. by intros [] t ?.
    - intros [] t Hr. wp_step. split; [by eapply reads_form_trans|]. exists tail. split; [done|].
      eapply text_mono; [apply Hr|exact Htl].
    - done. }
  apply wp_assoc, wp_bind. eapply wp_mono; [by apply (strip_ok head h s1)| |].
  2: { intros e t (Hr & -> & ->). split; [by eapply reads_form_trans|done]. }
  intros b t (Hr & h' & -> & Hh'). assert (reads_form s t) as Hst by (by eapply reads_form_trans).
  destruct (size_views _ _ _ (proj1 Hh')) as (-> & _). wp_step.
  eapply wp_mono with (Q := λ m u, reads_form t u ∧ m = bool_decide (h' = MINUS_PREFIX)) (E := noexn).
  { destruct (zlen h' =? 2) eqn:El; zbool; [unfold on_world; wp_step|wp_step].
    - eapply wp_mono; [eapply startsWith_views, Hh'| |done]. intros m w2 [-> Hw2]. split; [done|].
      rewrite Range.startsWith_spec. apply eq_true_iff_eq. rewrite is_prefix_spec, bool_decide_eq_true.
      split; [|by intros ->; exists []]. intros [k Hk]. assert (zlen k = 0) as Hz.
      { rewrite Hk in El. revert El. zlen_simp. change (zlen MINUS_PREFIX) with 2. lia. }
      destruct k; [by rewrite app_nil_r in Hk|unfold zlen in Hz; cbn in Hz; lia].
    - split; [done|]. symmetry. apply bool_decide_eq_false. intros ->. done. }
  2: done. intros m u [Hu ->]. assert (reads_form s u) as Hsu by (by eapply reads_form_trans).
  case_bool_decide; [by wp_step|].
  eapply wp_mono; [apply (part_ok_any tail b h' u); eapply text_mono; [apply Hu|done]| |].
  - intros x z (Hz & -> & ->). split; [by eapply reads_form_trans|]. exists tail. split; [done|].
    apply (text_mono w1); [|done]. etrans; [apply Hr|]. etrans; [apply Hu|apply Hz].
  - intros e z (Hz & -> & ->). split; [by eapply reads_form_trans|done].
Qed.

(** The closing delimiter before another boundary: the loop stays where it is. *)
Lemma endless_loop boundary data v found h rest m s :
  boundary ≠ [] → text (wd s) data v → v ≠ [] → Range.split boundary v = (found, h, rest) → piece found h = Endless →
  (loop m (parseMultipart_step boundary) data s).1 = NoFuel.
Proof.
  intros Hb Ht Hv Es Ep. revert s Ht. induction m as [|m IH]; intros s Ht; [done|].
  unfold loop; fold (@loop (rstate IO)). unfold mbind, M_bind.
  pose proof (form_step boundary data v s found h rest Hb Ht Hv Es) as Hs. rewrite Ep in Hs.
  destruct (wp_cases _ _ _ _ Hs) as [(x & t & -> & Hr & ->)|(e & t & _ & _ & _ & ?)]; [|done].
  apply IH. eapply text_mono; [apply Hr|done].
Qed.

Lemma form_loop boundary n m data v s :
  boundary ≠ [] → text (wd s) data v → (length v < n)%nat → (length v < m)%nat →
  match pieces n boundary v with
  | Parsed => wp (loop m (parseMultipart_step boundary) data) s (λ _ t, reads_form s t) noexn
  | Malformed => wp (loop m (parseMultipart_step boundary) data) s (λ _ _, False) (λ e t, e = malformed ∧ reads_form s t)
  | Endless => ∀ m, (loop m (parseMultipart_step boundary) data s).1 = NoFuel
  end.
Proof.
  intros Hb. revert m data v s. induction n as [|n IH]; intros m data v s Ht Hn Hm; [lia|]. cbn [pieces].
  destruct (Range.empty v) eqn:Em.
  { destruct m as [|m]; [lia|]. unfold loop; fold (@loop (rstate IO)). wp_step. unfold parseMultipart_step at 1.
    rewrite (empty_views _ _ _ (proj1 Ht)), Em. by wp_steps. }
  apply empty_false in Em. destruct (Range.split boundary v) as [[found h] rest] eqn:Es.
  pose proof (Range.split_shorter boundary v found h rest Hb Em Es) as Hlt.
  pose proof (form_step boundary data v s found h rest Hb Ht Em Es) as Hs.
  destruct (piece found h) eqn:Ep.
  - destruct (wp_cases _ _ _ _ Hs) as [(x & t & Ex & Hr & tail & -> & Htl)|(e & t & _ & _ & _ & ?)]; [|done].
    assert (∀ k, loop (S k) (parseMultipart_step boundary) data s = loop k (parseMultipart_step boundary) tail t) as El
      by (intros k; unfold loop at 1; fold (@loop (rstate IO)); unfold mbind, M_bind; by rewrite Ex).
    destruct m as [|m]; [lia|]. specialize (IH m tail rest t Htl ltac:(lia) ltac:(lia)). unfold wp in *. rewrite El.
    destruct (pieces n boundary rest).
    + destruct (loop m _ tail t) as [[]]; try done. by eapply reads_form_trans.
    + destruct (loop m _ tail t) as [[]]; try done. destruct IH. split; [done|]. by eapply reads_form_trans.
    + intros [|k]; [done|]. by rewrite El.
  - destruct m as [|m]; [lia|]. unfold loop; fold (@loop (rstate IO)). wp_step.
    eapply wp_mono; [exact Hs|by intros x t [_ []]|by intros e t (? & -> & _)].
  - intros k. by apply (endless_loop boundary data v found h rest).
Qed.
End forms.

(** * Properties *)

(** C8: What the parser of parts does with any body that is kept in memory: it ends
    and accepts it, or ends with an exception, or its loop goes on for ever, and
    the bytes alone decide which: the loop never ends exactly when, before
    anything malformed, a closing delimiter is followed by another boundary. *)
Theorem form_decided `{PosixOk} {IO} (boundary v : bytes) (data : DataBuffer) (s : rstate IO) :
  boundary ≠ [] → views (wd s) data v → in_memory (wd s) data →
  match form_verdict boundary v with
  | Parsed => ∃ t, Parser.parseMultipart (2 + Z.to_nat (DataBuffer.size data)) data boundary s = (Ret (), t) ∧
      reads_form s t
  | Malformed => ∃ t, Parser.parseMultipart (2 + Z.to_nat (DataBuffer.size data)) data boundary s = (Throw malformed, t) ∧
      reads_form s t
  | Endless => ∀ fuel, (Parser.parseMultipart fuel data boundary s).1 = NoFuel
  end.
Proof.
  intros Hb Hv Hm. destruct (size_views _ _ _ Hv) as (-> & _). rewrite to_nat_zlen.
  pose proof (form_loop boundary (S (length v)) (2 + length v) data v s Hb (conj Hv Hm) ltac:(lia) ltac:(lia)) as Hl.
  unfold form_verdict, Parser.parseMultipart. destruct (pieces _ _ _).
  - apply wp_returns in Hl as ([] & t & E & Hr). by exists t.
  - destruct (wp_cases _ _ _ _ Hl) as [(? & ? & _ & [])|(e & t & E & -> & Hr)]. by exists t.
  - exact Hl.
Qed.

Lemma form_decided_witness :
  form_verdict (str "--B") (str "--B--" ++ RETURN_RN ++ str "--B") = Endless ∧
  form_verdict (str "--B") (str "--B" ++ RETURN_RN ++ str "x" ++ RETURN_RN ++ str "--B--" ++ RETURN_RN) = Parsed ∧
  ∃ w b, ∀ fuel, (@Parser.parseMultipart small_machine unit fuel b (str "--B") (MkState new_request w ())).1 = NoFuel.
Proof.
  split; [vm_compute; reflexivity|]. split; [vm_compute; reflexivity|].
  set (v := str "--B--" ++ RETURN_RN ++ str "--B").
  destruct (proj1 (wp_returns _ _ _) (@create_views small_machine small_machine_ok empty_world v eq_refl))
    as (b & w & _ & Hv & Hm & _).
  exists w, b. exact (@form_decided small_machine small_machine_ok unit (str "--B") v b (MkState new_request w ())
    ltac:(discriminate) Hv Hm).
Defined.
