(* ===== verification/AttachCache.v ===== *)
(** * Reading a request whose body goes to the cache ([RequestImpl::attach])

    A large body is not kept in memory: it is read into a buffer of the request
    cache, between the serialized environment and the serialized files and
    arguments, so that the file holds the request when it is to be tried
    again. *)
From S2P Require Import Prelude CLib Range Util Containers Buffer FileBuffer DataBuffer BufferUtil.
From S2P Require Import HttpDate Cookie RequestState Parser Serialize RequestImpl Attach.

(** A content type that [attach] does not parse. *)
Definition left_alone (type : bytes) : Prop :=
  strncasecmp_eq 19 (str "multipart/form-data") type = false ∧
  (strncasecmp_eq 10 (str "text/plain") type = true ∨ strncasecmp_eq 24 (str "application/octet-stream") type = true).

(** A cache that made the buffer [b0], over storage [d], for the request of [s]. *)
Definition creates `{PosixOk} {IO} `{StreamLaws IO} (cache : RequestCache IO) (s : rstate IO) (b0 : DataBuffer)
    (d : loc) (s1 : rstate IO) : Prop :=
  cache_create cache s = (Ret b0, s1) ∧ rq s1 = rq s ∧ incoming (io s1) = incoming (io s) ∧
  (∃ v0, views (wd s1) b0 v0) ∧ stored (wd s1) b0 d ∧ begin_ b0 = 0.

(** * Lemmas *)

Section attach_cache.
Context `{HashOrder} `{PosixOk} `{LexicalCast} {IO : Type} `{StreamLaws IO}.
Implicit Types (s t : rstate IO) (w : world) (r : RequestImpl) (v : bytes).

Lemma separate_nil w d : separate w nil_buffer d.
Proof. intros l d' k c E. done. Qed.

(** The buffer for the body in a buffer of the cache. *)
Lemma make_body_cached cache n s b0 d s1 :
  minPostSize cache <= n → 0 < n < 2 ^ 31 → creates cache s b0 d s1 →
  zlen (image_env (rq s)) + 8 + n < 2 ^ 62 →
  wp (make_body (Some cache) n) s (λ pb t, io t = io s1 ∧ data_ pb = data_ b0 ∧ begin_ pb = 0 ∧
    stored (wd t) pb d ∧ ∃ v, zlen v = n ∧ views (wd t) pb (image_env (rq s) ++ enc_int n ++ v) ∧
    let x := zlen (image_env (rq s)) + 8 in let body := MkDataBuffer (data_ pb) x (x + n) in
    rq t = set_body (rq s) body ∧ views (wd t) body v) noexn.
Proof.
  intros Hmin Hn (Hc & Hrq & _ & [v0 Hv0] & Hst & Hb0) Hmax. unfold make_body.
  replace (minPostSize cache <=? n) with true by lia. rq_step. unfold wp at 1. rewrite Hc. rq_steps. rewrite Hrq.
  rewrite u64_small by (unfold U64_MAX; lia). apply wp_on_world.
  eapply wp_mono; [apply (serializeEnv_ok _ _ b0 v0 d nil_buffer []); try done; try zlia; apply separate_nil| |done].
  intros p w1 (-> & (rest & Hr & Hv1) & Hst1 & _ & _ & _ & _). cbn [fst snd] in *.
  set (env := image_env (rq s)) in *. set (pb := MkDataBuffer _ 0 _) in *. cbn iota. rq_step. apply wp_on_world. cbn [wd set_wd].
  eapply wp_mono; [apply (writes_int pb d nil_buffer [] n w1 (env ++ rest)); try done; try (zlen_simp; zlia); apply separate_nil| |done].
  intros shift w2 (-> & Hv2 & Hst2 & _). rewrite zlen_enc_int in *. rq_steps.
  set (v := drop 8 rest). assert (zlen v = n) as Hzv by (unfold v, zlen in *; rewrite length_drop; lia).
  assert (splice (zlen env) (enc_int n) (env ++ rest) = env ++ enc_int n ++ v) as Es.
  { unfold splice. rewrite to_nat_zlen, take_app_length. change (length (enc_int n)) with 8%nat.
    rewrite drop_app_ge, Nat.add_comm, Nat.add_sub by lia. done. }
  rewrite Es in Hv2. destruct (size_views _ _ _ Hv2) as (_ & He & _ & _). apply wp_on_world. cbn [wd set_wd].
  assert (zlen (env ++ enc_int n ++ v) = zlen env + 8 + n) as Hz by (zlen_simp; lia).
  assert (isNil pb = false) as Hnn by (eapply nonempty_notnil; [exact Hv2|]; intros E; rewrite E in Hz; change (zlen []) with 0 in Hz; zlia).
  unfold DataBuffer.beginIndex, DataBuffer.endIndex. rewrite u64_small by (cbn [begin_ pb]; zlia).
  replace (end_ pb) with (begin_ pb + (zlen env + 8 + n)) by lia.
  eapply wp_mono; [apply (sub_buffer_ok w2 pb _ (zlen env + 8) (zlen env + 8 + n) Hv2 Hnn); zlia| |done].
  intros body w3 (-> & Hv3 & Hw3). rq_steps. split_and!; [done..|by eapply stored_mono|].
  exists v. split_and!; [done|by eapply views_mono|by rewrite Hrq|].
  change (begin_ pb) with 0 in Hv3. rewrite !Z.add_0_l in Hv3.
  pose proof (slice_app_mid (env ++ enc_int n) v []) as E.
  rewrite app_nil_r, Hzv, zlen_app, zlen_enc_int, <- app_assoc in E. by rewrite E in Hv3.
Qed.

(** What a buffer shows after a part of it at its end was filled. *)
Lemma views_front w l d k (c c' : bytes) b p v :
  holds w l d k c' → data_ b = Some l → begin_ b = 0 → end_ b = zlen p + zlen v → zlen c' = zlen c → end_ b <= zlen c →
  slice 0 (zlen p) c' = slice 0 (zlen p) c → slice 0 (zlen p) c = p →
  views w (MkDataBuffer (data_ b) (zlen p) (zlen p + zlen v)) v → views w b (p ++ v).
Proof.
  intros Hh Hl Hb He Hz Hc Hfront Hp Hv. unfold views in *. cbn [data_ begin_ end_] in Hv. rewrite Hl in *.
  destruct Hv as (d2 & k2 & c2 & Hh2 & _ & _ & _ & Hv). destruct (holds_fun _ _ _ _ _ _ _ _ Hh Hh2) as [<- <-].
  exists d, k, c'. pose proof (zlen_nonneg p). pose proof (zlen_nonneg v). split_and!; [done|lia..|].
  rewrite Hb, He. transitivity (slice 0 (zlen p) c' ++ slice (zlen p) (zlen p + zlen v) c').
  - by rewrite <- Hv, Hfront, Hp.
  - apply slice_join; lia.
Qed.

(** The image is completed behind the body. *)
Lemma serialize_rest w r pb d v :
  views w pb v → stored w pb d → begin_ pb = 0 → v ≠ [] → zlen v + zlen (image_rest r) < 2 ^ 62 →
  wp (pb ← DataBuffer.resize (u64 (DataBuffer.size pb + 2 * 8 + filesSerializedSize r + argsSerializedSize r)) pb;
      p ← serializeFiles r pb (zlen v); p ← serializeArgs r pb p; mret pb) w
    (λ b w', data_ b = data_ pb ∧ begin_ b = 0 ∧ views w' b (v ++ image_rest r) ∧ stored w' b d ∧ filled w' b) noexn.
Proof.
  intros Hv Hst Hb Hn Hmax. destruct (size_views _ _ _ Hv) as (-> & _).
  assert (u64 (zlen v + 2 * 8 + filesSerializedSize r + argsSerializedSize r) = zlen v + zlen (image_rest r)) as ->.
  { unfold image_rest, argsSerializedSize in *. zlen_simp. rewrite filesSize_ok, pairs_size_ok by zlia. rewrite u64_small by zlia. lia. }
  assert (0 < zlen v) by (destruct v; [done|unfold zlen; cbn; lia]). pose proof (zlen_nonneg (image_rest r)).
  wp_step. eapply wp_mono; [apply (resize_stored w pb v d); rewrite ?Hb; (done || lia)| |done].
  intros b w1 (-> & Hst1 & Ho1 & Hf1 & v1 & Hv1 & Hz & Hkeep). rewrite Hb, Z.add_0_l in *. specialize (Hkeep ltac:(lia)).
  apply wp_assoc. wp_step.
  eapply wp_mono; [apply (writes_rest _ d nil_buffer [] r ltac:(zlia) w1 v1 (zlen v) Hv1); try done; try lia; apply separate_nil| |done].
  intros p w2 (_ & Hv2 & Hst2 & _ & _ & Ho2 & Hw2). wp_step. split_and!; [done|done| |done|by eapply filled_shape].
  replace (splice (zlen v) (image_rest r) v1) with (v ++ image_rest r) in Hv2; [done|].
  unfold splice. rewrite to_nat_zlen, Hkeep, (drop_ge v1); [by rewrite app_nil_r|]. unfold zlen in *. lia.
Qed.

Lemma parse_body_alone s (Q : unit → rstate IO → Prop) E :
  left_alone (getContentType (rq s)) → Q () s → wp parse_body s Q E.
Proof.
  intros [Hm Ht] HQ. unfold parse_body. rq_step. rq_step. cbn zeta. rewrite Hm.
  destruct Ht as [-> | ->]; cbn [negb andb]; [|rewrite andb_false_r]; by rq_step.
Qed.

(** The body in the buffer of the cache. *)
Lemma read_cached_body s pb env v d n :
  let x := zlen env + 8 in let body := MkDataBuffer (data_ pb) x (x + n) in
  let content := take (Z.to_nat n) (incoming (io s)) in
  zlen v = n → 0 < n < 2 ^ 31 → n <= zlen (incoming (io s)) → begin_ pb = 0 → stored (wd s) pb d →
  views (wd s) pb (env ++ enc_int n ++ v) → views (wd s) body v →
  wp (read_body body) s (λ m t, m = n ∧ rq t = rq s ∧ sent (io t) = sent (io s) ∧
    incoming (io t) = drop (Z.to_nat n) (incoming (io s)) ∧ stored (wd t) pb d ∧
    views (wd t) body content ∧ views (wd t) pb (env ++ enc_str content)) noexn.
Proof.
  intros x body content Hz Hn Hle Hb (l & k & c & Hl & Hh) Hv Hvb.
  eapply wp_mono; [apply (read_body_ok s body v l d k c); [done|done|done|lia]| |done].
  intros m t (-> & Hrq & Hsent & Hin & _ & c' & Hzc & Hfront & Hh' & Hviews).
  assert (length v = Z.to_nat n) as Hlen by (unfold zlen in Hz; lia). rewrite Hlen, Hz in *.
  specialize (Hviews Hle). fold content in Hviews.
  assert (zlen content = n) as Hzn by (unfold content; unfold zlen in *; rewrite length_take; lia).
  split_and!; [lia|done..| |done|]; [by exists l, k, c'|].
  destruct (size_views _ _ _ Hv) as (_ & He & _). unfold enc_str. rewrite Hzn, app_assoc.
  assert (zlen (env ++ enc_int n) = x) as Ex by (rewrite zlen_app, zlen_enc_int; done).
  unfold views in Hv. rewrite Hl in Hv. destruct Hv as (d2 & k2 & c2 & Hh2 & _ & _ & Hec & Hs).
  destruct (holds_fun _ _ _ _ _ _ _ _ Hh Hh2) as [<- <-].
  eapply (views_front _ l d k c c'); rewrite ?Ex, ?Hzn; try done.
  - rewrite He, Hb. rewrite app_assoc, zlen_app, Ex. lia.
  - rewrite Hb, app_assoc in Hs. pose proof (slice_take 0 (end_ pb) (length (env ++ enc_int n)) c ltac:(done)) as Et.
    rewrite <- Hs, take_app_length, Z.add_0_l in Et. rewrite <- Ex. symmetry. apply Et. rewrite !length_app. lia.
Qed.

(** [attach] of a request whose body goes to the cache and is left alone. *)
Lemma attach_cached_ok cache (env : list bytes) s r (n : Z) b0 d s1 :
  let inc := incoming (io s) in let content := take (Z.to_nat n) inc in
  let args := args_ r ++ query_values (getQueryString r) in
  Parser.parse env (set_stream (rq s) true) = Ret r →
  getRequestMethod r = str "POST" ∨ getRequestMethod r = str "PUT" →
  getContentLength r = Ret n → 0 < n < 2 ^ 31 → left_alone (getContentType r) → files_ r = [] →
  minPostSize cache <= n → creates cache (set_rq r s) b0 d s1 → n <= zlen inc →
  zlen (image (set_args r args) content) < 2 ^ 62 →
  wp (attach (Some cache) true (Some env)) s (λ _ t, incoming (io t) = drop (Z.to_nat n) inc ∧
    sent (io t) = sent (io s1) ∧ ∃ body, rq t = set_args (set_body r body) args ∧ views (wd t) body content ∧
    data_ body = data_ b0 ∧ stores (wd t) !! d = Some (image (rq t) content)) noexn.
Proof.
  intros inc content args Ep Hm Hl Hn Ht Hf Hmin Hc Hle Hmax. pose proof Hc as (_ & _ & Hin1 & _). cbn [io set_rq] in Hin1.
  assert (zlen content = n) as Hzn by (unfold content; unfold zlen in *; rewrite length_take; lia).
  unfold image in Hmax. change (image_env (set_args r args)) with (image_env r) in Hmax. rewrite !zlen_app, zlen_enc_str, Hzn in Hmax.
  pose proof (zlen_nonneg (image_rest (set_args r args))).
  unfold attach. cbn [negb]. rq_step. rq_step. wp_step. eapply wp_run_parser; [exact Ep|]. rq_steps. cbn zeta.
  assert (negb (string_eq (str "POST") (getRequestMethod r)) && negb (string_eq (str "PUT") (getRequestMethod r)) = false)
    as -> by (destruct Hm as [-> | ->]; reflexivity).
  rewrite Hl. rq_steps. rewrite u64_small by (unfold U64_MAX; lia). cbn zeta. rq_steps.
  eapply wp_mono; [apply (make_body_cached cache n _ b0 d s1); cbn [rq set_rq]; (done || lia)| |done].
  intros pb t (Hio & Hd & Hb & Hst & v & Hz & Hv & Hrq & Hvb). cbn [rq set_rq] in *. rq_steps. rewrite Hrq. cbn [body_ set_body].
  assert (incoming (io t) = inc) as Hin by (by rewrite Hio).
  eapply wp_mono; [apply (read_cached_body t pb (image_env r) v d n); rewrite ?Hin; done| |done].
  intros m u (-> & Hrq2 & Hsent & Hin2 & Hst2 & Hvb2 & Hv2). rewrite Hin in *. fold content in Hvb2, Hv2.
  rewrite Z.eqb_refl. cbn [negb]. rq_step. apply wp_parse_some_query. rq_step. rewrite Hrq2, Hrq.
  apply parse_body_alone; [exact Ht|].
  assert (data_ pb ≠ None) as Hnn.
  { destruct Hst as (l & k & c & E & _). by rewrite E. }
  unfold isNil. destruct (data_ pb) as [l|] eqn:El; [clear Hnn|done]. rewrite <- El in *. cbn iota. rq_step. rq_step. cbn zeta.
  set (body := MkDataBuffer _ _ _) in *. cbn [args_ set_body]. fold args. set (r' := set_args (set_body r body) args).
  assert (image_rest r' = image_rest (set_args r args)) as Er.
  { unfold image_rest, r'. cbn [files_ args_ body_ set_args set_body]. by rewrite Hf. }
  assert (zlen (image_env r ++ enc_str content) = zlen (image_env r) + 8 + n) as Hzv by (rewrite zlen_app, zlen_enc_str; lia).
  destruct (size_views _ _ _ Hv2) as (Esz & _).
  pose proof (serialize_rest (wd u) r' pb d _ Hv2 Hst2 Hb ltac:(intros E; rewrite E in Hzv; change (zlen []) with 0 in Hzv;
    pose proof (zlen_nonneg (image_env r)); lia) ltac:(rewrite Er; lia)) as Hrest.
  rewrite <- Esz in Hrest. apply wp_bind_inv in Hrest. rq_step. apply wp_on_world. cbn [wd set_wd set_rq].
  eapply wp_mono; [exact Hrest|clear Hrest|done]. intros pb2 w2 Hrest. apply wp_bind_inv in Hrest. rq_step. apply wp_on_world. cbn [wd set_wd set_rq].
  eapply wp_mono; [exact Hrest|clear Hrest|done]. intros p1 w3 Hrest. apply wp_bind_inv in Hrest. rq_step. apply wp_on_world. cbn [wd set_wd set_rq].
  eapply wp_mono; [exact Hrest|clear Hrest|done]. intros p2 w4 (Ed & Eb & Hv4 & Hst4 & Hf4). rq_step.
  assert (views w4 pb2 (image r' content)) as Hi.
  { unfold image. change (image_env r') with (image_env r). by rewrite app_assoc. }
  split_and!; [done|by rewrite Hsent, Hio|]. exists body. split_and!; [done| |done|by eapply filled_contents].
  assert (isNil pb2 = false) as Hnil by (unfold isNil; by rewrite Ed, El).
  pose proof (zlen_nonneg (image_env r)).
  pose proof (sub_views w4 pb2 _ (zlen (image_env r) + 8) (zlen (image_env r) + 8 + n) Hi Hnil ltac:(lia) ltac:(lia)) as Hsub.
  rewrite Eb, Ed, !Z.add_0_l in Hsub. unfold image in Hsub. change (image_env r') with (image_env r) in Hsub.
  rewrite !zlen_app, zlen_enc_str, Er in Hsub. specialize (Hsub ltac:(lia)). fold body in Hsub.
  pose proof (slice_app_mid (image_env r ++ enc_int n) content (image_rest r')) as E.
  rewrite zlen_app, zlen_enc_int, Hzn in E. unfold enc_str in Hsub. rewrite Hzn in Hsub. rewrite <- Er, <- !app_assoc in Hsub. rewrite <- app_assoc in E. by rewrite E in Hsub.
Qed.
End attach_cache.
