(* ===== verification/Filenames.v ===== *)
(** * The file behind a buffer keeps its name

    The request cache tells from the name of the file behind the body of a
    request whether it has the request already.  No operation of a buffer
    changes that name, and nothing [RequestImpl::attach] does. *)
From S2P Require Import Prelude CLib Range Util Containers Buffer FileBuffer DataBuffer BufferUtil.
From S2P Require Import HttpDate Cookie RequestState Parser Serialize RequestImpl.

(** The name of the file behind the object at [l]. *)
Definition impl_name (i : impl) : option bytes :=
  match i with IString _ => None | IFile b => Some (FileBuffer.filename b) end.
Definition name_at (w : world) (l : loc) : option (option bytes) := impl_name ∘ o_impl <$> objs w !! l.

(** Every object is still there, with the same name. *)
Definition keeps_names (w w' : world) : Prop := ∀ l n, name_at w l = Some n → name_at w' l = Some n.
#[export] Instance keeps_names_preorder : PreOrder keeps_names.
Proof. split; [by intros w l n|]. intros u v w H1 H2 l n Hl. auto. Qed.

(** A computation on buffers, and one on a request, that keeps all names. *)
Notation "'keeping' m" := (follows keeps_names m) (at level 10, m at level 9).
Notation "'rkeeping' m" := (follows (λ s t, keeps_names (wd s) (wd t)) m) (at level 10, m at level 9).
#[export] Instance rkeeping_preorder {IO} : PreOrder (λ s t : rstate IO, keeps_names (wd s) (wd t)).
Proof. split; [by intros s l n|]. intros u v w H1 H2 l n Hl. auto. Qed.

Create HintDb names.
(** Steps of [follow] whose leaves are looked up. *)
Ltac names :=
  repeat first [solve [auto with names nocore]|follow_step|
    lazymatch goal with |- follows _ (loop _ _ _) => apply follows_loop; [apply _|intros ?] end]; try done.

(** * Lemmas *)

Section file_names.
Context `{Posix}.

Lemma self_named {I T} (f : I → T) : follows (same_on (λ s : I * bytes, f s.1)) self.
Proof. done. Qed.
Lemma storage_named {I T} (f : I → T) : follows (same_on (λ s : I * bytes, f s.1)) storage.
Proof. done. Qed.
Lemma set_storage_named {I T} (f : I → T) c : follows (same_on (λ s : I * bytes, f s.1)) (set_storage c).
Proof. done. Qed.
Lemma on_file_named {A} (m : M (MMapFile * bytes) A) : follows (same_on (λ s, holder_ s.1)) (FileBuffer.on_file m).
Proof. by apply follows_zoom_any. Qed.
#[local] Hint Resolve self_named storage_named set_storage_named on_file_named : names.

Lemma file_op_named :
  (∀ pos len, follows (same_on (λ s, holder_ s.1)) (FileBuffer.read pos len)) ∧
  (∀ pos data, follows (same_on (λ s, holder_ s.1)) (FileBuffer.write pos data)) ∧
  (∀ pos, follows (same_on (λ s, holder_ s.1)) (FileBuffer.segment pos)) ∧
  (∀ b e buf, follows (same_on (λ s, holder_ s.1)) (FileBuffer.find b e buf)) ∧
  (∀ b e, follows (same_on (λ s, holder_ s.1)) (FileBuffer.trim b e)).
Proof.
  assert (∀ pos left, follows (same_on (λ s : FileBuffer * bytes, holder_ s.1)) (FileBuffer.next_chunk pos left)) as Hc.
  { intros. unfold FileBuffer.next_chunk, FileBuffer.chunk. names. }
  split_and!; intros; unfold FileBuffer.read, FileBuffer.write, FileBuffer.segment, FileBuffer.find, FileBuffer.trim,
    FileBuffer.size; names; [unfold FileBuffer.read_step|unfold FileBuffer.write_step|unfold FileBuffer.find_step|
    unfold FileBuffer.trim_left_step, FileBuffer.at_]; names.
Qed.

(** A call keeps the name of its object, and a new object does not touch the
    others. *)
Lemma dispatch_named {A} (m : M (StringBuffer * bytes) A) (k : M (FileBuffer * bytes) A) :
  follows (same_on (λ s, holder_ s.1)) k → follows (same_on (λ s, impl_name s.1)) (dispatch m k).
Proof.
  intros Hk [[b|b] c]; unfold same_on, dispatch, mbind, M_bind, self, on_string, on_filebuffer, zoom; cbn [fst snd].
  - by destruct (m _) as [[a|e| |] [b' c']].
  - specialize (Hk (b, c)). unfold same_on in Hk. destruct (k (b, c)) as [[a|e| |] [b' c']]; cbn in *; by f_equal.
Qed.

Lemma call_keeps {A} l (m : M (impl * bytes) A) :
  follows (same_on (λ s, impl_name s.1)) m → keeping (call l m).
Proof.
  intros Hm w. unfold call. destruct (objs w !! l) as [[i d]|] eqn:El; [|by intros ? ?].
  cbn [o_data o_impl]. destruct (stores w !! d) as [c|]; [|by intros ? ?].
  specialize (Hm (i, c)). destruct (m (i, c)) as [r [i' c']]. unfold same_on in Hm. cbn in *.
  intros l2 n. unfold name_at. cbn [objs]. destruct (decide (l2 = l)) as [->|Hne].
  - rewrite lookup_insert_eq, El. cbn. by rewrite Hm.
  - by rewrite lookup_insert_ne.
Qed.

Lemma new_object_keeps i d : keeping (new_object i d).
Proof.
  intros w l n. unfold name_at, new_object. cbn [snd objs]. intros Hl. rewrite lookup_insert_ne; [done|].
  intros <-. destruct (objs w !! _) eqn:E; [|done]. apply elem_of_dom_2 in E. by apply is_fresh in E.
Qed.

Lemma new_storage_keeps c : keeping (new_storage c).
Proof. by intros w l n. Qed.

Lemma impl_op_named :
  (∀ pos len, follows (same_on (λ s : impl * bytes, impl_name s.1)) (b_read pos len)) ∧
  (∀ pos data, follows (same_on (λ s : impl * bytes, impl_name s.1)) (b_write pos data)) ∧
  (∀ pos, follows (same_on (λ s : impl * bytes, impl_name s.1)) (b_at pos)) ∧
  (∀ b e buf, follows (same_on (λ s : impl * bytes, impl_name s.1)) (b_find b e buf)) ∧
  (∀ b e, follows (same_on (λ s : impl * bytes, impl_name s.1)) (b_trim b e)) ∧
  (∀ pos, follows (same_on (λ s : impl * bytes, impl_name s.1)) (b_chunk pos)) ∧
  (∀ pos, follows (same_on (λ s : impl * bytes, impl_name s.1)) (b_segment pos)) ∧
  follows (same_on (λ s : impl * bytes, impl_name s.1)) b_size ∧
  (∀ n, follows (same_on (λ s : impl * bytes, impl_name s.1)) (b_resize n)) ∧
  follows (same_on (λ s : impl * bytes, impl_name s.1)) b_getCopy.
Proof.
  destruct file_op_named as (H1 & H2 & H3 & H4 & H5).
  split_and!; intros; apply dispatch_named; cbn; try done; try apply on_file_named.
  unfold FileBuffer.getCopy. names.
Qed.
End file_names.

Section buffers.
Context `{Posix}.

Lemma vcall_keeps {A} b (m : M (impl * bytes) A) :
  follows (same_on (λ s, impl_name s.1)) m → keeping (vcall b m).
Proof. intros Hm. unfold vcall, deref. names. by apply call_keeps. Qed.

#[local] Hint Resolve self_named storage_named set_storage_named vcall_keeps call_keeps new_object_keeps new_storage_keeps : names.
#[local] Hint Extern 1 (follows (same_on (λ s : impl * bytes, impl_name s.1)) _) => apply impl_op_named : names.

Lemma buffer_op_keeps :
  (∀ b x y, keeping (DataBuffer.sub_buffer b x y)) ∧ (∀ d, keeping (DataBuffer.create d)) ∧
  (∀ p n b, keeping (DataBuffer.read p n b)) ∧ (∀ p d b, keeping (DataBuffer.write p d b)) ∧
  (∀ n b, keeping (DataBuffer.resize n b)) ∧ (∀ p b, keeping (DataBuffer.at_ p b)) ∧
  (∀ p d b, keeping (DataBuffer.find p d b)) ∧ (∀ b, keeping (DataBuffer.trim b)).
Proof.
  split_and!; intros; unfold DataBuffer.sub_buffer, DataBuffer.create, DataBuffer.create_impl, DataBuffer.read,
    DataBuffer.write, DataBuffer.resize, DataBuffer.at_, DataBuffer.find, DataBuffer.trim, DataBuffer.checkIndex; names.
Qed.

#[local] Hint Extern 1 (follows keeps_names (DataBuffer.resize _ _)) => apply buffer_op_keeps : names.
#[local] Hint Extern 1 (follows keeps_names (DataBuffer.write _ _ _)) => apply buffer_op_keeps : names.
#[local] Hint Extern 1 (follows keeps_names (DataBuffer.create _)) => apply buffer_op_keeps : names.
#[local] Hint Extern 1 (follows keeps_names (DataBuffer.sub_buffer _ _ _)) => apply buffer_op_keeps : names.

Lemma iterator_keeps :
  (∀ b, keeping (begin_iterator b)) ∧ (∀ it, keeping (iterator_deref it)) ∧ (∀ it, keeping (iterator_next it)) ∧
  (∀ b p d, keeping (poke b p d)).
Proof.
  split_and!; intros; unfold begin_iterator, iterator_deref, iterator_next, poke; names; [unfold deref; names|].
  apply vcall_keeps. names.
Qed.

Lemma serialize_keeps :
  (∀ b p v, keeping (serializeInt b p v)) ∧ (∀ b p v, keeping (serializeString b p v)) ∧
  (∀ r b p, keeping (serializeMaps r b p)) ∧ (∀ r b n, keeping (serializeEnv r b n)) ∧
  (∀ r b p, keeping (serializeFiles r b p)) ∧ (∀ r b p, keeping (serializeArgs r b p)).
Proof.
  assert (∀ b p v, keeping (serializeInt b p v)) as Hi by (intros; unfold serializeInt; names).
  assert (∀ b p v, keeping (serializeString b p v)) as Hs by (intros; unfold serializeString; names).
  assert (∀ b p m, keeping (serializePairs b p m)) as Hp.
  { intros b p m. revert p. induction m as [|nv m IH]; intros p; cbn [serializePairs]; names. }
  assert (∀ r b p, keeping (serializeMaps r b p)) as Hm by (intros; unfold serializeMaps; names).
  assert (∀ body b files p, keeping (serializeFiles_loop body b p files)) as Hf.
  { intros body b files. induction files as [|[n f] files IH]; intros p; cbn [serializeFiles_loop]; names. }
  split_and!; try done; intros; unfold serializeEnv, serializeFiles, serializeArgs; names.
Qed.

#[local] Hint Extern 1 (follows keeps_names (DataBuffer.find _ _ _)) => apply buffer_op_keeps : names.
#[local] Hint Extern 1 (follows keeps_names (DataBuffer.at_ _ _)) => apply buffer_op_keeps : names.
#[local] Hint Extern 1 (follows keeps_names (DataBuffer.trim _)) => apply buffer_op_keeps : names.

Lemma match_keeps eq data : (∀ i b, keeping (match_from eq data i b)) ∧ (∀ n i b, keeping (match_back eq data n i b)).
Proof. induction data as [|x data [IH1 IH2]]; split; intros; cbn [match_from match_back]; names. Qed.

Lemma search_keeps :
  (∀ d b, keeping (DataBuffer.split d b)) ∧ (∀ d b, keeping (DataBuffer.split_char d b)) ∧
  (∀ d b, keeping (DataBuffer.startsWith d b)) ∧ (∀ d b, keeping (DataBuffer.startsWithCI d b)) ∧
  (∀ d b, keeping (DataBuffer.endsWith d b)).
Proof.
  split_and!; intros; unfold DataBuffer.split, DataBuffer.split_char, DataBuffer.startsWith, DataBuffer.startsWithCI,
    DataBuffer.endsWith; names; apply match_keeps.
Qed.

(** The loops over segments, and what they are used for. *)
Lemma for_segments_keeps {A} b (body : A → SegmentIterator → M world A) a :
  (∀ a it, keeping (body a it)) → keeping (for_segments id (λ w _, w) b body a).
Proof.
  intros Hb. destruct iterator_keeps as (I1 & I2 & I3 & I4). unfold for_segments. names; [by eapply follows_zoom|].
  unfold segment_step. names. by eapply follows_zoom.
Qed.

Lemma segment_bytes_keeps it : keeping (segment_bytes it).
Proof.
  destruct iterator_keeps as (I1 & I2 & I3 & I4). unfold segment_bytes, peek. names. apply vcall_keeps. names.
Qed.

Lemma strings_keep :
  (∀ b, keeping (DataBuffer.toString b)) ∧ (∀ b l, keeping (parse_buffer b l)).
Proof.
  assert (∀ b, keeping (urldecode_buffer b)) as Hu.
  { intros. unfold urldecode_buffer. apply for_segments_keeps. intros. names. apply segment_bytes_keeps. }
  destruct search_keeps as (S1 & S2 & _). split; intros.
  - apply for_segments_keeps. intros. names. apply segment_bytes_keeps.
  - unfold parse_buffer. names. unfold parse_buffer_step. names.
Qed.

(** The parts of a form. *)
Lemma part_keeps :
  (∀ f t c, keeping (make_file f t c)) ∧ (∀ p h, keeping (part_headers p h)).
Proof.
  destruct search_keeps as (S1 & S2 & S3 & S4 & S5). destruct strings_keep as [T1 T2]. split; intros.
  - unfold make_file. names.
  - unfold part_headers. names. unfold part_headers_step, header_line, parseLine. names.
    + unfold header_line_step. names.
    + unfold parseLine_step, key_is. names.
Qed.
End buffers.

(** ** What attach does after the buffer of the cache is made *)

Section requests.
Context `{Posix} {IO : Type} `{RequestIOStream IO}.
Context (R : rstate IO → rstate IO → Prop) `{!PreOrder R}
  (R_world : ∀ A (m : M world A), keeping m → follows R (on_world m))
  (R_request : ∀ f, follows R (update_rq f)) (R_read : ∀ n, follows R (on_io (s_read n))).

Lemma read_body_follows body : follows R (read_body body).
Proof.
  destruct iterator_keeps as (I1 & I2 & I3 & I4).
  unfold read_body, for_segments. names; [by apply R_world|]. unfold segment_step. names; [|by apply R_world].
  unfold read_segment. names; by apply R_world.
Qed.

Lemma request_follows : follows R request.
Proof. intros s. reflexivity. Qed.
Lemma run_parser_follows m : follows R (run_parser m).
Proof. unfold run_parser. names; apply request_follows. Qed.

Context `{HashOrder} `{LexicalCast}.

Lemma parse_body_follows : follows R parse_body.
Proof.
  destruct search_keeps as (S1 & S2 & S3 & S4 & S5). destruct strings_keep as [T1 T2]. destruct part_keeps as [P1 P2].
  assert (∀ part, follows R (parsePart part)) as Hp.
  { intros. unfold parsePart. names; by apply R_world. }
  unfold parse_body. names; try apply request_follows; try (by apply R_world).
  unfold Parser.parseMultipart. names. unfold parseMultipart_step. names; by apply R_world.
Qed.

(** [attach] from the state in which the cache has made its buffer. *)
Lemma attach_follows cache env s r n b0 s1 t :
  Parser.parse env (set_stream (rq s) true) = Ret r →
  getRequestMethod r = str "POST" ∨ getRequestMethod r = str "PUT" →
  getContentLength r = Ret n → 0 < n < 2 ^ 31 → minPostSize cache <= n →
  cache_create cache (set_rq r s) = (Ret b0, s1) →
  attach (Some cache) true (Some env) s = (Ret (), t) → R s1 t.
Proof.
  intros Ep Hm Hl Hn Hmin Hc E. pose proof parse_body_follows as Hb.
  destruct serialize_keeps as (K1 & K2 & K3 & K4 & K5 & K6). destruct buffer_op_keeps as (B1 & B2 & B3 & B4 & B5 & B6 & B7 & B8).
  unfold attach in E. cbn [negb] in E. rewrite (run_bind _ _ _ _ _ (eq_refl _ : update_rq _ s = _)) in E. cbn beta in E.
  rewrite (run_bind _ _ () _ (set_rq r s)) in E by (unfold run_parser, mbind, M_bind, request, lift, update_rq; cbn [rq set_rq]; by rewrite Ep). cbn beta in E.
  rewrite (run_bind _ _ _ _ _ (eq_refl _ : request (set_rq r s) = _)) in E. cbn [rq set_rq] in E. cbn zeta in E.
  assert (negb (string_eq (str "POST") (getRequestMethod r)) && negb (string_eq (str "PUT") (getRequestMethod r)) = false)
    as F by (destruct Hm as [-> | ->]; reflexivity).
  rewrite F, Hl in E. rewrite (run_bind _ _ _ _ _ (eq_refl _ : lift (Ret n) (set_rq r s) = _)) in E. cbn beta in E.
  rewrite u64_small in E by (unfold U64_MAX; lia). unfold make_body in E. replace (minPostSize cache <=? n) with true in E by lia.
  apply bind_returns in E as (pb & s2 & E1 & E2). rewrite (run_bind _ _ _ _ _ Hc) in E1. cbn beta in E1.
  match type of E1 with ?m s1 = _ => assert (follows R m) as Hf1 by
    (names; try apply request_follows; try (by apply R_world)) end.
  match type of E2 with ?m s2 = _ => assert (follows R m) as Hf2 by
    (unfold parse_query; names; try apply request_follows; try apply run_parser_follows; try apply read_body_follows; try (by apply R_world)) end.
  specialize (Hf1 s1). specialize (Hf2 s2). rewrite E1 in Hf1. rewrite E2 in Hf2. by etrans.
Qed.
End requests.
