(* ===== verification/Request.v ===== *)
(** * [Request] (library/request.cpp)

    The class the handlers see.  Every method calls the one of [RequestImpl];
    the addresses, the redirections and the content type are built here. *)
From S2P Require Import Prelude CLib Range Util Containers Buffer FileBuffer DataBuffer BufferUtil.
From S2P Require Import HttpDate Cookie RequestState Parser Serialize RequestImpl.

Module Request.

(** ** What a request says *)
Section accessors.
Context `{LexicalCast} (impl : RequestImpl).

Definition getServerPort : outcome Z := RequestImpl.getServerPort impl.
Definition getHost : bytes := RequestImpl.getHost impl.
Definition getServerAddr : bytes := RequestImpl.getServerAddr impl.
Definition getPathInfo : bytes := RequestImpl.getPathInfo impl.
Definition getPathTranslated : bytes := RequestImpl.getPathTranslated impl.
Definition getScriptName : bytes := RequestImpl.getScriptName impl.
Definition getScriptFilename : bytes := RequestImpl.getScriptFilename impl.
Definition getDocumentRoot : bytes := RequestImpl.getDocumentRoot impl.
Definition getRemoteUser : bytes := RequestImpl.getRemoteUser impl.
Definition getRemoteAddr : bytes := RequestImpl.getRemoteAddr impl.
Definition getQueryString : bytes := RequestImpl.getQueryString impl.
Definition getRequestMethod : bytes := RequestImpl.getRequestMethod impl.
Definition getContentLength : outcome Z := RequestImpl.getContentLength impl.
Definition getContentType : bytes := RequestImpl.getContentType impl.
Definition isSecure : bool := RequestImpl.isSecure impl.

Definition getURI : bytes :=
  let res := getScriptName ++ getPathInfo in
  let query_string := getQueryString in
  if negb (Range.empty query_string) then (res ++ ["?"%byte]) ++ query_string else res.

Definition getUrl : bytes :=
  (if isSecure then str "https://" else str "http://") ++ getHost ++ getURI.

Definition countArgs : Z := RequestImpl.countArgs impl.
Definition hasArg (name : bytes) : bool := RequestImpl.hasArg impl name.
Definition getArg (name : bytes) : bytes := RequestImpl.getArg impl name.
Definition getArgs (name : bytes) : list bytes := RequestImpl.getArgs impl name.
Definition argNames : list bytes := RequestImpl.argNames impl.
Definition countHeaders : Z := RequestImpl.countHeaders impl.
Definition hasHeader (name : bytes) : bool := RequestImpl.hasHeader impl name.
Definition getHeader (name : bytes) : bytes := RequestImpl.getHeader impl name.
Definition headerNames : list bytes := RequestImpl.headerNames impl.
Definition countCookie : Z := RequestImpl.countCookie impl.
Definition hasCookie (name : bytes) : bool := RequestImpl.hasCookie impl name.
Definition getCookie (name : bytes) : bytes := RequestImpl.getCookie impl name.
Definition cookieNames : list bytes := RequestImpl.cookieNames impl.
Definition hasFile (name : bytes) : bool := RequestImpl.hasFile impl name.
Definition remoteFiles : list bytes := RequestImpl.remoteFiles impl.
Definition remoteFileName (name : bytes) : bytes := RequestImpl.remoteFileName impl name.
Definition remoteFileType (name : bytes) : bytes := RequestImpl.remoteFileType impl name.
Definition remoteFile `{Posix} (name : bytes) : M world DataBuffer := RequestImpl.remoteFile impl name.
Definition requestBody : DataBuffer := RequestImpl.requestBody impl.
Definition outputHeader (name : bytes) : bytes := RequestImpl.outputHeader impl name.
Definition isProcessed : bool := RequestImpl.isProcessed impl.
Definition status : Z := RequestImpl.status impl.
End accessors.

(** ** What a handler does *)
Section operations.
Context `{HashOrder} `{Posix} `{LexicalCast} {IO : Type} `{RequestIOStream IO}.
(** The cache the request was created with. *)
Context (cache : option (RequestCache IO)).

Definition setCookie (cookie : CookieData) : M (rstate IO) unit := RequestImpl.setCookie cookie.
Definition setStatus (status : Z) : M (rstate IO) unit := RequestImpl.setStatus status.
Definition sendError (status : Z) : M (rstate IO) unit := RequestImpl.sendError status.
Definition setHeader (name value : bytes) : M (rstate IO) unit := RequestImpl.setHeader name value.
Definition write_buf (buf : bytes) : M (rstate IO) unit := RequestImpl.write_buf buf.
Definition write (buf : bytes) : M (rstate IO) Z := RequestImpl.write buf.
Definition reset : M (rstate IO) unit := RequestImpl.reset.
Definition sendHeaders : M (rstate IO) unit := RequestImpl.sendHeaders.
Definition attach (stream : bool) (env : option (list bytes)) : M (rstate IO) unit :=
  RequestImpl.attach cache stream env.
Definition markAsProcessed : M (rstate IO) unit := RequestImpl.markAsProcessed.
Definition tryAgain (delay : Z) : M (rstate IO) unit := RequestImpl.tryAgain delay.
Definition parse (buffer : DataBuffer) : M (rstate IO) unit := RequestImpl.parse_cached buffer.
Definition serialize (buffer : DataBuffer) : M (rstate IO) DataBuffer :=
  r ← request; on_world (Serialize.serialize r buffer).
(** [~Request]. *)
Definition destroy : M (rstate IO) unit := RequestImpl.saveToCache cache.

Definition redirectToPath (path : bytes) : M (rstate IO) unit :=
  setStatus 302;; setHeader (str "Location") path.
Definition redirectBack : M (rstate IO) unit :=
  r ← request; redirectToPath (getHeader r (str "Referer")).
Definition setContentType (type : bytes) : M (rstate IO) unit := setHeader (str "Content-type") type.
Definition setContentEncoding (encoding : bytes) : M (rstate IO) unit :=
  setHeader (str "Content-encoding") encoding.
End operations.
End Request.

(** * Lemmas *)

Section redirect.
Context `{HashOrder} `{Posix} `{LexicalCastOk} {IO : Type} `{StreamLaws IO}.
Implicit Types (s : rstate IO).

(** The request after [redirectToPath]. *)
Definition redirected (path : bytes) (r : RequestImpl) : RequestImpl :=
  set_out_headers (set_status r 302) (hm_set header_eq (str "Location") path (out_headers_ r)).

Lemma redirectToPath_ok path s :
  headers_sent_ (rq s) = false →
  Request.redirectToPath path s = (Ret (), set_rq (redirected path (rq s)) s).
Proof.
  intros Hs. unfold Request.redirectToPath, Request.setStatus, Request.setHeader, RequestImpl.setStatus,
    RequestImpl.setHeader, mbind, M_bind, request. rewrite Hs. simpl. rewrite Hs. done.
Qed.

Lemma redirected_sent path r name :
  hash_wf header_eq (out_headers_ r) →
  Request.outputHeader (after_headers (redirected path r)) name =
  if header_eq (str "Status") name then str "302 Moved Temporarily"
  else if header_eq (str "Location") name then path
  else Request.outputHeader r name.
Proof.
  intros Hw. unfold Request.outputHeader, RequestImpl.outputHeader. cbn.
  assert (hash_wf header_eq (hm_set header_eq (str "Location") path (out_headers_ r))) by by apply (hm_set_wf header_eq).
  rewrite !(get_set header_eq) by done. done.
Qed.
End redirect.

(** * Properties *)

(** Redirecting a request whose headers are not sent gives the client one
    block of headers with status 302 and the path as location; the other
    headers and the cookies are the ones the handler had set. *)
Theorem redirect_answer `{HashOrder} `{Posix} `{LexicalCastOk} {IO} `{StreamLaws IO}
    (s : rstate IO) (path : bytes) :
  headers_sent_ (rq s) = false → stream_ (rq s) = true → answer_ok (rq s) →
  hash_wf header_eq (out_headers_ (rq s)) → short path →
  ∃ t ts, (Request.redirectToPath path;; Request.sendHeaders) s = (Ret (), t) ∧
    Request.status (rq t) = 302 ∧
    (∀ name, Request.outputHeader (rq t) name =
       if header_eq (str "Status") name then str "302 Moved Temporarily"
       else if header_eq (str "Location") name then path
       else Request.outputHeader (rq s) name) ∧
    Forall2 prints (out_cookies_ (rq s)) ts ∧
    sent (io t) = sent (io s) ++ header_block (out_headers_ (rq t)) ts.
Proof.
  intros Hs Hst (Hh & ts & Hts) Hw Hp.
  destruct (proj1 (wp_returns _ _ _) (sendHeaders_ok (set_rq (redirected path (rq s)) s) ts Hs Hst
    (hm_set_ok (str "Location") path _ Hh eq_refl Hp) Hts)) as ([] & t & Et & Er & _ & Eo).
  exists t, ts. unfold mbind, M_bind. rewrite redirectToPath_ok by done.
  split_and!; [exact Et|by rewrite Er| |done|by rewrite Er; exact Eo].
  intros name. rewrite Er. by apply redirected_sent.
Qed.

Lemma redirect_answer_witness : ∃ t,
  (@Request.redirectToPath cons_order decimal_cast Tape (str "/x");;
   @Request.sendHeaders cons_order Tape Tape_stream)
    (MkState attached_request empty_world (MkTape [] [])) = (Ret (), t) ∧
  Request.outputHeader (rq t) (str "location") = str "/x".
Proof.
  destruct (@redirect_answer cons_order small_machine decimal_cast decimal_cast_ok Tape Tape_stream Tape_laws
    (MkState attached_request empty_world (MkTape [] [])) (str "/x")
    eq_refl eq_refl ltac:(split; [constructor|exists []; constructor]) ltac:(constructor)
    ltac:(vm_compute; reflexivity)) as (t & ts & E & _ & Ho & _).
  exists t. split; [exact E|]. rewrite Ho. vm_compute. reflexivity.
Defined.

(** The address of a request can be taken apart again: its first question
    mark separates the path from the query string. *)
Theorem getURI_parts (r : RequestImpl) :
  "?"%byte ∉ Request.getScriptName r → "?"%byte ∉ Request.getPathInfo r →
  Range.split_char "?"%byte (Request.getURI r) =
    (negb (Range.empty (Request.getQueryString r)),
     Request.getScriptName r ++ Request.getPathInfo r, Request.getQueryString r).
Proof.
  intros Hs Hp. assert ("?"%byte ∉ Request.getScriptName r ++ Request.getPathInfo r) as Hn
    by (rewrite not_elem_of_app; done).
  unfold Request.getURI. destruct (Range.empty (Request.getQueryString r)) eqn:E; simpl.
  - apply empty_spec in E. rewrite E. by rewrite Range.split_char_notin.
  - rewrite <- (app_assoc _ ["?"%byte]). simpl. by rewrite Range.split_char_app.
Qed.

Lemma getURI_parts_witness :
  Range.split_char "?"%byte (Request.getURI (set_vars new_request
    [(SCRIPT_NAME_KEY, str "/a"); (QUERY_STRING_KEY, str "b?c")])) = (true, str "/a", str "b?c").
Proof.
  exact (getURI_parts (set_vars new_request [(SCRIPT_NAME_KEY, str "/a"); (QUERY_STRING_KEY, str "b?c")])
    ltac:(by apply (bool_decide_unpack _)) ltac:(by apply (bool_decide_unpack _))).
Defined.
