(* ===== verification/HandlerSet.v ===== *)
(** * Filters of requests and the set of handlers
    (library/request_filter.cpp, library/handlerset.cpp)

    [boost::regex] is a parameter.  A pointer is its address; the component
    set is seen through its [find], on a state of its own. *)
From S2P Require Import Prelude CLib Range Util Containers Buffer FileBuffer DataBuffer BufferUtil.
From S2P Require Import HttpDate Cookie RequestState Parser Serialize RequestImpl Request.

(** ** Config (include/fastcgi2/config.h) *)
Record Config := MkConfig {
  asInt : bytes → outcome Z;
  asIntDef : bytes → Z → outcome Z;
  asString : bytes → outcome bytes;
  asStringDef : bytes → bytes → outcome bytes;
  subKeys : bytes → outcome (list bytes);
}.

(** ** boost::regex

    Compiling a pattern and matching can throw. *)
Class Regex := {
  regex : Type;
  regex_compile : bytes → outcome regex;
  regex_match : bytes → regex → outcome bool;
}.

(** ** Request filters *)

Section filters.
Context `{Regex} `{LexicalCast}.

Record RegexFilter := MkRegexFilter { regex_ : regex }.
Definition RegexFilter_make (pattern : bytes) : outcome RegexFilter :=
  re ← regex_compile pattern; Ret (MkRegexFilter re).
Definition RegexFilter_check (f : RegexFilter) (value : bytes) : outcome bool :=
  regex_match value (regex_ f).

Inductive RequestFilter :=
| UrlFilter (f : RegexFilter)
| HostFilter (f : RegexFilter)
| PortFilter (f : RegexFilter)
| AddressFilter (f : RegexFilter)
| ParamFilter (name : bytes) (f : RegexFilter).

Definition UrlFilter_check (f : RegexFilter) (request : RequestImpl) : outcome bool :=
  RegexFilter_check f (Request.getScriptName request).
Definition HostFilter_check (f : RegexFilter) (request : RequestImpl) : outcome bool :=
  RegexFilter_check f (Request.getHost request).
Definition PortFilter_check (f : RegexFilter) (request : RequestImpl) : outcome bool :=
  port ← Request.getServerPort request;
  RegexFilter_check f (cast_string port).
Definition AddressFilter_check (f : RegexFilter) (request : RequestImpl) : outcome bool :=
  RegexFilter_check f (Request.getServerAddr request).
Definition ParamFilter_check (name : bytes) (f : RegexFilter) (request : RequestImpl) : outcome bool :=
  if negb (Request.hasArg request name) then Ret false
  else RegexFilter_check f (Request.getArg request name).

(** The virtual method. *)
Definition check (f : RequestFilter) : RequestImpl → outcome bool :=
  match f with
  | UrlFilter f => UrlFilter_check f
  | HostFilter f => HostFilter_check f
  | PortFilter f => PortFilter_check f
  | AddressFilter f => AddressFilter_check f
  | ParamFilter name f => ParamFilter_check name f
  end.

(** ** HandlerSet *)

Record HandlerDescription := MkHandlerDescription {
  filters : list (bytes * RequestFilter);
  handlers : list Z;
  poolName : bytes;
  id : bytes;
}.

(** [f->first == tag && !f->second->check(request)]. *)
Definition fails (tag : bytes) (f : bytes * RequestFilter) (request : RequestImpl) : outcome bool :=
  if string_eq f.1 tag then b ← check f.2 request; Ret (negb b) else Ret false.

Definition orelse (m k : outcome bool) : outcome bool := b ← m; if b : bool then Ret true else k.
(** The chain of tests on one filter. *)
Definition filter_fails (f : bytes * RequestFilter) (request : RequestImpl) : outcome bool :=
  orelse (fails (str "url") f request)
    (orelse (fails (str "host") f request)
      (orelse (fails (str "address") f request)
        (orelse (fails (str "port") f request) (fails (str "param") f request)))).

Fixpoint matched (fs : list (bytes * RequestFilter)) (request : RequestImpl) : outcome bool :=
  match fs with
  | [] => Ret true
  | f :: fs => b ← filter_fails f request; if b : bool then Ret false else matched fs request
  end.

Fixpoint findURIHandler (handlers_ : list HandlerDescription) (request : RequestImpl) :
    outcome (option HandlerDescription) :=
  match handlers_ with
  | [] => Ret None
  | i :: handlers_ =>
      b ← matched (filters i) request;
      if b : bool then Ret (Some i) else findURIHandler handlers_ request
  end.

(** [std::set]s as the keys of ordered maps. *)
Definition set_insert {K} `{StdLess K} (s : list (K * unit)) (x : K) : list (K * unit) :=
  map_insert x () s.
Definition findPoolHandlers (handlers_ : list HandlerDescription) (pool : bytes) : list (Z * unit) :=
  foldl (λ s i, if string_eq (poolName i) pool then foldl set_insert s (handlers i) else s) [] handlers_.
Definition getPoolsNeeded (handlers_ : list HandlerDescription) : list (bytes * unit) :=
  foldl (λ s i, set_insert s (poolName i)) [] handlers_.

(** ** init *)

Section init.
Context (config : Config) {C : Type} (find : bytes → M C (option Z)) (as_handler : Z → option Z).

Definition add_filter (tag : bytes) (make : RegexFilter → RequestFilter) (pattern : bytes)
    (fs : list (bytes * RequestFilter)) : outcome (list (bytes * RequestFilter)) :=
  if negb (Range.empty pattern) then
    f ← RegexFilter_make pattern; Ret (fs ++ [(tag, make f)])
  else Ret fs.

Fixpoint add_params (q : list bytes) (fs : list (bytes * RequestFilter)) :
    outcome (list (bytes * RequestFilter)) :=
  match q with
  | [] => Ret fs
  | it :: q =>
      name ← asStringDef config (it ++ str "/@name") [];
      if Range.empty name then add_params q fs
      else
        value ← asStringDef config it [];
        if Range.empty value then add_params q fs
        else
          f ← RegexFilter_make value;
          add_params q (fs ++ [(str "param", ParamFilter name f)])
  end.

Definition init_filters (k : bytes) : outcome (list (bytes * RequestFilter)) :=
  url_filter ← asStringDef config (k ++ str "/@url") [];
  fs ← add_filter (str "url") UrlFilter url_filter [];
  host_filter ← asStringDef config (k ++ str "/@host") [];
  fs ← add_filter (str "host") HostFilter host_filter fs;
  port_filter ← asStringDef config (k ++ str "/@port") [];
  fs ← add_filter (str "port") PortFilter port_filter fs;
  address_filter ← asStringDef config (k ++ str "/@address") [];
  fs ← add_filter (str "address") AddressFilter address_filter fs;
  q ← subKeys config (k ++ str "/param");
  add_params q fs.

Fixpoint init_handlers (components : list bytes) (hs : list Z) : M C (list Z) :=
  match components with
  | [] => mret hs
  | c :: components =>
      componentName ← lift (asString config (c ++ str "/@name"));
      handlerComponent ← find componentName;
      match handlerComponent with
      | None => throw (RuntimeError (str "Cannot find component: " ++ componentName))
      | Some handlerComponent =>
          match as_handler handlerComponent with
          | None => throw (RuntimeError (str "Component " ++ componentName ++
                                          str " does not implement interface Handler"))
          | Some handler => init_handlers components (hs ++ [handler])
          end
      end
  end.

Definition init_handler (k : bytes) : M C HandlerDescription :=
  pool ← lift (asString config (k ++ str "/@pool"));
  handler_id ← lift (asStringDef config (k ++ str "/@id") []);
  fs ← lift (init_filters k);
  components ← lift (subKeys config (k ++ str "/component"));
  hs ← init_handlers components [];
  mret (MkHandlerDescription fs hs pool handler_id).

(** The state is the one of the component set and [handlers_]. *)
Fixpoint init_loop (v : list bytes) : M (C * list HandlerDescription) unit :=
  match v with
  | [] => mret ()
  | k :: v =>
      handlerDesc ← zoom fst (λ c s, (c, s.2)) (init_handler k);
      modify (λ s, (s.1, s.2 ++ [handlerDesc]));;
      init_loop v
  end.
Definition init : M (C * list HandlerDescription) unit :=
  v ← lift (subKeys config (str "/fastcgi/handlers/handler"));
  init_loop v.
End init.

(** ** Specification vocabulary *)

(** The name a filter is registered under. *)
Definition tag_of (f : RequestFilter) : bytes :=
  match f with
  | UrlFilter _ => str "url"
  | HostFilter _ => str "host"
  | PortFilter _ => str "port"
  | AddressFilter _ => str "address"
  | ParamFilter _ _ => str "param"
  end.
Definition tagged (f : bytes * RequestFilter) : Prop := f.1 = tag_of f.2.
Definition desc_wf (d : HandlerDescription) : Prop := Forall tagged (filters d).

(** Every filter of [d] accepts the request; some filter of [d] rejects it and
    those before accept. *)
Definition accepts (r : RequestImpl) (d : HandlerDescription) : Prop :=
  Forall (λ f, check f.2 r = Ret true) (filters d).
Definition rejects (r : RequestImpl) (d : HandlerDescription) : Prop :=
  ∃ pre f post, filters d = pre ++ f :: post ∧
    Forall (λ f, check f.2 r = Ret true) pre ∧ check f.2 r = Ret false.
End filters.

(** * Lemmas *)

Section find_lemmas.
Context `{Regex} `{LexicalCast}.
Implicit Types (f : bytes * RequestFilter) (d : HandlerDescription) (r : RequestImpl).

(** On a filter registered under its own name exactly one of the tests runs it. *)
Lemma filter_fails_tagged f r :
  tagged f → filter_fails f r = (b ← check f.2 r; Ret (negb b)).
Proof.
  destruct f as [t f]. intros E. unfold tagged in E. simpl in E. subst t.
  destruct f; unfold filter_fails, fails, orelse; cbn -[check];
    (destruct (check _ r) as [[]| | |]; reflexivity).
Qed.

Lemma matched_accepts fs r :
  Forall tagged fs → matched fs r = Ret true ↔ Forall (λ f, check f.2 r = Ret true) fs.
Proof.
  induction 1 as [|f fs Hf Hfs IH]; [by split|]. cbn [matched]. rewrite filter_fails_tagged by done.
  rewrite Forall_cons, <- IH. destruct (check f.2 r) as [[]| | |]; simpl; split;
    try (intros [? ?]); try (intros ?; split); congruence.
Qed.

Lemma matched_rejects fs r :
  Forall tagged fs →
  matched fs r = Ret false ↔
  ∃ pre f post, fs = pre ++ f :: post ∧ Forall (λ f, check f.2 r = Ret true) pre ∧ check f.2 r = Ret false.
Proof.
  induction 1 as [|f fs Hf Hfs IH].
  - split; [done|]. by intros ([|] & ? & ? & ? & _).
  - cbn [matched]. rewrite filter_fails_tagged by done. split.
    + destruct (check f.2 r) as [[]| | |] eqn:E; try done; simpl.
      * intros (pre & g & post & -> & Hp & Hg)%IH. exists (f :: pre), g, post. by repeat constructor.
      * intros _. by exists [], f, fs.
    + intros (pre & g & post & Efs & Hp & Hg). destruct pre as [|f' pre]; injection Efs as -> ->.
      * by rewrite Hg.
      * apply Forall_cons in Hp as [Hf' Hp]. rewrite Hf'. simpl. apply IH. by exists pre, g, post.
Qed.

Lemma findURIHandler_some hs r d :
  Forall desc_wf hs →
  findURIHandler hs r = Ret (Some d) ↔
  ∃ l1 l2, hs = l1 ++ d :: l2 ∧ Forall (rejects r) l1 ∧ accepts r d.
Proof.
  intros Hw. induction Hw as [|i hs Hi Hw IH].
  - split; [done|]. by intros ([|] & ? & ? & _).
  - cbn [findURIHandler]. unfold accepts, rejects in *. split.
    + destruct (matched (filters i) r) as [[]| | |] eqn:E; try done; simpl.
      * intros [= ->]. apply matched_accepts in E; [|done]. by exists [], hs.
      * apply matched_rejects in E; [|done]. intros (l1 & l2 & -> & Hl & Hd)%IH.
        exists (i :: l1), l2. by repeat constructor.
    + intros (l1 & l2 & Ehs & Hl & Hd). destruct l1 as [|i' l1]; injection Ehs as -> ->.
      * by rewrite (proj2 (matched_accepts (filters d) r Hi)).
      * apply Forall_cons in Hl as [Hi' Hl]. rewrite (proj2 (matched_rejects (filters i') r Hi)) by done.
        simpl. apply IH. by exists l1, l2.
Qed.

Lemma findURIHandler_none hs r :
  Forall desc_wf hs → findURIHandler hs r = Ret None ↔ Forall (rejects r) hs.
Proof.
  induction 1 as [|i hs Hi Hw IH]; [by split|]. cbn [findURIHandler].
  rewrite Forall_cons, <- IH. unfold rejects. rewrite <- (matched_rejects (filters i) r Hi).
  destruct (matched (filters i) r) as [[]| | |]; simpl; split;
    try (intros [? ?]); try (intros ?; split); congruence.
Qed.

(** A computation that ends, with a value or an exception of the standard library. *)
Definition ends {A} (o : outcome A) : Prop :=
  match o with Ret _ => True | Throw e => e ≠ OtherException | _ => False end.

Lemma ends_bind {A B} (m : outcome A) (k : A → outcome B) : ends m → (∀ a, ends (k a)) → ends (m ≫= k).
Proof. destruct m; simpl; auto. Qed.

(** When matching a text always ends, so does looking for a handler. *)
Lemma findURIHandler_ends hs r :
  (∀ text p, ends (regex_match text p)) → ends (findURIHandler hs r).
Proof.
  intros Hr. assert (∀ f : RequestFilter, ends (check f r)) as Hc.
  { intros [f|f|f|f|name f]; cbn [check]; try apply Hr.
    - apply ends_bind; [|intros; apply Hr]. unfold Request.getServerPort, getServerPort.
      destruct (Range.empty _); [done|]. by destruct (cast_u16 _).
    - unfold ParamFilter_check. destruct (negb _); [done|apply Hr]. }
  assert (∀ tag f, ends (fails tag f r)) as Hf
    by (intros; unfold fails; destruct (string_eq _ _); [by apply ends_bind|done]).
  assert (∀ m k, ends m → ends k → ends (orelse m k)) as Ho by (intros; apply ends_bind; [done|by intros []]).
  assert (∀ fs, ends (matched fs r)) as Hm.
  { induction fs as [|f fs IH]; [done|]. cbn [matched]. apply ends_bind; [|by intros []].
    unfold filter_fails. repeat (apply Ho; [by apply Hf|]). by apply Hf. }
  induction hs as [|i hs IH]; [done|]. cbn [findURIHandler]. apply ends_bind; [done|by intros []].
Qed.

(** A handler that is found is one of the set. *)
Lemma findURIHandler_elem hs r d : findURIHandler hs r = Ret (Some d) → d ∈ hs.
Proof.
  induction hs as [|i hs IH]; [done|]. cbn [findURIHandler].
  destruct (matched (filters i) r) as [[]| | |]; try done; simpl; intros E.
  - injection E as ->. left.
  - right. by apply IH.
Qed.
End find_lemmas.

Section set_lemmas.
Context {K : Type} `{StdLess K}.

Lemma set_insert_sorted s x : sorted_map s → sorted_map (set_insert s x).
Proof. apply map_insert_sorted. Qed.

Lemma set_insert_all l s :
  sorted_map s → sorted_map (foldl set_insert s l) ∧
  ∀ x, x ∈ (foldl set_insert s l).*1 ↔ x ∈ s.*1 ∨ x ∈ l.
Proof.
  revert s. induction l as [|y l IH]; intros s Hs; [split; [done|set_solver]|].
  cbn [foldl]. destruct (IH (set_insert s y)) as [IH1 IH2]; [by apply set_insert_sorted|].
  split; [done|]. intros x. rewrite IH2, elem_of_cons.
  assert (x ∈ (set_insert s y).*1 ↔ x ∈ s.*1 ∨ x = y) as ->; [|naive_solver].
  clear IH1 IH2 Hs. induction s as [|[z []] s IHs]; cbn; [set_solver|].
  destruct (less y z) eqn:E1; [set_solver|]. destruct (less z y) eqn:E2; [set_solver|].
  rewrite (less_total y z) by done. set_solver.
Qed.

Lemma map_find_keys {V} (m : list (K * V)) k :
  sorted_map m → (∃ v, map_find k m = Some v) ↔ k ∈ m.*1.
Proof.
  intros Hm. setoid_rewrite map_find_elem; [|done]. rewrite list_elem_of_fmap. split.
  - intros [v Hv]. by exists (k, v).
  - intros ([k' v] & -> & Hv). by exists v.
Qed.
End set_lemmas.

Section pools_lemmas.
Context `{Regex}.

Lemma getPoolsNeeded_spec hs :
  sorted_map (getPoolsNeeded hs) ∧ ∀ p, p ∈ (getPoolsNeeded hs).*1 ↔ ∃ d, d ∈ hs ∧ poolName d = p.
Proof.
  assert (getPoolsNeeded hs = foldl set_insert [] (poolName <$> hs)) as ->.
  { unfold getPoolsNeeded. generalize (@nil (bytes * unit)) as s. induction hs; intros s; simpl; auto. }
  destruct (set_insert_all (poolName <$> hs) []) as [Hs Hi]; [constructor|]. split; [done|].
  intros p. rewrite Hi, list_elem_of_fmap. set_solver.
Qed.

Lemma findPoolHandlers_spec hs pool :
  sorted_map (findPoolHandlers hs pool) ∧
  ∀ h, h ∈ (findPoolHandlers hs pool).*1 ↔ ∃ d, d ∈ hs ∧ poolName d = pool ∧ h ∈ handlers d.
Proof.
  unfold findPoolHandlers. set (step := λ s i, _).
  assert (∀ s, sorted_map s → sorted_map (foldl step s hs) ∧
    ∀ h, h ∈ (foldl step s hs).*1 ↔ h ∈ s.*1 ∨ ∃ d, d ∈ hs ∧ poolName d = pool ∧ h ∈ handlers d) as Hg.
  { induction hs as [|d hs IH]; intros s Hs; cbn [foldl]; [set_solver|]. unfold step at 2 4, string_eq.
    destruct (bool_decide_reflect (poolName d = pool)) as [Hd|Hd].
    - destruct (set_insert_all (handlers d) s Hs) as [Hs2 Hi]. destruct (IH _ Hs2) as [H1 H2].
      split; [done|]. intros h. rewrite H2, Hi. set_solver.
    - destruct (IH s Hs) as [H1 H2]. split; [done|]. intros h. rewrite H2. set_solver. }
  destruct (Hg []) as [H1 H2]; [constructor|]. split; [done|]. intros h. rewrite H2. set_solver.
Qed.
End pools_lemmas.

Section init_lemmas.
Context `{Regex} (config : Config) {C : Type} (find : bytes → M C (option Z)) (as_handler : Z → option Z).

Lemma add_filter_tagged tag make pattern fs fs' :
  (∀ f, tag_of (make f) = tag) → Forall tagged fs →
  add_filter tag make pattern fs = Ret fs' → Forall tagged fs'.
Proof.
  intros Hm Hf. unfold add_filter. destruct (negb _); [|by intros [= <-]].
  destruct (RegexFilter_make pattern) as [f| | |]; [|done..]. intros [= <-].
  apply Forall_app. split; [done|]. constructor; [by symmetry; apply Hm|constructor].
Qed.

Lemma add_params_tagged q fs fs' :
  Forall tagged fs → add_params config q fs = Ret fs' → Forall tagged fs'.
Proof.
  revert fs. induction q as [|it q IH]; intros fs Hf E; cbn [add_params] in E; [by injection E as <-|].
  returned E. destruct (Range.empty a); [by eapply IH|].
  returned E. destruct (Range.empty a0); [by eapply IH|].
  returned E. eapply IH; [|exact E]. apply Forall_app. split; [done|]. by repeat constructor.
Qed.

Lemma init_filters_tagged k fs : init_filters config k = Ret fs → Forall tagged fs.
Proof.
  intros E. unfold init_filters in E. returned E. eapply add_params_tagged; [|exact E].
  do 4 (eapply add_filter_tagged; cycle 2; [eassumption|done|]). constructor.
Qed.

Lemma init_handlers_length components hs c hs' c' :
  init_handlers config find as_handler components hs c = (Ret hs', c') →
  length hs' = (length hs + length components)%nat.
Proof.
  revert hs c. induction components as [|x components IH]; intros hs c E; cbn [init_handlers] in E.
  - injection E as -> _. simpl. lia.
  - returned E. destruct a0 as [p|]; [|done]. destruct (as_handler p) as [h|]; [|done].
    apply IH in E. rewrite E, length_app. simpl. lia.
Qed.

(** The description the configuration at key [k] asks for. *)
Definition configured (k : bytes) (d : HandlerDescription) : Prop :=
  asString config (k ++ str "/@pool") = Ret (poolName d) ∧
  init_filters config k = Ret (filters d) ∧ desc_wf d ∧
  ∃ components, subKeys config (k ++ str "/component") = Ret components ∧
    length (handlers d) = length components.

Lemma init_handler_configured k c d c' :
  init_handler config find as_handler k c = (Ret d, c') → configured k d.
Proof.
  intros E. unfold init_handler in E. returned E. injection E as <- _.
  repeat match goal with H : lift _ _ = _ |- _ => apply lift_returns in H as [? ->] end.
  split; [done|]. split; [done|]. split.
  - unfold desc_wf. simpl. by eapply init_filters_tagged.
  - eexists. split; [done|]. by apply init_handlers_length in E4.
Qed.

Lemma init_loop_configured v c hs c' hs' :
  init_loop config find as_handler v (c, hs) = (Ret (), (c', hs')) →
  ∃ new, hs' = hs ++ new ∧ Forall2 configured v new.
Proof.
  revert c hs. induction v as [|k v IH]; intros c hs E; cbn [init_loop] in E.
  - injection E as _ ->. exists []. by rewrite app_nil_r.
  - returned E. unfold zoom in E0. cbn in E0. destruct (init_handler _ _ _ k c) as [o c1] eqn:Ek.
    injection E0 as -> <-. unfold modify in E1. injection E1 as _ <-.
    apply IH in E as (new & -> & Hn). exists (a :: new). rewrite <- app_assoc. split; [done|].
    constructor; [by eapply init_handler_configured|done].
Qed.

Lemma init_configured c c' hs :
  init config find as_handler (c, []) = (Ret (), (c', hs)) →
  ∃ v, subKeys config (str "/fastcgi/handlers/handler") = Ret v ∧ Forall2 configured v hs.
Proof.
  intros E. unfold init in E. returned E. apply lift_returns in E0 as [Ev ->].
  apply init_loop_configured in E as (new & -> & Hn). by exists a.
Qed.

Lemma configured_wf v hs : Forall2 configured v hs → Forall desc_wf hs.
Proof. induction 1 as [|k d v hs (_ & _ & Hd & _) _ IH]; by constructor. Qed.
End init_lemmas.

(** ** Examples: patterns that are compared literally, a configuration from a list of its keys *)

Definition literal : Regex :=
  {| regex := bytes; regex_compile := Ret; regex_match v p := Ret (string_eq v p) |}.

(** A configuration that lists the value of every key. *)
Definition listed_config (values : list (bytes * bytes)) (keys : list (bytes * list bytes)) : Config :=
  let find {A} (k : bytes) (l : list (bytes * A)) := snd <$> list_find (λ e, e.1 = k) l in
  let get k := match find k values with Some p => Ret p.2 | None => Throw (RuntimeError k) end in
  let int k : outcome Z :=
    v ← get k; match cast_decimal (2 ^ 31) v return outcome Z with Some n => Ret n | None => Throw BadLexicalCast end in
  {| asInt := int;
     asIntDef k d := match int k with Ret n => Ret n | _ => Ret d end;
     asString := get;
     asStringDef k d := match get k with Ret v => Ret v | _ => Ret d end;
     subKeys k := Ret (match find k keys with Some p => p.2 | None => [] end) |}.

(** Two handlers, the first of them for the address /a only. *)
Definition two_handlers : Config := listed_config
  [(str "h1/@pool", str "p"); (str "h1/@url", str "/a"); (str "c/@name", str "first");
   (str "h2/@pool", str "q"); (str "p1/@name", str "p"); (str "p1/@threads", str "2");
   (str "p1/@queue", str "3"); (str "p2/@name", str "q"); (str "p2/@threads", str "1"); (str "p2/@queue", str "1")]
  [(str "/fastcgi/handlers/handler", [str "h1"; str "h2"]); (str "h1/component", [str "c"]);
   (str "h2/component", [str "c"; str "c"]); (str "/fastcgi/pools/pool", [str "p1"; str "p2"])].
Definition every_component : bytes → M unit (option Z) := λ _, mret (Some 7).

(** * Properties *)

(** C22: A request goes to the first handler of the configuration whose filters all
    accept it, and to none exactly when every handler has a filter that rejects
    it.  The filters of a handler are tried in order and the first rejection
    decides. *)
Theorem findURIHandler_first `{Regex} `{LexicalCast} (config : Config) {C} (find : bytes → M C (option Z))
    (as_handler : Z → option Z) (c c' : C) (hs : list HandlerDescription) (r : RequestImpl) :
  init config find as_handler (c, []) = (Ret (), (c', hs)) →
  (∀ d, findURIHandler hs r = Ret (Some d) ↔
     ∃ l1 l2, hs = l1 ++ d :: l2 ∧ Forall (rejects r) l1 ∧ accepts r d) ∧
  (findURIHandler hs r = Ret None ↔ Forall (rejects r) hs).
Proof.
  intros E. apply init_configured in E as (v & _ & Hc). apply configured_wf in Hc.
  split; [intros d; by apply findURIHandler_some|by apply findURIHandler_none].
Qed.

Lemma findURIHandler_first_witness :
  let r := set_vars new_request [(SCRIPT_NAME_KEY, str "/b")] in
  let hs := (@init literal two_handlers unit every_component Some (tt, [])).2.2 in
  length hs = 2%nat ∧
  ∃ d, @findURIHandler literal decimal_cast hs r = Ret (Some d) ∧ poolName d = str "q" ∧
    ∃ l1 l2, hs = l1 ++ d :: l2 ∧ Forall (@rejects literal decimal_cast r) l1 ∧
      @accepts literal decimal_cast r d.
Proof.
  intros r hs. split; [vm_compute; reflexivity|].
  eexists. split; [vm_compute; reflexivity|]. split; [reflexivity|].
  apply (proj1 (@findURIHandler_first literal decimal_cast two_handlers unit every_component Some tt tt hs r
    ltac:(vm_compute; reflexivity))). vm_compute. reflexivity.
Defined.
