(* ===== verification/XmlConfig.v ===== *)
(** * The configuration (library/config.cpp, library/xml.cpp)

    [Config::create], which finds the file among the arguments of the program,
    and [XmlConfig], which evaluates keys in the document and replaces the
    variables in their values. *)
From S2P Require Import Prelude CLib Range Util Containers HandlerSet.

(** ** libxml2

    Files, documents and nodes, and the message of the last error. *)
Class Libxml := {
  Document : Type;
  xmlNode : Type;
  xmlAttr : Type;
  ifstream : bytes → bool;
  xmlParseFile : bytes → option Document;
  xmlDocGetRootElement : Document → bool;
  xmlXIncludeProcess : Document → Z * Document;
  xmlXPathNewContext : Document → bool;
  xmlXPathEvalExpression : Document → bytes → option (list (option xmlNode));
  children : xmlNode → option xmlNode;
  xmlNodeIsText : xmlNode → bool;
  content : xmlNode → option bytes;
  xmlHasProp : xmlNode → bytes → option xmlAttr;
  attr_children : xmlAttr → option xmlNode;
  xmlGetLastError : option bytes;
}.
(** [boost::regex_search] with the pattern of a variable: the position and the
    length of the match and its groups. *)
Class VariableRegex := { regex_search : bytes → outcome (option (Z * Z * list bytes)) }.

(** ** XmlUtils *)
Section xml_utils.
Context `{Libxml}.
Definition throwUnless (value : bool) : outcome unit :=
  if value then Ret () else Throw (RuntimeError (default (str "unknown xml error") xmlGetLastError)).
Definition child_text (child : option xmlNode) : option bytes :=
  match child with Some c => if xmlNodeIsText c then content c else None | None => None end.
Definition value (node : xmlNode) : option bytes := child_text (children node).
Definition attrValue (node : xmlNode) (name : bytes) : option bytes :=
  match xmlHasProp node name with Some attr => child_text (attr_children attr) | None => None end.
(** [nodeTab[i]] after the test for NULL. *)
Definition node_at (n : option xmlNode) : outcome xmlNode :=
  match n with Some n => Ret n | None => throwUnless false;; Undef end.
Definition evaluate (doc : Document) (key : bytes) : outcome (list (option xmlNode)) :=
  throwUnless (xmlXPathNewContext doc);;
  match xmlXPathEvalExpression doc key with Some ns => Ret ns | None => throwUnless false;; Undef end.
End xml_utils.

(** ** Config::create

    The first argument that is an option with a file, its number counted from [i]. *)
Fixpoint config_option (i : nat) (argv : list bytes) : option (nat * bytes) :=
  match argv with
  | [] => None
  | arg :: argv =>
      let pos := std_find "="%byte arg in
      if is_prefix (str "--config") arg && (Nat.ltb pos (length arg)) then Some (i, drop (S pos) arg)
      else config_option (S i) argv
  end.
Definition swap (i j : nat) (argv : list bytes) : list bytes :=
  match argv !! i, argv !! j with
  | Some x, Some y => <[j := x]> (<[i := y]> argv)
  | _, _ => argv
  end.
(** The configuration, and [argc] and [argv] as they are left; [func] prints the help. *)
Definition create {C} (make : bytes → outcome C) (func : option bytes) (argv : list bytes) :
    outcome (C * (nat * list bytes)) :=
  match config_option 1 (tail argv) with
  | Some (i, file) => conf ← make file; Ret (conf, (length argv - 1, swap i (length argv - 1) argv)%nat)
  | None => Throw (LogicError (default (str "usage: fastcgi-daemon --config=<config file>") func))
  end.

(** ** XmlConfig *)
Section xml_config.
Context `{Libxml} `{VariableRegex} (cast_int : bytes → option Z).

Record XmlConfig := MkXmlConfig {
  doc_ : Document;
  vars_ : list (bytes * bytes);
}.

Fixpoint insert_variables (ns : list (option xmlNode)) (vars : list (bytes * bytes)) : outcome (list (bytes * bytes)) :=
  match ns with
  | [] => Ret vars
  | n :: ns =>
      node ← node_at n;
      match value node, attrValue node (str "name") with
      | Some val, Some name => insert_variables ns (map_insert name val vars)
      | _, _ => Throw (LogicError (str "bad variable definition"))
      end
  end.
Definition findVariables (doc : Document) : outcome (list (bytes * bytes)) :=
  ns ← evaluate doc (str "/fastcgi/variables/variable"); insert_variables ns [].

(** [XmlConfig(file)]; nothing in it throws a [std::ios::failure]. *)
Definition make (file : bytes) : outcome XmlConfig :=
  if negb (ifstream file) then Throw (RuntimeError (str "can not open " ++ file))
  else
    match xmlParseFile file with
    | None => throwUnless false;; Undef
    | Some doc =>
        if negb (xmlDocGetRootElement doc) then Throw (LogicError (str "got empty config"))
        else
          let '(n, doc) := xmlXIncludeProcess doc in
          throwUnless (0 <=? n);;
          vars ← findVariables doc;
          Ret (MkXmlConfig doc vars)
    end.

Definition findVariable (c : XmlConfig) (key : bytes) : outcome bytes :=
  match map_find key (vars_ c) with
  | Some v => Ret v
  | None => Throw (RuntimeError (str "nonexistent variable " ++ key))
  end.
(** [val.replace(pos, len, v)]. *)
Definition replace (pos len : Z) (v val : bytes) : outcome bytes :=
  if zlen val <? pos then Throw OutOfRange
  else Ret (take (Z.to_nat pos) val ++ v ++ drop (Z.to_nat (pos + len)) val).
Fixpoint resolveVariables (fuel : nat) (c : XmlConfig) (val : bytes) : outcome bytes :=
  match fuel with
  | O => NoFuel
  | S fuel =>
      res ← regex_search val;
      match res with
      | None => Ret val
      | Some (pos, len, [key]) =>
          v ← findVariable c key;
          val ← replace pos len v val;
          resolveVariables fuel c val
      | Some _ => resolveVariables fuel c val
      end
  end.

Section keys.
Context (fuel : nat) (c : XmlConfig).
Definition asString (key : bytes) : outcome bytes :=
  ns ← evaluate (doc_ c) key;
  match ns with
  | [] => Throw (RuntimeError (str "nonexistent config param: " ++ key))
  | n :: _ => node ← node_at n; resolveVariables fuel c (default [] (value node))
  end.
Definition asStringDef (key defval : bytes) : outcome bytes :=
  match asString key with Throw _ => Ret defval | r => r end.
Definition asInt (key : bytes) : outcome Z :=
  v ← asString key; match cast_int v with Some n => Ret n | None => Throw BadLexicalCast end.
Definition asIntDef (key : bytes) (defval : Z) : outcome Z :=
  match asInt key with Throw _ => Ret defval | r => r end.
Fixpoint sub_keys (key : bytes) (i : Z) (ns : list (option xmlNode)) : outcome (list bytes) :=
  match ns with
  | [] => Ret []
  | n :: ns =>
      node_at n;;
      v ← sub_keys key (i + 1) ns;
      Ret ((key ++ str "[" ++ decimal (i + 1) ++ str "]") :: v)
  end.
Definition subKeys (key : bytes) : outcome (list bytes) :=
  ns ← evaluate (doc_ c) key; sub_keys key 0 ns.

(** What the components see. *)
Definition config : Config :=
  {| HandlerSet.asInt := asInt; HandlerSet.asIntDef := asIntDef; HandlerSet.asString := asString;
     HandlerSet.asStringDef := asStringDef; HandlerSet.subKeys := subKeys |}.
End keys.
End xml_config.

(** ** The pattern

    A reference is a dollar and a name in braces; a name begins with a letter
    and goes on with letters, digits and dashes. *)
Definition is_alpha (c : byte) : bool := isupper_int (uchar c) || islower_int (uchar c).
Definition name_char (c : byte) : bool := is_alpha c || isdigit_int (uchar c) || bool_decide (c = "-"%byte).
Definition valid_name (n : bytes) : bool :=
  match n with [] => false | c :: t => is_alpha c && forallb name_char t end.
Definition reference (n : bytes) : bytes := "$"%byte :: "{"%byte :: n ++ ["}"%byte].

(** The name of the reference at the front of a text. *)
Fixpoint name_end (s : bytes) : option bytes :=
  match s with
  | [] => None
  | c :: t =>
      if decide (c = "}"%byte) then Some []
      else if name_char c then cons c <$> name_end t else None
  end.
Definition ref_at (s : bytes) : option bytes :=
  match s with
  | d :: b :: c :: t =>
      if decide (d = "$"%byte) then
        if decide (b = "{"%byte) then if is_alpha c then cons c <$> name_end t else None else None
      else None
  | _ => None
  end.
(** The first reference of a text: what is before it, its name, what is after it. *)
Fixpoint first_ref (s : bytes) : option (bytes * bytes * bytes) :=
  match s with
  | [] => None
  | c :: t =>
      match ref_at s with
      | Some n => Some ([], n, drop (length n + 3) s)
      | None => match first_ref t with Some (a, n, r) => Some (c :: a, n, r) | None => None end
      end
  end.

(** [regex_search] finds the first match. *)
Class VariableRegexOk `{VariableRegex} := {
  regex_search_first s : regex_search s =
    Ret (match first_ref s with Some (a, n, _) => Some (zlen a, zlen n + 3, [n]) | None => None end);
}.

(** ** Specification vocabulary *)

(** Every dollar of the text begins a reference. *)
Fixpoint clean (s : bytes) : Prop :=
  match s with [] => True | c :: t => (c = "$"%byte → ref_at s ≠ None) ∧ clean t end.
Definition no_dollar (s : bytes) : Prop := "$"%byte ∉ s.

Section spec.
Context (vars : list (bytes * bytes)).

(** [t] is [s] with its references replaced, those in the values that are put
    in as well. *)
Inductive expands : bytes → bytes → Prop :=
| expands_text a : no_dollar a → expands a a
| expands_ref a n v v' c c' :
    no_dollar a → valid_name n = true → map_find n vars = Some v → expands v v' → expands c c' →
    expands (a ++ reference n ++ c) (a ++ v' ++ c').

(** A weight [w] of the names; a dollar that begins no reference weighs [B]. *)
Fixpoint weight (w : bytes → nat) (B : nat) (s : bytes) : nat :=
  match s with
  | [] => O
  | c :: t =>
      (if decide (c = "$"%byte) then match ref_at s with Some n => w n | None => B end else O) + weight w B t
  end%nat.
(** The variables do not refer to each other in a circle: their values weigh
    less than they do. *)
Definition acyclic (w : bytes → nat) (B : nat) : Prop :=
  (∀ n, (w n ≤ B)%nat) ∧
  ∀ n v, map_find n vars = Some v → clean v ∧ (weight w B v < w n)%nat.
End spec.

(** * Lemmas *)

Lemma name_char_brace c : name_char c = true → c ≠ "}"%byte ∧ c ≠ "$"%byte ∧ c ≠ "{"%byte.
Proof. destruct c; vm_compute; intros; split_and!; congruence. Qed.
Lemma is_alpha_name c : is_alpha c = true → name_char c = true.
Proof. unfold name_char. by intros ->. Qed.
Lemma valid_name_chars n : valid_name n = true → forallb name_char n = true.
Proof.
  destruct n as [|c t]; [done|]. cbn. intros [Hc Ht]%andb_true_iff. by rewrite (is_alpha_name c Hc).
Qed.

Lemma name_end_some s n : name_end s = Some n → forallb name_char n = true ∧ ∃ t, s = n ++ "}"%byte :: t.
Proof.
  revert n. induction s as [|c s IH]; intros n; cbn [name_end]; [done|].
  case_decide as Hc; [intros [= <-]; subst; split; [done|by exists s]|].
  destruct (name_char c) eqn:En; [|done]. destruct (name_end s) as [m|]; [|done]. intros [= <-].
  destruct (IH m eq_refl) as [Hm (t & ->)]. cbn. rewrite En. split; [done|by exists t].
Qed.
Lemma name_end_app n t : forallb name_char n = true → name_end (n ++ "}"%byte :: t) = Some n.
Proof.
  induction n as [|c n IH]; cbn; [done|]. intros [Hc Hn]%andb_true_iff.
  destruct (name_char_brace c Hc) as (Hb & _). rewrite decide_False by done. by rewrite Hc, IH.
Qed.

Lemma ref_at_some s n : ref_at s = Some n → valid_name n = true ∧ ∃ t, s = reference n ++ t.
Proof.
  destruct s as [|d [|b [|c s]]]; cbn [ref_at]; try done. do 2 (case_decide; [|done]). subst.
  destruct (is_alpha c) eqn:Ec; [|done]. destruct (name_end s) as [m|] eqn:E; [|done]. intros [= <-].
  destruct (name_end_some s m E) as [Hm (t & ->)]. cbn. rewrite Ec. split; [done|]. exists t.
  unfold reference. by simplify_list_eq.
Qed.
Lemma ref_at_reference n t : valid_name n = true → ref_at (reference n ++ t) = Some n.
Proof.
  destruct n as [|c n]; [done|]. cbn. rewrite !decide_True by done. intros [Hc Hn]%andb_true_iff.
  rewrite Hc. rewrite <- app_assoc. cbn [app]. by rewrite name_end_app.
Qed.
Lemma ref_at_app s t n : ref_at s = Some n → ref_at (s ++ t) = Some n.
Proof. intros (Hn & u & ->)%ref_at_some. rewrite <- app_assoc. by apply ref_at_reference. Qed.
Lemma ref_at_dollar c s : c ≠ "$"%byte → ref_at (c :: s) = None.
Proof. intros Hc. destruct s as [|b [|e s]]; cbn; try done. by rewrite decide_False. Qed.

Lemma zlen_reference n : zlen (reference n) = zlen n + 3.
Proof. unfold reference. rewrite !zlen_cons, zlen_app. change (zlen ["}"%byte]) with 1. lia. Qed.
Lemma drop_reference n t : drop (length n + 3) (reference n ++ t) = t.
Proof.
  assert (length n + 3 = length (reference n))%nat as -> by (unfold reference; cbn; rewrite length_app; cbn; lia).
  apply drop_app_length.
Qed.

(** No reference begins in the first part of [a ++ x]. *)
Definition no_ref_in (a x : bytes) : Prop := ∀ b c, a = b ++ c → c ≠ [] → ref_at (c ++ x) = None.

Lemma first_ref_some s a n r :
  first_ref s = Some (a, n, r) → s = a ++ reference n ++ r ∧ valid_name n = true ∧ no_ref_in a (reference n ++ r).
Proof.
  revert a n r. induction s as [|c s IH]; intros a n r; cbn [first_ref]; [done|].
  destruct (ref_at (c :: s)) as [m|] eqn:E.
  - intros [= <- <- <-]. destruct (ref_at_some _ _ E) as [Hm (t & Et)]. rewrite Et, drop_reference.
    split_and!; [done|done|]. intros b e Hb He. by destruct b, e.
  - destruct (first_ref s) as [[[a' n'] r']|]; [|done]. intros [= <- <- <-].
    destruct (IH _ _ _ eq_refl) as (-> & Hn & Ha). split_and!; [done|done|].
    intros [|x b] e Hb He; cbn in Hb; [subst e; exact E|]. injection Hb as -> Hb. by eapply Ha.
Qed.

Lemma first_ref_none s : first_ref s = None → no_ref_in s [].
Proof.
  induction s as [|c s IH]; cbn [first_ref]; [intros _ b e Hb He; by destruct b, e|].
  destruct (ref_at (c :: s)) as [m|] eqn:E; [done|]. destruct (first_ref s) as [[[a n] r]|]; [done|].
  intros _ [|x b] e Hb He; cbn in Hb; rewrite app_nil_r; [by subst e|]. injection Hb as -> Hb.
  rewrite <- (app_nil_r e). by eapply IH.
Qed.

Lemma first_ref_text a s : no_dollar a → first_ref (a ++ s) =
  match first_ref s with Some (b, n, r) => Some (a ++ b, n, r) | None => None end.
Proof.
  unfold no_dollar. induction a as [|c a IH]; intros Ha; cbn [app].
  - by destruct (first_ref s) as [[[b n] r]|].
  - rewrite not_elem_of_cons in Ha. destruct Ha as [Hc Ha]. cbn [first_ref]. rewrite ref_at_dollar by done.
    rewrite IH by done. by destruct (first_ref s) as [[[b n] r]|].
Qed.
Lemma first_ref_reference n s : valid_name n = true → first_ref (reference n ++ s) = Some ([], n, s).
Proof.
  intros Hn. pose proof (ref_at_reference n s Hn) as E. pose proof (drop_reference n s) as Ed.
  unfold reference in *. cbn [app first_ref] in *. by rewrite E, Ed.
Qed.

Arguments reference : simpl never.

(** ** The arguments of the program *)

Definition no_option (x : bytes) : Prop := is_prefix (str "--config") x = false ∨ "="%byte ∉ x.

Lemma config_option_some i l j file :
  config_option i l = Some (j, file) →
  ∃ before arg back name, l = before ++ arg :: back ∧ arg = name ++ "="%byte :: file ∧ ("="%byte ∉ name) ∧
    is_prefix (str "--config") arg = true ∧ j = (i + length before)%nat ∧ Forall no_option before.
Proof.
  revert i. induction l as [|arg l IH]; intros i; cbn [config_option]; [done|].
  destruct (is_prefix (str "--config") arg && (Nat.ltb (std_find "="%byte arg) (length arg))) eqn:Ec.
  - intros [= <- <-]. apply andb_true_iff in Ec as [Hp Hl%Nat.ltb_lt].
    destruct (std_find_split "="%byte arg) as [Hno|(h & t & -> & Hh)]; [rewrite std_find_notin in Hl by done; lia|].
    exists [], (h ++ "="%byte :: t), l, h. rewrite std_find_app by done. split_and!; [done| |done|done|cbn; lia|done].
    by rewrite drop_app_ge, Nat.sub_succ_l, Nat.sub_diag by lia.
  - intros E. destruct (IH _ E) as (before & a & back & name & -> & -> & Hn & Hp & -> & Hf).
    exists (arg :: before), (name ++ "="%byte :: file), back, name. split_and!; [done..|cbn; lia|].
    constructor; [|done]. apply andb_false_iff in Ec as [Ec|Ec%Nat.ltb_ge]; [by left|right]. intros Hin.
    destruct (std_find_split "="%byte arg) as [Hno|(h & t & -> & Hh)]; [done|].
    rewrite std_find_app, length_app in Ec by done. cbn in Ec. lia.
Qed.

Lemma config_option_none i l : config_option i l = None → Forall no_option l.
Proof.
  revert i. induction l as [|arg l IH]; intros i; cbn [config_option]; [by constructor|].
  destruct (_ && _) eqn:Ec; [done|]. intros E. constructor; [|by eapply IH].
  apply andb_false_iff in Ec as [Ec|Ec%Nat.ltb_ge]; [by left|right]. intros Hin.
  destruct (std_find_split "="%byte arg) as [Hno|(h & t & -> & Hh)]; [done|].
  rewrite std_find_app, length_app in Ec by done. cbn in Ec. lia.
Qed.

Lemma swap_last (front : list bytes) (arg : bytes) (back : list bytes) :
  let l := front ++ arg :: back in
  swap (length front) (length l - 1) l ≡ₚ l ∧ last (swap (length front) (length l - 1) l) = Some arg.
Proof.
  intros l. assert (l !! length front = Some arg) as Hi by (unfold l; by rewrite lookup_app_r, Nat.sub_diag by lia).
  destruct (lookup_lt_is_Some_2 l (length l - 1)) as [y Hy]; [unfold l; rewrite length_app; cbn; lia|].
  unfold swap. rewrite Hi, Hy. split; [by apply Permutation_insert_swap|].
  rewrite last_lookup, !length_insert, <- Nat.sub_1_r, list_lookup_insert_eq; [done|].
  rewrite length_insert. by apply lookup_lt_Some in Hy.
Qed.

(** ** Weights *)
Section weights.
Context (w : bytes → nat) (B : nat) (Hw : ∀ n, (w n ≤ B)%nat).

Lemma weight_front_le a x y : no_ref_in a x → (weight w B (a ++ y) + weight w B x ≤ weight w B (a ++ x) + weight w B y)%nat.
Proof using Hw.
  induction a as [|c a IH]; intros Ha; cbn [app]; [lia|]. cbn [weight].
  assert (no_ref_in a x) as Ha' by (intros b e -> He; by eapply (Ha (c :: b))). specialize (IH Ha').
  pose proof (Ha [] (c :: a) eq_refl ltac:(done)) as E. cbn [app] in E. rewrite E.
  case_decide; [|lia]. destruct (ref_at (c :: a ++ y)) as [n|]; [pose proof (Hw n)|]; lia.
Qed.

Lemma weight_no_dollar a x : no_dollar a → weight w B (a ++ x) = weight w B x.
Proof using.
  unfold no_dollar. induction a as [|c a IH]; [done|]. rewrite not_elem_of_cons. intros [Hc Ha]. cbn [app weight].
  rewrite decide_False by done. by rewrite IH.
Qed.

Lemma weight_reference n x : valid_name n = true → weight w B (reference n ++ x) = (w n + weight w B x)%nat.
Proof using.
  intros Hn. pose proof (ref_at_reference n x Hn) as E. unfold reference in *. cbn [app weight] in *. rewrite E.
  rewrite decide_True, decide_False by done. rewrite <- app_assoc. cbn [Nat.add].
  rewrite weight_no_dollar; [by cbn|]. unfold no_dollar. apply valid_name_chars in Hn.
  intros Hin. rewrite forallb_forall in Hn.
  by apply list_elem_of_In, Hn, name_char_brace in Hin as (_ & ? & _).
Qed.

Lemma weight_clean v x : clean v → weight w B (v ++ x) = (weight w B v + weight w B x)%nat.
Proof using.
  induction v as [|c v IH]; [done|]. intros [Hc Hv]. cbn [app weight]. rewrite IH by done.
  case_decide; [|done]. destruct (ref_at (c :: v)) as [n|] eqn:E; [|by destruct Hc].
  pose proof (ref_at_app _ x _ E) as E'. cbn [app] in E'. rewrite E'. lia.
Qed.
End weights.

(** ** resolveVariables *)
Section resolve.
Context `{Libxml} `{VariableRegexOk}.
Implicit Types (c : XmlConfig).

Lemma replace_middle (a m r v : bytes) : replace (zlen a) (zlen m) v (a ++ m ++ r) = Ret (a ++ v ++ r).
Proof.
  unfold replace. pose proof (zlen_nonneg m). pose proof (zlen_nonneg r). rewrite !zlen_app.
  replace (_ <? zlen a) with false by lia. rewrite to_nat_zlen, take_app_length.
  replace (Z.to_nat (zlen a + zlen m)) with (length (a ++ m)) by (rewrite length_app; unfold zlen; lia).
  by rewrite (app_assoc a m), drop_app_length.
Qed.

(** One turn of the loop. *)
Lemma resolve_turn fuel c val : resolveVariables (S fuel) c val =
  match first_ref val with
  | None => Ret val
  | Some (a, n, r) => v ← findVariable c n; resolveVariables fuel c (a ++ v ++ r)
  end.
Proof.
  cbn [resolveVariables]. rewrite regex_search_first. cbn.
  destruct (first_ref val) as [[[a n] r]|] eqn:E; [|done]. cbn.
  destruct (findVariable c n) as [v|e| |]; cbn; try done.
  apply first_ref_some in E as (-> & _ & _). by rewrite <- zlen_reference, replace_middle.
Qed.

Lemma resolve_expands_in c val val' :
  expands (vars_ c) val val' → ∀ pre post, no_dollar pre → no_dollar val' ∧
  ∃ k, ∀ fuel, resolveVariables (k + fuel) c (pre ++ val ++ post) = resolveVariables fuel c (pre ++ val' ++ post).
Proof.
  induction 1 as [a Ha|a n v v' s s' Ha Hn Hv _ IHv _ IHs]; intros pre post Hpre; [split; [done|]; by exists O|].
  assert (no_dollar (pre ++ a)) as Hpa by (unfold no_dollar in *; set_solver).
  destruct (IHv (pre ++ a) (s ++ post) Hpa) as [Hv' (kv & Ev)].
  assert (no_dollar (pre ++ a ++ v')) as Hpv by (unfold no_dollar in *; set_solver).
  destruct (IHs (pre ++ a ++ v') post Hpv) as [Hs' (ks & Es)].
  split; [unfold no_dollar in *; set_solver|]. exists (S (kv + ks))%nat. intros fuel.
  cbn [Nat.add]. rewrite resolve_turn.
  replace (pre ++ (a ++ reference n ++ s) ++ post) with ((pre ++ a) ++ reference n ++ s ++ post)
    by by rewrite <- !app_assoc.
  rewrite first_ref_text, first_ref_reference by done. cbn. unfold findVariable. rewrite Hv. cbn.
  rewrite app_nil_r, <- Nat.add_assoc, Ev.
  replace ((pre ++ a) ++ v' ++ s ++ post) with ((pre ++ a ++ v') ++ s ++ post) by by rewrite <- !app_assoc.
  rewrite Es. by rewrite <- !app_assoc.
Qed.

(** Every turn makes the text lighter. *)
Lemma turn_lighter c w B val a n r v :
  acyclic (vars_ c) w B → first_ref val = Some (a, n, r) → findVariable c n = Ret v →
  (weight w B (a ++ v ++ r) < weight w B val)%nat.
Proof.
  intros [Hw Ha] (-> & Hn & Hno)%first_ref_some Hv. unfold findVariable in Hv.
  destruct (map_find n (vars_ c)) as [v'|] eqn:E; [|done]. injection Hv as ->. destruct (Ha n v E) as [Hc Hlt].
  pose proof (weight_front_le w B Hw a (reference n ++ r) (v ++ r) Hno) as Hle.
  rewrite weight_reference in Hle by done. rewrite (weight_clean w B v r) in Hle by done. lia.
Qed.
End resolve.

(** * Properties *)



(** A variable that refers to itself is replaced for ever. *)
Theorem resolve_diverges `{Libxml} `{VariableRegexOk} (c : XmlConfig) (n a b : bytes) (fuel : nat) :
  valid_name n = true → no_dollar a → map_find n (vars_ c) = Some (a ++ reference n ++ b) →
  resolveVariables fuel c (reference n) = NoFuel.
Proof.
  intros Hn Ha Hv.
  cut (∀ pre post, no_dollar pre → resolveVariables fuel c (pre ++ reference n ++ post) = NoFuel).
  { intros Hc. specialize (Hc [] []). rewrite app_nil_r in Hc. apply Hc. unfold no_dollar. set_solver. }
  induction fuel as [|fuel IH]; intros pre post Hpre; [done|].
  rewrite resolve_turn, first_ref_text, first_ref_reference by done. cbn. unfold findVariable. rewrite Hv. cbn.
  rewrite app_nil_r. replace (pre ++ (a ++ reference n ++ b) ++ post) with ((pre ++ a) ++ reference n ++ b ++ post)
    by by rewrite <- !app_assoc.
  apply IH. unfold no_dollar in *. set_solver.
Qed.

(** The file an option names is the text after its equals sign, the arguments
    are kept but for their order, with the option as the last one, which is no
    longer counted; an earlier argument names no file. *)
Theorem create_option {C} (make : bytes → outcome C) (func : option bytes) (argv : list bytes) :
  match create make func argv with
  | Ret (conf, (argc, argv')) => ∃ front arg back name file,
      argv = front ++ arg :: back ∧ front ≠ [] ∧ arg = name ++ "="%byte :: file ∧ ("="%byte ∉ name) ∧
      is_prefix (str "--config") arg = true ∧ make file = Ret conf ∧
      Forall no_option (tail front) ∧
      argv' ≡ₚ argv ∧ S argc = length argv ∧ last argv' = Some arg
  | Throw e => (∃ file, make file = Throw e) ∨
      e = LogicError (default (str "usage: fastcgi-daemon --config=<config file>") func) ∧
      Forall no_option (tail argv)
  | _ => True
  end.
Proof.
  unfold create. destruct (config_option 1 (tail argv)) as [[i file]|] eqn:E.
  - destruct argv as [|prog l]; [done|]. cbn [tail] in E.
    apply config_option_some in E as (before & arg & back & name & -> & -> & Hn & Hp & -> & Hf).
    destruct (make file) as [conf|e| |] eqn:Em; unfold mbind, outcome_bind;
      [|by left; exists file|done|done].
    exists (prog :: before), (name ++ "="%byte :: file), back, name, file.
    pose proof (swap_last (prog :: before) (name ++ "="%byte :: file) back) as [Hs Hl].
    split_and!; [done..|exact Hs| |exact Hl]. cbn [length]. lia.
  - right. split; [done|]. by eapply config_option_none.
Qed.

(** ** Examples: documents that list the nodes of their keys, a node being its
    text and its name *)

Definition listed_node : Type := option bytes * option bytes.
#[local] Instance listed_xml : Libxml :=
  {| Document := list (bytes * list (option listed_node)); xmlNode := listed_node; xmlAttr := bytes;
     ifstream f := negb (Range.empty f);
     xmlParseFile f := Some [
       (str "/fastcgi/variables/variable",
        [Some (Some (str "/var/${name}"), Some (str "dir")); Some (Some (str "fcgi"), Some (str "name"));
         Some (Some (str "other"), Some (str "name"))]);
       (str "/fastcgi/daemon/pidfile", [Some (Some (str "${dir}/${name}.pid"), None)])];
     xmlDocGetRootElement _ := true; xmlXIncludeProcess d := (0, d); xmlXPathNewContext _ := true;
     xmlXPathEvalExpression d k :=
       Some (match list_find (λ e, e.1 = k) d with Some (_, e) => e.2 | None => [] end);
     children n := Some n; xmlNodeIsText _ := true; content n := n.1;
     xmlHasProp n k := if decide (k = str "name") then n.2 else None;
     attr_children a := Some (Some a, None); xmlGetLastError := None |}.
#[local] Instance scanning : VariableRegex :=
  {| regex_search s :=
       Ret (match first_ref s with Some (a, n, _) => Some (zlen a, zlen n + 3, [n]) | None => None end) |}.
#[local] Instance scanning_ok : VariableRegexOk.
Proof. by split. Qed.

Definition two_variables : XmlConfig :=
  MkXmlConfig [] [(str "dir", str "/var/${name}"); (str "name", str "fcgi")].
Example make_two_variables :
  (c ← make (str "config"); Ret (vars_ c)) = Ret (vars_ two_variables) ∧
  (c ← make (str "config"); asString 9 c (str "/fastcgi/daemon/pidfile")) = Ret (str "/var/fcgi/fcgi.pid").
Proof. split; vm_compute; reflexivity. Qed.

Definition name_weight (n : bytes) : nat := if decide (n = str "dir") then 2%nat else 1%nat.
#[local] Lemma two_variables_acyclic : acyclic (vars_ two_variables) name_weight 2.
Proof.
  split; [intros n; unfold name_weight; case_decide; lia|]. intros n v Hv.
  apply map_find_elem in Hv; [|repeat constructor].
  unfold two_variables in Hv. cbn [vars_] in Hv. rewrite !elem_of_cons, elem_of_nil in Hv. destruct Hv as [[= -> ->]|[[= -> ->]|[]]].
  - split; [|vm_compute; lia]. cbn. repeat split; intros; discriminate.
  - split; [|vm_compute; lia]. cbn. repeat split; intros; discriminate.
Qed.



Lemma resolve_diverges_witness :
  ∀ fuel, resolveVariables fuel (MkXmlConfig [] [(str "x", str "a${x}")]) (reference (str "x")) = NoFuel.
Proof.
  intros fuel. apply (resolve_diverges _ (str "x") (str "a") []); [reflexivity|unfold no_dollar; compute_done|].
  vm_compute. reflexivity.
Defined.
