(* ===== verification/ComponentSet.v ===== *)
(** * The components of the daemon (library/componentset.cpp)

    Components are created in the order of the configuration and then loaded.
    A component may look others up while it is loaded, which loads them first;
    [onLoad] is therefore given [find] as an argument. *)
From S2P Require Import Prelude CLib Range Util Containers Buffer FileBuffer DataBuffer BufferUtil.
From S2P Require Import HttpDate Cookie RequestState Parser Serialize RequestImpl Request HandlerSet.

Record ComponentContainer := MkContainer {
  component : Z;
  context : bytes;
  isLoadingStarted : bool;
}.
Record ComponentSet := MkComponentSet {
  components_ : list (bytes * ComponentContainer);
  loadingStack_ : list bytes;
}.

(** [ComponentSet()]. *)
Definition empty_set : ComponentSet := MkComponentSet [] [].
Definition start_loading (c : ComponentContainer) : ComponentContainer :=
  MkContainer (component c) (context c) true.

Section component_set.
(** The factories of the loader, [None] for an unknown type; the methods of
    the components; and [what()]. *)
Context (findComponentFactory : bytes → option (bytes → outcome Z)).
Context (onLoad : (bytes → M ComponentSet (option Z)) → Z → M ComponentSet unit).
Context (what : exn → bytes).

Definition isComponentLoaded (name : bytes) (s : ComponentSet) : bool :=
  existsb (string_eq name) (loadingStack_ s).

(** [cont.isLoadingStarted = true] on the container of the map. *)
Definition mark_loading (name : bytes) (c : ComponentContainer) (s : ComponentSet) : ComponentSet :=
  MkComponentSet (map_set name (start_loading c) (components_ s)) (loadingStack_ s).
Definition push_loaded (name : bytes) (s : ComponentSet) : ComponentSet :=
  MkComponentSet (components_ s) (loadingStack_ s ++ [name]).

(** Both [catch] clauses throw a [runtime_error]. *)
Definition rethrow (e : exn) : exn :=
  match e with
  | OtherException => RuntimeError (str "Unknown exception caught")
  | _ => RuntimeError (what e)
  end.

(** [find], with the loading of a component as an argument. *)
Definition find_with (load : bytes → M ComponentSet unit) (name : bytes) : M ComponentSet (option Z) :=
  s ← Prelude.get;
  match map_find name (components_ s) with
  | None => mret None
  | Some cont =>
      (if negb (isComponentLoaded name s) then load name else mret ());;
      mret (Some (component cont))
  end.

(** The fuel bounds the depth of components that load each other. *)
Fixpoint sendOnLoad (fuel : nat) (componentName : bytes) : M ComponentSet unit :=
  match fuel with
  | O => nofuel
  | S fuel =>
      s ← Prelude.get;
      if negb (isComponentLoaded componentName s) then
        match map_find componentName (components_ s) with
        | None => undef
        | Some cont =>
            if isLoadingStarted cont then throw (RuntimeError (str "Cyclic component dependence found"))
            else
              modify (mark_loading componentName cont);;
              catch (onLoad (find_with (sendOnLoad fuel)) (component cont)) (λ e, throw (rethrow e));;
              modify (push_loaded componentName)
        end
      else mret ()
  end.

Definition load_fuel (s : ComponentSet) : nat := S (length (components_ s)).
Definition find (name : bytes) : M ComponentSet (option Z) :=
  s ← Prelude.get; find_with (sendOnLoad (load_fuel s)) name.

Fixpoint send_loop (names : list bytes) : M ComponentSet unit :=
  match names with
  | [] => mret ()
  | i :: names => s ← Prelude.get; sendOnLoad (load_fuel s) i;; send_loop names
  end.
Definition sendOnLoadToComponents : M ComponentSet unit :=
  s ← Prelude.get; send_loop (components_ s).*1.

Definition add (name type componentXPath : bytes) : M ComponentSet unit :=
  match findComponentFactory type with
  | None => throw (RuntimeError (str "Cannot find component factory for type: " ++ type))
  | Some factory =>
      c ← catch (lift (factory componentXPath)) (λ e, throw (rethrow e));
      modify (λ s, MkComponentSet
        (map_insert name (MkContainer c componentXPath false) (components_ s)) (loadingStack_ s))
  end.

Fixpoint add_all (config : Config) (v : list bytes) : M ComponentSet unit :=
  match v with
  | [] => mret ()
  | i :: v =>
      name ← lift (asString config (i ++ str "/@name"));
      type ← lift (asString config (i ++ str "/@type"));
      add name type i;; add_all config v
  end.
Definition init (config : Config) : M ComponentSet unit :=
  v ← lift (subKeys config (str "/fastcgi/components/component"));
  add_all config v;;
  sendOnLoadToComponents.
End component_set.

(** ** Specification vocabulary *)

(** What a component finds when it looks others up. *)
Fixpoint lookups (names : list bytes) (find : bytes → M ComponentSet (option Z)) : M ComponentSet (list (option Z)) :=
  match names with
  | [] => mret []
  | name :: names => c ← find name; l ← lookups names find; mret (c :: l)
  end.
Definition names (s : ComponentSet) : list bytes := (components_ s).*1.
Definition started_in (s : ComponentSet) (name : bytes) : Prop :=
  ∃ c, map_find name (components_ s) = Some c ∧ isLoadingStarted c = true.
(** The address of a component. *)
Definition address (s : ComponentSet) (name : bytes) : option Z :=
  component <$> map_find name (components_ s).

(** * Lemmas *)

Section map_present.
Context {K V : Type} `{StdLess K}.
Implicit Types (m : list (K * V)).

(** Setting a key that is present keeps the keys and the other bindings. *)
Lemma map_set_present k v c m :
  map_find k m = Some c → (map_set k v m).*1 = m.*1.
Proof.
  induction m as [|[k' v'] m IH]; cbn [map_find map_set]; [done|].
  destruct (less k k') eqn:E1; [done|]. destruct (less k' k) eqn:E2; [|done].
  intros Hf. csimpl. by rewrite IH.
Qed.

End map_present.

Section loading.
Implicit Types (s t : ComponentSet) (m : list (bytes * ComponentContainer)).

(** The components whose loading has not begun. *)
Fixpoint unstarted m : nat :=
  match m with
  | [] => O
  | e :: m => (if isLoadingStarted e.2 then O else 1) + unstarted m
  end.

Lemma unstarted_length m : (unstarted m ≤ length m)%nat.
Proof. induction m as [|e m IH]; simpl; [lia|]. destruct (isLoadingStarted e.2); lia. Qed.

Lemma unstarted_start k c m :
  map_find k m = Some c → isLoadingStarted c = false →
  S (unstarted (map_set k (start_loading c) m)) = unstarted m.
Proof.
  intros Hf Hc. induction m as [|[k' v'] m IH]; cbn [map_find map_set] in *; [done|].
  destruct (less k k') eqn:E1; [done|]. destruct (less k' k) eqn:E2; cbn [unstarted snd].
  - specialize (IH Hf). destruct (isLoadingStarted v'); simpl; lia.
  - injection Hf as ->. rewrite Hc. done.
Qed.

Lemma loaded_spec name s : isComponentLoaded name s = true ↔ name ∈ loadingStack_ s.
Proof.
  unfold isComponentLoaded. rewrite existsb_exists. setoid_rewrite <- list_elem_of_In.
  unfold string_eq. setoid_rewrite bool_decide_eq_true. naive_solver.
Qed.

(** ** The invariant *)

(** What a component looks up when it is loaded, and the exception with which it
    refuses what it finds. *)
Context (deps : Z → list bytes) (refuse : Z → list (option Z) → option exn).

(** The dependencies of [name] that are in the set are in [l]. *)
Definition deps_in s (name : bytes) (l : list bytes) : Prop :=
  ∀ a dep, address s name = Some a → dep ∈ deps a → dep ∈ names s → dep ∈ l.

(** [name] has found what it needs. *)
Definition accepted s (name : bytes) : Prop :=
  ∀ a, address s name = Some a → refuse a (address s <$> deps a) = None.

Record load_inv s : Prop := {
  load_sorted : sorted_map (components_ s);
  load_nodup : NoDup (loadingStack_ s);
  load_started name : name ∈ loadingStack_ s → started_in s name;
  load_deps pre name post : loadingStack_ s = pre ++ name :: post → deps_in s name pre;
  load_accepted name : name ∈ loadingStack_ s → accepted s name;
}.

(** [t] follows [s] by loading. *)
Record loads s t : Prop := {
  loads_names : names t = names s;
  loads_address name : address t name = address s name;
  loads_unstarted : (unstarted (components_ t) ≤ unstarted (components_ s))%nat;
  loads_stack : ∃ more, loadingStack_ t = loadingStack_ s ++ more;
  (* what was being loaded is not loaded by others *)
  loads_busy name : started_in s name → name ∉ loadingStack_ s → name ∉ loadingStack_ t;
  loads_started name : started_in s name → started_in t name;
}.

#[local] Instance loads_preorder : PreOrder loads.
Proof.
  split.
  - intros s. split; try done. exists []. by rewrite app_nil_r.
  - intros s t u [A1 A2 A3 (m1 & A4) A5 A6] [B1 B2 B3 (m2 & B4) B5 B6]. split.
    + congruence.
    + intros name. by rewrite B2.
    + lia.
    + exists (m1 ++ m2). by rewrite B4, A4, app_assoc.
    + auto.
    + auto.
Qed.

(** Marking a component as being loaded. *)
Lemma mark_loads s name c :
  map_find name (components_ s) = Some c → isLoadingStarted c = false → name ∉ loadingStack_ s →
  load_inv s → loads s (mark_loading name c s) ∧ load_inv (mark_loading name c s) ∧
  S (unstarted (components_ (mark_loading name c s))) = unstarted (components_ s) ∧
  started_in (mark_loading name c s) name.
Proof.
  intros Hf Hc Hn [I0 I1 I2 I3 I4]. pose proof (unstarted_start name c _ Hf Hc) as Hu.
  assert (∀ x, x ≠ name → map_find x (components_ (mark_loading name c s)) = map_find x (components_ s)) as Hne
    by (intros x Hx; by apply map_find_set_ne).
  assert (started_in (mark_loading name c s) name) as Hsn
    by (exists (start_loading c); split; [apply map_find_set_eq|done]).
  assert (∀ x, address (mark_loading name c s) x = address s x) as Ha.
  { intros x. unfold address. destruct (decide (x = name)) as [->|Hx]; [|by rewrite Hne].
    cbn [components_ mark_loading]. by rewrite map_find_set_eq, Hf. }
  assert (names (mark_loading name c s) = names s) as Hnames by by eapply map_set_present.
  assert (∀ x, started_in s x → started_in (mark_loading name c s) x) as Hst.
  { intros x (cx & Hcx & Hx). destruct (decide (x = name)) as [->|Hxn]; [done|].
    exists cx. by rewrite Hne. }
  split_and!; [|split|done|done].
  - split; try done; [cbn [components_ mark_loading]; lia|]. exists []. by rewrite app_nil_r.
  - by apply map_set_sorted.
  - done.
  - intros x Hx. apply Hst. by apply I2.
  - intros pre x post E a dep. rewrite Ha, Hnames. by eapply I3.
  - intros x Hx a. rewrite Ha, (list_fmap_ext _ (address s) (deps a)) by (intros; apply Ha). by apply I4.
Qed.

(** A component that was loaded goes on the stack. *)
Lemma push_loads s name :
  load_inv s → started_in s name → name ∉ loadingStack_ s → deps_in s name (loadingStack_ s) → accepted s name →
  load_inv (push_loaded name s).
Proof.
  intros [I0 I1 I2 I3 I4] Hs Hn Hd Ha. split; [done| | | |].
  - cbn. apply NoDup_app. split_and!; [done| |apply NoDup_singleton]. set_solver.
  - cbn. intros x [Hx| ->%list_elem_of_singleton]%elem_of_app; [by apply I2|done].
  - cbn. intros pre x post E. destruct post as [|y post _] using rev_ind.
    + apply app_inj_tail in E as [<- <-]. exact Hd.
    + rewrite app_comm_cons, app_assoc in E. apply app_inj_tail in E as [E _].
      intros a dep. by eapply I3.
  - cbn. intros x [Hx| ->%list_elem_of_singleton]%elem_of_app; [by apply I4|exact Ha].
Qed.

(** A set nothing of which is loaded. *)
Lemma load_inv_new s : sorted_map (components_ s) → loadingStack_ s = [] → load_inv s.
Proof.
  intros Hs Hl. split; [done|rewrite Hl; constructor|rewrite Hl; set_solver| |rewrite Hl; set_solver].
  intros pre name post E. rewrite Hl in E. by destruct pre.
Qed.

Context (what : exn → bytes).
(** Components that look their dependencies up when they are loaded. *)
Definition onLoad_deps (find : bytes → M ComponentSet (option Z)) (c : Z) : M ComponentSet unit :=
  found ← lookups (deps c) find;
  match refuse c found with Some e => throw e | None => mret () end.

(** The methods of the components do that. *)
Definition looks_up (onLoad : (bytes → M ComponentSet (option Z)) → Z → M ComponentSet unit) : Prop :=
  ∀ find c s, onLoad find c s = onLoad_deps find c s.
Context (onLoad : (bytes → M ComponentSet (option Z)) → Z → M ComponentSet unit) (onLoad_ok : looks_up onLoad).

(** What loading a component does: it is on the stack, or an exception says
    why it is not. *)
Definition load_ok (load : bytes → M ComponentSet unit) (n : nat) : Prop := ∀ name s,
  load_inv s → name ∈ names s → (unstarted (components_ s) < n)%nat →
  wp (load name) s (λ _ t, load_inv t ∧ loads s t ∧ name ∈ loadingStack_ t) (λ _ _, True).

Lemma lookups_ok load n l s :
  load_ok load n → load_inv s → (unstarted (components_ s) < n)%nat →
  wp (lookups l (find_with load)) s (λ found t, load_inv t ∧ loads s t ∧ found = address s <$> l ∧
    ∀ dep, dep ∈ l → dep ∈ names s → dep ∈ loadingStack_ t) (λ _ _, True).
Proof.
  intros Hload. revert s. induction l as [|name l IH]; intros s Hi Hu; cbn [lookups].
  { wp_step. split_and!; [done|reflexivity|done|set_solver]. }
  wp_step. unfold find_with at 1. wp_steps.
  assert (∀ t, load_inv t → loads s t → (name ∈ names s → name ∈ loadingStack_ t) →
    wp (lookups l (find_with load)) t (λ found u, wp (mret (address s name :: found)) u
      (λ found u, load_inv u ∧ loads s u ∧ found = address s <$> name :: l ∧
        ∀ dep, dep ∈ name :: l → dep ∈ names s → dep ∈ loadingStack_ u) (λ _ _, True)) (λ _ _, True)) as Hrest.
  { intros t Ht Hst Hn.
    eapply wp_mono; [apply IH; [done|pose proof (loads_unstarted _ _ Hst); lia]| |done].
    intros found u (Hu1 & Hu2 & Hf & Hu3). wp_step. split_and!; [done|by etrans| |].
    { csimpl. f_equal. rewrite Hf. apply list_fmap_ext. intros. apply (loads_address _ _ Hst). }
    rewrite (loads_names _ _ Hst) in Hu3.
    intros dep [->|Hd]%elem_of_cons Hk; [|by apply Hu3].
    destruct (loads_stack _ _ Hu2) as [more ->]. apply elem_of_app. left. by apply Hn. }
  destruct (map_find name (components_ s)) as [cont|] eqn:Hf.
  - assert (name ∈ names s) as Hk by (apply map_find_keys; [apply Hi|by eexists]).
    assert (address s name = Some (component cont)) as Ha by (unfold address; by rewrite Hf). rewrite Ha in Hrest.
    wp_step. destruct (isComponentLoaded name s) eqn:El; cbn [negb].
    + wp_steps. apply Hrest; [done|reflexivity|]. intros _. by apply loaded_spec.
    + eapply wp_mono; [by apply Hload| |done]. intros _ t (Ht & Hst & Hn). wp_steps. by apply Hrest.
  - assert (address s name = None) as Ha by (unfold address; by rewrite Hf). rewrite Ha in Hrest.
    wp_steps. apply Hrest; [done|reflexivity|]. intros Hk.
    apply map_find_keys in Hk as [v Hv]; [congruence|apply Hi].
Qed.

Lemma sendOnLoad_ok n : load_ok (sendOnLoad onLoad what n) n.
Proof.
  induction n as [|n IH]; intros name s Hi Hk Hu; [lia|]. cbn [sendOnLoad]. wp_steps.
  destruct (isComponentLoaded name s) eqn:El; cbn [negb].
  { wp_step. split_and!; [done|reflexivity|by apply loaded_spec]. }
  assert (name ∉ loadingStack_ s) as Hn by (rewrite <- loaded_spec; congruence).
  apply map_find_keys in Hk as [cont Hf]; [|apply Hi]. rewrite Hf.
  destruct (isLoadingStarted cont) eqn:Hc; [by wp_step|]. wp_steps.
  destruct (mark_loads s name cont Hf Hc Hn Hi) as (Hl & Hi1 & Hu1 & Hs1).
  set (s1 := mark_loading name cont s) in *.
  apply (wp_ext (onLoad_deps (find_with (sendOnLoad onLoad what n)) (component cont))); [intros; apply onLoad_ok|]. unfold onLoad_deps. wp_step.
  eapply wp_mono; [apply (lookups_ok _ n); [exact IH|done|lia]| |by intros; wp_step].
  intros found t (Ht & Hst & -> & Hd).
  assert (∀ a, address t name = Some a → a = component cont) as Hac.
  { intros a. rewrite (loads_address _ _ Hst), (loads_address _ _ Hl). unfold address. rewrite Hf. by intros [= <-]. }
  destruct (refuse _ _) eqn:Er; wp_steps; [done|]. split_and!.
  - apply push_loads; [done|by apply (loads_started _ _ Hst)|by apply (loads_busy _ _ Hst)| |].
    2: { intros a Ha. apply Hac in Ha as ->. rewrite <- Er. f_equal. apply list_fmap_ext.
         intros. apply (loads_address _ _ Hst). }
    intros a dep Ha Hdep Hin. rewrite (loads_address _ _ Hst), (loads_address _ _ Hl) in Ha.
    unfold address in Ha. rewrite Hf in Ha. injection Ha as <-.
    apply Hd; [done|]. by rewrite <- (loads_names _ _ Hst).
  - assert (loads s t) as [B1 B2 B3 (more & B4) B5 B6] by by etrans. split; try done.
    + exists (more ++ [name]). cbn. by rewrite B4, app_assoc.
    + cbn. intros x Hx Hxn [Hx2| ->%list_elem_of_singleton]%elem_of_app; [by apply (B5 x)|].
      destruct Hx as (cx & Hcx & Hcx2). congruence.
  - cbn. set_solver.
Qed.

(** Loading the components one after the other. *)
Lemma send_loop_ok l s :
  load_inv s → (∀ name, name ∈ l → name ∈ names s) →
  wp (send_loop onLoad what l) s
    (λ _ t, load_inv t ∧ loads s t ∧ ∀ name, name ∈ l → name ∈ loadingStack_ t) (λ _ _, True).
Proof.
  revert s. induction l as [|name l IH]; intros s Hi Hl; cbn [send_loop].
  { wp_step. split_and!; [done|reflexivity|set_solver]. }
  wp_steps. eapply wp_mono; [apply (sendOnLoad_ok (load_fuel s)); [done|set_solver|]| |done].
  { pose proof (unstarted_length (components_ s)). unfold load_fuel. lia. }
  intros _ t (Ht & Hst & Hn). eapply wp_mono; [apply IH; [done|]| |done].
  { intros x Hx. rewrite (loads_names _ _ Hst). apply Hl. by right. }
  intros _ u (Hu & Htu & Hall). split_and!; [done|by etrans|].
  intros x [->|Hx]%elem_of_cons; [|by apply Hall]. destruct (loads_stack _ _ Htu) as [more ->].
  apply elem_of_app. by left.
Qed.
End loading.

(** ** An example: the first component needs the second *)
Definition two_components : ComponentSet := MkComponentSet
  [(str "a", MkContainer 1 [] false); (str "b", MkContainer 2 [] false)] [].

(** Components that need all they look up. *)
Definition needs_all (_ : Z) (found : list (option Z)) : option exn :=
  if existsb (λ c, match c with None => true | Some _ => false end) found then Some (RuntimeError (str "missing"))
  else None.

(** * Properties *)

(** C39: Loading the components of a set always ends: with an exception, or with
    every component loaded exactly once, after all the components of the set
    it looks up, and content with what it found.  (They are unloaded in the
    opposite order.) *)
Theorem components_loaded (deps : Z → list bytes) (refuse : Z → list (option Z) → option exn) (what : exn → bytes)
    (onLoad : (bytes → M ComponentSet (option Z)) → Z → M ComponentSet unit) (s : ComponentSet) :
  looks_up deps refuse onLoad → sorted_map (components_ s) → loadingStack_ s = [] →
  wp (sendOnLoadToComponents onLoad what) s
    (λ _ t, NoDup (loadingStack_ t) ∧ names t = names s ∧
       (∀ name, name ∈ names s → name ∈ loadingStack_ t) ∧
       ∀ pre name post a, loadingStack_ t = pre ++ name :: post → address s name = Some a →
         (∀ dep, dep ∈ deps a → dep ∈ names s → dep ∈ pre) ∧ refuse a (address s <$> deps a) = None)
    (λ _ _, True).
Proof.
  intros Ho Hs Hl. pose proof (load_inv_new deps refuse s Hs Hl) as Hi. unfold sendOnLoadToComponents. wp_steps.
  eapply wp_mono; [by apply (send_loop_ok deps refuse what onLoad Ho (components_ s).*1 s Hi)| |done].
  intros _ t ([_ I1 _ I3 I4] & [L1 L2 _ _ _ _] & Hall). split_and!; [done|done|exact Hall|].
  intros pre name post a E Ha. split.
  - intros dep Hd Hn. eapply I3; [exact E|by rewrite L2|done|by rewrite L1].
  - rewrite <- (list_fmap_ext (address t) (address s)) by (intros; apply L2).
    apply (I4 name); [rewrite E; set_solver|by rewrite L2].
Qed.

Lemma components_loaded_witness : ∃ t,
  sendOnLoadToComponents (onLoad_deps (λ c, if c =? 1 then [str "b"] else []) needs_all) (λ _, []) two_components =
    (Ret (), t) ∧
  NoDup (loadingStack_ t) ∧ loadingStack_ t = [str "b"; str "a"].
Proof.
  pose proof (components_loaded (λ c, if c =? 1 then [str "b"] else []) needs_all (λ _, [])
    (onLoad_deps (λ c, if c =? 1 then [str "b"] else []) needs_all) two_components
    ltac:(done) ltac:(by repeat constructor) eq_refl) as Hw.
  eexists. split; [vm_compute; reflexivity|]. split; [|reflexivity].
  unfold wp in Hw. revert Hw. vm_compute sendOnLoadToComponents. intros Hw. exact (proj1 Hw).
Defined.

(** Two components that need each other are found out: loading them throws. *)
Theorem components_cycle (what : exn → bytes) :
  (sendOnLoadToComponents (onLoad_deps (λ c, if c =? 1 then [str "b"] else [str "a"]) needs_all) what two_components).1 =
  Throw (rethrow what (rethrow what (RuntimeError (str "Cyclic component dependence found")))).
Proof. by vm_compute. Qed.
