(* ===== verification/Statistics.v ===== *)
(** * Response time statistics (statistics/response_time_handler.cpp)

    A handler that keeps, for every handler and status, the number of requests
    and their times in microseconds. *)
From S2P Require Import Prelude CLib Range Util Containers Buffer FileBuffer DataBuffer BufferUtil.
From S2P Require Import HttpDate Cookie RequestState Parser Serialize RequestImpl Request.

(** ** CounterData *)
Record CounterData := MkCounterData { min_ : Z; max_ : Z; total_ : Z; hits_ : Z }.

Module CounterData.
(** [CounterData()]. *)
Definition make : CounterData := MkCounterData (U64_MAX - 1) 0 0 0.
Definition add (time : Z) (c : CounterData) : CounterData :=
  MkCounterData (Z.min (min_ c) time) (Z.max (max_ c) time) (u64 (total_ c + time)) (u64 (hits_ c + 1)).
Definition min (c : CounterData) : Z := min_ c.
Definition max (c : CounterData) : Z := max_ c.
Definition avg (c : CounterData) : Z := if hits_ c =? 0 then 0 else total_ c / hits_ c.
Definition hits (c : CounterData) : Z := hits_ c.
End CounterData.

(** ** ResponseTimeHandler *)

(** [CounterMapType] and [data_]. *)
Definition CounterMap : Type := list (Z * CounterData).
Definition Data : Type := list (bytes * CounterMap).

Definition add (handler : bytes) (status time : Z) (data_ : Data) : Data :=
  let handle := default [] (map_find handler data_) in
  let handle :=
    match map_find status handle with
    | None => map_insert status (CounterData.add time CounterData.make) handle
    | Some c => map_set status (CounterData.add time c) handle
    end in
  map_set handler handle data_.

Section handler.
Context `{HashOrder} `{LexicalCast} {IO : Type} `{RequestIOStream IO}.
(** How the stream prints a number of microseconds as milliseconds, [0.001 * n]
    with three digits. *)
Context (show_ms : Z → bytes).

Definition quote (d : bytes) : bytes := [Byte.x22] ++ d ++ [Byte.x22].
Definition counter_text (e : Z * CounterData) : bytes :=
  str "<data status=" ++ quote (decimal e.1) ++
  str " avg=" ++ quote (show_ms (CounterData.avg e.2)) ++
  str " min=" ++ quote (show_ms (CounterData.min e.2)) ++
  str " max=" ++ quote (show_ms (CounterData.max e.2)) ++
  str " hits=" ++ quote (decimal (CounterData.hits e.2)) ++ str "/>".
Definition handler_text (e : bytes * CounterMap) : bytes :=
  str "<handler id=" ++ quote e.1 ++ str ">" ++ concat (counter_text <$> e.2) ++ str "</handler>".
Definition report (data_ : Data) : bytes :=
  str "<?xml version=" ++ quote (str "1.0") ++ str " encoding=" ++ quote (str "utf-8") ++ str "?>" ++
  str "<response-time>" ++ concat (handler_text <$> data_) ++ str "</response-time>".

Definition handleRequest (data_ : Data) : M (rstate IO) unit :=
  Request.setStatus 200;; Request.write_buf (report data_).
End handler.

(** ** Specification vocabulary *)

(** The counter of a handler and a status. *)
Definition counter (data_ : Data) (handler : bytes) (status : Z) : option CounterData :=
  handle ← map_find handler data_; map_find status handle.

(** A request that was served: its handler, status and time. *)
Record served := MkServed { s_handler : bytes; s_status : Z; s_time : Z }.
Definition record_all (l : list served) (data_ : Data) : Data :=
  foldl (λ d e, add (s_handler e) (s_status e) (s_time e) d) data_ l.
(** The times of the requests of a handler with a status. *)
Definition times (l : list served) (handler : bytes) (status : Z) : list Z :=
  s_time <$> filter (λ e, s_handler e = handler ∧ s_status e = status) l.
Definition sum (l : list Z) : Z := foldr Z.add 0 l.

(** * Lemmas *)

Lemma counter_add handler status time d h st :
  counter (add handler status time d) h st =
  if decide (h = handler ∧ st = status)
  then Some (CounterData.add time (default CounterData.make (counter d handler status)))
  else counter d h st.
Proof.
  unfold counter, add.
  assert (∀ x, map_find x (match map_find status (default [] (map_find handler d)) with
      | None => map_insert status (CounterData.add time CounterData.make) (default [] (map_find handler d))
      | Some c => map_set status (CounterData.add time c) (default [] (map_find handler d)) end) =
    if decide (x = status)
    then Some (CounterData.add time (default CounterData.make (map_find status (default [] (map_find handler d)))))
    else map_find x (default [] (map_find handler d))) as Hin.
  { intros x. destruct (map_find status _) as [c|] eqn:Ec; [|rewrite map_insert_set by done];
      (case_decide as Hx; [by rewrite Hx, map_find_set_eq|by rewrite map_find_set_ne]). }
  destruct (decide (h = handler)) as [->|Hh].
  - rewrite map_find_set_eq. cbn [mbind option_bind]. rewrite Hin.
    destruct (map_find handler d) as [m|]; cbn [default from_option id];
      repeat case_decide; naive_solver.
  - rewrite map_find_set_ne by done. rewrite decide_False by naive_solver. done.
Qed.

Lemma sum_app l k : sum (l ++ k) = sum l + sum k.
Proof. unfold sum. induction l as [|x l IH]; simpl; lia. Qed.

(** What a counter holds after the times [l]. *)
Definition counts (l : list Z) (c : CounterData) : Prop :=
  hits_ c = u64 (zlen l) ∧ total_ c = u64 (sum l) ∧
  min_ c ∈ l ∧ max_ c ∈ l ∧ Forall (λ t, min_ c <= t <= max_ c) l.

Lemma counts_one t : 0 <= t < U64_MAX → counts [t] (CounterData.add t CounterData.make).
Proof.
  intros Ht. unfold counts, CounterData.add, CounterData.make, sum. cbn [hits_ total_ min_ max_ foldr].
  change (zlen [t]) with 1. rewrite Z.min_r, Z.max_r by lia.
  split_and!; [done|f_equal; lia|set_solver|set_solver|]. constructor; [lia|constructor].
Qed.

Lemma counts_add l t c : counts l c → counts (l ++ [t]) (CounterData.add t c).
Proof.
  intros (H1 & H2 & H3 & H4 & H5). unfold counts, CounterData.add. cbn [hits_ total_ min_ max_].
  rewrite zlen_app, sum_app, H1, H2. change (zlen [t]) with 1. change (sum [t]) with (t + 0). rewrite Z.add_0_r.
  split_and!.
  - unfold wrap. apply Zplus_mod_idemp_l.
  - unfold wrap. apply Zplus_mod_idemp_l.
  - apply elem_of_app. destruct (Z.min_spec (min_ c) t) as [[_ ->]|[_ ->]]; set_solver.
  - apply elem_of_app. destruct (Z.max_spec (max_ c) t) as [[_ ->]|[_ ->]]; set_solver.
  - apply Forall_app. split; [|constructor; [lia|constructor]].
    eapply Forall_impl; [exact H5|]. cbn. intros x Hx. lia.
Qed.

Lemma sum_bounds l a b : Forall (λ t, a <= t <= b) l → zlen l * a <= sum l <= zlen l * b.
Proof. induction 1 as [|t l Ht _ IH]; [unfold sum, zlen; simpl; lia|]. rewrite zlen_cons. simpl. unfold sum in *. simpl. lia. Qed.

(** The average lies between the extremes as long as the sum does not wrap. *)
Lemma avg_between l c :
  counts l c → l ≠ [] → 0 <= min_ c → sum l < U64_MAX → zlen l < U64_MAX →
  CounterData.avg c = sum l / zlen l ∧ min_ c <= CounterData.avg c <= max_ c.
Proof.
  intros (H1 & H2 & _ & _ & H5) Hn Hm Hs Hl. pose proof (sum_bounds _ _ _ H5) as [Hb1 Hb2].
  assert (0 < zlen l) as Hp by (destruct l; [done|zlia]). unfold CounterData.avg.
  rewrite H1, H2, !u64_small by nia. replace (zlen l =? 0) with false by lia. split; [done|]. split.
  - apply Z.div_le_lower_bound; lia.
  - apply Z.div_le_upper_bound; lia.
Qed.

(** ** An example: three requests of one handler *)
Definition three_requests : list served :=
  [MkServed (str "h") 200 500; MkServed (str "h") 404 10; MkServed (str "h") 200 1500].

(** * Properties *)

(** The statistics are exact: after any sequence of requests there is a counter
    for a handler and a status exactly when such a request was served, its
    minimum and maximum are those of their times, its hits and total are their
    number and sum (in 64 bits), and the average is their mean, between the
    extremes, unless 64 bits overflow. *)
Theorem statistics_exact (l : list served) (handler : bytes) (status : Z) :
  Forall (λ e, 0 <= s_time e < U64_MAX) l →
  let ts := times l handler status in
  match counter (record_all l []) handler status with
  | None => ts = []
  | Some c => counts ts c ∧
      (sum ts < U64_MAX → zlen ts < U64_MAX →
       CounterData.avg c = sum ts / zlen ts ∧ min_ c <= CounterData.avg c <= max_ c)
  end.
Proof.
  intros Hl ts.
  assert (match counter (record_all l []) handler status with None => ts = [] | Some c => counts ts c end) as Hc.
  { subst ts. induction l as [|e l IH] using rev_ind; [done|].
    apply Forall_app in Hl as [Hl He]. apply Forall_cons in He as [He _]. specialize (IH Hl).
    unfold record_all in *. rewrite foldl_app. cbn [foldl]. rewrite counter_add.
    unfold times in *. rewrite filter_app.
    destruct (decide (handler = s_handler e ∧ status = s_status e)) as [[-> ->]|Hne].
    - rewrite filter_cons_True, filter_nil by done. rewrite fmap_app. cbn [fmap list_fmap].
      destruct (counter _ _ _) as [c|]; cbn [default from_option id]; [by apply counts_add|].
      rewrite IH. apply (counts_one (s_time e)). exact He.
    - rewrite filter_cons_False, filter_nil by naive_solver. by rewrite app_nil_r. }
  destruct (counter _ _ _) as [c|]; [|exact Hc]. split; [exact Hc|].
  intros Hs Hz. apply avg_between; try done.
  - destruct Hc as (_ & _ & Hm & _). intros E. rewrite E in Hm. set_solver.
  - destruct Hc as (_ & _ & Hm & _). subst ts. unfold times in Hm.
    apply list_elem_of_fmap in Hm as (e & -> & He%list_elem_of_filter). rewrite Forall_forall in Hl.
    apply Hl. apply He.
Qed.

Lemma statistics_exact_witness :
  ∃ c, counter (record_all three_requests []) (str "h") 200 = Some c ∧ counts [500; 1500] c ∧
    CounterData.avg c = 2000 / 2.
Proof.
  pose proof (statistics_exact three_requests (str "h") 200
    ltac:(repeat constructor; vm_compute; (discriminate || reflexivity))) as Hs.
  eexists. split; [vm_compute; reflexivity|].
  change (counter (record_all three_requests []) (str "h") 200) with
    (Some (MkCounterData 500 1500 2000 2)) in Hs.
  destruct Hs as [Hc Ha]. split; [exact Hc|]. exact (proj1 (Ha ltac:(reflexivity) ltac:(reflexivity))).
Defined.
