(* ===== verification/Endpoint.v ===== *)
(** * Endpoints (main/endpoint.cpp)

    An endpoint counts the threads that are busy with a request.  Each thread
    of FCGIServer::handle owns a ScopedBusyCounter, which counts it at most
    once. *)
From S2P Require Import Prelude CLib Range Util.

Record Endpoint := MkEndpoint {
  socket_ : Z;
  busy_count_ : Z;
  threads_ : Z;
  socket_path_ : bytes;
  socket_port_ : bytes;
}.

(** [Endpoint(path, port, threads)]. *)
Definition make (path port : bytes) (threads : Z) : outcome Endpoint :=
  if Range.empty path && Range.empty port then
    Throw (RuntimeError (str "Both /socket and /port param for endpoint is empty"))
  else Ret (MkEndpoint (-1) 0 (wrap 16 threads) path port).

Definition socket (e : Endpoint) : Z := socket_ e.
Definition threads (e : Endpoint) : Z := threads_ e.
Definition toString (e : Endpoint) : bytes :=
  if Range.empty (socket_path_ e) then str ":" ++ socket_port_ e else socket_path_ e.
(** The counter is an [int], what is returned an [unsigned short]. *)
Definition getBusyCounter (e : Endpoint) : Z := wrap 16 (busy_count_ e).

Definition set_busy (n : Z) (e : Endpoint) : Endpoint :=
  MkEndpoint (socket_ e) n (threads_ e) (socket_path_ e) (socket_port_ e).
Definition set_socket (n : Z) (e : Endpoint) : Endpoint :=
  MkEndpoint n (busy_count_ e) (threads_ e) (socket_path_ e) (socket_port_ e).

(** [FCGX_OpenSocket] and the number of the last error are parameters; the
    mode of a socket file is not part of the state. *)
Definition openSocket (FCGX_OpenSocket : bytes → Z → Z) (errno : bytes) (backlog : Z) : M Endpoint unit :=
  e ← Prelude.get;
  modify (set_socket (FCGX_OpenSocket (toString e) backlog));;
  e ← Prelude.get;
  if socket_ e =? -1 then
    throw (RuntimeError (str "can not open fastcgi socket: " ++ toString e ++ str "[" ++ errno ++ str "]"))
  else mret ().

(** An overflow of the [int] is undefined. *)
Definition incrementBusyCounter : M Endpoint unit :=
  e ← Prelude.get;
  if busy_count_ e + 1 <? 2 ^ 31 then modify (set_busy (busy_count_ e + 1)) else undef.
(** A failed [assert] ends the process. *)
Definition decrementBusyCounter : M Endpoint unit :=
  e ← Prelude.get;
  if 0 <? busy_count_ e then modify (set_busy (busy_count_ e - 1)) else undef.

(** ** ScopedBusyCounter: its [incremented_] and the endpoint *)
Definition increment : M (bool * Endpoint) unit :=
  s ← Prelude.get;
  if negb s.1 then zoom snd (λ e s, (s.1, e)) incrementBusyCounter;; modify (λ s, (true, s.2))
  else mret ().
Definition decrement : M (bool * Endpoint) unit :=
  s ← Prelude.get;
  if s.1 : bool then zoom snd (λ e s, (s.1, e)) decrementBusyCounter;; modify (λ s, (false, s.2))
  else mret ().
(** The constructor increments, the destructor decrements. *)
Definition scoped_begin : M (bool * Endpoint) unit := modify (λ s, (false, s.2));; increment.
Definition scoped_end : M (bool * Endpoint) unit := decrement.

(** ** The threads of an endpoint

    Each thread has one counter at a time, which is not incremented when it is
    constructed and after its destructor: the life of the counters of a thread
    is a sequence of [increment] and [decrement] on one flag. *)
Definition on_thread (i : nat) (m : M (bool * Endpoint) unit) : M (list bool * Endpoint) unit := λ s,
  match s.1 !! i with
  | None => (Undef, s)
  | Some b => let '(r, (b', e)) := m (b, s.2) in (r, (<[i := b']> s.1, e))
  end.
(** Thread [i] increments, or decrements. *)
Fixpoint run_threads (l : list (nat * bool)) : M (list bool * Endpoint) unit :=
  match l with
  | [] => mret ()
  | (i, up) :: l => on_thread i (if up : bool then increment else decrement);; run_threads l
  end.

(** ** Specification vocabulary *)

(** The number of threads that count themselves as busy. *)
Definition busy (l : list bool) : Z := foldr (λ b n, Z.b2z b + n) 0 l.

(** * Lemmas *)

Lemma busy_cons b l : busy (b :: l) = Z.b2z b + busy l.
Proof. done. Qed.
Arguments busy : simpl never.

Lemma busy_bound l : 0 <= busy l <= zlen l.
Proof. induction l as [|b l IH]; [done|]. rewrite zlen_cons, busy_cons. destruct b; simpl Z.b2z; lia. Qed.

Lemma busy_insert l i b b' : l !! i = Some b → busy (<[i := b']> l) = busy l - Z.b2z b + Z.b2z b'.
Proof.
  revert i. induction l as [|x l IH]; intros [|i] Hi; simplify_eq/=; rewrite !busy_cons; [lia|].
  rewrite (IH i Hi). lia.
Qed.

(** One operation keeps the counter equal to the number of busy threads. *)
Lemma on_thread_ok i (up : bool) flags e b :
  flags !! i = Some b → zlen flags < 2 ^ 31 → busy_count_ e = busy flags →
  on_thread i (if up then increment else decrement) (flags, e) =
    (Ret (), (<[i := up]> flags, set_busy (busy (<[i := up]> flags)) e)).
Proof.
  intros Hi Hz Hb. pose proof (busy_bound (<[i := up]> flags)) as Hbd. pose proof (busy_bound flags) as Hbf.
  pose proof (busy_insert flags i b up Hi) as Eb. pose proof (busy_insert flags i b (negb up) Hi) as En.
  pose proof (busy_bound (<[i := negb up]> flags)) as Hbn.
  assert (∀ x, zlen (<[i:=x]> flags) = zlen flags) as Hzl by (intros x; unfold zlen; by rewrite length_insert).
  rewrite !Hzl in *. assert (set_busy (busy_count_ e) e = e) as He by by destruct e.
  unfold on_thread. cbn [fst snd]. rewrite Hi. rewrite Eb.
  destruct up, b; unfold increment, decrement, incrementBusyCounter, decrementBusyCounter,
    zoom, mbind, M_bind, modify, Prelude.get; cbn [fst snd negb]; simpl Z.b2z in *.
  - by replace (busy flags - 1 + 1) with (busy_count_ e) by lia; rewrite He.
  - replace (busy_count_ e + 1 <? 2 ^ 31) with true by lia. cbn. by rewrite Hb, Z.sub_0_r.
  - replace (0 <? busy_count_ e) with true by lia. cbn. by rewrite Hb, Z.add_0_r.
  - by replace (busy flags - 0 + 0) with (busy_count_ e) by lia; rewrite He.
Qed.

(** * Properties *)

(** However the threads of an endpoint interleave, the busy counter is the
    number of threads that are busy: the [assert] of [decrementBusyCounter]
    never fails, the counter never overflows, and [getBusyCounter] reports it
    exactly for the at most 65535 threads an endpoint has. *)
Theorem busy_counter_exact (l : list (nat * bool)) (flags : list bool) (e : Endpoint) :
  zlen flags < 2 ^ 16 → busy_count_ e = busy flags → Forall (λ o, (o.1 < length flags)%nat) l →
  ∃ flags' e', run_threads l (flags, e) = (Ret (), (flags', e')) ∧
    length flags' = length flags ∧ busy_count_ e' = busy flags' ∧ getBusyCounter e' = busy flags'.
Proof.
  intros Hz Hb Hl. revert flags e Hz Hb Hl. induction l as [|[i up] l IH]; intros flags e Hz Hb Hl.
  - exists flags, e. split_and!; [done..|]. unfold getBusyCounter. rewrite Hb.
    pose proof (busy_bound flags). apply wrap_small. lia.
  - apply Forall_cons in Hl as [Hi Hl]. cbn [fst] in Hi. apply lookup_lt_is_Some_2 in Hi as [b Hi].
    cbn [run_threads]. unfold mbind, M_bind. rewrite (on_thread_ok i up flags e b Hi) by (done || lia).
    destruct (IH (<[i:=up]> flags) (set_busy (busy (<[i:=up]> flags)) e)) as (flags' & e' & E & H1 & H2 & H3).
    + unfold zlen in *. by rewrite length_insert.
    + done.
    + by rewrite length_insert.
    + exists flags', e'. rewrite length_insert in H1. done.
Qed.

Lemma busy_counter_exact_witness : ∃ flags' e',
  run_threads [(0%nat, true); (1%nat, true); (0%nat, false); (0%nat, false)]
    ([false; false], MkEndpoint (-1) 0 2 (str "/tmp/s") []) = (Ret (), (flags', e')) ∧
  getBusyCounter e' = busy flags'.
Proof.
  destruct (busy_counter_exact [(0%nat, true); (1%nat, true); (0%nat, false); (0%nat, false)] [false; false]
    (MkEndpoint (-1) 0 2 (str "/tmp/s") []) ltac:(vm_compute; reflexivity) eq_refl
    ltac:(repeat constructor)) as (flags' & e' & E & _ & _ & Hg).
  exists flags', e'. split; [exact E|exact Hg].
Defined.
