(* ===== verification/ThreadPool.v ===== *)
(** * The thread pool (include/details/thread_pool.h)

    Everything a thread does between locking the mutex and releasing it, or
    waiting on the condition, is one step of the model; between its steps a
    thread is at one of the places of [thread].  An execution is a sequence of
    steps of the workers and of the callers in any order. *)
From S2P Require Import Prelude CLib Containers.

Record ThreadPoolInfo := MkInfo {
  started : bool;
  threadsNumber : Z;
  queueLength : Z;
  busyThreadsCounter : Z;
  currentQueue : Z;
  goodTasksCounter : Z;
  badTasksCounter : Z;
}.

(** The local variable [state] of [workMethod]. *)
Inductive work_state := none | good | bad.

(** Where a thread is in [workMethod]. *)
Inductive thread (T : Type) :=
| Starting                  (* running the initial function *)
| Between (st : work_state) (* about to lock the mutex at the top of the loop *)
| Waiting                   (* in [condition_.wait] *)
| Woken                     (* woken, about to lock the mutex again *)
| Handling (task : T)       (* in [handleTask] *)
| Returned.
Arguments Starting {T}.
Arguments Between {T} _.
Arguments Waiting {T}.
Arguments Woken {T}.
Arguments Handling {T} _.
Arguments Returned {T}.

(** [notifying] counts the callers of [addTask] that have released the mutex
    and not called [notify_one] yet. *)
Record ThreadPool (T : Type) := MkThreadPool {
  info_ : ThreadPoolInfo;
  tasksQueue_ : list T;
  threads_ : list (thread T);
  notifying : nat;
}.
Arguments MkThreadPool {T} _ _ _ _.
Arguments info_ {T} _.
Arguments tasksQueue_ {T} _.
Arguments threads_ {T} _.
Arguments notifying {T} _.

Section info.
Context (i : ThreadPoolInfo).
Definition set_started (b : bool) : ThreadPoolInfo :=
  MkInfo b (threadsNumber i) (queueLength i) (busyThreadsCounter i) (currentQueue i)
    (goodTasksCounter i) (badTasksCounter i).
Definition set_currentQueue (n : Z) : ThreadPoolInfo :=
  MkInfo (started i) (threadsNumber i) (queueLength i) (busyThreadsCounter i) n
    (goodTasksCounter i) (badTasksCounter i).
(** [++info_.busyThreadsCounter]. *)
Definition take_one : ThreadPoolInfo :=
  MkInfo (started i) (threadsNumber i) (queueLength i) (u64 (busyThreadsCounter i + 1)) (currentQueue i)
    (goodTasksCounter i) (badTasksCounter i).
(** The [switch (state)] of [workMethod]. *)
Definition account (st : work_state) : ThreadPoolInfo :=
  match st with
  | none => i
  | good => MkInfo (started i) (threadsNumber i) (queueLength i) (u64 (busyThreadsCounter i - 1))
              (currentQueue i) (u64 (goodTasksCounter i + 1)) (badTasksCounter i)
  | bad => MkInfo (started i) (threadsNumber i) (queueLength i) (u64 (busyThreadsCounter i - 1))
             (currentQueue i) (goodTasksCounter i) (u64 (badTasksCounter i + 1))
  end.
End info.

Section pool.
Context {T : Type}.
Implicit Types (p : ThreadPool T).

(** The constructor; the arguments are [unsigned]. *)
Definition make_pool (threads queue : Z) : ThreadPool T :=
  MkThreadPool (MkInfo false threads queue 0 0 0 0) [] [] 0.

Definition set_thread (i : nat) (t : thread T) p : ThreadPool T :=
  MkThreadPool (info_ p) (tasksQueue_ p) (<[i := t]> (threads_ p)) (notifying p).
Definition set_info (f : ThreadPoolInfo) p : ThreadPool T :=
  MkThreadPool f (tasksQueue_ p) (threads_ p) (notifying p).

Definition start p : ThreadPool T :=
  if started (info_ p) then p
  else
    MkThreadPool (set_started (info_ p) true) (tasksQueue_ p)
      (threads_ p ++ replicate (Z.to_nat (threadsNumber (info_ p))) Starting) (notifying p).

(** [condition_.notify_all()] on the threads. *)
Definition wake (t : thread T) : thread T := match t with Waiting => Woken | _ => t end.
Definition stop p : ThreadPool T :=
  MkThreadPool (set_started (info_ p) false) (tasksQueue_ p) (wake <$> threads_ p) (notifying p).

(** [join] returns when every thread has. *)
Definition has_returned (t : thread T) : bool := match t with Returned => true | _ => false end.
Definition can_join p : bool := forallb has_returned (threads_ p).

(** [addTask] up to the release of the mutex, with the call of [notify_one] to
    come, whether a task was added or not. *)
Definition addTask (task : T) : M (ThreadPool T) unit := λ p,
  let to_notify q := MkThreadPool (info_ p) q (threads_ p) (S (notifying p)) in
  if negb (started (info_ p)) then
    (Throw (RuntimeError (str "Thread pool is not started yet")), to_notify (tasksQueue_ p))
  else if queueLength (info_ p) <=? zlen (tasksQueue_ p) then
    (Throw (RuntimeError (str "Pool::handle: the queue has already reached its maximum size of " ++
              decimal (queueLength (info_ p)) ++ str " elements")), to_notify (tasksQueue_ p))
  else (Ret (), to_notify (tasksQueue_ p ++ [task])).

Definition getInfo p : ThreadPoolInfo * ThreadPool T :=
  let i := set_currentQueue (info_ p) (zlen (tasksQueue_ p)) in (i, set_info i p).

(** The inner loop of [workMethod], from one acquisition of the mutex to the
    next release: the thread returns, takes a task or waits. *)
Definition check_queue p : thread T * option T * ThreadPool T :=
  if negb (started (info_ p)) then (Returned, None, p)
  else
    match tasksQueue_ p with
    | task :: q =>
        (Handling task, Some task, MkThreadPool (take_one (info_ p)) q (threads_ p) (notifying p))
    | [] => (Waiting, None, p)
    end.

(** ** Steps *)

Inductive action :=
| AStart | AStop | AInfo
| AAdd (task : T)           (* a call of [addTask] *)
| ANotify (i : nat)         (* [notify_one] wakes thread [i] *)
| ANotifyNone               (* [notify_one] when nobody waits *)
| AInit (i : nat)           (* the initial function ends *)
| ALock (i : nat)           (* thread [i] locks the mutex *)
| ASpurious (i : nat)       (* [condition_.wait] ends on its own *)
| AFinish (i : nat) (ok : bool). (* [handleTask] returns or throws *)

Inductive event := Accepted (task : T) | Taken (task : T) | Finished (task : T) (ok : bool).

Definition lock (i : nat) (p : ThreadPool T) : list event * ThreadPool T :=
  let '(t, taken, p) := check_queue p in
  (match taken with Some task => [Taken task] | None => [] end, set_thread i t p).

Definition is_waiting (t : thread T) : bool := match t with Waiting => true | _ => false end.
Definition notified p : ThreadPool T :=
  MkThreadPool (info_ p) (tasksQueue_ p) (threads_ p) (pred (notifying p)).

(** [None] when the step is not possible. *)
Definition exec (a : action) p : option (list event * ThreadPool T) :=
  match a with
  | AStart => Some ([], start p)
  | AStop => Some ([], stop p)
  | AInfo => Some ([], (getInfo p).2)
  | AAdd task =>
      match addTask task p with
      | (Ret _, p) => Some ([Accepted task], p)
      | (_, p) => Some ([], p)
      end
  | ANotify i =>
      match notifying p, threads_ p !! i with
      | S _, Some Waiting => Some ([], set_thread i Woken (notified p))
      | _, _ => None
      end
  | ANotifyNone =>
      match notifying p with
      | S _ => if existsb is_waiting (threads_ p) then None else Some ([], notified p)
      | O => None
      end
  | AInit i =>
      match threads_ p !! i with
      | Some Starting => Some ([], set_thread i (Between none) p)
      | _ => None
      end
  | ALock i =>
      match threads_ p !! i with
      | Some (Between st) => Some (lock i (set_info (account (info_ p) st) p))
      | Some Woken => Some (lock i p)
      | _ => None
      end
  | ASpurious i =>
      match threads_ p !! i with
      | Some Waiting => Some ([], set_thread i Woken p)
      | _ => None
      end
  | AFinish i ok =>
      match threads_ p !! i with
      | Some (Handling task) =>
          Some ([Finished task ok], set_thread i (Between (if ok then good else bad)) p)
      | _ => None
      end
  end.

(** Executions and what happens in them. *)
Inductive run : list action → ThreadPool T → list event → ThreadPool T → Prop :=
| run_nil p : run [] p [] p
| run_cons a acts p ev p1 evs p2 :
    exec a p = Some (ev, p1) → run acts p1 evs p2 → run (a :: acts) p (ev ++ evs) p2.

(** The states of a pool with [n] threads and [q] places. *)
Inductive reachable (n q : Z) : list event → ThreadPool T → Prop :=
| reach_make : reachable n q [] (make_pool n q)
| reach_step tr p a ev p' :
    reachable n q tr p → exec a p = Some (ev, p') → reachable n q (tr ++ ev) p'.

(** ** Specification vocabulary *)

Definition accepted (tr : list event) : list T :=
  omap (λ e, match e with Accepted t => Some t | _ => None end) tr.
Definition taken (tr : list event) : list T :=
  omap (λ e, match e with Taken t => Some t | _ => None end) tr.
Definition finished (tr : list event) : list T :=
  omap (λ e, match e with Finished t _ => Some t | _ => None end) tr.
Definition finished_with (ok : bool) (tr : list event) : list T :=
  omap (λ e, match e with Finished t b => if Bool.eqb b ok then Some t else None | _ => None end) tr.
(** The tasks in [handleTask]. *)
Definition in_progress (ts : list (thread T)) : list T :=
  omap (λ t, match t with Handling task => Some task | _ => None end) ts.

(** The number of threads at a place. *)
Definition count (f : thread T → bool) (ts : list (thread T)) : Z :=
  foldr (λ t n, Z.b2z (f t) + n) 0 ts.
(** Threads counted in [busyThreadsCounter]. *)
Definition is_busy (t : thread T) : bool :=
  match t with Handling _ | Between good | Between bad => true | _ => false end.
(** Threads whose last task is not accounted for yet. *)
Definition unaccounted (ok : bool) (t : thread T) : bool :=
  match t with Between good => ok | Between bad => negb ok | _ => false end.
Definition is_woken (t : thread T) : bool := match t with Woken => true | _ => false end.
End pool.

Arguments action : clear implicits.
Arguments event : clear implicits.

(** * Lemmas *)

Section lemmas.
Context {T : Type}.
Implicit Types (p : ThreadPool T) (ts : list (thread T)) (tr : list (event T)).

Lemma count_cons f (t : thread T) ts : count f (t :: ts) = Z.b2z (f t) + count f ts.
Proof. done. Qed.

Lemma count_nonneg f ts : 0 <= count f ts.
Proof. induction ts as [|t ts IH]; [done|]. rewrite count_cons. destruct (f t); simpl; lia. Qed.

#[local] Instance count_perm f : Proper ((≡ₚ) ==> eq) (@count T f).
Proof. induction 1; rewrite ?count_cons; lia. Qed.

#[local] Instance in_progress_perm : Proper ((≡ₚ) ==> (≡ₚ)) (@in_progress T).
Proof. intros ts ts' Hts. unfold in_progress. by rewrite Hts. Qed.

Lemma count_app f ts ts' : count f (ts ++ ts') = count f ts + count f ts'.
Proof. induction ts as [|t ts IH]; [done|]. cbn [app]. rewrite !count_cons. lia. Qed.

Lemma count_replicate f n (t : thread T) : count f (replicate n t) = Z.of_nat n * Z.b2z (f t).
Proof.
  induction n as [|n IH]; [done|]. cbn [replicate]. rewrite count_cons, IH. destruct (f t); simpl Z.b2z; lia.
Qed.

Lemma count_wake f ts : (∀ t, f (wake t) = f t) → count f (wake <$> ts) = count f ts.
Proof. intros Hf. induction ts as [|t ts IH]; [done|]. cbn [fmap list_fmap]. by rewrite !count_cons, Hf, IH. Qed.

Lemma waiting_wake ts : count is_waiting (wake <$> ts) = 0.
Proof.
  induction ts as [|t ts IH]; [done|]. cbn [fmap list_fmap]. rewrite count_cons, IH. by destruct t.
Qed.

Lemma in_progress_wake ts : in_progress (wake <$> ts) = in_progress ts.
Proof.
  induction ts as [|t ts IH]; [done|]. change (wake <$> t :: ts) with (wake t :: (wake <$> ts)).
  unfold in_progress in *. destruct t; csimpl; rewrite IH; done.
Qed.

(** The threads seen from thread [i]. *)
Lemma threads_at i t ts :
  ts !! i = Some t → ∃ rest, ts ≡ₚ t :: rest ∧ ∀ t', <[i := t']> ts ≡ₚ t' :: rest.
Proof.
  intros Hi. exists (take i ts ++ drop (S i) ts). split.
  - rewrite <- (take_drop_middle ts i t Hi) at 1. by rewrite Permutation_middle.
  - intros t'. rewrite insert_take_drop by (by eapply lookup_lt_Some). by rewrite Permutation_middle.
Qed.

(** A count that is positive is the count of some thread. *)
Lemma count_pos f ts : 0 < count f ts → ∃ i t, ts !! i = Some t ∧ f t = true.
Proof.
  induction ts as [|t ts IH]; [done|]. rewrite count_cons. intros Hc.
  destruct (f t) eqn:Ef; [by exists 0%nat, t|].
  destruct IH as (i & u & Hi & Hu); [simpl in Hc; lia|]. by exists (S i), u.
Qed.

Lemma count_elem f ts i t : ts !! i = Some t → f t = true → 0 < count f ts.
Proof.
  intros Hi Hf. destruct (threads_at i t ts Hi) as (rest & -> & _). rewrite count_cons, Hf.
  pose proof (count_nonneg f rest). simpl. lia.
Qed.

Lemma existsb_waiting ts : existsb is_waiting ts = false → count is_waiting ts = 0.
Proof. induction ts as [|[] ts IH]; [done|..]; cbn [existsb]; rewrite ?count_cons; try done; exact IH. Qed.

(** ** The invariant *)

Record pool_inv (n q : Z) (tr : list (event T)) (p : ThreadPool T) : Prop := {
  inv_threads : threadsNumber (info_ p) = n;
  inv_length : queueLength (info_ p) = q;
  (* tasks are taken in the order they were accepted *)
  inv_fifo : accepted tr = taken tr ++ tasksQueue_ p;
  inv_bound : zlen (tasksQueue_ p) <= Z.max 0 q;
  (* a task that was taken is finished or in progress *)
  inv_tasks : taken tr ≡ₚ finished tr ++ in_progress (threads_ p);
  inv_busy : busyThreadsCounter (info_ p) = u64 (count is_busy (threads_ p));
  inv_good : goodTasksCounter (info_ p) =
    u64 (zlen (finished_with true tr) - count (unaccounted true) (threads_ p));
  inv_bad : badTasksCounter (info_ p) =
    u64 (zlen (finished_with false tr) - count (unaccounted false) (threads_ p));
  (* while a thread waits, a wake-up is under way for every task of the queue *)
  inv_wake : 0 < count is_waiting (threads_ p) →
    zlen (tasksQueue_ p) <= Z.of_nat (notifying p) + count is_woken (threads_ p);
  inv_stopped : started (info_ p) = false → count is_waiting (threads_ p) = 0;
  inv_alive : started (info_ p) = true → 0 < n →
    0 < count (λ t, negb (has_returned t)) (threads_ p);
}.

Lemma trace_app tr ev :
  accepted (tr ++ ev) = accepted tr ++ accepted ev ∧ taken (tr ++ ev) = taken tr ++ taken ev ∧
  finished (tr ++ ev) = finished tr ++ finished ev ∧
  ∀ ok, finished_with ok (tr ++ ev) = finished_with ok tr ++ finished_with ok ev.
Proof. unfold accepted, taken, finished, finished_with. split_and!; intros; apply omap_app. Qed.

Lemma u64_pred x y : x = u64 y → u64 (x - 1) = u64 (y - 1).
Proof. intros ->. unfold wrap. by rewrite Zminus_mod_idemp_l. Qed.

Lemma u64_succ x y : x = u64 y → u64 (x + 1) = u64 (y + 1).
Proof. intros ->. unfold wrap. by rewrite Zplus_mod_idemp_l. Qed.

(** Thread [i] goes from one place to another that is counted in the same way. *)
Lemma move_inv n q tr p i t t' k :
  pool_inv n q tr p → threads_ p !! i = Some t →
  is_busy t' = is_busy t → (∀ ok, unaccounted ok t' = unaccounted ok t) →
  in_progress [t] = [] → in_progress [t'] = [] → has_returned t = false → has_returned t' = false →
  (is_waiting t' = true → is_waiting t = true) →
  Z.of_nat (notifying p) + Z.b2z (is_woken t) <= Z.of_nat k + Z.b2z (is_woken t') →
  pool_inv n q tr (MkThreadPool (info_ p) (tasksQueue_ p) (<[i := t']> (threads_ p)) k).
Proof.
  intros [Hn Hq Hf Hb Ht Hbu Hg Hba Hw Hs Ha] Hi E1 E2 E3 E4 E5 E6 E7 Hk.
  destruct (threads_at i t (threads_ p) Hi) as (rest & Hts & Hup). specialize (Hup t').
  rewrite Hts in *. unfold in_progress in *. cbn [omap list_omap] in *.
  split; cbn [info_ tasksQueue_ threads_ notifying]; rewrite ?Hup; unfold in_progress; cbn [omap list_omap];
    rewrite ?count_cons in *; rewrite ?E1, ?E2, ?E5, ?E6 in *; try done.
  - rewrite Ht. destruct t, t'; done.
  - intros Hc. assert (0 < Z.b2z (is_waiting t) + count is_waiting rest) as Hc'.
    { destruct (is_waiting t'), (is_waiting t); simpl in *; try lia. }
    specialize (Hw Hc'). lia.
  - intros Hst. specialize (Hs Hst). pose proof (count_nonneg is_waiting rest).
    destruct (is_waiting t'), (is_waiting t); simpl in *; try lia.
Qed.

(** A thread accounts for its last task. *)
Lemma account_inv n q tr p i st :
  pool_inv n q tr p → threads_ p !! i = Some (Between st) →
  pool_inv n q tr (set_thread i (Between none) (set_info (account (info_ p) st) p)).
Proof.
  intros Hi Hl. destruct st.
  - by eapply (move_inv n q tr p i (Between none) (Between none)).
  - destruct Hi as [Hn Hq Hf Hb Ht Hbu Hg Hba Hw Hs Ha].
    destruct (threads_at i _ (threads_ p) Hl) as (rest & Hts & Hup). specialize (Hup (Between none)).
    rewrite Hts in *. split; cbn [account set_thread set_info info_ tasksQueue_ threads_ notifying
      started threadsNumber queueLength busyThreadsCounter goodTasksCounter badTasksCounter];
      rewrite ?Hup; rewrite ?count_cons in *; try done; simpl Z.b2z in *.
    + rewrite (u64_pred _ _ Hbu). f_equal. lia.
    + rewrite (u64_succ _ _ Hg). f_equal. lia.
  - destruct Hi as [Hn Hq Hf Hb Ht Hbu Hg Hba Hw Hs Ha].
    destruct (threads_at i _ (threads_ p) Hl) as (rest & Hts & Hup). specialize (Hup (Between none)).
    rewrite Hts in *. split; cbn [account set_thread set_info info_ tasksQueue_ threads_ notifying
      started threadsNumber queueLength busyThreadsCounter goodTasksCounter badTasksCounter];
      rewrite ?Hup; rewrite ?count_cons in *; try done; simpl Z.b2z in *.
    + rewrite (u64_pred _ _ Hbu). f_equal. lia.
    + rewrite (u64_succ _ _ Hba). f_equal. lia.
Qed.

(** A thread with the mutex returns, takes a task or waits. *)
Lemma lock_inv n q tr p i t :
  pool_inv n q tr p → threads_ p !! i = Some t → t = Between none ∨ t = Woken →
  pool_inv n q (tr ++ (lock i p).1) (lock i p).2.
Proof.
  intros [Hn Hq Hf Hb Ht Hbu Hg Hba Hw Hs Ha] Hl Hi.
  destruct (threads_at i _ (threads_ p) Hl) as (rest & Hts & Hup).
  unfold lock, check_queue. destruct (started (info_ p)) eqn:Est; cbn [negb].
  - destruct (tasksQueue_ p) as [|task queue] eqn:Eq; cbn [fst snd].
    + rewrite app_nil_r. rewrite Hts in *. specialize (Hup Waiting).
      split; cbn [set_thread info_ tasksQueue_ threads_ notifying]; rewrite ?Hup, ?Eq, ?Est; rewrite ?count_cons in *;
        try done; destruct Hi as [-> | ->]; simpl Z.b2z in *; try done.
      all: intros; rewrite zlen_nil; pose proof (count_nonneg is_woken rest); lia.
    + destruct (trace_app tr [Taken task]) as (A1 & A2 & A3 & A4).
      rewrite Hts in *. specialize (Hup (Handling task)). rewrite zlen_cons in *.
      split; cbn [set_thread info_ tasksQueue_ threads_ notifying take_one started threadsNumber queueLength
        busyThreadsCounter goodTasksCounter badTasksCounter]; rewrite ?Hup, ?Est, ?A1, ?A2, ?A3, ?A4;
        cbn [accepted taken finished finished_with omap list_omap];
        rewrite ?app_nil_r; rewrite ?count_cons in *; try done; destruct Hi as [-> | ->]; simpl Z.b2z in *; try done.
      all: rewrite ?Hf, <- ?app_assoc; try done; try lia.
      all: try (rewrite Ht; cbn; by rewrite <- !Permutation_middle, app_nil_r).
      all: try (rewrite (u64_succ _ _ Hbu); f_equal; lia).
      all: intros Hc; specialize (Hw Hc); lia.
  - cbn [fst snd]. rewrite app_nil_r. rewrite Hts in *. specialize (Hup Returned). specialize (Hs eq_refl).
    split; cbn [set_thread info_ tasksQueue_ threads_ notifying]; rewrite ?Hup, ?Est; rewrite ?count_cons in *;
      try done; destruct Hi as [-> | ->]; simpl Z.b2z in *; try done; lia.
Qed.

Lemma finish_inv n q tr p i task ok :
  pool_inv n q tr p → threads_ p !! i = Some (Handling task) →
  pool_inv n q (tr ++ [Finished task ok]) (set_thread i (Between (if ok then good else bad)) p).
Proof.
  intros [Hn Hq Hf Hb Ht Hbu Hg Hba Hw Hs Ha] Hl.
  destruct (threads_at i _ (threads_ p) Hl) as (rest & Hts & Hup).
  destruct (trace_app tr [Finished task ok]) as (A1 & A2 & A3 & A4).
  rewrite Hts in *. specialize (Hup (Between (if ok then good else bad))).
  split; cbn [set_thread info_ tasksQueue_ threads_ notifying]; rewrite ?Hup, ?A1, ?A2, ?A3, ?A4;
    cbn [accepted taken finished finished_with omap list_omap]; rewrite ?app_nil_r;
    rewrite ?count_cons in *; destruct ok; simpl Z.b2z in *; try done.
  all: try (rewrite Ht; cbn; by rewrite <- app_assoc).
  all: rewrite ?Hg, ?Hba; f_equal; cbn [Bool.eqb]; rewrite ?app_nil_r, ?zlen_app;
    change (zlen [task]) with 1; lia.
Qed.

Lemma start_inv n q tr p : pool_inv n q tr p → pool_inv n q tr (start p).
Proof.
  intros Hi. unfold start. destruct (started (info_ p)) eqn:Est; [done|].
  destruct Hi as [Hn Hq Hf Hb Ht Hbu Hg Hba Hw Hs Ha]. specialize (Hs Est).
  split; cbn [info_ tasksQueue_ threads_ notifying set_started started threadsNumber queueLength
    busyThreadsCounter goodTasksCounter badTasksCounter]; rewrite ?count_app, ?count_replicate; cbn [Z.b2z
    is_busy unaccounted is_waiting is_woken has_returned negb]; rewrite ?Z.mul_0_r, ?Z.add_0_r; try done.
  - rewrite Ht. unfold in_progress. rewrite omap_app.
    assert (omap (λ t : thread T, match t with Handling task => Some task | _ => None end)
      (replicate (Z.to_nat (threadsNumber (info_ p))) Starting) = []) as ->; [|by rewrite app_nil_r].
    generalize (Z.to_nat (threadsNumber (info_ p))). intros k. by induction k.
  - intros _ Hpos. pose proof (count_nonneg (λ t, negb (has_returned t)) (threads_ p)). lia.
Qed.

Lemma stop_inv n q tr p : pool_inv n q tr p → pool_inv n q tr (stop p).
Proof.
  intros [Hn Hq Hf Hb Ht Hbu Hg Hba Hw Hs Ha]. unfold stop.
  split; cbn [info_ tasksQueue_ threads_ notifying set_started started threadsNumber queueLength
    busyThreadsCounter goodTasksCounter badTasksCounter]; rewrite ?waiting_wake, ?in_progress_wake; try done.
  all: rewrite count_wake by (by intros []); done.
Qed.

Lemma addTask_inv n q tr p task :
  pool_inv n q tr p →
  match addTask task p with
  | (Ret _, p') => pool_inv n q (tr ++ [Accepted task]) p'
  | (_, p') => pool_inv n q tr p'
  end.
Proof.
  intros [Hn Hq Hf Hb Ht Hbu Hg Hba Hw Hs Ha]. destruct (trace_app tr [Accepted task]) as (A1 & A2 & A3 & A4).
  unfold addTask. destruct (started (info_ p)) eqn:Est; cbn [negb]; [case_if|].
  - split; cbn [info_ tasksQueue_ threads_ notifying]; rewrite ?Est; try done. intros Hc. specialize (Hw Hc). lia.
  - split; cbn [info_ tasksQueue_ threads_ notifying]; rewrite ?Est, ?A1, ?A2, ?A3, ?A4;
      cbn [accepted taken finished finished_with omap list_omap]; rewrite ?app_nil_r; try done.
    + by rewrite Hf, app_assoc.
    + rewrite zlen_app. change (zlen [task]) with 1. lia.
    + intros Hc. specialize (Hw Hc). rewrite zlen_app. change (zlen [task]) with 1. lia.
  - split; cbn [info_ tasksQueue_ threads_ notifying]; rewrite ?Est; try done. intros Hc. specialize (Hw Hc). lia.
Qed.

(** Every step keeps the invariant. *)
Lemma exec_inv n q tr p a ev p' :
  pool_inv n q tr p → exec a p = Some (ev, p') → pool_inv n q (tr ++ ev) p'.
Proof.
  intros Hi E. destruct a as [| | |task|i| |i|i|i|i ok]; cbn [exec] in E.
  - injection E as <- <-. rewrite app_nil_r. by apply start_inv.
  - injection E as <- <-. rewrite app_nil_r. by apply stop_inv.
  - injection E as <- <-. rewrite app_nil_r. by destruct Hi.
  - pose proof (addTask_inv n q tr p task Hi) as Ha.
    destruct (addTask task p) as [[] p1]; injection E as <- <-; rewrite ?app_nil_r; done.
  - destruct (notifying p) as [|k] eqn:En; [done|]. destruct (threads_ p !! i) as [[]|] eqn:El; try done.
    injection E as <- <-. rewrite app_nil_r.
    eapply (move_inv n q tr p i Waiting Woken); try done. cbn [notified notifying]. rewrite En. simpl. lia.
  - destruct (notifying p) as [|k] eqn:En; [done|]. destruct (existsb is_waiting (threads_ p)) eqn:Ee; [done|].
    injection E as <- <-. rewrite app_nil_r. apply existsb_waiting in Ee.
    destruct Hi as [Hn Hq Hf Hb Ht Hbu Hg Hba Hw Hs Ha]. split; try done.
    cbn [notified info_ tasksQueue_ threads_ notifying]. lia.
  - destruct (threads_ p !! i) as [[]|] eqn:El; try done. injection E as <- <-. rewrite app_nil_r.
    by eapply (move_inv n q tr p i Starting (Between none)).
  - destruct (threads_ p !! i) as [[]|] eqn:El; try done.
    + pose proof (account_inv n q tr p i st Hi El) as Ha.
      assert (lock i (set_info (account (info_ p) st) p) =
              lock i (set_thread i (Between none) (set_info (account (info_ p) st) p))) as Elk.
      { unfold lock, check_queue. cbn [set_thread set_info info_ tasksQueue_ threads_ notifying].
        destruct (started _); cbn [negb]; [destruct (tasksQueue_ p)|]; unfold set_thread;
          cbn [info_ tasksQueue_ threads_ notifying]; by rewrite list_insert_insert_eq. }
      rewrite Elk in E. injection E as E. eapply (lock_inv n q tr _ i (Between none)) in Ha; [|..|by left].
      * by rewrite E in Ha.
      * cbn [set_thread set_info threads_]. apply list_lookup_insert_eq. by eapply lookup_lt_Some.
    + injection E as E. eapply (lock_inv n q tr p i Woken) in Hi; [|done|by right]. by rewrite E in Hi.
  - destruct (threads_ p !! i) as [[]|] eqn:El; try done. injection E as <- <-. rewrite app_nil_r.
    eapply (move_inv n q tr p i Waiting Woken); try done. simpl. lia.
  - destruct (threads_ p !! i) as [[]|] eqn:El; try done. injection E as <- <-. by apply finish_inv.
Qed.

Lemma reachable_inv n q tr p : reachable n q tr p → pool_inv n q tr p.
Proof.
  induction 1 as [|tr p a ev p' _ IH E]; [|by eapply exec_inv].
  split; simpl; try done. rewrite zlen_nil. lia.
Qed.

Lemma run_reachable n q tr p acts ev p' :
  reachable n q tr p → run acts p ev p' → reachable n q (tr ++ ev) p'.
Proof.
  intros Hr Hrun. revert tr Hr. induction Hrun as [p|a acts p ev p1 evs p2 E _ IH]; intros tr Hr.
  - by rewrite app_nil_r.
  - rewrite app_assoc. apply IH. by eapply reach_step.
Qed.

(** ** Counting tasks *)

Lemma busy_split ts :
  count is_busy ts =
  zlen (in_progress ts) + count (unaccounted true) ts + count (unaccounted false) ts.
Proof.
  induction ts as [|t ts IH]; [done|]. rewrite !count_cons, IH.
  unfold in_progress. destruct t as [|[]| | | |]; csimpl; rewrite ?zlen_cons; simpl; lia.
Qed.

Lemma finished_split tr :
  zlen (finished tr) = zlen (finished_with true tr) + zlen (finished_with false tr).
Proof.
  unfold finished, finished_with. induction tr as [|[]  tr IH]; csimpl; [done|exact IH|exact IH|].
  destruct ok; csimpl; rewrite !zlen_cons; lia.
Qed.

Lemma u64_sum a b c x y z :
  a = u64 x → b = u64 y → c = u64 z → u64 (a + b + c) = u64 (x + y + z).
Proof.
  intros -> -> ->. unfold wrap. rewrite Zplus_mod_idemp_r, <- Zplus_mod_idemp_l, <- Zplus_mod. apply Zplus_mod_idemp_l.
Qed.

(** ** Progress *)

(** The steps of the pool itself, without new calls and spurious wake-ups. *)
Definition own_action (a : action T) : Prop :=
  match a with ANotify _ | AInit _ | ALock _ | AFinish _ _ => True | _ => False end.

Lemma lock_takes p i t task queue :
  started (info_ p) = true → tasksQueue_ p = task :: queue →
  threads_ p !! i = Some t → (∃ st, t = Between st) ∨ t = Woken →
  ∃ p', exec (ALock i) p = Some ([Taken task], p').
Proof.
  intros Hs Hq Hl Ht. unfold exec. rewrite Hl.
  destruct Ht as [[st ->] | ->]; unfold lock, check_queue; cbn [set_info info_ tasksQueue_]; rewrite Hq.
  - replace (started (account (info_ p) st)) with true by by destruct st. by eexists.
  - rewrite Hs. by eexists.
Qed.

Lemma run_two a b p ev1 p1 ev2 p2 :
  exec a p = Some (ev1, p1) → exec b p1 = Some (ev2, p2) → run [a; b] p (ev1 ++ ev2 ++ []) p2.
Proof. intros E1 E2. econstructor; [done|]. econstructor; [done|]. constructor. Qed.

(** A thread is first moved to where it locks the mutex, then takes the task. *)
Lemma step_then_take p a i t ev task queue :
  exec a p = Some (ev, set_thread i t p) ∨ exec a p = Some (ev, set_thread i t (notified p)) →
  (i < length (threads_ p))%nat → (∃ st, t = Between st) ∨ t = Woken →
  started (info_ p) = true → tasksQueue_ p = task :: queue →
  ∃ ev' p', run [a; ALock i] p ev' p' ∧ Taken task ∈ ev'.
Proof.
  intros E Hi Ht Hs Hq. assert (<[i:=t]> (threads_ p) !! i = Some t) as Hl by by apply list_lookup_insert_eq.
  assert (∃ p1, exec a p = Some (ev, p1) ∧ started (info_ p1) = true ∧ tasksQueue_ p1 = task :: queue ∧
    threads_ p1 !! i = Some t) as (p1 & E1 & Hs1 & Hq1 & Hl1) by (destruct E as [E|E]; by eexists).
  destruct (lock_takes p1 i t task queue Hs1 Hq1 Hl1 Ht) as [p2 E2].
  eexists _, p2. split; [by eapply run_two|]. set_solver.
Qed.

Lemma alive_takes p i t task queue :
  threads_ p !! i = Some t → has_returned t = false → is_waiting t = false →
  started (info_ p) = true → tasksQueue_ p = task :: queue →
  ∃ acts ev p', Forall own_action acts ∧ (length acts ≤ 2)%nat ∧ run acts p ev p' ∧ Taken task ∈ ev.
Proof.
  intros Hl Hr Hw Hs Hq. assert (i < length (threads_ p))%nat as Hi by by eapply lookup_lt_Some.
  destruct t as [|st| | |tk|]; try done.
  - destruct (step_then_take p (AInit i) i (Between none) [] task queue) as (ev & p' & Hrun & Hin);
      [left; unfold exec; by rewrite Hl|done|by left; eexists|done|done|].
    exists [AInit i; ALock i], ev, p'. split_and!; [by repeat constructor|simpl; lia|done|done].
  - destruct (lock_takes p i (Between st) task queue) as [p' E]; [done..|by left; eexists|].
    exists [ALock i], ([Taken task] ++ []), p'. split_and!; [by repeat constructor|simpl; lia| |set_solver].
    econstructor; [done|constructor].
  - destruct (lock_takes p i Woken task queue) as [p' E]; [done..|by right|].
    exists [ALock i], ([Taken task] ++ []), p'. split_and!; [by repeat constructor|simpl; lia| |set_solver].
    econstructor; [done|constructor].
  - destruct (step_then_take p (AFinish i true) i (Between good) [Finished tk true] task queue)
      as (ev & p' & Hrun & Hin); [left; unfold exec; by rewrite Hl|done|by left; eexists|done|done|].
    exists [AFinish i true; ALock i], ev, p'. split_and!; [by repeat constructor|simpl; lia|done|done].
Qed.

(** ** Stopping *)

Definition thread_action (a : action T) : Prop :=
  match a with AInit _ | ALock _ | ASpurious _ | AFinish _ _ => True | _ => False end.

(** How many steps a thread still makes in a pool that is stopped. *)
Definition steps_left (t : thread T) : nat :=
  match t with Starting | Handling _ => 2 | Between _ | Woken => 1 | Waiting | Returned => 0 end.
Definition pool_steps (ts : list (thread T)) : nat := sum_list_with steps_left ts.

Lemma pool_steps_at i t t' ts :
  ts !! i = Some t → (pool_steps (<[i := t']> ts) + steps_left t = pool_steps ts + steps_left t')%nat.
Proof.
  revert i. induction ts as [|u ts IH]; intros [|i] Hi; simplify_eq/=; [unfold pool_steps; simpl; lia|].
  specialize (IH i Hi). unfold pool_steps in *. simpl. lia.
Qed.

Lemma pool_steps_bound ts : (pool_steps ts ≤ 2 * length ts)%nat.
Proof. induction ts as [|[] ts IH]; unfold pool_steps in *; simpl; lia. Qed.

(** In a stopped pool where nobody waits a step of a thread brings it nearer
    to its end, and takes no task. *)
Lemma stopped_step p a ev p' :
  started (info_ p) = false → count is_waiting (threads_ p) = 0 → thread_action a →
  exec a p = Some (ev, p') →
  started (info_ p') = false ∧ taken ev = [] ∧ (S (pool_steps (threads_ p')) = pool_steps (threads_ p))%nat.
Proof.
  intros Hs Hw Ha E. destruct a as [| | |task|i| |i|i|i|i ok]; try done; cbn [exec] in E;
    (destruct (threads_ p !! i) as [t|] eqn:El; [|done]); destruct t as [|st| | |tk|]; try done.
  - injection E as <- <-. pose proof (pool_steps_at i _ (Between none) _ El). simpl in *. split_and!; [done..|lia].
  - injection E as E. unfold lock, check_queue in E. cbn [set_info info_] in E.
    replace (started (account (info_ p) st)) with false in E by (by destruct st). injection E as <- <-.
    pose proof (pool_steps_at i _ Returned _ El). simpl in *. split_and!; [by destruct st|done|lia].
  - injection E as E. unfold lock, check_queue in E. rewrite Hs in E. injection E as <- <-.
    pose proof (pool_steps_at i _ Returned _ El). simpl in *. split_and!; [done..|lia].
  - apply (count_elem is_waiting) in El; [|done]. lia.
  - injection E as <- <-. pose proof (pool_steps_at i _ (Between (if ok then good else bad)) _ El).
    simpl in *. split_and!; [done..|lia].
Qed.

(** A thread that has not returned and does not wait can go on. *)
Lemma thread_enabled p i t :
  threads_ p !! i = Some t → has_returned t = false → is_waiting t = false →
  ∃ a, thread_action a ∧ exec a p ≠ None.
Proof.
  intros Hl Hr Hw. destruct t as [|st| | |tk|]; try done.
  - exists (AInit i). split; [done|]. unfold exec. by rewrite Hl.
  - exists (ALock i). split; [done|]. unfold exec. by rewrite Hl.
  - exists (ALock i). split; [done|]. unfold exec. by rewrite Hl.
  - exists (AFinish i true). split; [done|]. unfold exec. by rewrite Hl.
Qed.

Lemma joinable p :
  count is_waiting (threads_ p) = 0 → can_join p = true ∨ ∃ a, thread_action a ∧ exec a p ≠ None.
Proof.
  intros Hw. destruct (can_join p) eqn:Ej; [by left|right].
  assert (∃ i t, threads_ p !! i = Some t ∧ has_returned t = false) as (i & t & Hl & Hr).
  { unfold can_join in Ej. clear Hw. induction (threads_ p) as [|t ts IH]; [done|]. cbn [forallb] in Ej.
    destruct (has_returned t) eqn:Et; [|by exists 0%nat, t].
    destruct (IH Ej) as (i & u & Hi & Hu). by exists (S i), u. }
  eapply thread_enabled; [done|done|]. destruct (is_waiting t) eqn:Ew; [|done].
  apply (count_elem is_waiting) in Hl; [lia|done].
Qed.

(** Executions computed, for the examples. *)
Fixpoint exec_all (acts : list (action T)) (p : ThreadPool T) : option (list (event T) * ThreadPool T) :=
  match acts with
  | [] => Some ([], p)
  | a :: acts =>
      match exec a p with
      | Some (ev, p1) =>
          match exec_all acts p1 with Some (evs, p2) => Some (ev ++ evs, p2) | None => None end
      | None => None
      end
  end.

Lemma exec_all_run acts p ev p' : exec_all acts p = Some (ev, p') → run acts p ev p'.
Proof.
  revert p ev. induction acts as [|a acts IH]; intros p ev E; simpl in E; [injection E as <- <-; constructor|].
  destruct (exec a p) as [[ev1 p1]|] eqn:Ea; [|done].
  destruct (exec_all acts p1) as [[evs p2]|] eqn:Es; [|done]. injection E as <- <-.
  econstructor; [done|]. by apply IH.
Qed.
End lemmas.

(** ** An execution: one thread, two tasks, the first of which throws. *)
Definition two_tasks : list (action Z) :=
  [AStart; AInit 0; ALock 0; AAdd 5; AAdd 6; ANotify 0; ALock 0; AFinish 0 false].

(** * Properties *)

(** C20: Tasks are taken in the order in which they were accepted, each of them
    once; a task that was taken is in progress on one thread or finished; the
    queue never holds more tasks than its length. *)
Theorem pool_tasks {T} (n q : Z) (tr : list (event T)) (p : ThreadPool T) :
  reachable n q tr p →
  accepted tr = taken tr ++ tasksQueue_ p ∧
  taken tr ≡ₚ finished tr ++ in_progress (threads_ p) ∧
  zlen (tasksQueue_ p) <= Z.max 0 q.
Proof. intros [_ _ Hf Hb Ht _ _ _ _ _ _]%reachable_inv. done. Qed.

Lemma pool_tasks_witness : ∃ p, run two_tasks (make_pool 1 2) [Accepted 5; Accepted 6; Taken 5; Finished 5 false] p ∧
  [5; 6] = [5] ++ tasksQueue_ p.
Proof.
  eexists. assert (run two_tasks (make_pool 1 2) [Accepted 5; Accepted 6; Taken 5; Finished 5 false] _) as Hr
    by (apply exec_all_run; vm_compute; reflexivity). split; [exact Hr|].
  exact (proj1 (pool_tasks 1 2 _ _ (run_reachable 1 2 [] _ _ _ _ (reach_make 1 2) Hr))).
Defined.

(** What [getInfo] reports is exact: the tasks that were taken are the good,
    the bad and the busy ones (all counters being 64 bits wide), and the
    current queue is the number of tasks accepted and not taken. *)
Theorem pool_counters {T} (n q : Z) (tr : list (event T)) (p : ThreadPool T) :
  reachable n q tr p →
  let i := (getInfo p).1 in
  u64 (goodTasksCounter i + badTasksCounter i + busyThreadsCounter i) = u64 (zlen (taken tr)) ∧
  busyThreadsCounter i = u64 (count is_busy (threads_ p)) ∧
  currentQueue i = zlen (accepted tr) - zlen (taken tr).
Proof.
  intros [_ _ Hf _ Ht Hb Hg Hba _ _ _]%reachable_inv. cbn. split_and!; [|done|].
  - rewrite (u64_sum _ _ _ _ _ _ Hg Hba Hb). f_equal.
    assert (zlen (taken tr) = zlen (finished tr) + zlen (in_progress (threads_ p))) as ->.
    { unfold zlen at 1. rewrite Ht. apply zlen_app. }
    rewrite busy_split, finished_split. lia.
  - rewrite Hf, zlen_app. lia.
Qed.

Lemma pool_counters_witness : ∃ p, run two_tasks (make_pool 1 2) [Accepted 5; Accepted 6; Taken 5; Finished 5 false] p ∧
  currentQueue (getInfo p).1 = 2 - 1.
Proof.
  eexists. assert (run two_tasks (make_pool 1 2) [Accepted 5; Accepted 6; Taken 5; Finished 5 false] _) as Hr
    by (apply exec_all_run; vm_compute; reflexivity). split; [exact Hr|].
  exact (proj2 (proj2 (pool_counters 1 2 _ _ (run_reachable 1 2 [] _ _ _ _ (reach_make 1 2) Hr)))).
Defined.

(** C9: No wake-up is lost: in whatever order the callers and the workers ran, as
    long as the pool is started and a task is queued, at most two more steps of
    the pool itself, without any spurious wake-up and without a new call, take
    that task. *)
Theorem pool_progress {T} (n q : Z) (tr : list (event T)) (p : ThreadPool T) (task : T) (queue : list T) :
  0 < n → reachable n q tr p → started (info_ p) = true → tasksQueue_ p = task :: queue →
  ∃ acts ev p', Forall own_action acts ∧ (length acts ≤ 2)%nat ∧ run acts p ev p' ∧ Taken task ∈ ev.
Proof.
  intros Hn [_ _ _ _ _ _ _ _ Hw _ Ha]%reachable_inv Hs Hq.
  destruct (decide (0 < count is_waiting (threads_ p))) as [Hc|Hc].
  - specialize (Hw Hc). rewrite Hq, zlen_cons in Hw. pose proof (zlen_nonneg queue).
    destruct (decide (0 < count is_woken (threads_ p))) as [Hk|Hk].
    + apply count_pos in Hk as (i & t & Hl & Ht). eapply alive_takes; [done|by destruct t..|done|done].
    + apply count_pos in Hc as (i & t & Hl & Ht). destruct t; try done.
      destruct (step_then_take p (ANotify i) i Woken [] task queue) as (ev & p' & Hrun & Hin).
      * right. unfold exec. rewrite Hl. destruct (notifying p); [simpl in Hw; lia|done].
      * by eapply lookup_lt_Some.
      * by right.
      * done.
      * done.
      * exists [ANotify i; ALock i], ev, p'. split_and!; [by repeat constructor|simpl; lia|done|done].
  - destruct (count_pos _ _ (Ha Hs Hn)) as (i & t & Hl & Ht).
    eapply alive_takes; [done|by destruct (has_returned t)| |done|done].
    destruct (is_waiting t) eqn:Ew; [|done]. apply (count_elem is_waiting) in Hl; [lia|done].
Qed.

Lemma pool_progress_witness : ∃ p acts ev p', tasksQueue_ p = [6] ∧
  Forall own_action acts ∧ run acts p ev p' ∧ Taken 6 ∈ ev.
Proof.
  assert (∃ p, run two_tasks (make_pool 1 2) [Accepted 5; Accepted 6; Taken 5; Finished 5 false] p ∧
    started (info_ p) = true ∧ tasksQueue_ p = [6]) as (p & Hr & Hs & Hq).
  { eexists. split; [apply exec_all_run; vm_compute; reflexivity|]. split; reflexivity. }
  destruct (pool_progress 1 2 _ p 6 [] ltac:(lia) (run_reachable 1 2 [] _ _ _ _ (reach_make 1 2) Hr) Hs Hq)
    as (acts & ev & p' & Ha & _ & Hrun & Hin).
  exists p, acts, ev, p'. split_and!; assumption.
Defined.

(** A pool that was stopped can be joined: no thread is left waiting, whatever
    the threads do none of them takes another task, all of them have returned
    after at most two steps each, and until then one of them can make a step. *)
Theorem pool_stop_join {T} (n q : Z) (tr : list (event T)) (p : ThreadPool T)
    (acts : list (action T)) (ev : list (event T)) (p' : ThreadPool T) :
  reachable n q tr p → started (info_ p) = false → Forall thread_action acts → run acts p ev p' →
  (length acts ≤ 2 * length (threads_ p))%nat ∧ taken ev = [] ∧
  (can_join p' = true ∨ ∃ a, thread_action a ∧ exec a p' ≠ None).
Proof.
  intros Hr Hs Ha Hrun.
  assert ((length acts + pool_steps (threads_ p') = pool_steps (threads_ p))%nat ∧ taken ev = [] ∧
    (can_join p' = true ∨ ∃ a, thread_action a ∧ exec a p' ≠ None)) as (Hl & Ht & Hj).
  { revert tr Hr Hs Ha. induction Hrun as [p|a acts p ev p1 evs p2 E _ IH]; intros tr Hr Hs Ha.
    - split_and!; [done|done|]. apply joinable. by apply (inv_stopped _ _ _ _ (reachable_inv _ _ _ _ Hr)).
    - apply Forall_cons in Ha as [Ha Hacts].
      destruct (stopped_step p a ev p1 Hs (inv_stopped _ _ _ _ (reachable_inv _ _ _ _ Hr) Hs) Ha E) as (Hs1 & Ht1 & Hl1).
      destruct (IH _ (reach_step _ _ _ _ _ _ _ Hr E) Hs1 Hacts) as (Hl & Ht & Hj).
      split_and!; [simpl; lia| |done]. unfold taken in *. by rewrite omap_app, Ht1, Ht. }
  pose proof (pool_steps_bound (threads_ p)). split_and!; [lia|done|done].
Qed.

Lemma pool_stop_join_witness : ∃ p p', run [ALock 0] p [] p' ∧ tasksQueue_ p = [6] ∧
  (can_join p' = true ∨ ∃ a, thread_action a ∧ exec a p' ≠ None).
Proof.
  assert (∃ p p', run (two_tasks ++ [AStop]) (make_pool 1 2) [Accepted 5; Accepted 6; Taken 5; Finished 5 false] p ∧
    started (info_ p) = false ∧ run [ALock 0] p [] p' ∧ tasksQueue_ p = [6]) as (p & p' & Hr & Hs & Hl & Hq).
  { eexists _, _. split; [apply exec_all_run; vm_compute; reflexivity|].
    split; [reflexivity|]. split; [apply exec_all_run; vm_compute; reflexivity|reflexivity]. }
  exists p, p'. split_and!; [exact Hl|exact Hq|].
  exact (proj2 (proj2 (pool_stop_join 1 2 _ p [ALock 0] [] p'
    (run_reachable 1 2 [] _ _ _ _ (reach_make 1 2) Hr) Hs ltac:(repeat constructor) Hl))).
Defined.
