(* ===== verification/Globals.v ===== *)
(** * The pools of the daemon (library/globals.cpp)

    [initPools] builds the pools the handlers need from the configuration. *)
From S2P Require Import Prelude CLib Range Util Containers Buffer FileBuffer DataBuffer BufferUtil.
From S2P Require Import HttpDate Cookie RequestState Parser Serialize RequestImpl Request HandlerSet ThreadPool.

(** [RequestTask] (include/details/request_thread_pool.h); the request and its
    stream are one object of the model, named by its address. *)
Record RequestTask := MkRequestTask {
  task_request : Z;
  task_handlers : list Z;
}.

(** [Globals::ThreadPoolMap]. *)
Definition ThreadPoolMap : Type := list (bytes * ThreadPool RequestTask).

(** Addition of two [int]s; an overflow is undefined. *)
Definition int_add (a b : Z) : outcome Z :=
  if (-2 ^ 31 <=? a + b) && (a + b <? 2 ^ 31) then Ret (a + b) else Undef.

Section globals.
Context `{Regex} (config : Config) (handlerSet_ : list HandlerDescription).

(** [RequestsThreadPool(threadsNumber, queueLength, logger_)]: the [int]s
    become [unsigned]. *)
Definition make_requests_pool (threads queue : Z) : ThreadPool RequestTask :=
  make_pool (u32 threads) (u32 queue).

Fixpoint add_pools (poolsNeeded : list (bytes * unit)) (maxTasksInProcessCounter : Z)
    (poolSubkeys : list bytes) : M ThreadPoolMap unit :=
  match poolSubkeys with
  | [] => mret ()
  | p :: poolSubkeys =>
      name ← lift (asString config (p ++ str "/@name"));
      threads ← lift (asInt config (p ++ str "/@threads"));
      queue ← lift (asInt config (p ++ str "/@queue"));
      n ← lift (int_add threads queue);
      let counter := u32 (maxTasksInProcessCounter + n) in
      if 65535 <? counter then
        throw (RuntimeError (str "The sum of all threads and queue attributes must be not more than 65535"))
      else
        pools_ ← Prelude.get;
        match map_find name pools_ with
        | Some _ => throw (RuntimeError (name ++ str ": pool names must be unique"))
        | None =>
            match map_find name poolsNeeded with
            | None => add_pools poolsNeeded counter poolSubkeys
            | Some _ =>
                modify (map_insert name (make_requests_pool threads queue));;
                add_pools poolsNeeded counter poolSubkeys
            end
        end
  end.

Fixpoint check_pools (poolsNeeded : list (bytes * unit)) : M ThreadPoolMap unit :=
  match poolsNeeded with
  | [] => mret ()
  | i :: poolsNeeded =>
      pools_ ← Prelude.get;
      match map_find i.1 pools_ with
      | None => throw (RuntimeError (str "cannot find pool " ++ i.1))
      | Some _ => check_pools poolsNeeded
      end
  end.

Definition initPools : M ThreadPoolMap unit :=
  let poolsNeeded := getPoolsNeeded handlerSet_ in
  poolSubkeys ← lift (subKeys config (str "/fastcgi/pools/pool"));
  add_pools poolsNeeded 0 poolSubkeys;;
  check_pools poolsNeeded.

(** [ThreadPool::start] makes the threads; what each of them runs first is
    [thread_init] below. *)
Definition startThreadPools : M ThreadPoolMap unit := modify (λ pools_, (λ e, (e.1, start e.2)) <$> pools_).
Definition stopThreadPools : M ThreadPoolMap unit := modify (λ pools_, (λ e, (e.1, stop e.2)) <$> pools_).
(** [joinThreadPools] returns when every pool can be joined. *)
Definition can_join_pools (pools_ : ThreadPoolMap) : bool := forallb (λ p, can_join p.2) pools_.
End globals.

(** ** The start of a thread

    Each thread of a pool runs [onThreadStart] of the handlers of the pool before
    it waits for tasks ([ThreadPool::workMethod]); [S] is what the handlers keep. *)
Section start_up.
Context {S : Type} (onThreadStart : Z → M S unit).

Fixpoint startUpFunc (handlers : list (Z * unit)) : M S unit :=
  match handlers with
  | [] => mret ()
  | (it, _) :: handlers => onThreadStart it;; startUpFunc handlers
  end.

(** [func()] of [workMethod]; any exception is dropped. *)
Definition call_init (func : M S unit) : M S unit := catch func (λ _, mret ()).

(** The function [startThreadPools] gives to the pool of this name. *)
Definition thread_init `{Regex} (handlerSet_ : list HandlerDescription) (name : bytes) : M S unit :=
  call_init (startUpFunc (findPoolHandlers handlerSet_ name)).
End start_up.

(** * Lemmas *)

Section globals_lemmas.
Context `{Regex} (config : Config) (needed : list (bytes * unit)).
Context (needed_sorted : sorted_map needed).

(** A pool of the map is one the configuration describes and a handler needs. *)
Definition pool_ok (e : bytes * ThreadPool RequestTask) : Prop :=
  e.1 ∈ needed.*1 ∧ ∃ k threads queue, asString config (k ++ str "/@name") = Ret e.1 ∧
    asInt config (k ++ str "/@threads") = Ret threads ∧ asInt config (k ++ str "/@queue") = Ret queue ∧
    e.2 = make_requests_pool threads queue.

Lemma map_insert_elem {K V} `{StdLess K} (k : K) (v : V) m e :
  e ∈ map_insert k v m → e = (k, v) ∨ e ∈ m.
Proof.
  induction m as [|[k' v'] m IH]; cbn [map_insert]; [set_solver|]. repeat case_if; set_solver.
Qed.

Lemma add_pools_ok counter v pools pools' :
  sorted_map pools → Forall pool_ok pools →
  add_pools config needed counter v pools = (Ret (), pools') → sorted_map pools' ∧ Forall pool_ok pools'.
Proof.
  revert counter pools. induction v as [|k v IH]; intros counter pools Hs Hp E; cbn [add_pools] in E.
  - injection E as <-. done.
  - returned E. cbn zeta in E. destruct (65535 <? _); [done|]. returned E.
    repeat match goal with Hl : lift _ _ = _ |- _ => apply lift_returns in Hl as [? ->] end.
    injection E4 as <- <-. destruct (map_find a _) eqn:Ef; [done|].
    destruct (map_find a needed) eqn:En; [|by eapply IH].
    returned E. unfold modify in E0. injection E0 as _ <-.
    eapply IH; [| |exact E]; [by apply map_insert_sorted|].
    apply Forall_forall. intros e [->|He]%map_insert_elem.
    + split; [|by eexists _, _, _]. apply map_find_keys; [done|]. by eexists.
    + by eapply Forall_forall in He.
Qed.

Lemma check_pools_ok l pools pools' :
  check_pools l pools = (Ret (), pools') → pools' = pools ∧ Forall (λ i, is_Some (map_find i.1 pools)) l.
Proof.
  induction l as [|i l IH]; cbn [check_pools]; intros E; [injection E as <-; done|].
  returned E. injection E0 as <- <-. destruct (map_find i.1 pools) eqn:Ef; [|done].
  destruct (IH E) as [-> Hl]. split; [done|]. constructor; [by eexists|done].
Qed.
End globals_lemmas.

(** The pool of a handler is found. *)
Lemma initPools_found `{Regex} config hs pools d :
  initPools config hs [] = (Ret (), pools) → d ∈ hs → ∃ pool, map_find (poolName d) pools = Some pool.
Proof.
  intros E Hd. unfold initPools in E. returned E. apply check_pools_ok in E as [-> Hc].
  rewrite Forall_forall in Hc. destruct (getPoolsNeeded_spec hs) as [_ Hin].
  assert (poolName d ∈ (getPoolsNeeded hs).*1) as ([k u] & -> & Hk)%list_elem_of_fmap by (apply Hin; eauto).
  exact (Hc _ Hk).
Qed.

(** Starting the pools keeps their names. *)
Lemma map_find_start name (pools : ThreadPoolMap) :
  is_Some (map_find name pools) → is_Some (map_find name (startThreadPools pools).2).
Proof.
  cbn [startThreadPools modify snd]. induction pools as [|[k p] pools IH]; [done|]. csimpl.
  repeat case_if; [done|exact IH|by eexists].
Qed.

(** ** The start of a thread

    [P l] is what holds when the handlers [l] have been started, in this order,
    the last of them perhaps with an exception. *)
Section start_up_lemmas.
Context {S : Type} (onThreadStart : Z → M S unit) (P : list Z → S → Prop).
Hypothesis starts : ∀ l h s, P l s →
  wp (onThreadStart h) s (λ _ t, P (l ++ [h]) t) (λ _ t, P (l ++ [h]) t).

Lemma startUpFunc_starts handlers l s : P l s →
  wp (startUpFunc onThreadStart handlers) s (λ _ t, P (l ++ handlers.*1) t)
    (λ _ t, ∃ k, P (l ++ take k handlers.*1) t).
Proof.
  revert l s. induction handlers as [|[h []] handlers IH]; intros l s Hl; cbn [startUpFunc].
  { apply wp_ret. by rewrite app_nil_r. }
  wp_step. eapply wp_mono; [by apply starts| |].
  - intros [] t Ht. eapply wp_mono; [by apply IH| |].
    + intros [] u Hu. csimpl. by rewrite cons_middle, app_assoc.
    + intros e u [k Hu]. exists (Datatypes.S k). csimpl. by rewrite cons_middle, app_assoc.
  - intros e t Ht. by exists 1%nat.
Qed.

(** A thread comes to its loop whatever the handlers throw; those
    that were started are the first of the set, in its order. *)
Lemma thread_init_starts `{Regex} hs name s : P [] s →
  wp (thread_init onThreadStart hs name) s (λ _ t, ∃ k, P (take k (findPoolHandlers hs name).*1) t) noexn.
Proof.
  intros Hs. unfold thread_init, call_init. apply wp_catch. eapply wp_mono; [by apply startUpFunc_starts| |].
  - intros [] t Ht. exists (length (findPoolHandlers hs name).*1). by rewrite firstn_all.
  - intros e t Ht. by apply wp_ret.
Qed.
End start_up_lemmas.

(** ** An example: a negative number of threads *)
Definition negative_threads : Config :=
  {| asInt k := Ret (if string_eq k (str "p/@threads") then -1 else 1);
     asIntDef _ d := Ret d;
     asString _ := Ret (str "p");
     asStringDef _ d := Ret d;
     subKeys _ := Ret [str "p"] |}.

(** * Properties *)

(** When the pools are built, every handler of the set has the pool it names,
    so that [pools().find(handler->poolName)->second] is a pool; the pools are
    those the configuration describes and a handler needs, with its numbers of
    threads and places. *)
Theorem initPools_needed `{Regex} (config : Config) (hs : list HandlerDescription) (pools : ThreadPoolMap) :
  initPools config hs [] = (Ret (), pools) →
  sorted_map pools ∧
  (∀ d, d ∈ hs → ∃ pool, map_find (poolName d) pools = Some pool) ∧
  (∀ name pool, map_find name pools = Some pool →
     (∃ d, d ∈ hs ∧ poolName d = name) ∧
     ∃ k threads queue, asString config (k ++ str "/@name") = Ret name ∧
       asInt config (k ++ str "/@threads") = Ret threads ∧ asInt config (k ++ str "/@queue") = Ret queue ∧
       pool = make_requests_pool threads queue).
Proof.
  intros E. pose proof (λ d, initPools_found config hs pools d E) as Hfound.
  unfold initPools in E. returned E. apply lift_returns in E0 as [_ ->].
  destruct (getPoolsNeeded_spec hs) as [Hn Hin]. destruct a0. apply (add_pools_ok config (getPoolsNeeded hs) Hn) in E1 as [Hs Hp]; [|constructor|constructor].
  apply check_pools_ok in E as [-> _]. rewrite Forall_forall in Hp. split_and!; [done|exact Hfound|].
  intros name pool Hf. apply map_find_elem in Hf; [|done]. apply Hp in Hf as [Hk Hd].
  split; [by apply Hin|exact Hd].
Qed.

Lemma initPools_needed_witness :
  let hs := (@init literal two_handlers unit every_component Some (tt, [])).2.2 in
  ∃ pools, @initPools literal two_handlers hs [] = (Ret (), pools) ∧
  ∃ pool, map_find (str "q") pools = Some pool.
Proof.
  intros hs. eexists. split; [vm_compute; reflexivity|].
  destruct (@initPools_needed literal two_handlers hs _ ltac:(vm_compute; reflexivity)) as (_ & Hn & _).
  refine (Hn (nth 1 hs (@MkHandlerDescription literal [] [] [] [])) _).
  apply (bool_decide_unpack _) || (right; left).
Defined.

(** The numbers of threads and places are not checked for their sign: with -1
    threads and one place the sum passes the check against 65535 and the pool
    is given 4294967295 threads. *)
Theorem initPools_negative `{Regex} (d : HandlerDescription) :
  poolName d = str "p" →
  ∃ pool, initPools negative_threads [d] [] = (Ret (), [(str "p", pool)]) ∧
    threadsNumber (info_ pool) = 4294967295.
Proof.
  intros Hp. exists (make_requests_pool (-1) 1). split; [|by vm_compute].
  unfold initPools, getPoolsNeeded. cbn [foldl]. rewrite Hp. by vm_compute.
Qed.

Lemma initPools_negative_witness :
  ∃ pool, @initPools literal negative_threads [@MkHandlerDescription literal [] [] (str "p") []] [] =
    (Ret (), [(str "p", pool)]) ∧ threadsNumber (info_ pool) = 4294967295.
Proof. exact (@initPools_negative literal (@MkHandlerDescription literal [] [] (str "p") []) eq_refl). Defined.
