(* ===== verification/Daemon.v ===== *)
(** * The parts of the daemon (library/loader.cpp, library/globals.cpp)

    The loader of shared objects, the component contexts, and the constructor of
    Globals, which builds the loader, the components, the handlers, the logger
    and the pools from the configuration and starts the pools. *)
From S2P Require Import Prelude CLib Range Util Containers Buffer FileBuffer DataBuffer BufferUtil.
From S2P Require Import HttpDate Cookie RequestState Parser Serialize RequestImpl Request HandlerSet ComponentSet ThreadPool Globals.

(** ** The dynamic linker

    A handle is its address, 0 for NULL; a call comes with what [dlerror] says
    after it.  A factory makes a component for a key of the configuration. *)
Definition Factory : Type := bytes → outcome Z.
Class Dl := {
  dlopen : bytes → Z * option bytes;
  dlsym_error : Z → option bytes;
  getFactoryMap : Z → list (bytes * Factory);
}.

(** ** Loader

    [opened_] holds the shared objects that are open, one as often as it was
    opened. *)
Record Loader := MkLoader {
  handles_ : list Z;
  factories_ : list (bytes * Factory);
  opened_ : list Z;
}.

Fixpoint remove_one (x : Z) (l : list Z) : list Z :=
  match l with [] => [] | y :: l => if x =? y then l else y :: remove_one x l end.

Section loader.
Context `{Dl}.
Definition checkLoad (err : option bytes) : M Loader unit :=
  match err with Some message => throw (RuntimeError message) | None => mret () end.
Definition insert_factories (name : bytes) (factoryMap : list (bytes * Factory)) (s : Loader) : Loader :=
  MkLoader (handles_ s) (foldl (λ m i, map_insert (name ++ str ":" ++ i.1) i.2 m) (factories_ s) factoryMap)
    (opened_ s).
Definition dlclose (handle : Z) : M Loader unit :=
  modify (λ s, MkLoader (handles_ s) (factories_ s) (remove_one handle (opened_ s))).
Definition load (name path : bytes) : M Loader unit :=
  let '(handle, err) := dlopen path in
  (if negb (handle =? 0) then modify (λ s, MkLoader (handles_ s) (factories_ s) (opened_ s ++ [handle])) else mret ());;
  catch
    (checkLoad err;;
     checkLoad (dlsym_error handle);;
     modify (insert_factories name (getFactoryMap handle));;
     modify (λ s, MkLoader (handles_ s ++ [handle]) (factories_ s) (opened_ s)))
    (λ e, (if negb (handle =? 0) then dlclose handle else mret ());; throw e).
Fixpoint load_all (config : Config) (v : list bytes) : M Loader unit :=
  match v with
  | [] => mret ()
  | i :: v =>
      name ← lift (asString config (i ++ str "/@name"));
      path ← lift (asString config (i ++ str "/@path"));
      load name path;; load_all config v
  end.
Definition Loader_init (config : Config) : M Loader unit :=
  v ← lift (subKeys config (str "/fastcgi/modules/module")); load_all config v.
Definition findComponentFactory (s : Loader) (type : bytes) : option Factory := map_find type (factories_ s).
End loader.

(** ** Globals *)
Section globals.
Context `{Dl} `{Regex} (config : Config).
(** The methods of the components and the interfaces they implement. *)
Context (onLoad : (bytes → M ComponentSet (option Z)) → Z → M ComponentSet unit) (what : exn → bytes).
Context (as_handler : Z → option Z) (is_logger : Z → bool).

Record Globals := MkGlobals {
  loader_ : Loader;
  componentSet_ : ComponentSet;
  handlerSet_ : list HandlerDescription;
  logger_ : option Z;
  pools_ : ThreadPoolMap;
}.
Definition new_globals : Globals := MkGlobals (MkLoader [] [] []) empty_set [] None [].

Definition on_loader {A} (m : M Loader A) : M Globals A :=
  zoom loader_ (λ l g, MkGlobals l (componentSet_ g) (handlerSet_ g) (logger_ g) (pools_ g)) m.
Definition on_components {A} (m : M ComponentSet A) : M Globals A :=
  zoom componentSet_ (λ c g, MkGlobals (loader_ g) c (handlerSet_ g) (logger_ g) (pools_ g)) m.
Definition on_handlers {A} (m : M (ComponentSet * list HandlerDescription) A) : M Globals A :=
  zoom (λ g, (componentSet_ g, handlerSet_ g))
    (λ s g, MkGlobals (loader_ g) s.1 s.2 (logger_ g) (pools_ g)) m.
Definition on_pools {A} (m : M ThreadPoolMap A) : M Globals A :=
  zoom pools_ (λ p g, MkGlobals (loader_ g) (componentSet_ g) (handlerSet_ g) (logger_ g) p) m.
Definition set_logger (l : option Z) (g : Globals) : Globals :=
  MkGlobals (loader_ g) (componentSet_ g) (handlerSet_ g) l (pools_ g).

Definition initLogger : M Globals unit :=
  name ← lift (asString config (str "/fastcgi/daemon[count(logger)=1]/logger/@component"));
  component ← on_components (ComponentSet.find onLoad what name);
  match component with
  | None => throw (RuntimeError (str "Daemon logger does not exist"))
  | Some c =>
      if is_logger c then modify (set_logger (Some c))
      else
        modify (set_logger None);;
        throw (RuntimeError (str "Component " ++ name ++ str " does not implement Logger interface"))
  end.

(** [Globals(config)]: an object under construction. *)
Definition Globals_init : M Globals unit :=
  on_loader (Loader_init config);;
  g ← Prelude.get;
  on_components (ComponentSet.init (findComponentFactory (loader_ g)) onLoad what config);;
  on_handlers (HandlerSet.init config (ComponentSet.find onLoad what) as_handler);;
  initLogger;;
  g ← Prelude.get;
  on_pools (initPools config (handlerSet_ g));;
  on_pools startThreadPools.
End globals.

(** * Lemmas *)

(** ** The loader *)
Section loader_lemmas.
Context `{Dl}.

(** The objects that are open are those whose factories are there. *)
Definition no_leak (s : Loader) : Prop := opened_ s ≡ₚ handles_ s.

Lemma dlclose_last handle (l : list Z) : remove_one handle (l ++ [handle]) ≡ₚ l.
Proof.
  induction l as [|x l IH]; simpl; [by rewrite Z.eqb_refl|]. case_if; [|by rewrite IH].
  zbool. subst x. apply Permutation_app_comm.
Qed.

(** A call of [dlopen] that fails says so. *)
Lemma load_no_leak name path s :
  (dlopen path).1 ≠ 0 ∨ (dlopen path).2 ≠ None → no_leak s → no_leak (load name path s).2.
Proof.
  unfold load, no_leak. destruct (dlopen path) as [handle err]. cbn [fst snd]. intros Hd Hs.
  pose proof (dlclose_last handle (opened_ s)) as Hf.
  destruct (handle =? 0) eqn:E; unfold mbind, M_bind, modify, checkLoad, dlclose, catch, throw; cbn [negb];
    destruct err; cbn; try (destruct (dlsym_error handle); cbn); rewrite ?Hf, ?Hs; try done.
  all: zbool; subst; by destruct Hd.
Qed.

Lemma load_all_no_leak config v s :
  (∀ path, (dlopen path).1 ≠ 0 ∨ (dlopen path).2 ≠ None) → no_leak s → no_leak (load_all config v s).2.
Proof.
  intros Hd. revert s. induction v as [|i v IH]; intros s Hs; cbn [load_all]; [done|].
  unfold mbind, M_bind, lift. destruct (asString config (i ++ str "/@name")) as [name|e| |]; try done.
  destruct (asString config (i ++ str "/@path")) as [path|e| |]; try done.
  pose proof (load_no_leak name path s (Hd path) Hs) as Hl.
  destruct (load name path s) as [[[]|e| |] t]; cbn [snd] in Hl; try done. by apply IH.
Qed.
End loader_lemmas.

(** ** The components *)
Section component_lemmas.
Context `{Regex} (config : Config) (deps : Z → list bytes) (refuse : Z → list (option Z) → option exn).
Context (what : exn → bytes) (as_handler : Z → option Z).
Context (onLoad : (bytes → M ComponentSet (option Z)) → Z → M ComponentSet unit) (onLoad_ok : looks_up deps refuse onLoad).
Implicit Types (c : ComponentSet).

(** Every component is loaded. *)
Definition all_loaded c : Prop :=
  sorted_map (components_ c) ∧ ∀ name, name ∈ names c → name ∈ loadingStack_ c.

Lemma add_all_ok factory v c c' :
  add_all factory what config v c = (Ret (), c') → sorted_map (components_ c) →
  sorted_map (components_ c') ∧ loadingStack_ c' = loadingStack_ c.
Proof.
  revert c. induction v as [|i v IH]; intros c E Hs; cbn [add_all] in E; [by injection E as <-|].
  returned E. apply lift_returns in E0 as [_ ->]. apply lift_returns in E1 as [_ ->].
  unfold add in E2. destruct (factory a0) as [f|]; [|done]. returned E2. unfold modify in E2.
  destruct (catch (lift (f i)) _ c) as [o c2] eqn:Ec.
  assert (c2 = c) as -> by (unfold catch, lift, throw in Ec; by destruct (f i); injection Ec).
  injection E0 as _ <-. injection E2 as E2. subst s1. apply IH in E as [Ht Hl]; [|by apply map_insert_sorted]. done.
Qed.

Lemma init_loaded factory c :
  ComponentSet.init factory onLoad what config empty_set = (Ret (), c) →
  load_inv deps refuse c ∧ all_loaded c.
Proof.
  intros E. unfold ComponentSet.init in E. returned E. apply lift_returns in E0 as [_ ->].
  destruct a0. apply add_all_ok in E1 as [Hs Hl]; [|constructor]. cbn in Hl.
  pose proof (load_inv_new deps refuse s0 Hs Hl) as Hi.
  unfold sendOnLoadToComponents in E. returned E. injection E0 as <- <-.
  pose proof (send_loop_ok deps refuse what onLoad onLoad_ok (components_ s0).*1 s0 Hi ltac:(done)) as Hw.
  unfold wp in Hw. rewrite E in Hw. destruct Hw as (Hi' & [L1 _ _ _ _ _] & Hall).
  split; [done|]. split; [apply Hi'|]. intros name. rewrite L1. apply Hall.
Qed.

(** Looking up a component that is loaded changes nothing. *)
Lemma find_loaded c name :
  all_loaded c → ComponentSet.find onLoad what name c = (Ret (address c name), c).
Proof.
  intros [Hs Hl]. unfold ComponentSet.find, find_with, address, mbind, M_bind, Prelude.get.
  destruct (map_find name (components_ c)) as [cont|] eqn:Ef; [|done].
  assert (isComponentLoaded name c = true) as ->; [|done].
  apply loaded_spec, Hl, map_find_keys; [done|by exists cont].
Qed.

(** The handlers of a description are components of the set. *)
Definition from_components c (hs : list Z) : Prop :=
  ∀ h, h ∈ hs → ∃ name a, address c name = Some a ∧ as_handler a = Some h.

Lemma init_handlers_found l hs c hs' c' :
  all_loaded c → from_components c hs →
  init_handlers config (ComponentSet.find onLoad what) as_handler l hs c = (Ret hs', c') →
  c' = c ∧ from_components c hs'.
Proof.
  intros Hc. revert hs. induction l as [|x l IH]; intros hs Hh E; cbn [init_handlers] in E; [by injection E as <- <-|].
  returned E. apply lift_returns in E0 as [_ ->]. rewrite find_loaded in E1 by done. injection E1 as <- <-.
  destruct (address c a) as [p|] eqn:Ea; [|done]. destruct (as_handler p) as [h|] eqn:Eh; [|done].
  apply IH in E; [done|]. intros h' [Hin| ->%list_elem_of_singleton]%elem_of_app; [by apply Hh|by exists a, p].
Qed.

Lemma init_loop_found v c hs c' hs' :
  all_loaded c → Forall (λ d, from_components c (handlers d)) hs →
  init_loop config (ComponentSet.find onLoad what) as_handler v (c, hs) = (Ret (), (c', hs')) →
  c' = c ∧ Forall (λ d, from_components c (handlers d)) hs'.
Proof.
  intros Hc. revert hs. induction v as [|k v IH]; intros hs Hh E; cbn [init_loop] in E; [by injection E as <- <-|].
  returned E. unfold zoom in E0. cbn in E0. destruct (init_handler _ _ _ k c) as [o c1] eqn:Ek.
  injection E0 as -> <-. injection E1 as _ <-. unfold init_handler in Ek. returned Ek. injection Ek as <- <-.
  repeat match goal with Hl : lift _ _ = _ |- _ => apply lift_returns in Hl as [? ->] end.
  apply init_handlers_found in E4 as [-> Hf]; [|done|by intros ? ?%elem_of_nil].
  apply IH in E; [done|]. apply Forall_app. split; [done|]. by repeat constructor.
Qed.
End component_lemmas.

(** ** The pools *)
Lemma map_find_started name (pools : ThreadPoolMap) :
  map_find name (startThreadPools pools).2 = start <$> map_find name pools.
Proof.
  cbn [startThreadPools modify snd]. induction pools as [|[k p] pools IH]; [done|]. csimpl.
  by repeat case_if.
Qed.

(** The logger is a component. *)
Lemma initLogger_returns `{Regex} config what onLoad is_logger (g g' : Globals) :
  all_loaded (componentSet_ g) →
  initLogger config onLoad what is_logger g = (Ret (), g') →
  ∃ name l, address (componentSet_ g) name = Some l ∧ is_logger l = true ∧ g' = set_logger (Some l) g.
Proof.
  intros Hl E. unfold initLogger in E. returned E. apply lift_returns in E0 as [_ ->].
  apply zoom_returns in E1 as (c & Ec & ->). rewrite find_loaded in Ec by done. injection Ec as <- <-.
  destruct (address (componentSet_ g) a) as [l|] eqn:Ea; [|done]. destruct (is_logger l) eqn:Ei; [|done].
  exists a, l. injection E as <-. by destruct g.
Qed.

(** A pool that was made for a handler and started. *)
Definition serving_pool (config : Config) (name : bytes) (pool : ThreadPool RequestTask) : Prop :=
  ∃ k threads queue, asString config (k ++ str "/@name") = Ret name ∧
    asInt config (k ++ str "/@threads") = Ret threads ∧ asInt config (k ++ str "/@queue") = Ret queue ∧
    threads_ pool = replicate (Z.to_nat (u32 threads)) Starting ∧ tasksQueue_ pool = [].

Lemma pools_serve `{Regex} config hs pools d :
  initPools config hs [] = (Ret (), pools) → d ∈ hs →
  ∃ pool, map_find (poolName d) (startThreadPools pools).2 = Some pool ∧ serving_pool config (poolName d) pool.
Proof.
  intros E Hd. destruct (initPools_found config hs pools d E Hd) as [pool Hp].
  rewrite map_find_started, Hp. exists (start pool). split; [done|].
  unfold initPools in E. returned E. apply lift_returns in E0 as [_ ->]. destruct a0.
  destruct (getPoolsNeeded_spec hs) as [Hn _].
  apply (add_pools_ok config (getPoolsNeeded hs) Hn) in E1 as [Hs Hf]; [|constructor|constructor].
  apply check_pools_ok in E as [-> _]. apply map_find_elem in Hp; [|done]. rewrite Forall_forall in Hf.
  destruct (Hf _ Hp) as [_ (k & threads & queue & Hk & Ht & Hq & Hpool)]. cbn in Hpool, Hk.
  exists k, threads, queue. rewrite Hpool. done.
Qed.

(** What is there when Globals is constructed. *)
Lemma Globals_init_built `{Dl} `{Regex} config deps refuse what onLoad as_handler is_logger (g : Globals) :
  looks_up deps refuse onLoad →
  Globals_init config onLoad what as_handler is_logger new_globals = (Ret (), g) →
  (load_inv deps refuse (componentSet_ g) ∧ all_loaded (componentSet_ g)) ∧
  (∃ keys, subKeys config (str "/fastcgi/handlers/handler") = Ret keys ∧
     Forall2 (configured config) keys (handlerSet_ g)) ∧
  Forall (λ d, from_components as_handler (componentSet_ g) (handlers d)) (handlerSet_ g) ∧
  (∃ name l, address (componentSet_ g) name = Some l ∧ is_logger l = true ∧ logger_ g = Some l) ∧
  ∃ pools, initPools config (handlerSet_ g) [] = (Ret (), pools) ∧ pools_ g = (startThreadPools pools).2.
Proof.
  intros Ho E. unfold Globals_init in E. returned E.
  apply zoom_returns in E0 as (l1 & _ & ->). injection E1 as <- <-.
  apply zoom_returns in E2 as (c & Ec & ->). apply zoom_returns in E3 as ([c2 hs] & Eh & ->). destruct a1, a2, a3, a5.
  apply (init_loaded config deps refuse what onLoad Ho) in Ec as [Hi Hl]. cbn in Eh.
  pose proof (init_configured _ _ _ _ _ _ Eh) as Hc.
  unfold HandlerSet.init in Eh. returned Eh. apply lift_returns in E0 as [_ ->].
  apply init_loop_found in Eh as [-> Hf]; [|done|constructor].
  apply initLogger_returns in E4 as (name & l & Ha & Hg & ->); [|done].
  injection E5 as <- <-. apply zoom_returns in E6 as (p & Ep & ->). apply zoom_returns in E as (p' & Es & ->).
  cbn in Ha, Ep |- *. injection Es as <-. split; [done|]. split; [done|]. split; [done|].
  split; [by exists name, l|by exists p].
Qed.

(** * Properties *)

(** C28: When Globals is constructed the daemon is ready for requests: every
    component is loaded, once, and has found what it needs; the handlers are those of the configuration, and
    each is a component that implements the interface; the logger is such a
    component too; and the pool a handler names has its number of threads, which
    were started, and an empty queue. *)
Theorem globals_ready `{Dl} `{Regex} (config : Config) (deps : Z → list bytes)
    (refuse : Z → list (option Z) → option exn) (what : exn → bytes)
    (onLoad : (bytes → M ComponentSet (option Z)) → Z → M ComponentSet unit)
    (as_handler : Z → option Z) (is_logger : Z → bool) (g : Globals) :
  looks_up deps refuse onLoad →
  Globals_init config onLoad what as_handler is_logger new_globals = (Ret (), g) →
  (NoDup (loadingStack_ (componentSet_ g)) ∧
   ∀ name, name ∈ names (componentSet_ g) → name ∈ loadingStack_ (componentSet_ g) ∧
     ComponentSet.accepted deps refuse (componentSet_ g) name) ∧
  (∃ keys, subKeys config (str "/fastcgi/handlers/handler") = Ret keys ∧
     Forall2 (configured config) keys (handlerSet_ g)) ∧
  (∃ name l, address (componentSet_ g) name = Some l ∧ is_logger l = true ∧ logger_ g = Some l) ∧
  ∀ d, d ∈ handlerSet_ g → from_components as_handler (componentSet_ g) (handlers d) ∧
    ∃ pool, map_find (poolName d) (pools_ g) = Some pool ∧ serving_pool config (poolName d) pool.
Proof.
  intros Ho E. destruct (Globals_init_built _ _ _ _ _ _ _ _ Ho E) as ([Hi Hl] & Hc & Hf & Hg & pools & Ep & ->).
  split; [split; [apply Hi|intros x Hin; split; [by apply Hl|by apply Hi, Hl]]|]. split; [done|]. split; [done|].
  rewrite Forall_forall in Hf. intros d Hd. split; [by apply Hf|]. by eapply pools_serve.
Qed.

(** A module with two factories, a handler and a logger. *)
#[local] Instance one_module : Dl :=
  {| dlopen _ := (1, None); dlsym_error _ := None;
     getFactoryMap _ := [(str "handler", λ _, Ret 7); (str "logger", λ _, Ret 8)] |}.
Definition one_handler : Config := listed_config
  [(str "m1/@name", str "m"); (str "m1/@path", str "/m.so");
   (str "c1/@name", str "first"); (str "c1/@type", str "m:handler");
   (str "c2/@name", str "log"); (str "c2/@type", str "m:logger");
   (str "h1/@pool", str "p"); (str "h1/@url", str "/a"); (str "hc/@name", str "first");
   (str "/fastcgi/daemon[count(logger)=1]/logger/@component", str "log");
   (str "p1/@name", str "p"); (str "p1/@threads", str "2"); (str "p1/@queue", str "3")]
  [(str "/fastcgi/modules/module", [str "m1"]); (str "/fastcgi/components/component", [str "c1"; str "c2"]);
   (str "/fastcgi/handlers/handler", [str "h1"]); (str "h1/component", [str "hc"]);
   (str "/fastcgi/pools/pool", [str "p1"])].

Lemma globals_ready_witness :
  ∃ g, @Globals_init one_module literal one_handler (onLoad_deps (λ _, []) (λ _ _, None)) (λ _, []) Some (λ c, c =? 8) new_globals =
    (Ret (), g) ∧
  (∃ name l, address (componentSet_ g) name = Some l ∧ (l =? 8) = true ∧ logger_ g = Some l) ∧
  loadingStack_ (componentSet_ g) = [str "first"; str "log"].
Proof.
  eexists. split; [vm_compute; reflexivity|]. split; [|reflexivity].
  eapply (@globals_ready one_module literal one_handler (λ _, []) (λ _ _, None) (λ _, []) (onLoad_deps (λ _, []) (λ _ _, None)) Some
    (λ c, c =? 8)); [done|].
  vm_compute. reflexivity.
Defined.
