(* ===== verification/Server.v ===== *)
(** * Handling a request
    (library/server.cpp, library/request_thread_pool.cpp, library/stream.cpp,
    library/handler.cpp, library/except.cpp)

    [Server] finds the handlers of a request and gives it to their pool;
    [RequestsThreadPool::handleTask] runs them and answers for them when one
    throws. *)
From S2P Require Import Prelude CLib Range Util Containers Buffer FileBuffer DataBuffer BufferUtil.
From S2P Require Import HttpDate Cookie RequestState Parser Serialize RequestImpl Request HandlerSet ThreadPool Globals.

(** ** Exceptions *)

(** The text of a C string. *)
Definition c_str (d : bytes) : bytes := take (std_find Byte.x00 d) d.

(** Whether an exception is a [std::exception]. *)
Definition is_std_exception (e : exn) : bool := match e with OtherException => false | _ => true end.
Definition NotFound : exn := HttpException 404.
Definition BadMethod : exn := HttpException 400.
Definition InternalError : exn := HttpException 500.

(** ** HandlerContextImpl *)
Section context.
Context {Any : Type}.
Definition getParam (name : bytes) (params_ : list (bytes * Any)) : option Any := map_find name params_.
Definition setParam (name : bytes) (value : Any) (params_ : list (bytes * Any)) : list (bytes * Any) :=
  map_set name value params_.
End context.

(** A destructor at the end of a scope.  When it throws while an exception is
    under way the process is terminated, and there is no state after it. *)
Definition scoped {S A} (m : M S A) (destructor : M S unit) : M S A := λ s,
  match m s with
  | (Ret a, s') => (destructor;; mret a) s'
  | (Throw e, s') =>
      match destructor s' with
      | (Ret _, s'') => (Throw e, s'')
      | (NoFuel, s'') => (NoFuel, s'')
      | (_, s'') => (Undef, s'')
      end
  | r => r
  end.

Section server.
Context `{HashOrder} `{Posix} `{LexicalCast} {IO : Type} `{RequestIOStream IO} {Any : Type}.
(** The virtual method [Handler::handleRequest], by the address of the handler,
    on the request and the context; and [what()] of the exceptions of the
    libraries. *)
Context (handleRequest : Z → M (rstate IO * list (bytes * Any)) unit) (library_what : exn → bytes).

Definition what (e : exn) : bytes :=
  match e with
  | RuntimeError msg | LogicError msg => c_str msg
  | HttpException status => Parser.statusToString status
  | _ => library_what e
  end.

(** [~RequestStream] of a stream that holds [text]. *)
Definition RequestStream_destroy (text : bytes) : M (rstate IO) unit :=
  if negb (Range.empty text) then Request.write_buf text else mret ().

Fixpoint run_handlers (handlers : list Z) : M (rstate IO * list (bytes * Any)) unit :=
  match handlers with
  | [] => mret ()
  | i :: handlers =>
      s ← Prelude.get;
      if Request.isProcessed (rq s.1) then mret ()
      else handleRequest i;; run_handlers handlers
  end.

(** The context lives as long as the handlers run. *)
Definition with_context (m : M (rstate IO * list (bytes * Any)) unit) : M (rstate IO) unit := λ s,
  let '(r, (s', _)) := m (s, []) in (r, s').

(** [setStatus(500)] throws when the headers are sent. *)
Definition headersAlreadySent : M (rstate IO) bool :=
  catch (Request.setStatus 500;; mret false) (λ _, mret true).

Definition answer_exception (e : exn) : M (rstate IO) unit :=
  sent ← headersAlreadySent;
  if sent : bool then throw e
  else
    match e with
    | HttpException status => Request.sendError status
    | OtherException =>
        scoped (Request.sendError 500)
          (RequestStream_destroy (str "fastcgi-daemon: got unknown exception from handler"))
    | _ => scoped (Request.sendError 500) (RequestStream_destroy (what e))
    end.

(** The outer [catch] only writes to the log and throws again. *)
Definition handleTask (handlers : list Z) : M (rstate IO) unit :=
  catch (with_context (run_handlers handlers);; Request.sendHeaders) answer_exception.

(** ** Server *)
Section dispatch.
Context `{Regex} (handlerSet_ : list HandlerDescription).

Definition getHandler (r : RequestImpl) : outcome (option HandlerDescription) :=
  findURIHandler handlerSet_ r.

(** The pools and the request. *)
Definition sstate : Type := ThreadPoolMap * rstate IO.
Definition on_request {A} (m : M (rstate IO) A) : M sstate A := zoom snd (λ r s, (s.1, r)) m.
(** [pools().find(name)->second->addTask(task)]. *)
Definition add_to_pool (name : bytes) (task : RequestTask) : M sstate unit := λ s,
  match map_find name s.1 with
  | None => (Undef, s)
  | Some pool =>
      let '(r, pool) := addTask task pool in (r, (map_set name pool s.1, s.2))
  end.

Definition handleRequestInternal (handler : option HandlerDescription) (task : Z) : M sstate unit :=
  match handler with
  | None => on_request (Request.sendError 404)
  | Some d =>
      if zlen (handlers d) =? 0 then on_request (Request.sendError 404)
      else
        catch (add_to_pool (poolName d) (MkRequestTask task (handlers d)))
          (λ e, if is_std_exception e then on_request (Request.sendError 503) else throw e)
  end.

Definition Server_handleRequest (task : Z) : M sstate unit :=
  s ← Prelude.get;
  d ← lift (getHandler (rq s.2));
  handleRequestInternal d task.
End dispatch.
End server.

(** ** Specification vocabulary *)

(** The status of an exception is an [unsigned short]. *)
Definition exn_ok (e : exn) : Prop :=
  match e with HttpException status => 0 <= status < 2 ^ 16 | _ => True end.
(** The status and the text the client is given for an exception. *)
Definition error_status (e : exn) : Z := match e with HttpException status => status | _ => 500 end.
Definition error_text (library_what : exn → bytes) (e : exn) : bytes :=
  match e with
  | HttpException _ => []
  | OtherException => str "fastcgi-daemon: got unknown exception from handler"
  | _ => what library_what e
  end.

(** The request after [sendError]. *)
Definition error_request `{HashOrder} (status : Z) (r : RequestImpl) : RequestImpl :=
  after_headers (set_out_headers (set_status (set_out_cookies r []) status)
    [(str "Content-type", str "text/html")]).

(** * Lemmas *)

Section answers.
Context `{HashOrder} `{Posix} `{LexicalCastOk} {IO : Type} `{StreamLaws IO} {Any : Type}.
Context (handleRequest : Z → M (rstate IO * list (bytes * Any)) unit) (library_what : exn → bytes).
Implicit Types (s t : rstate IO).

Lemma place_nil e : hm_place [] e = [e].
Proof. symmetry. apply Permutation_singleton_l. symmetry. apply hm_place_perm. Qed.

(** The answer of [sendError], to the byte. *)
Lemma sendError_ok s status :
  headers_sent_ (rq s) = false → stream_ (rq s) = true → 0 <= status < 2 ^ 16 →
  wp (Request.sendError status) s (λ _ t, rq t = error_request status (rq s) ∧ wd t = wd s ∧
    sent (io t) = sent (io s) ++ header_block (out_headers_ (rq t)) [] ++ error_page status) noexn.
Proof.
  intros Hs Hst Hr. unfold Request.sendError, RequestImpl.sendError. rq_step. rq_step. rewrite Hs. rq_steps.
  unfold hm_insert. cbn [out_headers_ set_status set_out_headers hm_find]. rewrite place_nil.
  eapply wp_mono; [apply (sendHeaders_ok _ [])|..]; try done.
  - by repeat constructor.
  - intros _ t (E1 & E2 & E3). rq_steps. assert (stream_ (rq t) = true) as -> by by rewrite E1.
    eapply wp_mono; [by apply emits_error| |done]. intros _ u (F1 & F2 & F3).
    rewrite F1, F2, F3, E2, E3, E1, <- app_assoc. done.
Qed.

Lemma error_request_sent status r :
  headers_sent_ (error_request status r) = true ∧ out_cookies_ (error_request status r) = [] ∧
  stream_ (error_request status r) = stream_ r ∧ status_ (error_request status r) = status.
Proof. done. Qed.

(** ** The state machine of the answer under [handleTask] *)

Lemma answering_unsent (s0 s : rstate IO) :
  answering s0 s → headers_sent_ (rq s) = false → sent (io s) = sent (io s0) ∧ answer_ok (rq s).
Proof. intros (_ & [(_ & ? & ?)|(? & _)]) Hs; [done|congruence]. Qed.

(** [setStatus(500)] finds out whether the headers are sent. *)
Lemma headersAlreadySent_ok s0 s :
  answering s0 s →
  wp headersAlreadySent s (λ b t, b = headers_sent_ (rq s) ∧ answering s0 t ∧
    headers_sent_ (rq t) = headers_sent_ (rq s) ∧ (b = false → sent (io t) = sent (io s)) ∧
    getRequestMethod (rq t) = getRequestMethod (rq s)) noexn.
Proof.
  intros Ha. unfold headersAlreadySent. destruct (headers_sent_ (rq s)) eqn:Hs.
  - destruct (set_after_headers s Hs) as (_ & _ & F & _). destruct (F 500) as [e E].
    unfold wp, catch, mbind, M_bind, Request.setStatus. by rewrite E.
  - unfold wp, catch, Request.setStatus, setStatus, mbind, M_bind, request. rewrite Hs. cbn.
    destruct (answering_unsent s0 s Ha Hs) as (_ & Hh & ts & Hts).
    split_and!; [done| |done|done|done]. apply (answering_update s0 s (λ r, set_status r 500)); try done;
      [apply Ha|]. split; [done|by exists ts].
Qed.

Lemma write_buf_sent s0 s text :
  answering s0 s → headers_sent_ (rq s) = true →
  wp (Request.write_buf text) s (λ _ t, answering s0 t ∧ rq t = rq s ∧
    sent (io t) = sent (io s) ++ (if write_body (rq s) then text else [])) noexn.
Proof.
  intros Ha Hs. unfold Request.write_buf, write_buf. rq_step. unfold sendHeaders, wp at 1.
  rewrite sendHeaders_sent by done. rq_steps. destruct (write_body (rq s)).
  - apply wp_on_io. eapply wp_mono; [apply s_write_buf_ok| |done]. intros _ o [Ho _]. split_and!; [|done|done].
    destruct Ha as (Hst & [(Hf & _)|(_ & ts & c & Hp & Hc & Hv)]); [congruence|].
    split; [done|]. right. split; [done|]. exists ts, (c ++ text). cbn. rewrite Ho, Hc, <- !app_assoc. done.
  - rq_steps. rewrite app_nil_r. done.
Qed.

Lemma stream_destroy_sent s0 s text :
  answering s0 s → headers_sent_ (rq s) = true →
  wp (RequestStream_destroy text) s (λ _ t, answering s0 t ∧ rq t = rq s ∧
    sent (io t) = sent (io s) ++ (if write_body (rq s) then text else [])) noexn.
Proof.
  intros Ha Hs. unfold RequestStream_destroy. destruct (Range.empty text) eqn:Et; cbn [negb].
  - apply empty_spec in Et as ->. rq_steps. destruct (write_body (rq s)); by rewrite app_nil_r.
  - by apply write_buf_sent.
Qed.

Lemma wp_scoped {X A} (m : M X A) d (x : X) (Q : A → X → Prop) :
  wp m x (λ a y, wp d y (λ _ z, Q a z) noexn) noexn → wp (scoped m d) x Q noexn.
Proof.
  unfold wp, scoped. destruct (m x) as [[a|e| |] y]; try done. cbn. unfold mbind, M_bind.
  by destruct (d y) as [[]].
Qed.

(** The answer [sendError] gives is an answer. *)
Lemma error_answering s0 s t status :
  answering s0 s → headers_sent_ (rq s) = false → rq t = error_request status (rq s) →
  sent (io t) = sent (io s) ++ header_block (out_headers_ (rq t)) [] ++ error_page status →
  answering s0 t.
Proof.
  intros Ha Hs E1 E3. destruct (answering_unsent s0 s Ha Hs) as [Hsent _].
  split; [rewrite E1; apply Ha|]. right. split; [by rewrite E1|]. exists [], (error_page status).
  rewrite E3, Hsent. split_and!; [rewrite E1; constructor|done|]. rewrite E1. apply hm_set_status.
Qed.

Definition answered_with (s t : rstate IO) (e : exn) : Prop :=
  status_ (rq t) = error_status e ∧ out_cookies_ (rq t) = [] ∧
  (∀ name, Request.outputHeader (rq t) name =
     if header_eq (str "Status") name then status_line (rq t)
     else if header_eq (str "Content-type") name then str "text/html" else EMPTY_STRING) ∧
  sent (io t) = sent (io s) ++ header_block (out_headers_ (rq t)) [] ++ error_page (error_status e) ++
    (if write_body (rq t) then error_text library_what e else []).

Lemma error_headers status r name :
  Request.outputHeader (error_request status r) name =
  if header_eq (str "Status") name then status_line (error_request status r)
  else if header_eq (str "Content-type") name then str "text/html" else EMPTY_STRING.
Proof.
  unfold Request.outputHeader, RequestImpl.outputHeader, error_request, after_headers.
  cbn [out_headers_ set_headers_sent set_out_headers]. rewrite (get_set header_eq) by (by repeat constructor).
  destruct (header_eq (str "Status") name); [done|]. unfold Parser.get. cbn [hm_find].
  by destruct (header_eq (str "Content-type") name).
Qed.

Lemma error_page_answer s0 s e text :
  answering s0 s → headers_sent_ (rq s) = false → exn_ok e →
  wp (scoped (Request.sendError (error_status e)) (RequestStream_destroy text)) s
    (λ _ t, answering s0 t ∧ rq t = error_request (error_status e) (rq s) ∧
       sent (io t) = sent (io s) ++ header_block (out_headers_ (rq t)) [] ++
         error_page (error_status e) ++ (if write_body (rq t) then text else [])) noexn.
Proof.
  intros Ha Hs He. apply wp_scoped. assert (0 <= error_status e < 2 ^ 16) as Hst by (destruct e; simpl in *; lia).
  eapply wp_mono; [apply sendError_ok; [done|apply Ha|exact Hst]| |done]. intros _ t (E1 & E2 & E3).
  pose proof (error_answering s0 s t _ Ha Hs E1 E3) as Ht.
  eapply wp_mono; [apply (stream_destroy_sent s0 t text Ht); by rewrite E1| |done].
  intros _ u (Hu & F1 & F3). split_and!; [done|by rewrite F1|]. rewrite F3, E3, F1, <- !app_assoc. done.
Qed.

(** When nothing is sent, the client is given a page for the exception. *)
Lemma answer_exception_unsent s0 s e :
  answering s0 s → headers_sent_ (rq s) = false → exn_ok e →
  wp (answer_exception library_what e) s
    (λ _ t, answering s0 t ∧ headers_sent_ (rq t) = true ∧ answered_with s t e) noexn.
Proof.
  intros Ha Hs He. unfold answer_exception. wp_step.
  eapply wp_mono; [by apply headersAlreadySent_ok| |done]. intros b t (-> & Hat & Hts & Hio & _).
  rewrite Hs in *. specialize (Hio eq_refl).
  assert (wp (scoped (Request.sendError (error_status e)) (RequestStream_destroy (error_text library_what e))) t
    (λ _ u, answering s0 u ∧ headers_sent_ (rq u) = true ∧ answered_with s u e) noexn) as Hg.
  { eapply wp_mono; [by apply (error_page_answer s0 t e)| |done]. intros _ u (Hu & E1 & E3).
    rewrite Hio in E3. split_and!; [done|by rewrite E1|]. split_and!; [by rewrite E1|by rewrite E1| |done].
    intros name. rewrite E1. apply error_headers. }
  destruct e; try exact Hg. cbn [error_status error_text] in Hg.
  unfold scoped in Hg. unfold wp in *. destruct (Request.sendError status t) as [[[]|x| |] u]; exact Hg.
Qed.

(** When the headers are sent, the exception goes on and nothing is written. *)
Lemma answer_exception_sent s e :
  headers_sent_ (rq s) = true → answer_exception library_what e s = (Throw e, s).
Proof.
  intros Hs. destruct (set_after_headers s Hs) as (_ & _ & F & _). destruct (F 500) as [x E].
  unfold answer_exception, headersAlreadySent, catch, mbind, M_bind, Request.setStatus. by rewrite E.
Qed.

(** A handler that keeps to the operations of a request. *)
Definition handler_ok (h : Z) : Prop := ∀ s0 s c, answering s0 s →
  wp (handleRequest h) (s, c) (λ _ x, answering s0 x.1) (λ e x, answering s0 x.1 ∧ exn_ok e).

Lemma run_handlers_ok hs s0 s c :
  Forall handler_ok hs → answering s0 s →
  wp (run_handlers handleRequest hs) (s, c) (λ _ x, answering s0 x.1) (λ e x, answering s0 x.1 ∧ exn_ok e).
Proof.
  intros Hh. revert s c. induction Hh as [|h hs Hh Hhs IH]; intros s c Ha; cbn [run_handlers]; [by wp_step|].
  wp_step. wp_step. apply wp_if; intros _; [by wp_step|]. wp_step.
  eapply wp_mono; [by apply Hh| |done]. intros _ [t d] Ht. by apply IH.
Qed.

Lemma with_context_ok (m : M (rstate IO * list (bytes * Any)) unit) s Q E :
  wp m (s, []) (λ a x, Q a x.1) (λ e x, E e x.1) → wp (with_context m) s Q E.
Proof. unfold wp, with_context. by destruct (m (s, [])) as [[] [t c]]. Qed.

(** Whatever has been sent before the task, an answer is sent after it. *)
Lemma handleTask_answering hs s0 s :
  Forall handler_ok hs → answering s0 s →
  wp (handleTask handleRequest library_what hs) s
    (λ _ t, answering s0 t ∧ headers_sent_ (rq t) = true) (λ _ t, answering s0 t ∧ headers_sent_ (rq t) = true).
Proof.
  intros Hh Ha. unfold handleTask. apply wp_catch, wp_bind, with_context_ok.
  eapply wp_mono; [by apply (run_handlers_ok hs s0 s [] Hh)| |].
  - intros _ [t c] Ht. eapply wp_mono; [by apply (answering_headers s0 t)| |done]. by intros _ u (Hu & Hsu & _).
  - intros e [t c] [Ht He]. cbn [fst] in Ht. destruct (headers_sent_ (rq t)) eqn:Es.
    + unfold wp. rewrite answer_exception_sent by done. done.
    + eapply wp_mono; [by apply (answer_exception_unsent s0 t e)| |done]. by intros _ u (Hu & Hsu & _).
Qed.
End answers.

Section dispatch_lemmas.
Context `{HashOrder} `{Posix} `{LexicalCastOk} {IO : Type} `{StreamLaws IO} `{Regex}.
Implicit Types (s : rstate IO) (pools : ThreadPoolMap).

(** The client of [s] is given the page of an error. *)
Definition error_sent (status : Z) (s t : rstate IO) : Prop :=
  rq t = error_request status (rq s) ∧ wd t = wd s ∧
  sent (io t) = sent (io s) ++ header_block (out_headers_ (rq t)) [] ++ error_page status.

Lemma on_request_error pools s status :
  headers_sent_ (rq s) = false → stream_ (rq s) = true → 0 <= status < 2 ^ 16 →
  ∃ t, on_request (Request.sendError status) (pools, s) = (Ret (), (pools, t)) ∧ error_sent status s t.
Proof.
  intros Hs Hst Hr. destruct (proj1 (wp_returns _ _ _) (sendError_ok s status Hs Hst Hr)) as ([] & t & E & Ht).
  exists t. split; [|exact Ht]. unfold on_request, zoom. cbn [fst snd]. by rewrite E.
Qed.

(** A pool takes a task exactly when it is started and its queue has a place. *)
Lemma addTask_cases {T} (task : T) (p : ThreadPool T) :
  (started (info_ p) = true ∧ zlen (tasksQueue_ p) < queueLength (info_ p) ∧
     ∃ p', addTask task p = (Ret (), p') ∧ tasksQueue_ p' = tasksQueue_ p ++ [task]) ∨
  ((started (info_ p) = false ∨ queueLength (info_ p) <= zlen (tasksQueue_ p)) ∧
     ∃ msg p', addTask task p = (Throw (RuntimeError msg), p') ∧ tasksQueue_ p' = tasksQueue_ p).
Proof.
  unfold addTask. destruct (started (info_ p)); cbn [negb].
  - destruct (queueLength (info_ p) <=? zlen (tasksQueue_ p)) eqn:El; zbool.
    + right. split; [by right|]. by eexists _, _.
    + left. split_and!; [done|done|]. by eexists.
  - right. split; [by left|]. by eexists _, _.
Qed.

(** What becomes of a request whose handler was looked for. *)
Lemma handleRequestInternal_cases pools s (d : option HandlerDescription) (task : Z) :
  headers_sent_ (rq s) = false → stream_ (rq s) = true →
  (∀ d', d = Some d' → is_Some (map_find (poolName d') pools)) →
  (match d with None => True | Some d => handlers d = [] end ∧
     ∃ t, handleRequestInternal d task (pools, s) = (Ret (), (pools, t)) ∧ error_sent 404 s t) ∨
  (∃ d' pool pool', d = Some d' ∧ handlers d' ≠ [] ∧ map_find (poolName d') pools = Some pool ∧
     if started (info_ pool) && (zlen (tasksQueue_ pool) <? queueLength (info_ pool)) then
       handleRequestInternal d task (pools, s) = (Ret (), (map_set (poolName d') pool' pools, s)) ∧
       tasksQueue_ pool' = tasksQueue_ pool ++ [MkRequestTask task (handlers d')]
     else
       tasksQueue_ pool' = tasksQueue_ pool ∧ ∃ t,
       handleRequestInternal d task (pools, s) = (Ret (), (map_set (poolName d') pool' pools, t)) ∧
       error_sent 503 s t).
Proof.
  intros Hs Hst Hp. destruct d as [d|]; cbn [handleRequestInternal]; [|left; split; [done|by apply on_request_error]].
  destruct (handlers d) as [|h l] eqn:Hd; [left; split; [done|by apply on_request_error]|]. rewrite <- Hd.
  right. destruct (Hp d eq_refl) as [pool Hpool].
  replace (zlen (handlers d) =? 0) with false by (rewrite Hd; symmetry; apply Z.eqb_neq; zlia).
  unfold catch, add_to_pool. cbn [fst snd]. rewrite Hpool.
  destruct (addTask_cases (MkRequestTask task (handlers d)) pool)
    as [(H1' & H2' & p' & E & Hq)|(H1' & msg & p' & E & Hq)];
    exists d, pool, p'; rewrite E; (split; [done|]; split; [by rewrite Hd|]; split; [done|]).
  - rewrite H1'. by replace (zlen (tasksQueue_ pool) <? queueLength (info_ pool)) with true by lia.
  - replace (started (info_ pool) && _) with false
      by (destruct H1' as [-> |?]; [done|destruct (started _); simpl; lia]).
    split; [done|]. by apply on_request_error.
Qed.
End dispatch_lemmas.

(** ** An example: handlers that write, throw, or throw after writing *)
Definition example_handlers (h : Z) : M (rstate Tape * list (bytes * unit)) unit :=
  let write := zoom fst (λ r s, (r, s.2))
    (@run_op cons_order decimal_cast Tape Tape_stream (OWrite (str "hi"))) in
  if h =? 1 then write
  else if h =? 2 then throw (RuntimeError (str "boom"))
  else write;; throw (HttpException 404).

Lemma example_handlers_ok h :
  @handler_ok Tape Tape_stream Tape_laws unit example_handlers h.
Proof.
  intros s0 s c Ha.
  assert (wp (zoom fst (λ r s, (r, s.2)) (@run_op cons_order decimal_cast Tape Tape_stream (OWrite (str "hi"))))
    (s, c) (λ _ x, answering s0 x.1) noexn) as Hw.
  { apply wp_zoom. eapply wp_mono;
      [by apply (@write_answering cons_order Tape Tape_stream Tape_laws s0 s (str "hi"))|done|done]. }
  unfold example_handlers. apply wp_if; intros _; [by eapply wp_mono|].
  apply wp_if; intros _; [by wp_step|]. wp_step. eapply wp_mono; [exact Hw| |done].
  intros a x Hx. by wp_step.
Qed.

(** * Properties *)

(** C17: Whatever the handlers of a task do and throw, when the task is done the
    client has been sent one block of headers followed by content: either the
    task ends normally, or it ends with an exception after the headers had been
    sent.  [handleTask] never leaves a request without an answer. *)
Theorem handleTask_answers `{HashOrder} `{Posix} `{LexicalCastOk} {IO} `{StreamLaws IO} {Any}
    (handleRequest : Z → M (rstate IO * list (bytes * Any)) unit) (library_what : exn → bytes)
    (hs : list Z) (s : rstate IO) :
  Forall (handler_ok handleRequest) hs →
  headers_sent_ (rq s) = false → stream_ (rq s) = true → answer_ok (rq s) →
  wp (handleTask handleRequest library_what hs) s
    (λ _ t, answering s t ∧ headers_sent_ (rq t) = true)
    (λ e t, answering s t ∧ headers_sent_ (rq t) = true).
Proof.
  intros Hh Hs Hst Ha. apply handleTask_answering; [done|]. split; [done|by left].
Qed.

Lemma handleTask_answers_witness :
  wp (@handleTask cons_order decimal_cast Tape Tape_stream unit example_handlers (λ _, []) [1; 2])
    (MkState attached_request empty_world (MkTape [] []))
    (λ _ t, answering (MkState attached_request empty_world (MkTape [] [])) t ∧ headers_sent_ (rq t) = true)
    (λ e t, answering (MkState attached_request empty_world (MkTape [] [])) t ∧ headers_sent_ (rq t) = true).
Proof.
  apply (@handleTask_answers cons_order small_machine decimal_cast decimal_cast_ok Tape Tape_stream Tape_laws unit
    example_handlers (λ _, []) [1; 2] (MkState attached_request empty_world (MkTape [] []))).
  - apply Forall_forall; intros h _; apply example_handlers_ok.
  - reflexivity.
  - reflexivity.
  - split; [constructor|exists []; constructor].
Defined.

(** C23: An exception of the handlers is turned into an answer when the headers are
    not sent yet: the status of an [HttpException] and 500 for any other, the
    two headers of an error and no cookie, the page of the error, and for an
    exception that is not an [HttpException] its text after the page unless the
    method is HEAD.  When the headers are sent the exception goes on and
    nothing more is written. *)
Theorem handleTask_exception `{HashOrder} `{Posix} `{LexicalCastOk} {IO} `{StreamLaws IO} {Any}
    (handleRequest : Z → M (rstate IO * list (bytes * Any)) unit) (library_what : exn → bytes)
    (hs : list Z) (s t : rstate IO) (e : exn) :
  Forall (handler_ok handleRequest) hs →
  headers_sent_ (rq s) = false → stream_ (rq s) = true → answer_ok (rq s) →
  with_context (run_handlers handleRequest hs) s = (Throw e, t) →
  (headers_sent_ (rq t) = false →
     ∃ u, handleTask handleRequest library_what hs s = (Ret (), u) ∧ answered_with library_what s u e) ∧
  (headers_sent_ (rq t) = true → handleTask handleRequest library_what hs s = (Throw e, t)).
Proof.
  intros Hh Hs Hst Ha E. assert (answering s s) as Hss by (split; [done|by left]).
  assert (answering s t ∧ exn_ok e) as [Hat He].
  { assert (wp (with_context (run_handlers handleRequest hs)) s (λ _ _, True)
      (λ e t, answering s t ∧ exn_ok e)) as Hw.
    { apply with_context_ok. eapply wp_mono; [by apply (run_handlers_ok handleRequest hs s s [] Hh)|done|done]. }
    unfold wp in Hw. by rewrite E in Hw. }
  assert (handleTask handleRequest library_what hs s = answer_exception library_what e t) as ->
    by (unfold handleTask, catch, mbind, M_bind; by rewrite E).
  split; intros Ht; [|by apply answer_exception_sent].
  destruct (proj1 (wp_returns _ _ _) (answer_exception_unsent library_what s t e Hat Ht He))
    as ([] & u & Eu & _ & _ & Hu). exists u. split; [exact Eu|].
  destruct Hu as (H1' & H2' & H3' & H4'). destruct (answering_unsent s t Hat Ht) as [Hsent _].
  split_and!; [done|done|done|]. by rewrite H4', Hsent.
Qed.

Lemma handleTask_exception_witness : ∃ u,
  @handleTask cons_order decimal_cast Tape Tape_stream unit example_handlers (λ _, []) [2; 1]
    (MkState attached_request empty_world (MkTape [] [])) = (Ret (), u) ∧ status_ (rq u) = 500.
Proof.
  destruct (@handleTask_exception cons_order small_machine decimal_cast decimal_cast_ok Tape Tape_stream Tape_laws unit
    example_handlers (λ _, []) [2; 1] (MkState attached_request empty_world (MkTape [] []))
    (MkState attached_request empty_world (MkTape [] [])) (RuntimeError (str "boom"))
    ltac:(apply Forall_forall; intros h _; apply example_handlers_ok) eq_refl eq_refl
    ltac:(split; [constructor|exists []; constructor]) ltac:(vm_compute; reflexivity)) as [Hu _].
  destruct (Hu eq_refl) as (u & E & Hst & _). exists u. split; [exact E|exact Hst].
Defined.

(** C21: A request goes to the pool of the first handler that accepts it: it is
    answered with 404 when there is none, or one without components; queued,
    and untouched, when that pool is started and has a place; answered with 503
    when it is not.  The pool the handler names is always there. *)
Theorem server_dispatch `{HashOrder} `{Posix} `{LexicalCastOk} {IO} `{StreamLaws IO} `{Regex}
    (config : Config) (hs : list HandlerDescription) (pools0 pools : ThreadPoolMap) (s : rstate IO)
    (task : Z) (d : option HandlerDescription) :
  initPools config hs [] = (Ret (), pools0) →
  (∀ name, is_Some (map_find name pools0) → is_Some (map_find name pools)) →
  headers_sent_ (rq s) = false → stream_ (rq s) = true →
  findURIHandler hs (rq s) = Ret d →
  match d with
  | None => ∃ t, Server_handleRequest hs task (pools, s) = (Ret (), (pools, t)) ∧ error_sent 404 s t
  | Some d =>
      (handlers d = [] → ∃ t,
         Server_handleRequest hs task (pools, s) = (Ret (), (pools, t)) ∧ error_sent 404 s t) ∧
      (handlers d ≠ [] → ∃ pool pool', map_find (poolName d) pools = Some pool ∧
         if started (info_ pool) && (zlen (tasksQueue_ pool) <? queueLength (info_ pool)) then
           Server_handleRequest hs task (pools, s) = (Ret (), (map_set (poolName d) pool' pools, s)) ∧
           tasksQueue_ pool' = tasksQueue_ pool ++ [MkRequestTask task (handlers d)]
         else
           tasksQueue_ pool' = tasksQueue_ pool ∧ ∃ t,
           Server_handleRequest hs task (pools, s) = (Ret (), (map_set (poolName d) pool' pools, t)) ∧
           error_sent 503 s t)
  end.
Proof.
  intros Ei Hk Hs Hst Ef. unfold Server_handleRequest, getHandler, mbind, M_bind, Prelude.get, lift.
  cbn [snd]. rewrite Ef. destruct (handleRequestInternal_cases pools s d task Hs Hst) as [[Hd Ht]|Hq].
  - intros d' ->. apply Hk. apply findURIHandler_elem in Ef.
    destruct (initPools_found config hs pools0 d' Ei Ef) as [pool ->]. by eexists.
  - by destruct d.
  - destruct Hq as (d' & pool & pool' & -> & Hn & Hp & Hr). split; [by intros|]. intros _. by exists pool, pool'.
Qed.

Lemma server_dispatch_witness :
  let hs := (@init literal two_handlers unit every_component Some (tt, [])).2.2 in
  let pools0 := (@initPools literal two_handlers hs []).2 in
  let pools := (startThreadPools pools0).2 in
  let s := MkState (set_vars attached_request [(SCRIPT_NAME_KEY, str "/b")]) empty_world (MkTape [] []) in
  ∃ d pools', @Server_handleRequest cons_order decimal_cast Tape Tape_stream literal hs 9 (pools, s) = (Ret (), (pools', s)) ∧
    @poolName literal d = str "q" ∧ ∃ pool', @map_find bytes _ string_less (str "q") pools' = Some pool' ∧
    tasksQueue_ pool' = [MkRequestTask 9 (@handlers literal d)].
Proof.
  intros hs pools0 pools s.
  assert (∃ d, @findURIHandler literal decimal_cast hs (rq s) = Ret (Some d) ∧ @poolName literal d = str "q" ∧
    @handlers literal d ≠ []) as (d & Ef & Hd & Hn) by (eexists; split; [vm_compute; reflexivity|done]).
  destruct (@server_dispatch cons_order small_machine decimal_cast decimal_cast_ok Tape Tape_stream Tape_laws
    literal two_handlers hs pools0 pools s 9 (Some d)) as [_ Hq].
  - vm_compute. reflexivity.
  - intros name. apply map_find_start.
  - reflexivity.
  - reflexivity.
  - exact Ef.
  - destruct (Hq Hn) as (pool & pool' & Hp & Hr). rewrite Hd in Hp, Hr.
    assert (∃ p, map_find (str "q") pools = Some p ∧ started (info_ p) = true ∧ tasksQueue_ p = [] ∧
      queueLength (info_ p) = 1) as (p & Hp2 & H1 & H2 & H3)
      by (eexists; split; [vm_compute; reflexivity|split_and!; vm_compute; reflexivity]).
    rewrite Hp in Hp2. injection Hp2 as ->. rewrite H1, H2, H3 in Hr. destruct Hr as [Hr Hqueue].
    exists d, (map_set (str "q") pool' pools). split; [exact Hr|]. split; [exact Hd|].
    exists pool'. split; [apply map_find_set_eq|exact Hqueue].
Defined.
