(* ===== verification/Example.v ===== *)
(** * Components that need a logger, and the example handlers
    (request-cache/file_cache.cpp, example/example.cpp)

    A component whose [onLoad] looks a logger up by the name its configuration
    gives, and the two handlers of the example module, as instances of the
    parameters of [ComponentSet], [Daemon] and [Server]. *)
From S2P Require Import Prelude CLib Range Util Containers Buffer FileBuffer DataBuffer BufferUtil.
From S2P Require Import HttpDate Cookie RequestState Parser Serialize RequestImpl Request HandlerSet ComponentSet.
From S2P Require Import ThreadPool Globals Daemon Server.

(** ** Loading *)

(** The classes of the repository with an [onLoad] of their own; that of any
    other component does nothing. *)
Inductive kind := FileRequestCache | ExampleHandler | ExampleHandler2 | OtherComponent.

Section loading.
Context (config : Config) (kind_of : Z → kind) (is_logger : Z → bool).
(** [context()->getComponentXPath()] of a component. *)
Context (getComponentXPath : Z → bytes).

(** [context()->findComponent<Logger>(name)], and what it is compared with. *)
Definition as_logger (found : option Z) : option Z :=
  match found with Some l => if is_logger l then Some l else None | None => None end.
Definition no_logger (name : bytes) : exn := RuntimeError (str "cannot get component " ++ name).
Definition load_logger (find : bytes → M ComponentSet (option Z)) (c : Z) : M ComponentSet Z :=
  loggerComponentName ← lift (asString config (getComponentXPath c ++ str "/logger"));
  found ← find loggerComponentName;
  match as_logger found with
  | None => throw (no_logger loggerComponentName)
  | Some logger_ => mret logger_
  end.

(** [FileRequestCache::onLoad] also starts its thread, which is the one of
    [CacheSteps]; the example handlers write to the standard output. *)
Definition cache_onLoad (find : bytes → M ComponentSet (option Z)) (c : Z) : M ComponentSet Z := load_logger find c.
Definition example_onLoad (find : bytes → M ComponentSet (option Z)) (c : Z) : M ComponentSet Z := load_logger find c.
Definition onLoad (find : bytes → M ComponentSet (option Z)) (c : Z) : M ComponentSet unit :=
  match kind_of c with
  | FileRequestCache => cache_onLoad find c;; mret ()
  | ExampleHandler => example_onLoad find c;; mret ()
  | ExampleHandler2 | OtherComponent => mret ()
  end.

(** ** The same as what it looks up and what it refuses *)
Definition needs_logger (c : Z) : bool :=
  match kind_of c with FileRequestCache | ExampleHandler => true | _ => false end.
Definition logger_deps (c : Z) : list bytes :=
  if needs_logger c then
    match asString config (getComponentXPath c ++ str "/logger") with Ret name => [name] | _ => [] end
  else [].
Definition logger_refuse (c : Z) (found : list (option Z)) : option exn :=
  if needs_logger c then
    match asString config (getComponentXPath c ++ str "/logger"), found with
    | Ret name, [l] => match as_logger l with None => Some (no_logger name) | Some _ => None end
    | Throw e, _ => Some e
    | _, _ => None
    end
  else None.
End loading.

(** ** The example handlers *)
Section handlers.
Context `{HashOrder} `{Posix} `{LexicalCast} {IO : Type} `{RequestIOStream IO} {Any : Type}.

(** [req] is the request of the task, the second part the context. *)
Definition on_req {A} (m : M (rstate IO) A) : M (rstate IO * list (bytes * Any)) A := zoom fst (λ r s, (r, s.2)) m.

(** The stream is destroyed when the handler returns or throws. *)
Definition ExampleHandler_handleRequest : M (rstate IO * list (bytes * Any)) unit :=
  on_req (scoped (Request.setStatus 200) (RequestStream_destroy (str "test ok" ++ [Byte.x0a]))).

(** The parameters of the context only decide what is written to the standard
    output. *)
Definition ExampleHandler2_handleRequest : M (rstate IO * list (bytes * Any)) unit :=
  s ← Prelude.get;
  if string_eq (Request.getScriptName (rq s.1)) (str "/upload") &&
     string_eq (Request.getRequestMethod (rq s.1)) (str "POST") then
    on_req (on_world (f ← Request.remoteFile (rq s.1) (str "file"); file ← DataBuffer.toString f; mret ()))
  else mret ().
End handlers.

(** * Lemmas *)

Section loading_lemmas.
Context (config : Config) (kind_of : Z → kind) (is_logger : Z → bool) (getComponentXPath : Z → bytes).
(** Reading the configuration ends, with a value or an exception. *)
Context (config_ends : ∀ key, match asString config key with Ret _ | Throw _ => True | _ => False end).

Lemma onLoad_looks_up :
  looks_up (logger_deps config kind_of getComponentXPath) (logger_refuse config kind_of is_logger getComponentXPath)
    (onLoad config kind_of is_logger getComponentXPath).
Proof.
  intros find c s. pose proof (config_ends (getComponentXPath c ++ str "/logger")) as He.
  unfold onLoad, onLoad_deps, cache_onLoad, example_onLoad, load_logger, logger_deps, logger_refuse, needs_logger.
  destruct (kind_of c); try done;
    (destruct (asString config _) as [name|e| |]; try done);
    unfold lookups, mbind, M_bind, lift, mret, M_ret; destruct (find name s) as [[l|e| |] t]; try done;
    by destruct (as_logger is_logger l).
Qed.

Lemma refuse_none c l :
  needs_logger kind_of c = true →
  logger_refuse config kind_of is_logger getComponentXPath c
    (l <$> logger_deps config kind_of getComponentXPath c) = None →
  ∃ name a, asString config (getComponentXPath c ++ str "/logger") = Ret name ∧ l name = Some a ∧
    is_logger a = true ∧ name ∈ logger_deps config kind_of getComponentXPath c.
Proof.
  intros Hn. pose proof (config_ends (getComponentXPath c ++ str "/logger")) as He.
  unfold logger_refuse, logger_deps. rewrite Hn. destruct (asString config _) as [name|e| |]; try done. csimpl.
  unfold as_logger. destruct (l name) as [a|] eqn:El; [|done]. destruct (is_logger a) eqn:Ea; [|done].
  intros _. exists name, a. split_and!; [done..|by left].
Qed.
End loading_lemmas.

Section answer_lemmas.
Context `{HashOrder} `{PosixOk} `{LexicalCastOk} {IO : Type} `{StreamLaws IO} {Any : Type}.
Implicit Types (s t : rstate IO).

(** Writing when the headers are not sent yet. *)
Lemma write_buf_first s ts text :
  headers_sent_ (rq s) = false → stream_ (rq s) = true → Forall header_ok (out_headers_ (rq s)) →
  Forall2 prints (out_cookies_ (rq s)) ts →
  wp (Request.write_buf text) s (λ _ t, rq t = after_headers (rq s) ∧
    sent (io t) = sent (io s) ++ header_block (out_headers_ (rq t)) ts ++
      (if string_eq HEAD (getRequestMethod (rq s)) then [] else text)) noexn.
Proof.
  intros Hs Hst Hh Hc. unfold Request.write_buf, write_buf. rq_step.
  eapply wp_mono; [by apply (sendHeaders_ok s ts)| |done]. intros _ t (E1 & E2 & E3). rq_steps.
  assert (write_body (rq t) = negb (string_eq HEAD (getRequestMethod (rq s)))) as ->
    by (unfold write_body; rewrite E1; cbn; by rewrite Hst).
  destruct (string_eq HEAD _); cbn [negb].
  - rq_steps. rewrite app_nil_r, E1. done.
  - apply wp_on_io. eapply wp_mono; [apply s_write_buf_ok| |done]. intros _ o [Ho _]. cbn.
    by rewrite Ho, E3, E1, <- app_assoc.
Qed.

(** The handler of the example, on a request that is not answered yet. *)
Lemma example_handler_ok s ts (c : list (bytes * Any)) :
  headers_sent_ (rq s) = false → stream_ (rq s) = true → Forall header_ok (out_headers_ (rq s)) →
  Forall2 prints (out_cookies_ (rq s)) ts →
  wp ExampleHandler_handleRequest (s, c) (λ _ x, rq x.1 = after_headers (set_status (rq s) 200) ∧
    sent (io x.1) = sent (io s) ++ header_block (out_headers_ (rq x.1)) ts ++
      (if string_eq HEAD (getRequestMethod (rq s)) then [] else str "test ok" ++ [Byte.x0a])) noexn.
Proof.
  intros Hs Hst Hh Hc. unfold ExampleHandler_handleRequest, on_req. apply wp_zoom, wp_scoped.
  cbn [fst snd]. unfold Request.setStatus, setStatus. rq_step. rq_step. rewrite Hs. rq_steps.
  unfold RequestStream_destroy. replace (Range.empty _) with false by done. cbn [negb].
  eapply wp_mono; [by apply (write_buf_first _ ts)|done|done].
Qed.

(** The handler of the uploads leaves the request as it is: it reads the file, if
    that is what it is asked for. *)
Lemma example2_handler_ok s (c : list (bytes * Any)) :
  (Request.getScriptName (rq s) = str "/upload" → Request.getRequestMethod (rq s) = str "POST" →
   ∃ f v, map_find (str "file") (files_ (rq s)) = Some f ∧ views (wd s) (File.data f) v) →
  wp ExampleHandler2_handleRequest (s, c) (λ _ x, rq x.1 = rq s ∧ io x.1 = io s ∧ x.2 = c) noexn.
Proof.
  intros Hf. unfold ExampleHandler2_handleRequest. wp_step. cbn [fst].
  apply wp_if; [|intros _; apply wp_ret; by split_and!].
  intros [E1 E2]%andb_true_iff. apply bool_decide_eq_true in E1, E2. destruct (Hf E1 E2) as (f & v & Em & Hv).
  unfold on_req. apply wp_zoom. cbn [fst]. apply wp_on_world. unfold Request.remoteFile, RequestImpl.remoteFile.
  rewrite Em. wp_steps. eapply wp_mono; [by apply toString_views| |done]. intros r w [_ _]. apply wp_ret. cbn. by split_and!.
Qed.
End answer_lemmas.

(** * Properties *)

(** When Globals is constructed from the components of the repository, every one
    that needs a logger was loaded after the component its configuration names,
    which is a logger. *)
Theorem loggers_loaded_first `{Dl} `{Regex} (config : Config) (kind_of : Z → kind) (is_logger : Z → bool)
    (getComponentXPath : Z → bytes) (what : exn → bytes) (as_handler : Z → option Z) (g : Globals)
    (pre post : list bytes) (name : bytes) (c : Z) :
  (∀ key, match asString config key with Ret _ | Throw _ => True | _ => False end) →
  Globals_init config (onLoad config kind_of is_logger getComponentXPath) what as_handler is_logger new_globals =
    (Ret (), g) →
  loadingStack_ (componentSet_ g) = pre ++ name :: post → address (componentSet_ g) name = Some c →
  needs_logger kind_of c = true →
  ∃ loggerName l, asString config (getComponentXPath c ++ str "/logger") = Ret loggerName ∧
    address (componentSet_ g) loggerName = Some l ∧ is_logger l = true ∧ loggerName ∈ pre.
Proof.
  intros Hc E Hl Ha Hn. pose proof (onLoad_looks_up config kind_of is_logger getComponentXPath Hc) as Ho.
  destruct (Globals_init_built _ _ _ _ _ _ _ _ Ho E) as ([Hi _] & _).
  assert (name ∈ loadingStack_ (componentSet_ g)) as Hin by (rewrite Hl; set_solver).
  destruct (refuse_none config kind_of is_logger getComponentXPath Hc c (address (componentSet_ g)) Hn)
    as (loggerName & l & Er & El & Hlog & Hd); [by apply (load_accepted _ _ _ Hi name Hin)|].
  exists loggerName, l. split_and!; [done..|].
  eapply (load_deps _ _ _ Hi); [exact Hl|exact Ha|exact Hd|]. apply map_find_keys; [apply Hi|].
  unfold address in El. destruct (map_find loggerName _); [by eexists|done].
Qed.

(** A request that is given to the example handler is answered with status 200,
    the headers and cookies it had, and the line [test ok], which a [HEAD]
    request is not sent. *)
Theorem example_answer `{HashOrder} `{PosixOk} `{LexicalCastOk} {IO} `{StreamLaws IO} {Any}
    (handleRequest : Z → M (rstate IO * list (bytes * Any)) unit) (library_what : exn → bytes) (h : Z)
    (s : rstate IO) :
  handleRequest h = ExampleHandler_handleRequest →
  headers_sent_ (rq s) = false → stream_ (rq s) = true → answer_ok (rq s) → Request.isProcessed (rq s) = false →
  ∃ t ts, handleTask handleRequest library_what [h] s = (Ret (), t) ∧
    Request.status (rq t) = 200 ∧ Forall2 prints (out_cookies_ (rq s)) ts ∧
    sent (io t) = sent (io s) ++
      header_block (hm_set header_eq (str "Status") (str "200 OK") (out_headers_ (rq s))) ts ++
      (if string_eq HEAD (getRequestMethod (rq s)) then [] else str "test ok" ++ [Byte.x0a]).
Proof.
  intros Eh Hs Hst (Hh & ts & Hc) Hp.
  destruct (proj1 (wp_returns _ _ _) (example_handler_ok (Any := Any) s ts [] Hs Hst Hh Hc))
    as ([] & [t c] & Et & Er & Eo). cbn [fst] in *.
  exists t, ts. split_and!; [|by rewrite Er|done|by rewrite Eo, Er].
  unfold handleTask, catch, with_context, run_handlers, mbind, M_bind, Prelude.get. cbn [fst]. rewrite Hp, Eh, Et.
  cbn [mret M_ret]. unfold Request.sendHeaders, sendHeaders. rewrite sendHeaders_sent; [done|by rewrite Er].
Qed.

(** ** Witnesses *)

#[local] Instance one_module : Dl :=
  {| dlopen _ := (1, None); dlsym_error _ := None;
     getFactoryMap _ := [(str "example", λ _, Ret 7); (str "logger", λ _, Ret 8)] |}.
Definition example_config : Config := listed_config
  [(str "m1/@name", str "m"); (str "m1/@path", str "/m.so");
   (str "c1/@name", str "example"); (str "c1/@type", str "m:example"); (str "c1/logger", str "log");
   (str "c2/@name", str "log"); (str "c2/@type", str "m:logger");
   (str "/fastcgi/daemon[count(logger)=1]/logger/@component", str "log")]
  [(str "/fastcgi/modules/module", [str "m1"]); (str "/fastcgi/components/component", [str "c1"; str "c2"]);
   (str "/fastcgi/handlers/handler", []); (str "/fastcgi/pools/pool", [])].
Lemma listed_config_ends values keys key :
  match asString (listed_config values keys) key with Ret _ | Throw _ => True | _ => False end.
Proof. unfold asString, listed_config. by destruct (list_find _ values) as [[]|]. Qed.
Definition example_kind (c : Z) : kind := if c =? 7 then ExampleHandler else OtherComponent.

Lemma loggers_loaded_first_witness :
  ∃ g, @Globals_init one_module literal example_config
      (onLoad example_config example_kind (λ c, c =? 8) (λ _, str "c1")) (λ _, []) Some (λ c, c =? 8) new_globals =
    (Ret (), g) ∧
  loadingStack_ (componentSet_ g) = [str "log"; str "example"] ∧
  ∃ loggerName l, asString example_config (str "c1/logger") = Ret loggerName ∧
    address (componentSet_ g) loggerName = Some l ∧ (l =? 8) = true ∧ loggerName ∈ [str "log"].
Proof.
  eexists. split; [vm_compute; reflexivity|]. split; [reflexivity|].
  eapply (@loggers_loaded_first one_module literal example_config example_kind (λ c, c =? 8) (λ _, str "c1") (λ _, []) Some
    _ [str "log"] [] (str "example") 7);
    [|vm_compute; reflexivity|reflexivity|reflexivity|reflexivity].
  intros key. apply listed_config_ends.
Defined.

Lemma example_answer_witness : ∃ t,
  @handleTask cons_order decimal_cast Tape Tape_stream unit (λ _, @ExampleHandler_handleRequest cons_order decimal_cast Tape Tape_stream unit) (λ _, []) [1]
    (MkState attached_request empty_world (MkTape [] [])) = (Ret (), t) ∧ Request.status (rq t) = 200.
Proof.
  destruct (@example_answer cons_order small_machine small_machine_ok decimal_cast decimal_cast_ok Tape Tape_stream Tape_laws unit
    (λ _, @ExampleHandler_handleRequest cons_order decimal_cast Tape Tape_stream unit) (λ _, []) 1 (MkState attached_request empty_world (MkTape [] []))
    eq_refl eq_refl eq_refl ltac:(split; [constructor|exists []; constructor]) eq_refl) as (t & ts & E & Hst & _).
  exists t. split; [exact E|exact Hst].
Defined.
