(* ===== verification/Logger.v ===== *)
(** * Loggers (library/logger.cpp, syslog/syslog-logger.cpp, logging/logger.cpp)

    The levels and their names, the base class [Logger], the logger that writes
    to syslog, the one that writes with log4cxx, and the requests by which both
    are administered.  The logger that writes to a file is in [FileLogger]. *)
From S2P Require Import Prelude CLib Range Util Containers Buffer FileBuffer DataBuffer BufferUtil.
From S2P Require Import HttpDate Cookie RequestState Parser Serialize RequestImpl Request HandlerSet ThreadPool Globals Server.

(** ** Levels *)
Inductive Level := DEBUG | INFO | ERROR | EMERGENCY.
#[export] Instance Level_eq_dec : EqDecision Level.
Proof. solve_decision. Defined.
(** The value of the enumerator. *)
Definition level_value (l : Level) : Z :=
  match l with DEBUG => 0 | INFO => 1 | ERROR => 2 | EMERGENCY => 3 end.

(** [sizeof] counts the terminator of a literal. *)
Definition stringToLevel (name : bytes) : outcome Level :=
  if strncasecmp_eq 5 name (str "INFO") then Ret INFO
  else if strncasecmp_eq 6 name (str "DEBUG") then Ret DEBUG
  else if strncasecmp_eq 6 name (str "ERROR") then Ret ERROR
  else if strncasecmp_eq 6 name (str "EMERG") then Ret EMERGENCY
  else Throw (RuntimeError (str "bad string to log level cast)")).
Definition levelToString (level : Level) : bytes :=
  match level with
  | INFO => str "INFO" | DEBUG => str "DEBUG" | ERROR => str "ERROR" | EMERGENCY => str "EMERG"
  end.

(** ** Logger

    [va_list] stands for the arguments of a message; [vsnprintf] formats them,
    or fails.  A kind of logger is the state [L] of the derived class and its
    methods; the base class adds the level. *)
Class Printf := { va_list : Type; vsnprintf : bytes → va_list → option bytes; one_string : bytes → va_list }.
Class LoggerClass (L : Type) `{Printf} := {
  setLevelInternal : Level → M L unit;
  rollOver : M L unit;
  log : Level → bytes → va_list → M (Level * L) unit;
}.

Section logger.
Context {L : Type} `{LoggerClass L}.
Definition on_derived {A} (m : M L A) : M (Level * L) A := zoom snd (λ l s, (s.1, l)) m.

(** The base class starts at the level [DEBUG]. *)
Definition make_logger (l : L) : Level * L := (DEBUG, l).
Definition getLevel (s : Level * L) : Level := s.1.
Definition setLevel (level : Level) : M (Level * L) unit :=
  on_derived (setLevelInternal level);; modify (λ s, (level, s.2)).
Definition info (format : bytes) (args : va_list) : M (Level * L) unit := log INFO format args.
Definition debug (format : bytes) (args : va_list) : M (Level * L) unit := log DEBUG format args.
Definition error (format : bytes) (args : va_list) : M (Level * L) unit := log ERROR format args.
Definition emerg (format : bytes) (args : va_list) : M (Level * L) unit := log EMERGENCY format args.
Definition exiting (function : bytes) : M (Level * L) unit :=
  debug (str "exiting %s" ++ [Byte.x0a]) (one_string function).
Definition entering (function : bytes) : M (Level * L) unit :=
  debug (str "entering %s" ++ [Byte.x0a]) (one_string function).

(** ** The requests of an administrator *)
Section handler.
Context `{HashOrder} `{Posix} `{LexicalCast} {IO : Type} `{RequestIOStream IO}.
Definition lstate : Type := rstate IO * (Level * L).
Definition on_request {A} (m : M (rstate IO) A) : M lstate A := zoom fst (λ r s, (r, s.2)) m.
Definition on_logger {A} (m : M (Level * L) A) : M lstate A := zoom snd (λ l s, (s.1, l)) m.
Definition endl : bytes := [Byte.x0a].
Definition handleRequest : M lstate unit :=
  on_request (Request.setContentType (str "text/plain"));;
  s ← Prelude.get;
  let action := Request.getArg (rq s.1) (str "action") in
  if string_eq (str "setlevel") action then
    let l := Request.getArg (rq s.1) (str "level") in
    level ← lift (stringToLevel l);
    on_logger (setLevel level);;
    on_request (RequestStream_destroy (str "level " ++ l ++ str "successfully set" ++ endl))
  else if string_eq (str "rollover") action then
    on_logger (on_derived rollOver);;
    on_request (RequestStream_destroy (str "rollover successful" ++ endl))
  else on_request (RequestStream_destroy (str "bad action" ++ endl)).
End handler.
End logger.
Arguments lstate L IO : clear implicits.

(** ** The classes that do nothing *)
#[export] Instance BulkLogger `{Printf} : LoggerClass unit :=
  {| setLevelInternal _ := mret (); rollOver := mret (); log _ _ _ := mret () |}.

(** ** SyslogLogger *)
Module SyslogLogger.
(** [syslog] holds what was given to [vsyslog]. *)
Record SyslogLogger := MkSyslogLogger {
  ident_ : bytes;
  priority_ : Z;
  syslog : list (Z * option bytes);
}.
(** LOG_INFO, LOG_DEBUG, LOG_ERR and LOG_EMERG. *)
Definition toSyslogPriority (level : Level) : Z :=
  match level with INFO => 6 | DEBUG => 7 | ERROR => 3 | EMERGENCY => 0 end.
Definition vsyslog `{Printf} (priority : Z) (format : bytes) (args : va_list) : M SyslogLogger unit :=
  modify (λ s, MkSyslogLogger (ident_ s) (priority_ s) (syslog s ++ [(priority, vsnprintf format args)])).

#[global] Instance methods `{Printf} : LoggerClass SyslogLogger := {|
  setLevelInternal level :=
    modify (λ s, MkSyslogLogger (ident_ s) (toSyslogPriority level) (syslog s));
  rollOver := mret ();
  log level format args :=
    s ← Prelude.get;
    if level_value (getLevel s) <=? level_value level then
      on_derived (vsyslog (toSyslogPriority level) (ident_ s.2 ++ str ": " ++ format) args)
    else mret ();
|}.

(** [SyslogLogger(context)]: an object under construction. *)
Definition SyslogLogger_init `{Printf} (config : Config) (componentXPath : bytes) : M (Level * SyslogLogger) unit :=
  ident ← lift (asString config (componentXPath ++ str "/ident"));
  on_derived (modify (λ s, MkSyslogLogger ident (priority_ s) (syslog s)));;
  name ← lift (asString config (componentXPath ++ str "/level"));
  level ← lift (stringToLevel name);
  setLevel level.
End SyslogLogger.

(** ** DefaultLogger *)
Module DefaultLogger.
(** The levels of log4cxx. *)
Inductive LevelPtr := LDEBUG | LINFO | LERROR | LFATAL.
Class Log4cxx (X : Type) := {
  getLogger : bytes → M X unit;
  addAppender : bytes → bytes → M X unit;
  log4cxx_setLevel : LevelPtr → M X unit;
  isEnabledFor : X → LevelPtr → bool;
  log4cxx_log : LevelPtr → bytes → M X unit;
  log4cxx_rollOver : M X unit;
  TTCC_CONVERSION_PATTERN : bytes;
}.
Definition toLog4cxxLevel (level : Level) : LevelPtr :=
  match level with INFO => LINFO | DEBUG => LDEBUG | ERROR => LERROR | EMERGENCY => LFATAL end.

Section default_logger.
Context {X : Type} `{Log4cxx X} `{Printf}.
(** A negative size becomes a vector of length 0 whose first element is taken. *)
Definition log_enabled (level : Level) (format : bytes) (args : va_list) : M X unit :=
  x ← Prelude.get;
  if isEnabledFor x (toLog4cxxLevel level) then
    match vsnprintf format args with
    | None => undef
    | Some [] => mret ()
    | Some data => log4cxx_log (toLog4cxxLevel level) data
    end
  else mret ().
#[global] Instance methods : LoggerClass X := {|
  setLevelInternal level := log4cxx_setLevel (toLog4cxxLevel level);
  rollOver := log4cxx_rollOver;
  log level format args := on_derived (log_enabled level format args);
|}.

(** [DefaultLogger(context)]: an object under construction. *)
Definition DefaultLogger_init (config : Config) (componentXPath : bytes) : M (Level * X) unit :=
  pattern ← lift (asStringDef config (componentXPath ++ str "/pattern") (str "DEFAULT"));
  ident ← lift (asString config (componentXPath ++ str "/ident"));
  on_derived (getLogger ident);;
  file ← lift (asString config (componentXPath ++ str "/file"));
  on_derived (addAppender (if string_eq (str "DEFAULT") pattern then TTCC_CONVERSION_PATTERN else pattern) file);;
  name ← lift (asString config (componentXPath ++ str "/level"));
  level ← lift (stringToLevel name);
  setLevel level.
End default_logger.
End DefaultLogger.

(** ** Specification vocabulary *)

(** The characters before a terminator, which is what [c_str] shows. *)
Fixpoint c_string (s : bytes) : bytes :=
  match s with [] => [] | c :: s => if uchar c =? 0 then [] else c :: c_string s end.

(** * Lemmas *)

Lemma strncasecmp_cons n c s d t : strncasecmp_eq (S n) (c :: s) (d :: t) =
  if tolower_int (uchar c) =? tolower_int (uchar d)
  then if uchar c =? 0 then true else strncasecmp_eq n s t else false.
Proof. reflexivity. Qed.
(** A terminator equals no other character. *)
Lemma terminator_differs c d :
  uchar c = 0 → uchar d ≠ 0 → (tolower_int (uchar c) =? tolower_int (uchar d)) = false.
Proof. intros Hc Hd. apply Z.eqb_neq. intros E. by apply Hd, (tolower_zero c d). Qed.

(** A comparison that includes the terminator of [t] compares the whole strings. *)
Lemma strncasecmp_whole s t :
  Range.nul_free t → strncasecmp_eq (S (length t)) s t = true ↔ Range.ci (c_string s) = Range.ci t.
Proof.
  unfold Range.nul_free. revert s. induction t as [|d t IH]; intros s Ht.
  - destruct s as [|c s]; [done|]. change (strncasecmp_eq (S (length [])) (c :: s) [])
      with (strncasecmp_eq 1 (c :: s) [Byte.x00]). rewrite strncasecmp_cons. cbn [c_string].
    destruct (uchar c =? 0) eqn:E; [|rewrite Z.eqb_sym, terminator_differs by (done || lia); done].
    apply Z.eqb_eq in E. by rewrite E.
  - rewrite not_elem_of_cons in Ht. destruct Ht as [Hd Ht]. change (length (d :: t)) with (S (length t)).
    assert (uchar d ≠ 0) as Hd0 by (intros E; apply Hd, uchar_inj; done). destruct s as [|c s].
    + change (strncasecmp_eq (S (S (length t))) [] (d :: t))
        with (strncasecmp_eq (S (S (length t))) [Byte.x00] (d :: t)).
      by rewrite strncasecmp_cons, terminator_differs.
    + rewrite strncasecmp_cons. cbn [c_string]. destruct (uchar c =? 0) eqn:E.
      { rewrite terminator_differs by (done || lia). done. }
      unfold Range.ci in *. cbn [fmap list_fmap].
      destruct (tolower_int (uchar c) =? tolower_int (uchar d)) eqn:Ec.
      * rewrite IH by done. apply Z.eqb_eq, tolower_eq_iff in Ec. rewrite Ec. split; [by intros ->|by intros [=]].
      * split; [done|]. intros [= H _]. apply tolower_eq_iff, Z.eqb_eq in H. congruence.
Qed.

Lemma stringToLevel_spec name :
  match stringToLevel name with
  | Ret l => Range.ci (c_string name) = Range.ci (levelToString l)
  | Throw e => e = RuntimeError (str "bad string to log level cast)") ∧
      ∀ l, Range.ci (c_string name) ≠ Range.ci (levelToString l)
  | _ => False
  end.
Proof.
  unfold stringToLevel.
  pose proof (strncasecmp_whole name (str "INFO") ltac:(unfold Range.nul_free; compute_done)) as H1.
  pose proof (strncasecmp_whole name (str "DEBUG") ltac:(unfold Range.nul_free; compute_done)) as H2.
  pose proof (strncasecmp_whole name (str "ERROR") ltac:(unfold Range.nul_free; compute_done)) as H3.
  pose proof (strncasecmp_whole name (str "EMERG") ltac:(unfold Range.nul_free; compute_done)) as H4.
  cbn [length str String.list_byte_of_string] in *.
  change (S (length (str "INFO"))) with 5%nat in H1. change (S (length (str "DEBUG"))) with 6%nat in H2.
  change (S (length (str "ERROR"))) with 6%nat in H3. change (S (length (str "EMERG"))) with 6%nat in H4.
  repeat case_if; try (apply H1 || apply H2 || apply H3 || apply H4; done).
  split; [done|]. intros l E. destruct l; [apply H2 in E|apply H1 in E|apply H3 in E|apply H4 in E]; congruence.
Qed.

(** ** The answer to an administrator *)
Section admin.
Context `{Printf} `{HashOrder} `{Posix} `{LexicalCastOk} {IO : Type} `{StreamLaws IO}.
Implicit Types (s : rstate IO).

(** The request after [setContentType]. *)
Definition plain (r : RequestImpl) : RequestImpl :=
  set_out_headers r (hm_set header_eq (str "Content-Type") (str "text/plain") (out_headers_ r)).

Lemma setContentType_ok s :
  headers_sent_ (rq s) = false →
  Request.setContentType (str "text/plain") s = (Ret (), set_rq (plain (rq s)) s).
Proof.
  intros Hs. unfold Request.setContentType, Request.setHeader, RequestImpl.setHeader, mbind, M_bind, request.
  rewrite Hs. reflexivity.
Qed.

(** A request that is answered with a text. *)
Definition answered (text : bytes) (s t : rstate IO) : Prop :=
  rq t = after_headers (plain (rq s)) ∧
  ∃ ts, Forall2 prints (out_cookies_ (rq s)) ts ∧
    sent (io t) = sent (io s) ++ header_block (out_headers_ (rq t)) ts ++ (if write_body (rq s) then text else []).

Lemma stream_answered s text :
  headers_sent_ (rq s) = false → stream_ (rq s) = true → answer_ok (rq s) → Range.empty text = false →
  ∃ t, RequestStream_destroy text (set_rq (plain (rq s)) s) = (Ret (), t) ∧ answered text s t.
Proof.
  intros Hs Hst (Hh & ts & Hts) Ht. unfold RequestStream_destroy. rewrite Ht. cbn [negb].
  assert (wp (Request.write_buf text) (set_rq (plain (rq s)) s) (λ _ t, answered text s t) noexn) as Hw;
    [|apply wp_returns in Hw as ([] & t & Et & Ha); by exists t].
  unfold Request.write_buf, RequestImpl.write_buf. rq_step. eapply wp_mono;
    [apply (sendHeaders_ok (set_rq (plain (rq s)) s) ts Hs Hst
      (hm_set_ok (str "Content-Type") (str "text/plain") _ Hh eq_refl eq_refl) Hts)| |done].
  intros _ t (E1 & _ & E3). rq_steps.
  assert (write_body (rq t) = write_body (rq s)) as -> by by rewrite E1.
  unfold answered. destruct (write_body (rq s)).
  - apply wp_on_io. eapply wp_mono; [apply s_write_buf_ok| |done]. intros _ o [Ho _]. cbn.
    split; [by rewrite E1|]. exists ts. split; [done|]. rewrite Ho, E3, E1. by rewrite <- app_assoc.
  - rq_steps. split; [by rewrite E1|]. exists ts. split; [done|]. rewrite E3, E1. by rewrite app_nil_r.
Qed.

Lemma setlevel_run {L} `{LoggerClass L} s (lg : Level * L) :
  headers_sent_ (rq s) = false → Request.getArg (rq s) (str "action") = str "setlevel" →
  handleRequest (s, lg) =
  let name := Request.getArg (rq s) (str "level") in
  match stringToLevel name with
  | Ret level =>
      (on_logger (setLevel level);;
       on_request (RequestStream_destroy (str "level " ++ name ++ str "successfully set" ++ endl)))
      (set_rq (plain (rq s)) s, lg)
  | Throw e => (Throw e, (set_rq (plain (rq s)) s, lg))
  | Undef => (Undef, (set_rq (plain (rq s)) s, lg))
  | NoFuel => (NoFuel, (set_rq (plain (rq s)) s, lg))
  end.
Proof.
  intros Hs Ha. unfold handleRequest. unfold mbind at 1, M_bind at 1. unfold on_request at 1, zoom at 1.
  cbn [fst snd]. rewrite setContentType_ok by done. unfold mbind at 1, M_bind at 1, Prelude.get. cbn [fst snd rq set_rq].
  change (Request.getArg (plain (rq s))) with (Request.getArg (rq s)). rewrite Ha.
  change (string_eq (str "setlevel") (str "setlevel")) with true. cbn iota zeta.
  by destruct (stringToLevel _).
Qed.
End admin.

(** * Properties *)

(** The name of a level gives the level back; any other spelling of it by case
    is accepted, and nothing else, a longer name that begins with one of them
    included. *)
Theorem level_names (name : bytes) (l : Level) :
  stringToLevel (levelToString l) = Ret l ∧
  (stringToLevel name = Ret l ↔ Range.ci (c_string name) = Range.ci (levelToString l)) ∧
  ((∀ l, stringToLevel name ≠ Ret l) → stringToLevel name = Throw (RuntimeError (str "bad string to log level cast)"))).
Proof.
  pose proof (stringToLevel_spec name) as Hs. split; [by destruct l|]. split.
  - split; intros E; [by rewrite E in Hs|]. destruct (stringToLevel name) as [k|e| |]; [|by destruct (proj2 Hs l)|done|done].
    rewrite Hs in E. f_equal. clear Hs. destruct k, l; done || (vm_compute in E; discriminate).
  - intros Hn. destruct (stringToLevel name) as [k|e| |]; [by destruct (Hn k)|by destruct Hs as [-> _]|done|done].
Qed.

(** A request to set the level of the syslog logger: with the name of a level
    the client is told so and from then on exactly the messages of that level
    and above go to syslog; with another name the handler throws, and neither
    the logger nor the client notices. *)
Theorem admin_setlevel `{Printf} `{HashOrder} `{Posix} `{LexicalCastOk} {IO} `{StreamLaws IO}
    (s : rstate IO) (lg : Level * SyslogLogger.SyslogLogger) :
  headers_sent_ (rq s) = false → stream_ (rq s) = true → answer_ok (rq s) →
  Request.getArg (rq s) (str "action") = str "setlevel" →
  let name := Request.getArg (rq s) (str "level") in
  match stringToLevel name with
  | Ret level => ∃ t lg', handleRequest (s, lg) = (Ret (), (t, lg')) ∧
      answered (str "level " ++ name ++ str "successfully set" ++ endl) s t ∧
      (∀ l format args, SyslogLogger.syslog (log l format args lg').2.2 = SyslogLogger.syslog lg.2 ++
         (if level_value level <=? level_value l
          then [(SyslogLogger.toSyslogPriority l,
                 vsnprintf (SyslogLogger.ident_ lg.2 ++ str ": " ++ format) args)] else []))
  | Throw e => handleRequest (s, lg) = (Throw e, (set_rq (plain (rq s)) s, lg))
  | _ => False
  end.
Proof.
  intros Hs Hst Hok Ha name. pose proof (stringToLevel_spec name) as Hl.
  rewrite setlevel_run by done. cbv zeta. fold name.
  destruct (stringToLevel name) as [level|e| |]; [| |done|done].
  - set (text := str "level " ++ name ++ str "successfully set" ++ endl).
    destruct (stream_answered s text Hs Hst Hok eq_refl) as (t & Et & Hans). clearbody text.
    set (lg' := (level, SyslogLogger.MkSyslogLogger (SyslogLogger.ident_ lg.2)
      (SyslogLogger.toSyslogPriority level) (SyslogLogger.syslog lg.2))).
    assert (on_logger (setLevel level) (set_rq (plain (rq s)) s, lg) = (Ret (), (set_rq (plain (rq s)) s, lg')))
      as El by reflexivity.
    unfold mbind, M_bind. rewrite El. unfold on_request, zoom. cbn [fst snd]. rewrite Et.
    eexists _, _. split; [reflexivity|]. split; [exact Hans|].
    intros l format args. unfold log, SyslogLogger.methods, mbind, M_bind, Prelude.get. cbn.
    case_if; cbn; [done|by rewrite app_nil_r].
  - done.
Qed.

(** Formatting that copies the format. *)
Definition copying : Printf := {| va_list := unit; vsnprintf f _ := Some f; one_string _ := tt |}.

Lemma admin_setlevel_witness :
  let r := set_args attached_request [(str "action", str "setlevel"); (str "level", str "error")] in
  let s := MkState r empty_world (MkTape [] []) in
  let lg := (DEBUG, SyslogLogger.MkSyslogLogger (str "id") 7 []) in
  ∃ t lg', @handleRequest _ copying _ cons_order Tape Tape_stream (s, lg) = (Ret (), (t, lg')) ∧
    @answered cons_order Tape Tape_stream Tape_laws (str "level errorsuccessfully set" ++ endl) s t.
Proof.
  intros r s lg.
  destruct (@admin_setlevel copying cons_order small_machine decimal_cast decimal_cast_ok Tape Tape_stream Tape_laws s lg
    eq_refl eq_refl ltac:(split; [constructor|exists []; constructor]) eq_refl) as (t & lg' & E & Ha & _).
  exists t, lg'. split; [exact E|exact Ha].
Defined.
