(* ===== verification/FileLogger.v ===== *)
(** * The logger that writes to a file (file-logger/file_logger.cpp)

    The threads that log put their messages into a queue, one thread writes
    them.  The transition system has a step for every section under the mutex of
    the queue, for the writing and for the steps of the destructor. *)
From S2P Require Import Prelude CLib Range Util Containers HandlerSet Logger.

(** [output_] is what was given to [write], in order. *)
Record FileLogger := MkFileLogger {
  filename_ : bytes;
  openMode_ : Z;
  print_level_ : bool;
  print_time_ : bool;
  fd_ : Z;
  stopping_ : bool;
  queue_ : list bytes;
  level_ : Level;
  output_ : list bytes;
}.
Definition set_fd (fd : Z) (s : FileLogger) : FileLogger :=
  MkFileLogger (filename_ s) (openMode_ s) (print_level_ s) (print_time_ s) fd (stopping_ s) (queue_ s)
    (level_ s) (output_ s).
Definition set_stopping (b : bool) (s : FileLogger) : FileLogger :=
  MkFileLogger (filename_ s) (openMode_ s) (print_level_ s) (print_time_ s) (fd_ s) b (queue_ s)
    (level_ s) (output_ s).
Definition set_queue (q : list bytes) (s : FileLogger) : FileLogger :=
  MkFileLogger (filename_ s) (openMode_ s) (print_level_ s) (print_time_ s) (fd_ s) (stopping_ s) q
    (level_ s) (output_ s).
Definition set_output (o : list bytes) (s : FileLogger) : FileLogger :=
  MkFileLogger (filename_ s) (openMode_ s) (print_level_ s) (print_time_ s) (fd_ s) (stopping_ s) (queue_ s)
    (level_ s) o.

(** ** The constructor *)

(** S_IRUSR | S_IWUSR and the bits of the group and of the others. *)
Definition S_USER : Z := Z.lor 256 128.
Definition S_IRGRP : Z := 32.
Definition S_IWGRP : Z := 16.
Definition S_IROTH : Z := 4.
Definition open_mode (read : bytes) : Z :=
  if string_eq read (str "all") then Z.lor (Z.lor S_USER S_IRGRP) S_IROTH
  else if string_eq read (str "group") then Z.lor S_USER S_IRGRP
  else if string_eq read (str "user") then S_USER
  else Z.lor (Z.lor (Z.lor S_USER S_IRGRP) S_IWGRP) S_IROTH.
(** [strcasecmp(v, "yes") == 0]. *)
Definition is_yes (v : bytes) : bool := strncasecmp_eq 4 v (str "yes").
(** The directories that are made: what is before every slash but one at the
    front.  [done] is what is before [rest]. *)
Fixpoint directories (done rest : bytes) : list bytes :=
  match rest with
  | [] => []
  | c :: rest =>
      if decide (c = "/"%byte) then done :: directories (done ++ [c]) rest else directories (done ++ [c]) rest
  end.
Definition parent_directories (filename : bytes) : list bytes :=
  match filename with [] => [] | c :: rest => directories [c] rest end.

(** The logger and the directories it asked for; [open] is the system call. *)
Definition FileLogger_make (open : bytes → Z → Z) (config : Config) (xpath : bytes) : outcome (FileLogger * list bytes) :=
  filename ← asString config (xpath ++ str "/file");
  name ← asString config (xpath ++ str "/level");
  level ← stringToLevel name;
  print_level ← asStringDef config (xpath ++ str "/print-level") (str "yes");
  print_time ← asStringDef config (xpath ++ str "/print-time") (str "yes");
  read ← asStringDef config (xpath ++ str "/read") [];
  Ret (MkFileLogger filename (open_mode read) (is_yes print_level) (is_yes print_time)
         (open filename (open_mode read)) false [] level [], parent_directories filename).

(** ** log *)
Section log.
Context `{Printf}.

(** [buf] has 512 characters, [snprintf] is given one less and keeps one for
    the terminator. *)
Definition BUF_SIZE : nat := 512.
Definition prepareFormat (s : FileLogger) (timestr : bytes) (level : Level) (format : bytes) : bytes :=
  take (BUF_SIZE - 2)
    ((if print_time_ s && print_level_ s then timestr ++ str " " ++ levelToString level ++ str ": " ++ format
      else if print_time_ s then timestr ++ str " " ++ format
      else if print_level_ s then levelToString level ++ str ": " ++ format
      else format) ++ [Byte.x0a]).
(** What is queued, if anything.  When the formatting fails its size is taken
    for a very large one. *)
Definition log_text (s : FileLogger) (timestr : bytes) (level : Level) (format : bytes) (args : va_list) :
    outcome (option bytes) :=
  if level_value level <? level_value (level_ s) then Ret None
  else if fd_ s =? -1 then Ret None
  else
    match vsnprintf (prepareFormat s timestr level format) args with
    | None => Undef
    | Some [] => Ret None
    | Some data => Ret (Some data)
    end.

(** ** The threads *)

(** The writing thread: before the test of [stopping_], before it locks the
    queue, waiting, notified, with a copy of the queue, and returned. *)
Inductive Writer := WTest | WLock | WWaiting | WNotified | WWriting (queueCopy : list bytes) | WReturned.
(** The destructor. *)
Inductive Destructor := DNone | DStopping | DJoining | DJoined.
Record LogState := MkLogState {
  logger : FileLogger;
  writer : Writer;
  destructor : Destructor;
}.

(** [notify_one] wakes the thread if it waits. *)
Definition notify_one (w : Writer) : Writer := match w with WWaiting => WNotified | w => w end.
Definition writingThread (s : LogState) : option LogState :=
  match writer s with
  | WTest => Some (MkLogState (logger s) (if stopping_ (logger s) then WReturned else WLock) (destructor s))
  | WLock => Some (MkLogState (logger s) WWaiting (destructor s))
  | WWaiting => None
  | WNotified => Some (MkLogState (set_queue [] (logger s)) (WWriting (queue_ (logger s))) (destructor s))
  | WWriting queueCopy =>
      Some (MkLogState (if fd_ (logger s) =? -1 then logger s
                        else set_output (output_ (logger s) ++ queueCopy) (logger s)) WTest (destructor s))
  | WReturned => None
  end.

(** The steps: a thread logs, the file is opened again, the writing thread
    goes on, it wakes without being notified, and the destructor sets the flag,
    notifies and joins. *)
Inductive action :=
| ALog (timestr : bytes) (level : Level) (format : bytes) (args : va_list)
| ARoll (fd : Z)
| AWrite
| ASpurious
| AStop
| ANotify
| AJoin.
Definition act (a : action) (s : LogState) : option LogState :=
  match a, destructor s with
  | ALog timestr level format args, DNone =>
      match log_text (logger s) timestr level format args with
      | Ret None => Some s
      | Ret (Some data) =>
          Some (MkLogState (set_queue (queue_ (logger s) ++ [data]) (logger s)) (notify_one (writer s)) DNone)
      | _ => None
      end
  | ARoll fd, DNone => Some (MkLogState (set_fd fd (logger s)) (writer s) DNone)
  | AWrite, _ => writingThread s
  | ASpurious, d => match writer s with WWaiting => Some (MkLogState (logger s) WNotified d) | _ => None end
  | AStop, DNone => Some (MkLogState (set_stopping true (logger s)) (writer s) DStopping)
  | ANotify, DStopping => Some (MkLogState (logger s) (notify_one (writer s)) DJoining)
  | AJoin, DJoining => match writer s with WReturned => Some (MkLogState (logger s) WReturned DJoined) | _ => None end
  | _, _ => None
  end.
Fixpoint run (l : list action) (s : LogState) : option LogState :=
  match l with
  | [] => Some s
  | a :: l => match act a s with Some t => run l t | None => None end
  end.
(** A logger that was just constructed, with its thread. *)
Definition begin (lg : FileLogger) : LogState := MkLogState lg WTest DNone.

(** ** Specification vocabulary *)

(** The messages that were queued in a run. *)
Definition queued_by (a : action) (s : LogState) : list bytes :=
  match a with
  | ALog timestr level format args =>
      match log_text (logger s) timestr level format args with Ret (Some data) => [data] | _ => [] end
  | _ => []
  end.
Fixpoint queued (l : list action) (s : LogState) : list bytes :=
  match l with
  | [] => []
  | a :: l => queued_by a s ++ match act a s with Some t => queued l t | None => [] end
  end.
(** What the writing thread has in its hands. *)
Definition in_hand (w : Writer) : list bytes := match w with WWriting q => q | _ => [] end.
(** The file is opened again with success. *)
Definition rolls_well (a : action) : Prop := match a with ARoll fd => fd ≠ -1 | _ => True end.
Definition is_spurious (a : action) : bool := match a with ASpurious => true | _ => false end.

(** * Lemmas *)

(** The messages [hist] are accounted for; [ok]: the file was open all the time. *)
Definition accounted (ok : Prop) (hist : list bytes) (s : LogState) : Prop :=
  ∃ taken, hist = taken ++ in_hand (writer s) ++ queue_ (logger s) ∧
    output_ (logger s) `sublist_of` taken ∧
    (ok → output_ (logger s) = taken ∧ fd_ (logger s) ≠ -1).

Lemma in_hand_notify w : in_hand (notify_one w) = in_hand w.
Proof. by destruct w. Qed.

Lemma writer_accounted ok hist s t :
  accounted ok hist s → writingThread s = Some t → accounted ok hist t.
Proof.
  intros (taken & Hh & Ho & Hok). unfold writingThread.
  destruct (writer s) as [| | | |q|] eqn:Ew; cbn in Hh; try done; intros [= <-]; unfold accounted; cbn.
  - exists taken. split_and!; [|done|done]. by destruct (stopping_ _).
  - by exists taken.
  - exists taken. by rewrite app_nil_r.
  - exists (taken ++ q). rewrite <- app_assoc. case_if; zbool; cbn.
    + split_and!; [done| |]; [by apply sublist_inserts_r|]. intros H1. by destruct (Hok H1).
    + split_and!; [done|by apply sublist_app|]. intros H1. by destruct (Hok H1) as [-> ?].
Qed.

Lemma act_accounted (ok : Prop) hist a s t :
  (ok → rolls_well a) → accounted ok hist s → act a s = Some t → accounted ok (hist ++ queued_by a s) t.
Proof.
  intros Ha Hs. destruct a as [ts l f args|fd| | | | |]; cbn [act queued_by]; rewrite ?app_nil_r.
  - destruct (destructor s); try done. destruct (log_text _ _ _ _ _) as [[d|]|e| |]; try done;
      intros [= <-]; rewrite ?app_nil_r; [|done].
    destruct Hs as (taken & -> & Ho & Hok). exists taken. cbn. rewrite in_hand_notify, <- !app_assoc. done.
  - destruct (destructor s); try done. intros [= <-]. destruct Hs as (taken & -> & Ho & Hok). exists taken. cbn.
    split_and!; [done|done|]. intros H1. destruct (Hok H1). split; [done|exact (Ha H1)].
  - by apply writer_accounted.
  - destruct Hs as (taken & -> & Ho & Hok). destruct (writer s) eqn:Ew; try done.
    destruct (destructor s); intros [= <-]; by exists taken.
  - destruct (destructor s); try done. intros [= <-]. destruct Hs as (taken & -> & Ho & Hok). by exists taken.
  - destruct (destructor s); try done. intros [= <-]. destruct Hs as (taken & -> & Ho & Hok). exists taken. cbn.
    by rewrite in_hand_notify.
  - destruct (destructor s); try done. destruct (writer s) eqn:Ew; try done. intros [= <-].
    destruct Hs as (taken & -> & Ho & Hok). exists taken. cbn. by rewrite Ew.
Qed.

Lemma run_accounted (ok : Prop) hist l s t :
  (ok → Forall rolls_well l) → accounted ok hist s → run l s = Some t → accounted ok (hist ++ queued l s) t.
Proof.
  revert hist s. induction l as [|a l IH]; intros hist s Hl Hs; cbn [run queued].
  - intros [= <-]. by rewrite app_nil_r.
  - destruct (act a s) as [u|] eqn:Ea; [|done]. rewrite app_assoc. apply IH.
    + intros H1. specialize (Hl H1). by apply Forall_cons in Hl as [_ ?].
    + eapply act_accounted; [|done|done]. intros H1. specialize (Hl H1). by apply Forall_cons in Hl as [? _].
Qed.

(** The flag of the destructor is set in the order of its steps. *)
Definition flagged (s : LogState) : Prop := destructor s ≠ DNone → stopping_ (logger s) = true.
Lemma act_flagged a s t : flagged s → act a s = Some t → flagged t.
Proof.
  unfold flagged. intros Hs. destruct a; cbn [act]; unfold writingThread;
    destruct (destructor s) eqn:Ed; try done; repeat case_match; intros; simplify_eq/=; try done; first [by apply Hs|by rewrite Hs in *].
Qed.
Lemma run_flagged l s t : flagged s → run l s = Some t → flagged t.
Proof.
  revert s. induction l as [|a l IH]; intros s Hs; cbn [run]; [by intros [= <-]|].
  destruct (act a s) as [u|] eqn:Ea; [|done]. apply IH. by eapply act_flagged.
Qed.

(** The thread is about to wait, or waits, for a notification that does not
    come any more. *)
Definition forgotten (s : LogState) : Prop :=
  destructor s = DJoining ∧ (writer s = WLock ∨ writer s = WWaiting).
Lemma act_forgotten a s t : forgotten s → is_spurious a = false → act a s = Some t → forgotten t.
Proof.
  intros [Hd Hw] Ha. destruct a; cbn [act]; rewrite ?Hd; try done; unfold writingThread;
    destruct Hw as [Hw|Hw]; rewrite Hw; try done. intros [= <-]. split; [done|by right].
Qed.
Lemma run_forgotten l s t :
  forgotten s → forallb (λ a, negb (is_spurious a)) l = true → run l s = Some t → forgotten t.
Proof.
  revert s. induction l as [|a l IH]; intros s Hs; cbn [run forallb]; [by intros _ [= <-]|].
  intros [Ha Hl]%andb_true_iff. destruct (act a s) as [u|] eqn:Ea; [|done]. apply IH; [|done].
  eapply act_forgotten; [done| |done]. by apply negb_true_iff.
Qed.
End log.

(** * Properties *)

(** C34: However the threads interleave, the messages that were queued are, in their
    order and each once, those the writing thread has taken, those it has in its
    hands and those that are still in the queue; what was written is what it has
    taken, but for the messages it had while the file could not be opened. *)
Theorem messages_in_order `{Printf} (lg : FileLogger) (l : list action) (s : LogState) :
  output_ lg = [] → queue_ lg = [] → run l (begin lg) = Some s →
  ∃ taken, queued l (begin lg) = taken ++ in_hand (writer s) ++ queue_ (logger s) ∧
    output_ (logger s) `sublist_of` taken ∧
    (fd_ lg ≠ -1 → Forall rolls_well l → output_ (logger s) = taken).
Proof.
  intros Ho Hq E. set (ok := fd_ lg ≠ -1 ∧ Forall rolls_well l).
  destruct (run_accounted ok [] l (begin lg) s) as (taken & Ht & Hs & Hok); [by intros []| |done|].
  - exists []. cbn. rewrite Ho, Hq. split_and!; [done|done|]. by intros [].
  - exists taken. split_and!; [done|done|]. intros H1 H2. by apply Hok.
Qed.

Lemma messages_in_order_witness :
  ∃ s taken, @run copying [@ALog copying [] INFO (str "a") tt; AWrite; AWrite; @ALog copying [] INFO (str "b") tt; AWrite;
      @ALog copying [] ERROR (str "c") tt; AWrite]
    (begin (MkFileLogger [] 0 false false 5 false [] INFO [])) = Some s ∧
  queue_ (logger s) = [str "c" ++ [Byte.x0a]] ∧
  output_ (logger s) = taken ∧ taken = [str "a" ++ [Byte.x0a]; str "b" ++ [Byte.x0a]].
Proof.
  set (l := [_; _; _; _; _; _; _]).
  destruct (@messages_in_order copying (MkFileLogger [] 0 false false 5 false [] INFO []) l
    (MkLogState (MkFileLogger [] 0 false false 5 false [str "c" ++ [Byte.x0a]] INFO
       [str "a" ++ [Byte.x0a]; str "b" ++ [Byte.x0a]]) WTest DNone)
    eq_refl eq_refl ltac:(vm_compute; reflexivity)) as (taken & _ & _ & Ht).
  eexists _, taken. split; [vm_compute; reflexivity|]. split; [reflexivity|]. split.
  - apply Ht; [done|]. repeat constructor.
  - symmetry. apply Ht; [done|]. repeat constructor.
Defined.

(** C35: Destroying the logger: unless the notification of the destructor comes
    between the test of [stopping_] and the waiting, the writing thread returns
    after at most three steps, and writes the queue when it was waiting for it;
    if it does come there, the thread waits for ever, and so does the destructor. *)
Theorem destructor_joins `{Printf} (lg : FileLogger) (l : list action) (s t : LogState) :
  run l (begin lg) = Some s → act ANotify s = Some t →
  (writer s ≠ WLock → ∃ n u, (n <= 3)%nat ∧ run (replicate n AWrite) t = Some u ∧
     writer u = WReturned ∧ is_Some (act AJoin u) ∧
     (writer s = WWaiting → fd_ (logger s) ≠ -1 →
      queue_ (logger u) = [] ∧ output_ (logger u) = output_ (logger s) ++ queue_ (logger s))) ∧
  (writer s = WLock → ∀ l' u, forallb (λ a, negb (is_spurious a)) l' = true → run l' t = Some u →
     act AJoin u = None).
Proof.
  intros E Ea. assert (flagged (begin lg)) as Hf by (intros Hd; by destruct Hd). apply (run_flagged l) in E as Hf2; [|done].
  clear Hf. rename Hf2 into Hf. cbn [act] in Ea.
  destruct (destructor s) eqn:Ed; try done. injection Ea as <-.
  assert (stopping_ (logger s) = true) as Hs by (apply Hf; congruence). split.
  - intros Hw. destruct s as [lo w d]. cbn in *. subst d.
    destruct (fd_ lo =? -1) eqn:Efd, w as [| | | |q|]; try done;
      [exists 1%nat|exists 3%nat|exists 3%nat|exists 2%nat|exists O|
       exists 1%nat|exists 3%nat|exists 3%nat|exists 2%nat|exists O];
      eexists; (split; [lia|]); cbn; unfold writingThread; cbn; rewrite ?Efd; cbn; rewrite ?Hs; cbn;
      (split; [reflexivity|]); (split; [done|]); (split; [by eexists|]); try done.
    intros _ Hne. zbool. by destruct Hne.
  - intros Hw l' u Hl Eu. assert (forgotten (MkLogState (logger s) (notify_one (writer s)) DJoining)) as Hfg.
    { rewrite Hw. split; [done|by left]. }
    destruct (run_forgotten l' _ u Hfg Hl Eu) as [Hd Hw']. cbn [act]. rewrite Hd.
    by destruct Hw' as [-> | ->].
Qed.

Lemma destructor_joins_witness :
  let lg := MkFileLogger [] 0 false false 5 false [] INFO [] in
  (∃ s t, @run copying [AWrite; AStop] (begin lg) = Some s ∧ @act copying ANotify s = Some t ∧
     ∀ l' u, forallb (λ a, negb (@is_spurious copying a)) l' = true → @run copying l' t = Some u →
       @act copying AJoin u = None) ∧
  (∃ s t n u, @run copying [AWrite; AWrite; AStop] (begin lg) = Some s ∧ @act copying ANotify s = Some t ∧
     (n <= 3)%nat ∧ @run copying (replicate n AWrite) t = Some u ∧ is_Some (@act copying AJoin u)).
Proof.
  intros lg. split.
  - eexists _, _. split; [vm_compute; reflexivity|]. split; [vm_compute; reflexivity|].
    refine (proj2 (@destructor_joins copying lg [AWrite; AStop] _ _ ltac:(vm_compute; reflexivity)
      ltac:(vm_compute; reflexivity)) _). reflexivity.
  - edestruct (proj1 (@destructor_joins copying lg [AWrite; AWrite; AStop] _ _ ltac:(vm_compute; reflexivity)
      ltac:(vm_compute; reflexivity))) as (n & u & Hn & Hr & _ & Hj & _); [done|].
    eexists _, _, n, u. split; [vm_compute; reflexivity|]. split; [vm_compute; reflexivity|]. done.
Defined.
