(* ===== verification/FileCache.v ===== *)
(** * The file cache of requests (request-cache/file_cache.cpp)

    A request that asks to be tried again is written to a file, waits for its
    time in a queue and is then handled once more.  The state is that of the
    object, of the directory of the cache and of the clock, next to the world
    of buffers: a name of the directory leads to a storage, which several names
    may share.  The mutexes are released by every method before it returns and
    a key belongs to one request, so a method is one step. *)
From S2P Require Import Prelude CLib Range Util Containers Buffer FileBuffer DataBuffer BufferUtil.
From S2P Require Import HttpDate Cookie RequestState Parser Serialize RequestImpl Request HandlerSet ThreadPool Globals Server.

(** What the operating system answers: the readings of the clock one after the
    other, and whether [link] fails on names that it could link. *)
Class CacheSystem := {
  clock : nat → Z;
  link_error : bytes → bytes → bool;
  MD5 : bytes → bytes;
}.

(** ** KeyId *)
Record KeyId := MkKeyId { key_id : Z; key_last : Z }.

(** [std::multimap::insert]: after the elements with an equal key. *)
Fixpoint mm_insert {A} (k : Z) (v : A) (m : list (Z * A)) : list (Z * A) :=
  match m with
  | [] => [(k, v)]
  | (k', v') :: m' => if k <? k' then (k, v) :: m else (k', v') :: mm_insert k v m'
  end.

Record DelayTask := MkDelayTask { task_key : bytes; task_retries : Z }.

Record FileRequestCache := MkFileRequestCache {
  cache_dir_ : bytes;
  cache_window_ : Z;
  max_retries_ : Z;
  min_post_size_ : Z;
  waiting_ : list (Z * DelayTask);
  active_ : list (bytes * Z);
  stopped_ : bool;
}.

Definition set_waiting (w : list (Z * DelayTask)) (c : FileRequestCache) : FileRequestCache :=
  MkFileRequestCache (cache_dir_ c) (cache_window_ c) (max_retries_ c) (min_post_size_ c) w (active_ c) (stopped_ c).
Definition set_active (a : list (bytes * Z)) (c : FileRequestCache) : FileRequestCache :=
  MkFileRequestCache (cache_dir_ c) (cache_window_ c) (max_retries_ c) (min_post_size_ c) (waiting_ c) a (stopped_ c).
Definition set_stopped (b : bool) (c : FileRequestCache) : FileRequestCache :=
  MkFileRequestCache (cache_dir_ c) (cache_window_ c) (max_retries_ c) (min_post_size_ c) (waiting_ c) (active_ c) b.

(** The object, the directory of files, [key_id_holder] by thread, and the
    number of times the clock was read. *)
Record CacheState := MkCacheState {
  cache : FileRequestCache;
  dir : gmap bytes loc;
  key_ids : gmap Z KeyId;
  ticks : nat;
}.
Definition set_cache (f : FileRequestCache → FileRequestCache) (s : CacheState) : CacheState :=
  MkCacheState (f (cache s)) (dir s) (key_ids s) (ticks s).
Definition set_dir (f : gmap bytes loc → gmap bytes loc) (s : CacheState) : CacheState :=
  MkCacheState (cache s) (f (dir s)) (key_ids s) (ticks s).
Definition set_key_id (thread : Z) (k : KeyId) (s : CacheState) : CacheState :=
  MkCacheState (cache s) (dir s) (<[thread := k]> (key_ids s)) (ticks s).

Definition system : Type := world * CacheState.
Definition on_cache {A} (m : M CacheState A) : M system A := zoom snd (λ c s, (s.1, c)) m.
Definition on_files {A} (m : M world A) : M system A := zoom fst (λ w s, (w, s.2)) m.

(** [strncmp(a, b, n) == 0]. *)
Fixpoint strncmp_eq (n : nat) (a b : bytes) : bool :=
  match n with
  | O => true
  | S n =>
      if uchar (front a) =? uchar (front b) then
        if uchar (front a) =? 0 then true else strncmp_eq n (tail a) (tail b)
      else false
  end.
(** [s.substr(pos)]. *)
Definition substr (s : bytes) (pos : Z) : outcome bytes :=
  if zlen s <? pos then Throw OutOfRange else Ret (drop (Z.to_nat pos) s).
(** The sum of two [time_t]s. *)
Definition time_add (a b : Z) : outcome Z :=
  if (-2 ^ 63 <=? a + b) && (a + b <? 2 ^ 63) then Ret (a + b) else Undef.

Section file_cache.
Context `{Posix} `{CacheSystem}.
(** [pthread_self()]. *)
Context (self : Z).

(** [time(NULL)]. *)
Definition time : M CacheState Z := λ s,
  (Ret (clock (ticks s)), MkCacheState (cache s) (dir s) (key_ids s) (S (ticks s))).

(** The bytes whose digest is the key. *)
Definition key_source (k : KeyId) : bytes :=
  le_bytes 4 (key_id k) ++ str ":" ++ le_bytes 8 (key_last k) ++ str ":" ++ le_bytes 8 self.
Definition KeyId_next (now : Z) (k : KeyId) : outcome KeyId :=
  if now =? key_last k then
    if key_id k =? 2 ^ 31 - 1 then Undef else Ret (MkKeyId (key_id k + 1) (key_last k))
  else Ret (MkKeyId 0 now).
(** [KeyId::get] on the object of this thread, which is new in a thread that
    has none. *)
Definition generateUniqueKey : M CacheState bytes :=
  s ← Prelude.get;
  k ← (match key_ids s !! self with
       | Some k => mret k
       | None => now ← time; mret (MkKeyId 0 now)
       end);
  now ← time;
  k ← lift (KeyId_next now k);
  modify (set_key_id self k);;
  mret (hexMD5 MD5 (key_source k)).

(** ** Files *)

(** [open(path, O_RDWR | O_CREAT)]. *)
Definition open_storage (path : bytes) : M system loc :=
  s ← Prelude.get;
  match dir s.2 !! path with
  | Some d => mret d
  | None =>
      d ← on_files (new_storage []);
      on_cache (modify (set_dir (insert path d)));;
      mret d
  end.
(** [new FileBuffer(name, window)] on a storage, in a buffer. *)
Definition open_file (name : bytes) (window : Z) (d : loc) : M world DataBuffer :=
  w ← Prelude.get;
  match stores w !! d with
  | None => undef
  | Some c =>
      f ← lift (FileBuffer.open name window c).1;
      l ← new_object (IFile f) d; create_impl l
  end.
Definition createFileBuffer (key : bytes) : M system DataBuffer :=
  s ← Prelude.get;
  let path := cache_dir_ (cache s.2) ++ key in
  match open_error path with
  | Some text => throw (RuntimeError text)
  | None => d ← open_storage path; on_files (open_file path (cache_window_ (cache s.2)) d)
  end.

(** [link(path, new_path)]: whether it succeeds. *)
Definition link (path new_path : bytes) : M CacheState bool :=
  s ← Prelude.get;
  match dir s !! path, dir s !! new_path with
  | Some d, None =>
      if link_error path new_path then mret false
      else modify (set_dir (insert new_path d));; mret true
  | _, _ => mret false
  end.
(** A scope with a local buffer on the file [path], which [~FileHolder]
    removes at its end. *)
Definition with_file {A} (path : bytes) (m : M system A) : M system A := λ s,
  let '(r, s') := m s in (r, (s'.1, set_dir (delete path) s'.2)).

(** ** The methods *)

Definition create : M system DataBuffer :=
  key ← on_cache generateUniqueKey;
  buffer ← createFileBuffer key;
  (if isNil buffer then mret ()
   else on_cache (modify (set_cache (λ c, set_active (map_insert key 0 (active_ c)) c))));;
  mret buffer.

(** The name of the file of the body, empty for a body in memory. *)
Definition body_filename (w : world) (r : RequestImpl) : bytes :=
  match data_ (body_ r) with
  | Some l =>
      match objs w !! l with
      | Some (MkObject (IFile b) _) => FileBuffer.filename b
      | _ => EMPTY_STRING
      end
  | None => EMPTY_STRING
  end.
Definition in_cache_dir (c : FileRequestCache) (filename : bytes) : bool :=
  strncmp_eq (length (cache_dir_ c)) filename (cache_dir_ c).

Definition getStoredKey (r : RequestImpl) : M system bytes :=
  s ← Prelude.get;
  let filename := body_filename s.1 r in
  if negb (Range.empty filename) && in_cache_dir (cache s.2) filename then
    lift (substr filename (zlen (cache_dir_ (cache s.2))))
  else mret EMPTY_STRING.
Definition getKey (r : RequestImpl) : M system bytes :=
  key ← getStoredKey r;
  if Range.empty key then on_cache generateUniqueKey else mret key.

Definition createHardLink (key : bytes) : M CacheState bytes :=
  s ← Prelude.get;
  new_key ← generateUniqueKey;
  ok ← link (cache_dir_ (cache s) ++ key) (cache_dir_ (cache s) ++ new_key);
  if ok : bool then mret new_key else mret EMPTY_STRING.

(** The result and the value given to [new_key]. *)
Definition saveRequest (r : RequestImpl) (key : bytes) : M system (bool * bytes) :=
  s ← Prelude.get;
  let filename := body_filename s.1 r in
  let link_it :=
    new_key ← on_cache (createHardLink key); mret (negb (Range.empty new_key), new_key) in
  if Range.empty filename || negb (in_cache_dir (cache s.2) filename) then
    buffer ← createFileBuffer key;
    if isNil buffer then mret (false, [])
    else with_file (cache_dir_ (cache s.2) ++ key) (on_files (Serialize.serialize r buffer);; link_it)
  else link_it.

Definition eraseActive (key : bytes) : M CacheState unit :=
  modify (set_cache (λ c, set_active (map_erase key (active_ c)) c)).
Definition insertWaiting (delay : Z) (key : bytes) (retries : Z) : M CacheState unit :=
  now ← time;
  t ← lift (time_add delay now);
  modify (set_cache (λ c, set_waiting (mm_insert t (MkDelayTask key retries) (waiting_ c)) c)).

Definition save (r : RequestImpl) (delay : Z) : M system unit :=
  s ← Prelude.get;
  if (delay =? 0) || (max_retries_ (cache s.2) =? 0) then
    key ← getStoredKey r;
    if negb (Range.empty key) then on_cache (eraseActive key) else mret ()
  else
    key ← getKey r;
    s ← Prelude.get;
    match map_find key (active_ (cache s.2)) with
    | None =>
        '(ok, new_key) ← saveRequest r key;
        if ok : bool then on_cache (insertWaiting delay new_key 1) else mret ()
    | Some n =>
        let retries := u32 n in
        if max_retries_ (cache s.2) <=? retries then on_cache (eraseActive key)
        else
          '(ok, new_key) ← saveRequest r key;
          on_cache (eraseActive key);;
          if ok : bool then on_cache (insertWaiting delay new_key (to_int (retries + 1))) else mret ()
    end.

(** [stop], before it waits for the thread. *)
Definition stop : M CacheState unit := modify (set_cache (set_stopped true)).

(** ** handle *)

(** The block under [waiting_mutex_]; [None]: the thread sleeps. *)
Definition next_task : M CacheState (option DelayTask) :=
  s ← Prelude.get;
  match waiting_ (cache s) with
  | [] => mret None
  | (t, task) :: rest =>
      now ← time;
      if now <? t then mret None
      else modify (set_cache (set_waiting rest));; mret (Some task)
  end.

Definition activate (task : DelayTask) : M CacheState unit :=
  modify (set_cache (λ c, set_active (map_insert (task_key task) (task_retries task) (active_ c)) c)).
End file_cache.

(** ** The requests of the cache *)

(** [RequestCacheStream]: it throws away what it is given.  Its [read] leaves
    the buffer as it was, which has no counterpart here; only [attach] reads
    and a request of the cache is not attached. *)
#[export] Instance RequestCacheStream : RequestIOStream CacheState := {|
  s_read _ := undef;
  s_write _ size := mret size;
  s_write_buf _ := mret ();
|}.

Section cached.
Context `{HashOrder} `{Posix} `{CacheSystem} `{LexicalCast} `{Regex}.
Context (self : Z).

(** The cache as the daemon uses it, for a request whose stream and cache
    state are in [IO]. *)
Definition on_system {IO A} (get : IO → CacheState) (set : CacheState → IO → IO) (m : M system A) : M (rstate IO) A :=
  zoom (λ s, (wd s, get (io s))) (λ p s, MkState (rq s) p.1 (set p.2 (io s))) m.
Definition file_cache {IO} (get : IO → CacheState) (set : CacheState → IO → IO) (c : FileRequestCache) :
    RequestCache IO :=
  MkRequestCache (min_post_size_ c) (on_system get set (create self))
    (λ delay, r ← request; on_system get set (save self r delay)).

(** A request that nobody refers to any more: [~Request], and then its members,
    of which the holder removes the file. *)
Definition own_cache (c : FileRequestCache) : RequestCache CacheState := file_cache (λ c, c) (λ c _, c) c.
Definition drop_request : M (rstate CacheState) unit :=
  s ← Prelude.get;
  Request.destroy (Some (own_cache (cache (io s))));;
  modify (λ s, set_io (set_dir (delete (body_filename (wd s) (rq s))) (io s)) s).

(** ** handle *)

(** How a turn of the loop ends: the thread returns, sleeps, or goes round. *)
Inductive turn := TReturn | TSleep | TNext.

(** Whether a pool refers to the request. *)
Definition in_pool (request : Z) (pools : ThreadPoolMap) : bool :=
  existsb (λ p, existsb (λ t, task_request t =? request) (tasksQueue_ p.2)) pools.

Context (handlerSet_ : list HandlerDescription).

(** The local [buffer] of [handle]: an exception that leaves the block takes the
    last reference to the file with it. *)
Definition with_buffer {A} (path : bytes) (m : M (ThreadPoolMap * rstate CacheState) A) :
    M (ThreadPoolMap * rstate CacheState) A := λ s,
  match m s with
  | (Throw e, s') => (Throw e, (s'.1, set_io (set_dir (delete path) (io s'.2)) s'.2))
  | r => r
  end.
(** The task becomes active and its request is parsed from the file. *)
Definition restore (task : DelayTask) (buffer : DataBuffer) : M (rstate CacheState) unit :=
  (if isNil buffer then mret () else on_io (activate task));;
  Request.parse buffer.
Definition run_task (request : Z) (task : DelayTask) : M (ThreadPoolMap * rstate CacheState) unit :=
  s ← Prelude.get;
  on_request (update_rq (λ _, new_request));;
  buffer ← on_request (on_system (λ c, c) (λ c _, c) (createFileBuffer (task_key task)));
  with_buffer (cache_dir_ (cache (io s.2)) ++ task_key task)
    (on_request (restore task buffer);; Server_handleRequest handlerSet_ request).
(** The end of the scope of the task. *)
Definition release_task (request : Z) : M (ThreadPoolMap * rstate CacheState) unit :=
  s ← Prelude.get;
  if in_pool request s.1 then mret () else on_request drop_request.

(** One turn of the loop of [handle]; the request is new, at address [request]. *)
Definition handle_turn (request : Z) : M (ThreadPoolMap * rstate CacheState) turn :=
  s ← Prelude.get;
  if stopped_ (cache (io s.2)) then mret TReturn
  else
    next ← on_request (on_io next_task);
    match next with
    | None => mret TSleep
    | Some task =>
        catch (scoped (run_task request task) (release_task request)) (λ _, mret ());;
        mret TNext
    end.
End cached.

(** ** The constructor *)
Definition FileRequestCache_make (config : Config) (componentXPath : bytes) : outcome FileRequestCache :=
  dir ← asStringDef config (componentXPath ++ str "/cache-dir") (str "/var/cache/fastcgi-daemon/request-cache/");
  if Range.empty dir then Throw (RuntimeError (str "Empty cache directory"))
  else
    let dir := if bool_decide (List.last dir Byte.x00 = "/"%byte) then dir else dir ++ str "/" in
    window ← asIntDef config (componentXPath ++ str "/file-window") (1024 * 1024);
    retries ← asIntDef config (componentXPath ++ str "/max-retries") 2;
    post ← asIntDef config (componentXPath ++ str "/min-post-size") (1024 * 1024);
    Ret (MkFileRequestCache dir (u64 window) (u32 retries) (u32 post) [] [] false).

(** Run a read of the state that comes first. *)
Ltac run_get :=
  match goal with
  | |- context [(Prelude.get ≫= ?f) ?s] => change ((Prelude.get ≫= f) s) with (f s s); cbn beta
  end.

(** * The queue of waiting requests *)

(** ** Specification

    A bag of tasks with the times they are due at, in the order they were put
    in.  What is taken is due, is the earliest, and of the earliest the one
    that was put in first. *)
Definition delay_queue : Type := list (Z * DelayTask).
Inductive queue_event :=
| Put (due : Z) (task : DelayTask)
| Took (now : Z) (task : DelayTask)
| Idle (now : option Z).
Inductive queue_step : delay_queue → queue_event → delay_queue → Prop :=
| step_put q due task : queue_step q (Put due task) (q ++ [(due, task)])
| step_took q1 q2 due task now :
    due <= now → Forall (λ e, due < e.1) q1 → Forall (λ e, due <= e.1) q2 →
    queue_step (q1 ++ (due, task) :: q2) (Took now task) (q1 ++ q2)
| step_empty : queue_step [] (Idle None) []
| step_early q now : Forall (λ e, now < e.1) q → queue_step q (Idle (Some now)) q.
Inductive queue_run : delay_queue → list queue_event → delay_queue → Prop :=
| queue_nil q : queue_run q [] q
| queue_cons q e q1 es q2 : queue_step q e q1 → queue_run q1 es q2 → queue_run q (e :: es) q2.

(** ** What the code does to the queue *)
Inductive queue_call := QPut (delay : Z) (key : bytes) (retries : Z) | QNext.
Section queue.
Context `{CacheSystem}.

(** A call, and what it is in the specification, by the clock. *)
Definition run_call (c : queue_call) : M CacheState queue_event := s ← Prelude.get;
  match c with
  | QPut delay key retries =>
      insertWaiting delay key retries;; mret (Put (delay + clock (ticks s)) (MkDelayTask key retries))
  | QNext =>
      next ← next_task;
      mret (match next, waiting_ (cache s) with
            | Some task, _ => Took (clock (ticks s)) task
            | None, [] => Idle None
            | None, _ => Idle (Some (clock (ticks s)))
            end)
  end.
Fixpoint run_calls (l : list queue_call) : M CacheState (list queue_event) :=
  match l with
  | [] => mret []
  | c :: l => e ← run_call c; es ← run_calls l; mret (e :: es)
  end.

Lemma time_add_ok a b : -2 ^ 62 <= a < 2 ^ 62 → 0 <= b < 2 ^ 62 → time_add a b = Ret (a + b).
Proof. intros. unfold time_add. case_if; [done|lia]. Qed.

(** The multimap that holds a bag. *)
Definition by_time (q : delay_queue) : list (Z * DelayTask) :=
  foldl (λ m e, mm_insert e.1 e.2 m) [] q.

Lemma by_time_snoc q e : by_time (q ++ [e]) = mm_insert e.1 e.2 (by_time q).
Proof. unfold by_time. by rewrite foldl_app. Qed.

Lemma elem_of_mm_insert {A} k (v : A) m e : e ∈ mm_insert k v m ↔ e = (k, v) ∨ e ∈ m.
Proof.
  induction m as [|[k' v'] m IH]; simpl; [by rewrite list_elem_of_singleton, elem_of_nil; tauto|].
  case_if; rewrite ?elem_of_cons, ?IH; tauto.
Qed.

Lemma elem_of_by_time q e : e ∈ by_time q ↔ e ∈ q.
Proof.
  induction q as [|[k v] q IH] using rev_ind; [done|].
  rewrite by_time_snoc, elem_of_mm_insert, elem_of_app, list_elem_of_singleton, IH. simpl. tauto.
Qed.

(** Taking the first element of the multimap. *)
Lemma by_time_first q1 q2 t task :
  Forall (λ e, t < e.1) q1 → Forall (λ e, t <= e.1) q2 →
  by_time (q1 ++ (t, task) :: q2) = (t, task) :: by_time (q1 ++ q2).
Proof.
  intros H1. induction q2 as [|e q2 IH] using rev_ind; intros H2.
  - rewrite app_nil_r, by_time_snoc. cbn [fst snd].
    assert (Forall (λ e, t < e.1) (by_time q1)) as Hf
      by (rewrite Forall_forall in *; intros e He; apply H1; by apply elem_of_by_time).
    destruct (by_time q1) as [|[t' v'] m]; [done|]. apply Forall_cons in Hf as [Hlt _]. simpl in *.
    by replace (t <? t') with true by lia.
  - apply Forall_app in H2 as [H2 He]. apply Forall_cons in He as [He _].
    rewrite app_comm_cons, !app_assoc, !by_time_snoc, IH by done. simpl.
    by replace (e.1 <? t) with false by lia.
Qed.

(** The first element is the earliest, and of the earliest the oldest. *)
Lemma by_time_inv q t task m :
  by_time q = (t, task) :: m →
  ∃ q1 q2, q = q1 ++ (t, task) :: q2 ∧ Forall (λ e, t < e.1) q1 ∧ Forall (λ e, t <= e.1) q2 ∧
           m = by_time (q1 ++ q2).
Proof.
  revert t task m. induction q as [|[k v] q IH] using rev_ind; intros t task m; [done|].
  rewrite by_time_snoc. cbn [fst snd]. destruct (by_time q) as [|[t' v'] m'] eqn:E.
  - intros [= -> -> <-]. exists [], []. destruct q as [|e q]; [by repeat constructor|].
    assert (e ∈ by_time (e :: q)) as He by (apply elem_of_by_time; by left).
    rewrite E in He. by apply elem_of_nil in He.
  - destruct (IH _ _ _ eq_refl) as (q1 & q2 & -> & H1 & H2 & ->). simpl. case_if; intros [= -> -> <-].
    + exists (q1 ++ (t', v') :: q2), []. rewrite app_nil_r. split_and!; [done| |done|].
      * apply Forall_app. split; [eapply Forall_impl; [exact H1|]; simpl; lia|].
        constructor; [done|]. eapply Forall_impl; [exact H2|]. intros ? ?; simpl in *; lia.
      * by rewrite by_time_first.
    + exists q1, (q2 ++ [(k, v)]). split_and!; [by rewrite <- app_assoc|done| |].
      * apply Forall_app. split; [done|]. by repeat constructor.
      * by rewrite app_assoc, by_time_snoc.
Qed.

Lemma run_call_ok c s q :
  waiting_ (cache s) = by_time q → (∀ n, 0 <= clock n < 2 ^ 62) →
  match c with QPut delay _ _ => -2 ^ 62 <= delay < 2 ^ 62 | QNext => True end →
  ∃ e s' q', run_call c s = (Ret e, s') ∧ queue_step q e q' ∧ waiting_ (cache s') = by_time q'.
Proof.
  intros Hw Hc Hr. destruct c as [delay key retries|]; cbn beta iota in Hr.
  - unfold run_call, insertWaiting, time, lift, modify, mbind, M_bind, Prelude.get. cbn beta iota.
    rewrite time_add_ok by done.
    do 2 eexists. exists (q ++ [(delay + clock (ticks s), MkDelayTask key retries)]).
    split_and!; [reflexivity|constructor|]. cbn. by rewrite Hw, by_time_snoc.
  - unfold run_call, next_task, mbind, M_bind, Prelude.get, mret, M_ret, time, modify. rewrite Hw.
    destruct (by_time q) as [|[t task] m] eqn:E.
    + do 2 eexists. exists q. split_and!; [reflexivity| |congruence].
      destruct q as [|e q]; [constructor|]. exfalso.
      assert (e ∈ by_time (e :: q)) as He by (apply elem_of_by_time; by left). rewrite E in He.
      by apply elem_of_nil in He.
    + destruct (by_time_inv _ _ _ _ E) as (q1 & q2 & -> & H1 & H2 & ->). case_if.
      * do 2 eexists. eexists. split_and!; [reflexivity| |cbn; by rewrite Hw, E]. apply step_early.
        apply Forall_app. split; [eapply Forall_impl; [exact H1|]; intros ? ?; simpl in *; lia|].
        constructor; [done|]. eapply Forall_impl; [exact H2|]. intros ? ?; simpl in *; lia.
      * do 2 eexists. exists (q1 ++ q2). split_and!; [reflexivity|by constructor|done].
Qed.
End queue.

(** A clock that goes on by a second at every reading, and a cache that begins. *)
Definition test_system : CacheSystem := {| clock n := Z.of_nat (Nat.min n 1000); link_error _ _ := false; MD5 d := d |}.
Definition test_cache : FileRequestCache := MkFileRequestCache (str "/c/") 4096 2 10 [] [] false.
Definition test_state : CacheState := MkCacheState test_cache ∅ ∅ 0.

(** * Properties *)

(** C14: The multimap of waiting requests implements the queue of the specification:
    whatever is put in and taken out, and however the clock runs, every call is
    a step of the specification; so a request is taken not before its time, the
    earliest first, and of those of one time the one that was put in first, and
    the thread sleeps only when no request is due. *)
Theorem waiting_refines_queue `{CacheSystem} (l : list queue_call) (s : CacheState) (q : delay_queue) :
  waiting_ (cache s) = by_time q → (∀ n, 0 <= clock n < 2 ^ 62) →
  Forall (λ c, match c with QPut delay _ _ => -2 ^ 62 <= delay < 2 ^ 62 | QNext => True end) l →
  ∃ es s' q', run_calls l s = (Ret es, s') ∧ queue_run q es q' ∧ waiting_ (cache s') = by_time q'.
Proof.
  intros Hw Hc Hl. revert s q Hw. induction Hl as [|c l Hr Hl IH]; intros s q Hw.
  { exists [], s, q. split_and!; [done|constructor|done]. }
  destruct (run_call_ok c s q Hw Hc Hr) as (e & s1 & q1 & E1 & Hs & Hw1).
  destruct (IH s1 q1 Hw1) as (es & s2 & q2 & E2 & Hrun & Hw2).
  exists (e :: es), s2, q2. split_and!; [|by econstructor|done].
  cbn [run_calls]. unfold mbind, M_bind. by rewrite E1, E2.
Qed.

Lemma waiting_refines_queue_witness : ∃ es s' q',
  @run_calls test_system
    [QPut 5 (str "a") 1; QPut 1 (str "b") 1; QPut 0 (str "c") 1; QNext; QNext; QNext; QNext] test_state
    = (Ret es, s') ∧ queue_run [] es q' ∧ waiting_ (cache s') = by_time q' ∧
  omap (λ e, match e with Took _ t => Some (task_key t) | _ => None end) es = [str "b"; str "c"; str "a"].
Proof.
  destruct (@waiting_refines_queue test_system
    [QPut 5 (str "a") 1; QPut 1 (str "b") 1; QPut 0 (str "c") 1; QNext; QNext; QNext; QNext] test_state [])
    as (es & s' & q' & E & Hq & Hw).
  - reflexivity.
  - intros n. cbn. lia.
  - repeat constructor; lia.
  - exists es, s', q'. split_and!; [exact E|exact Hq|exact Hw|].
    revert E. vm_compute. by intros [= <- _].
Defined.
