(* ===== verification/CacheSteps.v ===== *)
(** * The life of the requests of the file cache

    The methods of [FileCache] as steps on the maps of the cache: the maps stay
    well-formed, and a request is tried again a bounded number of times. *)
From S2P Require Import Prelude CLib Range Util Containers Buffer FileBuffer DataBuffer BufferUtil.
From S2P Require Import HttpDate Cookie RequestState Parser Serialize RequestImpl Request HandlerSet ThreadPool Globals Server FileCache.

(** * The steps of the cache

    ** Specification *)

(** What the methods do to the maps, one after the other; [fl] holds the tasks
    that are taken from the queue and not active yet. *)
Inductive cache_event := Quiet | NewRequest | HandedOut (task : DelayTask).
Definition cstate : Type := FileRequestCache * list DelayTask.
Definition erased (key : bytes) (c : FileRequestCache) : FileRequestCache :=
  set_active (map_erase key (active_ c)) c.
Definition delayed (t : Z) (key : bytes) (n : Z) (c : FileRequestCache) : FileRequestCache :=
  set_waiting (mm_insert t (MkDelayTask key n) (waiting_ c)) c.
Definition started (key : bytes) (n : Z) (c : FileRequestCache) : FileRequestCache :=
  set_active (map_insert key n (active_ c)) c.

Inductive cache_step : cstate → cache_event → cstate → Prop :=
| cs_none c fl : cache_step (c, fl) Quiet (c, fl)
| cs_create c fl key : cache_step (c, fl) NewRequest (started key 0 c, fl)
| cs_erase c fl key : cache_step (c, fl) Quiet (erased key c, fl)
| cs_first c fl t key : 0 < max_retries_ c → cache_step (c, fl) NewRequest (delayed t key 1 c, fl)
| cs_again c fl t key new_key n :
    map_find key (active_ c) = Some n → n < max_retries_ c →
    cache_step (c, fl) Quiet (delayed t new_key (n + 1) (erased key c), fl)
| cs_take c fl t task rest :
    waiting_ c = (t, task) :: rest → cache_step (c, fl) (HandedOut task) (set_waiting rest c, fl ++ [task])
| cs_activate c fl1 task fl2 :
    cache_step (c, fl1 ++ task :: fl2) Quiet (started (task_key task) (task_retries task) c, fl1 ++ fl2)
| cs_lose c fl1 task fl2 : cache_step (c, fl1 ++ task :: fl2) Quiet (c, fl1 ++ fl2)
| cs_stop c fl : cache_step (c, fl) Quiet (set_stopped true c, fl).

(** The well-formed caches: every entry has a number of tries in its range, the
    maps are in order. *)
Record cache_wf (s : cstate) : Prop := {
  wf_max : 0 <= max_retries_ s.1 < 2 ^ 31;
  wf_sorted : sorted_map (active_ s.1);
  wf_active : Forall (λ e, 0 <= e.2 <= max_retries_ s.1) (active_ s.1);
  wf_times : StronglySorted (λ a b, a.1 <= b.1) (waiting_ s.1);
  wf_waiting : Forall (λ e, 1 <= task_retries e.2 <= max_retries_ s.1) (waiting_ s.1);
  wf_flight : Forall (λ t, 1 <= task_retries t <= max_retries_ s.1) s.2;
}.

(** The number of times the requests of the cache can still be handed out. *)
Definition tries_left (s : cstate) : Z :=
  tally (λ e, max_retries_ s.1 - e.2) (active_ s.1) +
  tally (λ e, max_retries_ s.1 - task_retries e.2 + 1) (waiting_ s.1) +
  tally (λ t, max_retries_ s.1 - task_retries t) s.2.
Definition is_new (e : cache_event) : bool := match e with NewRequest => true | _ => false end.
Definition is_handed (e : cache_event) : bool := match e with HandedOut _ => true | _ => false end.

(** Sequences of steps, and the numbers of events. *)
Inductive cache_steps : cstate → list cache_event → cstate → Prop :=
| steps_nil s : cache_steps s [] s
| steps_cons s e s1 es s2 : cache_step s e s1 → cache_steps s1 es s2 → cache_steps s (e :: es) s2.
Definition news (es : list cache_event) : Z := tally (λ e, Z.b2z (is_new e)) es.
Definition handed (es : list cache_event) : Z := tally (λ e, Z.b2z (is_handed e)) es.

(** ** The calls of the methods, by any thread in any order *)
Inductive method :=
| MCreate (self : Z)
| MSave (self : Z) (r : RequestImpl) (delay : Z)
| MNext
| MLoad (i : nat)          (* a task that was taken: its file is opened, it becomes active *)
| MStop
| MOther (w : world) (files : gmap bytes loc).   (* whatever others do to the files *)

Section methods.
Context `{Posix} `{CacheSystem}.

(** The request is stored in the cache and active. *)
Definition is_active (r : RequestImpl) (s : system) : bool :=
  match (getStoredKey r s).1 with
  | Ret key =>
      negb (Range.empty key) && match map_find key (active_ (cache s.2)) with Some _ => true | None => false end
  | _ => false
  end.
Definition load_file (task : DelayTask) : M system unit :=
  buffer ← createFileBuffer (task_key task);
  if isNil buffer then mret () else on_cache (activate task).
Definition exec_method (m : method) (s : system * list DelayTask) : list cache_event * (system * list DelayTask) :=
  match m with
  | MCreate self =>
      match create self s.1 with
      | (Ret _, s') => ([NewRequest], (s', s.2))
      | (_, s') => ([], (s', s.2))
      end
  | MSave self r delay =>
      ([if is_active r s.1 then Quiet else NewRequest], ((save self r delay s.1).2, s.2))
  | MNext =>
      match on_cache next_task s.1 with
      | (Ret (Some task), s') => ([HandedOut task], (s', s.2 ++ [task]))
      | (_, s') => ([], (s', s.2))
      end
  | MLoad i =>
      match s.2 !! i with
      | Some task => ([], ((load_file task s.1).2, delete i s.2))
      | None => ([], s)
      end
  | MStop => ([], ((on_cache stop s.1).2, s.2))
  | MOther w files => ([], ((w, set_dir (λ _, files) s.1.2), s.2))
  end.
Fixpoint exec_methods (l : list method) (s : system * list DelayTask) : list cache_event * (system * list DelayTask) :=
  match l with
  | [] => ([], s)
  | m :: l => let '(es, s1) := exec_method m s in let '(es', s2) := exec_methods l s1 in (es ++ es', s2)
  end.
Definition view (s : system * list DelayTask) : cstate := (cache s.1.2, s.2).
End methods.

(** ** Lemmas *)

Lemma tally_mm_insert {A} (f : Z * A → Z) k v m : tally f (mm_insert k v m) = f (k, v) + tally f m.
Proof.
  induction m as [|[k' v'] m IH]; simpl; [done|]. case_if; simpl; [done|]. rewrite IH. lia.
Qed.

Lemma mm_insert_sorted {A} k (v : A) m :
  StronglySorted (λ a b, a.1 <= b.1) m → StronglySorted (λ a b, a.1 <= b.1) (mm_insert k v m).
Proof.
  induction 1 as [|[k' v'] m Hs IH Hf]; simpl; [repeat constructor|]. case_if.
  - constructor; [by constructor|]. constructor; [simpl; lia|].
    eapply Forall_impl; [exact Hf|]. intros ? ?; simpl in *; lia.
  - constructor; [done|]. rewrite Forall_forall in *. intros e [->|He]%elem_of_mm_insert; [simpl; lia|].
    by apply Hf.
Qed.

Lemma Forall_mm_insert {A} (P : Z * A → Prop) k v m : P (k, v) → Forall P m → Forall P (mm_insert k v m).
Proof. rewrite !Forall_forall. intros Hp Hm e [->|He]%elem_of_mm_insert; auto. Qed.

Section maps.
Context {K : Type} `{StdLess K} {V : Type}.
Implicit Types (m : list (K * V)) (f : K * V → Z).

(** Inserting adds the entry or nothing; erasing removes the entry found. *)
Lemma tally_map_insert f k n m :
  0 <= f (k, n) → tally f (map_insert k n m) <= f (k, n) + tally f m.
Proof.
  intros Hf. induction m as [|[k' v'] m IH]; simpl; [lia|]. repeat case_if; simpl; lia.
Qed.

Lemma tally_map_erase f k m :
  tally f (map_erase k m) = tally f m - from_option (λ n, f (k, n)) 0 (map_find k m).
Proof.
  induction m as [|[k' v'] m IH]; simpl; [done|].
  destruct (less k k') eqn:E1; simpl; [lia|]. destruct (less k' k) eqn:E2; simpl; [rewrite IH; lia|].
  rewrite (less_total k k' E1 E2). lia.
Qed.
Lemma elem_of_map_erase k m e : e ∈ map_erase k m → e ∈ m.
Proof.
  induction m as [|[k' v'] m IH]; simpl; [done|]. repeat case_if; rewrite ?elem_of_cons; tauto.
Qed.

Lemma map_erase_sorted k m : sorted_map m → sorted_map (map_erase k m).
Proof.
  unfold sorted_map. induction 1 as [|[k' v'] m Hs IH Hf]; simpl; [constructor|]. repeat case_if; [by constructor| |done].
  constructor; [done|]. rewrite Forall_forall in *. intros e He. apply Hf. by eapply elem_of_map_erase.
Qed.

Lemma Forall_map_insert (P : K * V → Prop) k v m : P (k, v) → Forall P m → Forall P (map_insert k v m).
Proof. rewrite !Forall_forall. intros Hp Hm e [->|He]%elem_of_map_insert; auto. Qed.

Lemma Forall_map_erase (P : K * V → Prop) k m : Forall P m → Forall P (map_erase k m).
Proof. rewrite !Forall_forall. intros Hm e He. apply Hm. by eapply elem_of_map_erase. Qed.

Lemma map_find_In k v m : map_find k m = Some v → (k, v) ∈ m.
Proof.
  induction m as [|[k' v'] m IH]; simpl; [done|].
  destruct (less k k') eqn:E1; [done|]. destruct (less k' k) eqn:E2; intros Hf; [right; auto|].
  injection Hf as ->. rewrite (less_total k k' E1 E2). left.
Qed.

End maps.

(** Every step keeps the cache well-formed. *)
Lemma cache_step_wf s e s' : cache_step s e s' → cache_wf s → cache_wf s'.
Proof.
  intros Hstep [W1 W2 W3 W4 W5 W6]. destruct Hstep; simpl in *; split; simpl; try done.
  all: try (by apply map_insert_sorted); try (by apply map_erase_sorted); try (by apply Forall_map_erase);
    try (by apply mm_insert_sorted).
  all: rewrite ?Forall_app, ?Forall_cons in *; try (by destruct_and!).
  - apply Forall_map_insert; simpl; [lia|done].
  - apply Forall_mm_insert; simpl; [lia|done].
  - apply Forall_mm_insert; simpl; [|done]. apply map_find_In in H. rewrite Forall_forall in W3.
    specialize (W3 _ H). simpl in W3. lia.
  - rewrite H in W4. by apply StronglySorted_inv in W4 as [? _].
  - rewrite H in W5. by apply Forall_cons in W5 as [_ ?].
  - rewrite H in W5. apply Forall_cons in W5 as [? _]. simpl in *. split_and!; [done|lia|lia|constructor].
  - apply Forall_map_insert; simpl; [lia|done].
Qed.


(** A step uses up a try for each request it hands out, and a new request
    brings [max_retries_] of them. *)
Lemma cache_step_tries s e s' :
  cache_step s e s' → cache_wf s →
  max_retries_ s'.1 = max_retries_ s.1 ∧
  tries_left s' + Z.b2z (is_handed e) <= tries_left s + max_retries_ s.1 * Z.b2z (is_new e).
Proof.
  intros Hstep [W1 W2 W3 W4 W5 W6]. unfold tries_left. destruct Hstep; simpl in *; (split; [done|]);
    rewrite ?tally_mm_insert, ?tally_app, ?tally_map_erase; cbn [fst snd task_retries tally]; try lia.
  - pose proof (tally_map_insert (λ e, max_retries_ c - e.2) key 0 (active_ c)) as Hs. simpl in Hs. lia.
  - destruct (map_find key (active_ c)) as [n|] eqn:E; simpl; [|lia]. apply map_find_In in E.
    rewrite Forall_forall in W3. specialize (W3 _ E). simpl in W3. lia.
  - rewrite H. simpl. lia.
  - rewrite H. simpl. lia.
  - rewrite Forall_app, Forall_cons in W6. destruct_and!.
    pose proof (tally_map_insert (λ e, max_retries_ c - e.2) (task_key task) (task_retries task) (active_ c)) as Hs.
    simpl in Hs. lia.
  - rewrite Forall_app, Forall_cons in W6. destruct_and!. lia.
Qed.

Lemma tries_left_nonneg s : cache_wf s → 0 <= tries_left s.
Proof.
  intros [W1 W2 W3 W4 W5 W6]. unfold tries_left.
  pose proof (tally_nonneg (λ e, max_retries_ s.1 - e.2) (active_ s.1)) as S1.
  pose proof (tally_nonneg (λ e, max_retries_ s.1 - task_retries e.2 + 1) (waiting_ s.1)) as S2.
  pose proof (tally_nonneg (λ t, max_retries_ s.1 - task_retries t) s.2) as S3.
  ospecialize (S1 _); [eapply Forall_impl; [exact W3|]; simpl; lia|].
  ospecialize (S2 _); [eapply Forall_impl; [exact W5|]; simpl; lia|].
  ospecialize (S3 _); [eapply Forall_impl; [exact W6|]; simpl; lia|]. lia.
Qed.

Lemma cache_steps_tries s es s' :
  cache_steps s es s' → cache_wf s →
  cache_wf s' ∧ max_retries_ s'.1 = max_retries_ s.1 ∧
  tries_left s' + handed es <= tries_left s + max_retries_ s.1 * news es.
Proof.
  unfold handed, news. induction 1 as [s|s e s1 es s2 Hs Hss IH]; intros Hw; simpl; [split_and!; [done|done|lia]|].
  destruct (cache_step_tries _ _ _ Hs Hw) as [Hm Ht].
  destruct (IH (cache_step_wf _ _ _ Hs Hw)) as (Hw2 & Hm2 & Ht2). rewrite Hm in *. split_and!; [done|done|lia].
Qed.

(** ** The methods make steps *)

Section method_lemmas.
Context `{Posix} `{CacheSystem}.
Implicit Types (s : system).

(** Keys and files leave the object alone. *)
Lemma generateUniqueKey_keeps self : follows (same_on cache) (generateUniqueKey self).
Proof. unfold generateUniqueKey. follow; intros u; done. Qed.

Lemma on_cache_keeps {A} (m : M CacheState A) :
  follows (same_on cache) m → follows (same_on (λ s : system, cache s.2)) (on_cache m).
Proof. intros Hm. by eapply follows_zoom. Qed.

Lemma on_cache_state {A} (m : M CacheState A) s : (on_cache m s).2.2 = (m s.2).2.
Proof. unfold on_cache, zoom. by destruct (m s.2). Qed.

Lemma on_files_keeps {A} (m : M world A) : follows (same_on (λ s : system, cache s.2)) (on_files m).
Proof. by apply follows_zoom_any. Qed.

Lemma createFileBuffer_keeps key : follows (same_on (λ s : system, cache s.2)) (createFileBuffer key).
Proof.
  unfold createFileBuffer, open_storage. follow; apply on_files_keeps.
Qed.

Lemma createHardLink_keeps self key : follows (same_on cache) (createHardLink self key).
Proof. unfold createHardLink, link. follow; apply generateUniqueKey_keeps. Qed.

Lemma getKey_keeps self r : follows (same_on (λ s : system, cache s.2)) (getKey self r).
Proof. unfold getKey, getStoredKey. follow. apply on_cache_keeps, generateUniqueKey_keeps. Qed.

Lemma saveRequest_keeps self r key : follows (same_on (λ s : system, cache s.2)) (saveRequest self r key).
Proof.
  unfold saveRequest. follow; try apply createFileBuffer_keeps; try apply on_cache_keeps, createHardLink_keeps.
  intros s. unfold with_file.
  assert (follows (same_on (λ s : system, cache s.2)) (on_files (Serialize.serialize r a0);;
    new_key ← on_cache (createHardLink self key); mret (negb (Range.empty new_key), new_key))) as Hf
    by (follow; [apply on_files_keeps|apply on_cache_keeps, createHardLink_keeps]).
  specialize (Hf s). unfold same_on in *. by lazymatch goal with |- context [let '(_, _) := ?x in _] => destruct x end.
Qed.

Lemma insertWaiting_cases delay key n (c : CacheState) :
  cache (insertWaiting delay key n c).2 = cache c ∨
  ∃ t, cache (insertWaiting delay key n c).2 = delayed t key n (cache c).
Proof.
  unfold insertWaiting, mbind, M_bind, time, lift, modify. destruct (time_add _ _) as [t|e| |]; eauto.
Qed.

Lemma getStoredKey_state r s : (getStoredKey r s).2 = s.
Proof. unfold getStoredKey, mbind, M_bind, Prelude.get. by case_if. Qed.

(** The key of a request that is stored is its own. *)
Lemma getKey_stored self r s key s1 :
  is_active r s = true → getKey self r s = (Ret key, s1) → map_find key (active_ (cache s1.2)) ≠ None.
Proof.
  unfold is_active, getKey, mbind, M_bind. intros Ha. pose proof (getStoredKey_state r s) as Hs.
  destruct (getStoredKey r s) as [[k|e| |] s']; simpl in *; subst s'; try done.
  destruct (Range.empty k); [done|]. simpl in Ha. intros [= <- <-]. by destruct (map_find k _).
Qed.

Lemma to_int_small n : 0 <= n < 2 ^ 31 → to_int n = n.
Proof. intros. unfold to_int. rewrite (wrap_small 32) by lia. by replace (n <? 2 ^ 31) with true by lia. Qed.

(** Saving [r] takes the maps of [s] to [c'], and counts it as new only when it
    is not active. *)
Definition saves r s fl (c' : FileRequestCache) : Prop :=
  ∃ tr, cache_steps (cache s.2, fl) tr (c', fl) ∧ news tr <= Z.b2z (negb (is_active r s)) ∧ handed tr = 0.

Lemma saves_one r s fl e c' :
  cache_step (cache s.2, fl) e (c', fl) → is_handed e = false →
  (is_new e = true → is_active r s = false) → saves r s fl c'.
Proof.
  intros Hs He Hn. exists [e]. unfold news, handed. simpl. rewrite He.
  split_and!; [by econstructor; [|constructor]| |done].
  destruct (is_new e); [by rewrite Hn|]. by destruct (is_active r s).
Qed.

Lemma saves_nothing r s fl : saves r s fl (cache s.2).
Proof. by eapply saves_one; [constructor|..]. Qed.
Lemma saves_erase r s fl key : saves r s fl (erased key (cache s.2)).
Proof. by eapply saves_one; [apply (cs_erase _ _ key)|..]. Qed.

(** Another try of an active request. *)
Lemma save_again self r delay key n s s1 fl :
  cache s1.2 = cache s.2 → map_find key (active_ (cache s.2)) = Some n →
  0 <= n < max_retries_ (cache s.2) → max_retries_ (cache s.2) < 2 ^ 31 →
  saves r s fl (cache (('(ok, new_key) ← saveRequest self r key;
    on_cache (eraseActive key);;
    if ok : bool then on_cache (insertWaiting delay new_key (to_int (n + 1))) else mret ()) s1).2.2).
Proof.
  intros Hk Ef Hn Hm. pose proof (saveRequest_keeps self r key s1) as Hr. unfold mbind at 1, M_bind at 1.
  destruct (saveRequest self r key s1) as [[[ok nk]|e| |] s2]; unfold same_on in Hr; simpl in Hr; cbn beta iota;
    [|by cbn [snd]; rewrite Hr, Hk; apply saves_nothing..].
  rewrite Hk in *. destruct ok.
  - lazymatch goal with |- context [(on_cache (eraseActive key) ≫= ?k) s2] =>
      change ((on_cache (eraseActive key) ≫= k) s2) with (k () (s2.1, set_cache (erased key) s2.2)) end.
    cbn beta iota. rewrite on_cache_state. cbn [snd].
    destruct (insertWaiting_cases delay nk (to_int (n + 1)) (set_cache (erased key) s2.2)) as [->|[t ->]];
      cbn [cache set_cache]; rewrite Hr; [apply saves_erase|].
    rewrite to_int_small by lia. by eapply saves_one; [apply (cs_again _ _ t key nk n); [done|lia]|..].
  - change ((on_cache (eraseActive key);; mret ()) s2)
      with (Ret () : outcome (), (s2.1, set_cache (erased key) s2.2)).
    cbn [snd cache set_cache]. rewrite Hr. apply saves_erase.
Qed.

(** The first try of a request that is not active. *)
Lemma save_first self r delay key s s1 fl :
  cache s1.2 = cache s.2 → 0 < max_retries_ (cache s.2) → is_active r s = false →
  saves r s fl (cache (('(ok, new_key) ← saveRequest self r key;
    if ok : bool then on_cache (insertWaiting delay new_key 1) else mret ()) s1).2.2).
Proof.
  intros Hk Hm Hact. pose proof (saveRequest_keeps self r key s1) as Hr. unfold mbind at 1, M_bind at 1.
  destruct (saveRequest self r key s1) as [[[ok nk]|e| |] s2]; unfold same_on in Hr; simpl in Hr; cbn beta iota;
    [|by cbn [snd]; rewrite Hr, Hk; apply saves_nothing..].
  rewrite Hk in *. destruct ok; [|cbn; rewrite Hr; apply saves_nothing].
  rewrite on_cache_state. destruct (insertWaiting_cases delay nk 1 s2.2) as [->|[t ->]]; rewrite Hr; [apply saves_nothing|].
  by eapply saves_one; [apply (cs_first _ _ t nk)|..].
Qed.

(** What [save] does to the maps. *)
Lemma save_steps self r delay s fl :
  cache_wf (cache s.2, fl) → saves r s fl (cache (save self r delay s).2.2).
Proof.
  intros [W1 _ W3 _ _ _]. simpl in *. unfold save. run_get. case_if.
  - pose proof (getStoredKey_state r s) as Hs. unfold mbind, M_bind.
    destruct (getStoredKey r s) as [[key|e| |] s1]; simpl in Hs; subst s1; try apply saves_nothing.
    destruct (negb (Range.empty key)); [apply saves_erase|apply saves_nothing].
  - pose proof (getKey_keeps self r s) as Hk. unfold mbind at 1, M_bind at 1.
    destruct (getKey self r s) as [[key|e| |] s1] eqn:Ek; unfold same_on in Hk; simpl in Hk; cbn beta iota;
      [|by cbn [snd]; rewrite Hk; apply saves_nothing..].
    run_get. destruct (map_find key (active_ (cache s1.2))) as [n|] eqn:Ef.
    + rewrite Hk in Ef. pose proof (map_find_In _ _ _ Ef) as Hin. rewrite Forall_forall in W3.
      specialize (W3 _ Hin). simpl in W3. rewrite (wrap_small 32) by lia. case_if.
      * rewrite on_cache_state. cbn. rewrite Hk. apply saves_erase.
      * rewrite Hk in Hif. by apply save_again; [|..|lia|lia].
    + apply save_first; [done|lia|]. destruct (is_active r s) eqn:Ea; [|done].
      destruct (getKey_stored _ _ _ _ _ Ea Ek Ef).
Qed.

Lemma create_steps self s fl :
  match create self s with
  | (Ret _, s') => ∃ tr, cache_steps (cache s.2, fl) tr (cache s'.2, fl) ∧ news tr <= 1 ∧ handed tr = 0
  | (_, s') => cache s'.2 = cache s.2
  end.
Proof.
  unfold create. pose proof (on_cache_keeps _ (generateUniqueKey_keeps self) s) as Hk. unfold mbind at 1, M_bind at 1.
  destruct (on_cache _ s) as [[key|e| |] s1]; unfold same_on in Hk; simpl in Hk; try done.
  pose proof (createFileBuffer_keeps key s1) as Hb. unfold mbind at 1, M_bind at 1.
  destruct (createFileBuffer key s1) as [[b|e| |] s2]; unfold same_on in Hb; simpl in Hb; rewrite Hk in Hb; try done.
  destruct (isNil b); unfold on_cache, zoom, modify, mbind, M_bind, mret, M_ret; cbn beta iota; cbn [snd cache set_cache].
  - exists []. rewrite Hb. split_and!; [constructor|done|done].
  - exists [NewRequest]. rewrite Hb. split_and!; [|done|done].
    econstructor; [apply (cs_create _ _ key)|]. constructor.
Qed.

Lemma load_steps task s fl1 fl2 :
  ∃ tr, cache_steps (cache s.2, fl1 ++ task :: fl2) tr (cache (load_file task s).2.2, fl1 ++ fl2) ∧
        news tr = 0 ∧ handed tr = 0.
Proof.
  exists [Quiet]. split_and!; [|done|done]. econstructor; [|constructor].
  unfold load_file. pose proof (createFileBuffer_keeps (task_key task) s) as Hb. unfold mbind, M_bind.
  destruct (createFileBuffer _ s) as [[b|e| |] s1]; unfold same_on in Hb; simpl in Hb; cbn [snd];
    [|rewrite Hb; apply cs_lose..].
  destruct (isNil b); [cbn; rewrite Hb; apply cs_lose|]. rewrite on_cache_state. cbn. rewrite Hb. apply cs_activate.
Qed.

Lemma next_task_cases (c : CacheState) :
  ∃ c', (next_task c = (Ret None, c') ∧ cache c' = cache c) ∨
    ∃ t task rest, next_task c = (Ret (Some task), c') ∧ waiting_ (cache c) = (t, task) :: rest ∧
      cache c' = set_waiting rest (cache c).
Proof.
  unfold next_task. run_get. destruct (waiting_ (cache c)) as [|[t task] rest]; [by exists c; left|].
  unfold mbind, M_bind, time. destruct (clock (ticks c) <? t); eexists; [by left|right].
  exists t, task, rest. done.
Qed.

(** A call of a method is a sequence of steps with the events it reports. *)
Lemma exec_method_steps m (s : system * list DelayTask) :
  cache_wf (view s) →
  ∃ tr, cache_steps (view s) tr (view (exec_method m s).2) ∧
        news tr <= news (exec_method m s).1 ∧ handed tr = handed (exec_method m s).1.
Proof.
  intros Hw. destruct s as [s fl]. unfold view in *. cbn [fst snd] in *. destruct m; cbn [exec_method fst snd].
  - pose proof (create_steps self s fl) as Hc. destruct (create self s) as [[b|e| |] s']; cbn [fst snd].
    + destruct Hc as (tr & H1' & H2' & H3'). by exists tr.
    + rewrite Hc. exists []. split_and!; [constructor|done|done].
    + rewrite Hc. exists []. split_and!; [constructor|done|done].
    + rewrite Hc. exists []. split_and!; [constructor|done|done].
  - destruct (save_steps self r delay s fl Hw) as (tr & H1' & H2' & H3'). exists tr. split_and!; [done| |].
    + destruct (is_active r s); exact H2'.
    + rewrite H3'. by destruct (is_active r s).
  - unfold on_cache, zoom. destruct (next_task_cases s.2) as (c' & [[-> Hc]|(t & task & rest & -> & E & Hc)]);
      cbn [fst snd]; rewrite Hc.
    + exists []. split_and!; [constructor|done|done].
    + exists [HandedOut task]. split_and!; [|done|done]. econstructor; [by eapply cs_take|constructor].
  - destruct (fl !! i) as [task|] eqn:E; cbn [fst snd].
    + apply take_drop_middle in E as Hfl. rewrite delete_take_drop.
      destruct (load_steps task s (take i fl) (drop (S i) fl)) as (tr & H1' & H2' & H3').
      rewrite Hfl in H1'. exists tr. by rewrite H2', H3'.
    + exists []. split_and!; [constructor|done|done].
  - exists [Quiet]. split_and!; [|done|done]. econstructor; [apply cs_stop|constructor].
  - exists []. split_and!; [constructor|done|done].
Qed.

Lemma cache_steps_app (x y z : cstate) tr1 tr2 :
  cache_steps x tr1 y → cache_steps y tr2 z → cache_steps x (tr1 ++ tr2) z.
Proof. induction 1; simpl; [done|]. intros. econstructor; eauto. Qed.

Lemma exec_methods_steps l (s : system * list DelayTask) :
  cache_wf (view s) →
  ∃ tr, cache_steps (view s) tr (view (exec_methods l s).2) ∧
        news tr <= news (exec_methods l s).1 ∧ handed tr = handed (exec_methods l s).1.
Proof.
  revert s. induction l as [|m l IH]; intros s Hw; cbn [exec_methods]; [exists []; split_and!; [constructor|done|done]|].
  destruct (exec_method_steps m s Hw) as (tr & E1 & E2 & E3).
  destruct (exec_method m s) as [es s1]; cbn [fst snd] in *.
  destruct (cache_steps_tries _ _ _ E1 Hw) as [Hw1 _]. destruct (IH s1 Hw1) as (tr2 & F1 & F2 & F3).
  destruct (exec_methods l s1) as [es2 s2]; cbn [fst snd] in *. exists (tr ++ tr2).
  split_and!; [by eapply cache_steps_app| |]; unfold news, handed in *; rewrite !tally_app; lia.
Qed.
End method_lemmas.

(** * Properties *)

(** A cache as the constructor makes it. *)
Definition empty_cache (c : FileRequestCache) : Prop :=
  waiting_ c = [] ∧ active_ c = [] ∧ 0 <= max_retries_ c < 2 ^ 31.

(** A request that always asks to be tried again; it is handed out twice. *)
Definition stored_request (l : positive) : RequestImpl := set_body new_request (MkDataBuffer (Some l) 0 0).
Definition again_and_again : list method :=
  [MSave 7 new_request 1; MNext; MNext; MLoad 0; MSave 7 (stored_request 2) 1; MNext; MNext; MLoad 0;
   MSave 7 (stored_request 3) 1; MNext; MNext].

(** C15: However the methods of the cache are called and whatever others do to the
    files, the maps stay well-formed: keys in order, times in order, and every
    request with a number of tries between 0 (1 when it waits) and
    [max_retries_], so that the [int]s and [unsigned]s that hold it agree. *)
Theorem cache_typed `{Posix} `{CacheSystem} (l : list method) (s : system) :
  empty_cache (cache s.2) → cache_wf (view (exec_methods l (s, [])).2).
Proof.
  intros (E1 & E2 & Hm). assert (cache_wf (view (s, []))) as Hw.
  { unfold view. split; cbn [fst snd]; rewrite ?E1, ?E2; try done; constructor. }
  destruct (exec_methods_steps l (s, []) Hw) as (tr & Hs & _). by apply (cache_steps_tries _ _ _ Hs Hw).
Qed.

Lemma cache_typed_witness :
  cache_wf (view (@exec_methods small_machine test_system again_and_again ((empty_world, test_state), [])).2) ∧
  ticks (@exec_methods small_machine test_system again_and_again ((empty_world, test_state), [])).2.1.2 = 8%nat.
Proof.
  split; [|vm_compute; reflexivity].
  apply (@cache_typed small_machine test_system again_and_again (empty_world, test_state)).
  split; [reflexivity|split; [reflexivity|vm_compute; split; [discriminate|reflexivity]]].
Defined.


