(* ===== verification/CacheRequest.v ===== *)
(** * What the file cache keeps of a request

    A request that is saved and loaded again is the same request; the keys that
    name its files are distinct. *)
From S2P Require Import Prelude CLib Range Util Containers Buffer FileBuffer DataBuffer BufferUtil.
From S2P Require Import HttpDate Cookie RequestState Parser Serialize RequestImpl Request HandlerSet ThreadPool Globals Server FileCache CacheSteps.

(** * A request in a file *)
Section files.
Context `{PosixOk} `{CacheSystem}.
Implicit Types (w : world) (c : CacheState) (s : system).

(** A buffer that shows all of its storage begins where it begins. *)
Lemma views_all w b v l d k : views w b v → data_ b = Some l → holds w l d k v → begin_ b = 0.
Proof.
  unfold views. intros Hv Hl Hh. rewrite Hl in Hv. destruct Hv as (d' & k' & c' & Hh' & H1' & H2' & H3' & Hs).
  destruct (holds_fun _ _ _ _ _ _ _ _ Hh' Hh) as [-> ->].
  apply (f_equal zlen) in Hs. rewrite zlen_slice in Hs by done. lia.
Qed.

(** A buffer on a file shows the file. *)
Lemma open_file_ok name window w d v :
  stores w !! d = Some v → 0 <= window < 2 ^ 61 → zlen v < 2 ^ 62 →
  wp (open_file name window d) w
     (λ b w', views w' b v ∧ begin_ b = 0 ∧ isNil b = false ∧ stored w' b d ∧ wle w w') noexn.
Proof.
  intros Hd Hw Hz. unfold open_file. wp_step. wp_step. rewrite Hd.
  destruct (proj1 (wp_returns _ _ _) (file_open_ok name window v Hw Hz)) as (f & c' & Eo & -> & Hok & _).
  rewrite Eo. cbn [fst]. wp_steps.
  eapply wp_mono; [apply (new_object_ok w (IFile f) d (fb_window_ f) v); [done|by split]| |done].
  intros l w2 (Hh & Hw2 & _). eapply wp_mono; [by eapply create_impl_views| |done].
  intros b w3 (Hv & Hb & Hw3). pose proof (Hw3 _ _ _ _ Hh) as Hh3. split_and!; [done| | | |by etrans].
  - by eapply views_all.
  - unfold isNil. by rewrite Hb.
  - by exists l, (fb_window_ f), v.
Qed.

Definition path_of c (key : bytes) : bytes := cache_dir_ (cache c) ++ key.

(** A file that exists is opened; one that does not is created. *)
Lemma createFileBuffer_old w c key d v :
  dir c !! path_of c key = Some d → stores w !! d = Some v →
  0 <= cache_window_ (cache c) < 2 ^ 61 → zlen v < 2 ^ 62 →
  wp (createFileBuffer key) (w, c)
     (λ b s, s.2 = c ∧ views s.1 b v ∧ begin_ b = 0 ∧ isNil b = false ∧ stored s.1 b d ∧ wle w s.1) noexn.
Proof.
  intros Hp Hd Hw Hz. unfold createFileBuffer, open_storage. do 2 wp_step. rewrite open_succeeds.
  do 3 wp_step. cbn [snd]. unfold path_of in Hp. rewrite Hp. wp_step. apply wp_zoom. cbn [fst snd].
  eapply wp_mono; [by apply open_file_ok| |done]. intros b w' Hb. cbn beta in Hb. by destruct_and!.
Qed.

Lemma createFileBuffer_new w c key :
  dir c !! path_of c key = None → 0 <= cache_window_ (cache c) < 2 ^ 61 →
  wp (createFileBuffer key) (w, c)
     (λ b s, ∃ d, s.2 = set_dir (insert (path_of c key) d) c ∧ views s.1 b [] ∧ begin_ b = 0 ∧
        isNil b = false ∧ stored s.1 b d ∧ wle w s.1 ∧ stores w !! d = None) noexn.
Proof.
  intros Hp Hw. unfold createFileBuffer, open_storage. do 2 wp_step. rewrite open_succeeds.
  do 3 wp_step. cbn [snd]. unfold path_of in Hp. rewrite Hp. wp_step. apply wp_zoom. cbn [fst snd].
  eapply wp_mono; [apply new_storage_ok| |done]. intros d w1 (Hd & Hnone & Hw1). wp_step.
  apply wp_zoom. unfold modify, wp at 1. cbn [fst snd]. wp_step. apply wp_zoom. cbn [fst snd].
  eapply wp_mono; [apply (open_file_ok _ _ w1 d []); done| |done]. intros b w' Hb. cbn beta in Hb.
  destruct_and!. exists d. split_and!; try done. by etrans.
Qed.

(** Keys do not depend on the files. *)
Lemma generateUniqueKey_dir self f c :
  generateUniqueKey self (set_dir f c) =
  ((generateUniqueKey self c).1, set_dir f (generateUniqueKey self c).2).
Proof.
  unfold generateUniqueKey. do 2 run_get. unfold mbind, M_bind, lift, mret, M_ret, time, modify. cbn [key_ids set_dir ticks].
  destruct (key_ids c !! self); cbn; by destruct (KeyId_next _ _).
Qed.
Lemma generateUniqueKey_same self c :
  cache (generateUniqueKey self c).2 = cache c ∧ dir (generateUniqueKey self c).2 = dir c.
Proof.
  unfold generateUniqueKey. run_get. unfold mbind, M_bind, lift, mret, M_ret, time, modify.
  destruct (key_ids c !! self); cbn; by destruct (KeyId_next _ _).
Qed.

(** Linking a file that exists to a name that does not. *)
Lemma createHardLink_ok self c key new_key c2 d :
  generateUniqueKey self c = (Ret new_key, c2) → dir c !! path_of c key = Some d →
  dir c !! path_of c new_key = None → link_error (path_of c key) (path_of c new_key) = false →
  createHardLink self key c = (Ret new_key, set_dir (insert (path_of c new_key) d) c2).
Proof.
  intros Hg Hp Hn Hl. unfold createHardLink. run_get. unfold mbind at 1, M_bind at 1. rewrite Hg.
  pose proof (generateUniqueKey_same self c) as [Ec Ed]. rewrite Hg in Ec, Ed. cbn [snd] in Ec, Ed.
  unfold link. unfold mbind at 1, M_bind at 1. unfold path_of in *. run_get. rewrite Ed, Hp, Hn, Hl. done.
Qed.

(** A request whose body is not in the cache is written to a file that is known
    by its new name only. *)
Lemma saveRequest_ok self w c r vb key new_key c2 :
  request_wf w r vb → zlen (image r vb) < 2 ^ 62 → 0 <= cache_window_ (cache c) < 2 ^ 61 →
  Range.empty (body_filename w r) || negb (in_cache_dir (cache c) (body_filename w r)) = true →
  generateUniqueKey self c = (Ret new_key, c2) → new_key ≠ [] → path_of c key ≠ path_of c new_key →
  dir c !! path_of c key = None → dir c !! path_of c new_key = None →
  link_error (path_of c key) (path_of c new_key) = false →
  wp (saveRequest self r key) (w, c) (λ p s, p = (true, new_key) ∧
    ∃ d, s.2 = set_dir (λ _, <[path_of c new_key := d]> (dir c)) c2 ∧ stores s.1 !! d = Some (image r vb)) noexn.
Proof.
  intros Hr Hz Hw Hb Hg Hne Hpp Hp Hn Hl. pose proof Hr as (_ & _ & _ & _ & _ & Hvb).
  unfold saveRequest. do 2 wp_step. cbn [fst snd]. rewrite Hb. wp_step.
  eapply wp_mono; [by apply createFileBuffer_new| |done].
  intros b [w1 c1] (d & E1 & Hv1 & Hb1 & Hn1 & Hst1 & Hw1 & Hd). cbn [fst snd] in *. subst c1. rewrite Hn1.
  assert (separate w1 (body_ r) d) as Hsep.
  { intros l2 d2 k v2 Hl2 Hh2. unfold views in Hvb. rewrite Hl2 in Hvb. destruct Hvb as (d0 & k0 & v0 & Hh0 & _).
    destruct (holds_fun _ _ _ _ _ _ _ _ Hh2 (Hw1 _ _ _ _ Hh0)) as [-> _].
    destruct Hh0 as (i & _ & Hst & _). congruence. }
  destruct (proj1 (wp_returns _ _ _) (serialize_ok w1 r b [] d vb Hv1 Hst1 Hb1
    (views_mono _ _ _ _ Hw1 Hvb) Hsep Hz)) as (b' & w2 & E2 & Hv2 & _ & Hb2 & _ & _ & Hst2 & Hf2).
  pose proof (createHardLink_ok self (set_dir (insert (path_of c key) d) c) key new_key
    (set_dir (insert (path_of c key) d) c2) d) as Hlk.
  rewrite generateUniqueKey_dir, Hg in Hlk. unfold path_of in Hlk. cbn [fst snd cache dir set_dir] in Hlk.
  fold (path_of c key) (path_of c new_key) in Hlk. specialize (Hlk eq_refl).
  rewrite lookup_insert_eq, lookup_insert_ne in Hlk by done. specialize (Hlk eq_refl Hn Hl).
  pose proof (generateUniqueKey_same self c) as [Ec Ed]. rewrite Hg in Ec, Ed. cbn [snd] in Ec, Ed.
  unfold wp, with_file, on_files, on_cache, zoom, mbind, M_bind. cbn [fst snd]. rewrite E2. cbn [fst snd].
  rewrite Hlk. cbn. split.
  - by destruct new_key.
  - exists d. split; [|by eapply filled_contents]. unfold set_dir. cbn. rewrite Ed. f_equal.
    fold (path_of c key). rewrite insert_insert_ne by done. rewrite delete_insert_id; [done|].
    by rewrite lookup_insert_ne.
Qed.
End files.

Section saving.
Context `{PosixOk} `{HashOrder} `{CacheSystem}.
Implicit Types (w : world) (c : CacheState).

(** No file and no active request has this key. *)
Definition unused c (key : bytes) : Prop :=
  dir c !! path_of c key = None ∧ map_find key (active_ (cache c)) = None.
(** The body of [r] is not a file of the cache. *)
Definition body_outside w c (r : RequestImpl) : Prop :=
  Range.empty (body_filename w r) || negb (in_cache_dir (cache c) (body_filename w r)) = true.
(** In [t] the file is as it is in [s], and the cache looks for it there. *)
Definition keeps_file (key : bytes) (s t : system) : Prop :=
  cache_dir_ (cache t.2) = cache_dir_ (cache s.2) ∧ cache_window_ (cache t.2) = cache_window_ (cache s.2) ∧
  dir t.2 !! path_of t.2 key = dir s.2 !! path_of s.2 key ∧
  ∀ d, dir s.2 !! path_of s.2 key = Some d → stores t.1 !! d = stores s.1 !! d.

Lemma getKey_outside self w c r :
  body_outside w c r →
  getKey self r (w, c) = ((generateUniqueKey self c).1, (w, (generateUniqueKey self c).2)).
Proof.
  unfold body_outside. intros Hb. unfold getKey, getStoredKey, mbind at 1, M_bind at 1. run_get. cbn [fst snd].
  assert (negb (Range.empty (body_filename w r)) && in_cache_dir (cache c) (body_filename w r) = false) as ->
    by (destruct (Range.empty _), (in_cache_dir _ _); done).
  unfold mret, M_ret. change (Range.empty EMPTY_STRING) with true. cbn beta iota. unfold on_cache, zoom. cbn [fst snd].
  by destruct (generateUniqueKey self c).
Qed.

Lemma save_outside self w c r vb delay key c1 new_key c2 :
  request_wf w r vb → zlen (image r vb) < 2 ^ 62 → body_outside w c r →
  0 <= cache_window_ (cache c) < 2 ^ 61 → 0 < max_retries_ (cache c) →
  delay ≠ 0 → -2 ^ 62 <= delay < 2 ^ 62 → 0 <= clock (ticks c2) < 2 ^ 62 →
  generateUniqueKey self c = (Ret key, c1) → generateUniqueKey self c1 = (Ret new_key, c2) →
  unused c key → unused c new_key → key ≠ new_key → new_key ≠ [] →
  link_error (path_of c key) (path_of c new_key) = false →
  wp (save self r delay) (w, c) (λ _ s,
    cache s.2 = delayed (delay + clock (ticks c2)) new_key 1 (cache c) ∧
    ∃ d, dir s.2 = <[path_of c new_key := d]> (dir c) ∧ stores s.1 !! d = Some (image r vb)) noexn.
Proof.
  intros Hr Hz Hb Hw Hm Hd0 Hd Hc Hk Hk2 [Hp Ha] [Hp2 _] Hne Hnil Hl.
  pose proof (generateUniqueKey_same self c) as [Ec Ed]. rewrite Hk in Ec, Ed. cbn [snd] in Ec, Ed.
  pose proof (generateUniqueKey_same self c1) as [Ec2 Ed2]. rewrite Hk2 in Ec2, Ed2. cbn [snd] in Ec2, Ed2.
  unfold save. do 2 wp_step. cbn [snd].
  replace ((delay =? 0) || (max_retries_ (cache c) =? 0)) with false by lia. wp_step.
  unfold wp at 1. rewrite getKey_outside, Hk by done. cbn [fst snd]. do 2 wp_step. cbn [snd]. rewrite Ec, Ha. wp_step.
  eapply wp_mono; [apply (saveRequest_ok self w c1 r vb key new_key c2); unfold path_of; rewrite ?Ec, ?Ed; try done| |done].
  { intros E%app_inv_head. done. }
  intros [ok nk] [w2 c3] ([= -> ->] & d & E3 & Hs). cbn [fst snd] in *. subst c3.
  apply wp_zoom. unfold insertWaiting. wp_step. unfold time, wp at 1. cbn [snd ticks set_dir].
  rewrite time_add_ok by done. wp_steps. cbn. unfold path_of. rewrite Ec2, Ec, Ed. split; [done|]. by exists d.
Qed.

(** What [restore] makes of the file of a request. *)
Lemma restore_ok w0 r vb key n d w c :
  request_wf w0 r vb → dir c !! path_of c key = Some d → stores w !! d = Some (image r vb) →
  0 <= cache_window_ (cache c) < 2 ^ 61 → zlen (image r vb) < 2 ^ 62 →
  ∃ buffer s st, createFileBuffer key (w, c) = (Ret buffer, s) ∧
    restore (MkDelayTask key n) buffer (MkState new_request s.1 s.2) = (Ret (), st) ∧
    same_request w0 r (wd st) (rq st) ∧ cache (io st) = started key n (cache c).
Proof.
  intros Hr Hp Hs Hw Hz.
  destruct (proj1 (wp_returns _ _ _) (createFileBuffer_old w c key d _ Hp Hs Hw Hz))
    as (b & [w1 c1] & E1 & Ec & Hv & _ & Hn & _ & _). cbn [fst snd] in *. subst c1.
  destruct (proj1 (wp_returns _ _ _) (parse_image w0 w1 b r new_request vb Hr Hv Hn ltac:(done)))
    as ([] & [r2 w2] & E2 & Hsame & _).
  exists b, (w1, c), (MkState r2 w2 (set_cache (started key n) c)). split_and!; [done| |done|done].
  unfold restore. rewrite Hn. unfold on_io, zoom, mbind, M_bind, Request.parse, parse_cached, activate, modify.
  cbn. unfold zoom. cbn. by rewrite E2.
Qed.
End saving.

(** * Keys *)
Section keys.
Context `{CacheSystem}.
Implicit Types (k : KeyId) (c : CacheState).

(** The keys that threads make one after the other. *)
Fixpoint generate_keys (threads : list Z) : M CacheState (list bytes) :=
  match threads with
  | [] => mret []
  | t :: threads => key ← generateUniqueKey t; keys ← generate_keys threads; mret (key :: keys)
  end.

Definition key_lt k k' : Prop := key_last k < key_last k' ∨ key_last k = key_last k' ∧ key_id k < key_id k'.
Definition key_ok k : Prop := 0 <= key_id k < 2 ^ 31 ∧ 0 <= key_last k < 2 ^ 63.

Lemma le_bytes_inj n a b :
  0 <= a < 256 ^ Z.of_nat n → 0 <= b < 256 ^ Z.of_nat n → le_bytes n a = le_bytes n b → a = b.
Proof.
  intros Ha Hb E. apply (f_equal le_value) in E. rewrite !le_value_bytes in E.
  by rewrite !Z.mod_small in E.
Qed.

(** The bytes that are hashed determine the thread, the number and the time. *)
Lemma key_source_inj t k t' k' :
  0 <= t < 2 ^ 64 → 0 <= t' < 2 ^ 64 → key_ok k → key_ok k' → key_source t k = key_source t' k' → (t, k) = (t', k').
Proof.
  intros Ht Ht' [I1 L1] [I2 L2] E. unfold key_source in E.
  apply app_inj_1 in E as [E1 E]; [|by rewrite !length_le_bytes]. apply app_inv_head in E.
  apply app_inj_1 in E as [E2 E]; [|by rewrite !length_le_bytes]. apply app_inv_head in E as E3.
  apply le_bytes_inj in E1; [|lia..]. apply le_bytes_inj in E2; [|lia..]. apply le_bytes_inj in E3; [|lia..].
  destruct k, k'; simpl in *. by subst.
Qed.

(** The keys made so far are below what the threads remember. *)
Record keys_inv (made : list (Z * KeyId)) c : Prop := {
  made_nodup : NoDup made;
  made_below t k : (t, k) ∈ made → key_ok k ∧ ∃ k', key_ids c !! t = Some k' ∧ (k = k' ∨ key_lt k k');
  ids_below t k : key_ids c !! t = Some k → key_ok k ∧ key_last k <= clock (ticks c);
}.

Lemma KeyId_next_ok now k k' :
  key_ok k → 0 <= now < 2 ^ 63 → key_last k <= now → KeyId_next now k = Ret k' →
  key_ok k' ∧ key_lt k k' ∧ key_last k' = now.
Proof.
  intros [I L] Hn Hle. unfold KeyId_next, key_ok, key_lt. repeat case_if; intros [= <-]; simpl; lia.
Qed.

(** A key above those of its thread is new. *)
Lemma keys_inv_add made t c k1 n :
  keys_inv made c → key_ok k1 → (∀ k0, (t, k0) ∈ made → key_lt k0 k1) →
  clock (ticks c) <= clock n → key_last k1 <= clock n →
  keys_inv (made ++ [(t, k1)]) (set_key_id t k1 (MkCacheState (cache c) (dir c) (key_ids c) n)).
Proof.
  intros [Hnd Hmade Hids] Hk1 Hb Hcl Hl. split; cbn [key_ids set_key_id ticks].
  - apply NoDup_app. split_and!; [done| |apply NoDup_singleton].
    intros [t0 k0] Hin [= -> ->]%list_elem_of_singleton. apply Hb in Hin. unfold key_lt in Hin. lia.
  - intros t0 k0 [Hin|[= -> ->]%list_elem_of_singleton]%elem_of_app.
    + destruct (Hmade _ _ Hin) as [Hok (k' & Hk' & Hle)]. split; [done|].
      destruct (decide (t0 = t)) as [->|Hne].
      * exists k1. rewrite lookup_insert_eq. split; [done|]. right. by apply Hb.
      * exists k'. by rewrite lookup_insert_ne.
    + split; [done|]. exists k1. rewrite lookup_insert_eq. auto.
  - intros t0 k0. destruct (decide (t0 = t)) as [->|Hne].
    + rewrite lookup_insert_eq. by intros [= <-].
    + rewrite lookup_insert_ne by done. intros Hk0. destruct (Hids _ _ Hk0). split; [done|lia].
Qed.

Context (clock_mono : ∀ n, clock n <= clock (S n)) (clock_range : ∀ n, 0 <= clock n < 2 ^ 63).

Lemma clock_le n m : (n ≤ m)%nat → clock n <= clock m.
Proof. induction 1 as [|m _ IH]; [done|]. pose proof (clock_mono m). lia. Qed.

Lemma generateUniqueKey_ok made t c key c' :
  keys_inv made c → generateUniqueKey t c = (Ret key, c') →
  ∃ k, key = hexMD5 MD5 (key_source t k) ∧ key_ok k ∧ keys_inv (made ++ [(t, k)]) c'.
Proof.
  intros Hinv. pose proof Hinv as [_ Hmade Hids]. unfold generateUniqueKey. run_get.
  assert (∀ k n, (ticks c ≤ n)%nat → key_ok k → key_last k <= clock n →
    (∀ k0, (t, k0) ∈ made → k0 = k ∨ key_lt k0 k) →
    (now ← time; k ← lift (KeyId_next now k); modify (set_key_id t k);; mret (hexMD5 MD5 (key_source t k)))
      (MkCacheState (cache c) (dir c) (key_ids c) n) = (Ret key, c') →
    ∃ k, key = hexMD5 MD5 (key_source t k) ∧ key_ok k ∧ keys_inv (made ++ [(t, k)]) c') as Hrest.
  { intros k n Hn Hk Hl Hbelow. unfold mbind, M_bind, time, lift, modify, mret, M_ret. cbn [ticks].
    destruct (KeyId_next (clock n) k) as [k1|e| |] eqn:E; try done. intros [= <- <-].
    destruct (KeyId_next_ok _ _ _ Hk (clock_range n) Hl E) as (Hk1 & Hlt & El). exists k1.
    split_and!; [done|done|]. apply keys_inv_add; [done|done| |apply clock_le; lia|rewrite El; apply clock_mono].
    intros k0 Hin; unfold key_lt in *; destruct (Hbelow k0 Hin) as [->|?]; lia. }
  destruct (key_ids c !! t) as [k|] eqn:Ek.
  - destruct (Hids _ _ Ek) as [Hok Hle]. destruct c as [ca di ki ti]. apply (Hrest k ti); try done.
    intros k0 Hin. destruct (Hmade _ _ Hin) as [_ (k' & Hk' & Hlt)]. cbn in *. simplify_eq. done.
  - unfold time at 1. unfold mbind at 1 2, M_bind at 1 2, mret at 1, M_ret at 1. cbn beta iota.
    apply (Hrest (MkKeyId 0 (clock (ticks c))) (S (ticks c))); [lia| |apply clock_mono|].
    + pose proof (clock_range (ticks c)). unfold key_ok. simpl. lia.
    + intros k0 Hin. destruct (Hmade _ _ Hin) as [_ (k' & Hk' & _)]. congruence.
Qed.

Lemma generate_keys_ok threads made c keys c' :
  keys_inv made c → generate_keys threads c = (Ret keys, c') →
  ∃ new, keys = (λ p, hexMD5 MD5 (key_source p.1 p.2)) <$> new ∧ new.*1 = threads ∧
         Forall (λ p, key_ok p.2) new ∧ keys_inv (made ++ new) c'.
Proof.
  revert made c keys. induction threads as [|t threads IH]; intros made c keys Hinv; cbn [generate_keys].
  - intros [= <- <-]. exists []. rewrite app_nil_r. split_and!; [done|done|constructor|done].
  - intros E. returned E. injection E as <- <-. destruct (generateUniqueKey_ok _ _ _ _ _ Hinv E0) as (k & -> & Hk & Hinv1).
    destruct (IH _ _ _ Hinv1 E1) as (new & -> & <- & Hn & Hinv2). exists ((t, k) :: new).
    rewrite cons_middle, app_assoc. split_and!; [done|done|by constructor|done].
Qed.
End keys.

(** The keys thread 7 makes from [test_state] on. *)
Definition key_state (id : Z) (n : nat) : CacheState := MkCacheState test_cache ∅ {[7 := MkKeyId 0 id]} n.
Definition test_key (id last : Z) : bytes := hexMD5 (λ d, d) (key_source 7 (MkKeyId id last)).

(** A request without a body. *)
Definition small_request : RequestImpl :=
  set_args (set_headers new_request [(str "HOST", str "localhost")]) [(str "a", str "1"); (str "b", str "2")].

(** * Properties *)

(** C12: A request that asks to be tried again comes back.  [save] ends, puts a task
    in the queue that is due after the delay and, whatever happens in the mean
    time except to its file, what [handle] makes of the task is the request:
    the same headers, cookies, variables, arguments, body and files, active
    with its first try. *)
Theorem saved_request_comes_back `{PosixOk} `{HashOrder} `{CacheSystem}
    self w c r vb delay key c1 new_key c2 :
  request_wf w r vb → zlen (image r vb) < 2 ^ 62 → body_outside w c r →
  0 <= cache_window_ (cache c) < 2 ^ 61 → 0 < max_retries_ (cache c) →
  delay ≠ 0 → -2 ^ 62 <= delay < 2 ^ 62 → 0 <= clock (ticks c2) < 2 ^ 62 →
  generateUniqueKey self c = (Ret key, c1) → generateUniqueKey self c1 = (Ret new_key, c2) →
  unused c key → unused c new_key → key ≠ new_key → new_key ≠ [] →
  link_error (path_of c key) (path_of c new_key) = false →
  ∃ s1, save self r delay (w, c) = (Ret (), s1) ∧
    (delay + clock (ticks c2), MkDelayTask new_key 1) ∈ waiting_ (cache s1.2) ∧
    ∀ s2, keeps_file new_key s1 s2 →
      ∃ buffer s3 st, createFileBuffer new_key s2 = (Ret buffer, s3) ∧
        restore (MkDelayTask new_key 1) buffer (MkState new_request s3.1 s3.2) = (Ret (), st) ∧
        same_request w r (wd st) (rq st) ∧ cache (io st) = started new_key 1 (cache s2.2).
Proof.
  intros Hr Hz Hb Hw Hm Hd0 Hd Hc Hk Hk2 Hu Hu2 Hne Hnil Hl.
  destruct (proj1 (wp_returns _ _ _) (save_outside self w c r vb delay key c1 new_key c2
    Hr Hz Hb Hw Hm Hd0 Hd Hc Hk Hk2 Hu Hu2 Hne Hnil Hl)) as ([] & s1 & E & Hcache & d & Hdir & Hs).
  exists s1. split_and!; [done| |].
  - rewrite Hcache. cbn. apply elem_of_mm_insert. by left.
  - intros [w2 c3] (F1 & F2 & F3 & F4). cbn [fst snd] in *. unfold path_of in F3, F4. rewrite Hcache in F1, F2, F3, F4.
    cbn in F1, F2, F3, F4. fold (path_of c new_key) in F3, F4. rewrite Hdir in F3, F4. rewrite lookup_insert_eq in F3, F4.
    apply (restore_ok w r vb new_key 1 d w2 c3); [done|done|by rewrite F4|by rewrite F2|done].
Qed.

Lemma saved_request_comes_back_witness : ∃ s1,
  @save small_machine test_system 7 small_request 5 (empty_world, test_state) = (Ret (), s1) ∧
  (8, MkDelayTask (test_key 0 2) 1) ∈ waiting_ (cache s1.2) ∧
  ∃ buffer s3 st, @createFileBuffer small_machine (test_key 0 2) s1 = (Ret buffer, s3) ∧
    @restore cons_order small_machine (MkDelayTask (test_key 0 2) 1) buffer (MkState new_request s3.1 s3.2) = (Ret (), st) ∧
    @same_request small_machine small_machine_ok empty_world small_request (wd st) (rq st).
Proof.
  destruct (@saved_request_comes_back small_machine small_machine_ok cons_order test_system
    7 empty_world test_state small_request [] 5 (test_key 0 1) (key_state 1 2) (test_key 0 2) (key_state 2 3))
    as (s1 & E & Hin & Hback).
  - repeat split; repeat constructor.
  - vm_compute. reflexivity.
  - reflexivity.
  - vm_compute. split; [discriminate|reflexivity].
  - reflexivity.
  - discriminate.
  - vm_compute. split; [discriminate|reflexivity].
  - vm_compute. split; [discriminate|reflexivity].
  - vm_compute. reflexivity.
  - vm_compute. reflexivity.
  - split; vm_compute; reflexivity.
  - split; vm_compute; reflexivity.
  - discriminate.
  - discriminate.
  - reflexivity.
  - exists s1. split; [exact E|]. split; [exact Hin|].
    destruct (Hback s1) as (buffer & s3 & st & E1 & E2 & E3 & _).
    + repeat split; reflexivity.
    + exists buffer, s3, st. split; [exact E1|]. split; [exact E2|exact E3].
Defined.

(** C16: The keys of the cache are the digests of distinct strings, whatever threads
    make them in whatever order, as long as the clock does not go back: two
    keys can be equal only when MD5 has a collision. *)
Theorem keys_unique `{CacheSystem} (threads : list Z) (c : CacheState) keys c' :
  (∀ n, clock n <= clock (S n)) → (∀ n, 0 <= clock n < 2 ^ 63) → Forall (λ t, 0 <= t < 2 ^ 64) threads →
  key_ids c = ∅ → generate_keys threads c = (Ret keys, c') →
  ∃ sources, keys = hexMD5 MD5 <$> sources ∧ NoDup sources.
Proof.
  intros Hm Hc Ht Hi E. assert (keys_inv [] c) as Hinv.
  { split; [constructor|by intros ? ? ?%not_elem_of_nil|]. intros t k. by rewrite Hi, lookup_empty. }
  destruct (generate_keys_ok Hm Hc _ _ _ _ _ Hinv E) as (new & -> & <- & Hn & [Hnd _ _]).
  exists ((λ p, key_source p.1 p.2) <$> new). rewrite <- list_fmap_compose. split; [done|].
  apply NoDup_fmap_2_strong; [|done]. intros [t k] [t' k'] H1' H2' Hs. rewrite Forall_fmap, !Forall_forall in *.
  apply key_source_inj; [exact (Ht _ H1')|exact (Ht _ H2')|exact (Hn _ H1')|exact (Hn _ H2')|done].
Qed.

Lemma keys_unique_witness : ∃ keys c' sources,
  @generate_keys test_system [7; 8; 7; 7; 8] test_state = (Ret keys, c') ∧
  keys = hexMD5 (λ d, d) <$> sources ∧ NoDup sources.
Proof.
  destruct (@generate_keys test_system [7; 8; 7; 7; 8] test_state) as [[keys|e| |] c'] eqn:E;
    [|exfalso; revert E; vm_compute; discriminate..].
  destruct (@keys_unique test_system [7; 8; 7; 7; 8] test_state keys c') as (sources & Hk & Hn).
  - intros n. cbn [clock test_system]. lia.
  - intros n. cbn [clock test_system]. lia.
  - repeat (constructor; [lia|]). constructor.
  - reflexivity.
  - exact E.
  - exists keys, c', sources. split; [reflexivity|]. split; [exact Hk|exact Hn].
Defined.

(** When the clock is set back the same key is made twice. *)
Definition clock_back : CacheSystem :=
  {| clock n := if bool_decide (n = 2%nat) then 4 else 5; link_error _ _ := false; MD5 d := d |}.
Theorem keys_repeat : ∃ key k2 k3 c',
  @generate_keys clock_back [7; 7; 7; 7] test_state = (Ret [key; k2; k3; key], c').
Proof. do 4 eexists. vm_compute. reflexivity. Qed.

(** The turn of [handle] for a file that is no request ends, but its key stays
    in [active_] with the file gone: only [save] takes it out, and it does not
    find the key of a request without a body. *)
Theorem bad_file_stays_active : ∃ s,
  @handle_turn cons_order small_machine test_system decimal_cast literal 7 [] 1
    ([], MkState new_request (MkWorld ∅ {[1%positive := str "x"]})
       (MkCacheState (set_waiting [(0, MkDelayTask (str "k") 1)] test_cache) {[str "/c/k" := 1%positive]} ∅ 0)) =
    (Ret TNext, s) ∧
  waiting_ (cache (io s.2)) = [] ∧ active_ (cache (io s.2)) = [(str "k", 1)] ∧ dir (io s.2) = ∅.
Proof. eexists. split; [vm_compute; reflexivity|]. vm_compute. done. Qed.
