(* ===== verification/CachedBody.v ===== *)
(** * A large request in the file cache, from the web server and back

    The body of a large request is read into a file of the cache by [attach];
    when the request is to be tried again the cache links that file to a new
    name, and what it reads from it later is the request. *)
From S2P Require Import Prelude CLib Range Util Containers Buffer FileBuffer DataBuffer BufferUtil.
From S2P Require Import HttpDate Cookie RequestState Parser Serialize RequestImpl Attach AttachCache Filenames.
From S2P Require Import Request HandlerSet ThreadPool Globals Server FileCache CacheSteps CacheRequest.

(** The stream of the web server, with the state of the cache beside it. *)
#[export] Instance beside_cache {IO} `{RequestIOStream IO} : RequestIOStream (IO * CacheState) := {|
  s_read n := zoom fst (λ o p, (o, p.2)) (s_read n);
  s_write d n := zoom fst (λ o p, (o, p.2)) (s_write d n);
  s_write_buf d := zoom fst (λ o p, (o, p.2)) (s_write_buf d);
|}.
#[export, refine] Instance beside_cache_laws {IO} `{StreamLaws IO} : StreamLaws (IO * CacheState) := {|
  sent p := sent p.1;
  incoming p := incoming p.1;
|}.
Proof.
  - intros d n o Hn. apply wp_zoom. eapply wp_mono; [by apply s_write_ok|done|done].
  - intros d o. apply wp_zoom. eapply wp_mono; [by apply s_write_buf_ok|done|done].
  - intros n o Hn. apply wp_zoom. eapply wp_mono; [by apply s_read_ok|done|done].
Defined.

(** The cache of a request with such a stream. *)
Definition cache_beside {IO} `{Posix} `{CacheSystem} (self : Z) (c : FileRequestCache) : RequestCache (IO * CacheState) :=
  file_cache self snd (λ c p, (p.1, c)) c.

(** * Lemmas *)

Section cached_body.
Context `{PosixOk} `{CacheSystem}.
Implicit Types (w : world) (c : CacheState).

(** A buffer on a file knows the name it was opened with. *)
Lemma open_file_name name window d w b w' :
  open_file name window d w = (Ret b, w') → ∃ l, data_ b = Some l ∧ name_at w' l = Some (Some name).
Proof.
  intros E. unfold open_file in E. rewrite (run_bind _ _ _ _ _ (eq_refl _ : Prelude.get w = _)) in E. cbn beta in E.
  destruct (stores w !! d) as [v|]; [|done].
  apply bind_returns in E as (f & w1 & E1 & E). apply lift_returns in E1 as [Ef ->].
  apply bind_returns in E as (l & w2 & E2 & E). unfold create_impl in E.
  apply bind_returns in E as (n & w3 & E3 & E). injection E as <- <-. exists l. split; [done|].
  pose proof (call_keeps l b_size ltac:(apply impl_op_named) w2) as Hk. rewrite E3 in Hk. apply Hk.
  unfold new_object in E2. injection E2 as <- <-. unfold name_at. cbn [objs]. rewrite lookup_insert_eq. cbn.
  unfold FileBuffer.open in Ef. destruct (MMap.open name window false v) as [[g|e| |] v'] eqn:Eg;
    unfold mbind, M_bind in Ef; rewrite Eg in Ef; try done. cbn in Ef. by injection Ef as <-.
Qed.

Lemma createFileBuffer_name key (s t : system) b :
  createFileBuffer key s = (Ret b, t) →
  ∃ l, data_ b = Some l ∧ name_at t.1 l = Some (Some (path_of s.2 key)).
Proof.
  intros E. unfold createFileBuffer in E. rewrite (run_bind _ _ _ _ _ (eq_refl _ : Prelude.get s = _)) in E.
  cbn beta zeta in E. rewrite open_succeeds in E. apply bind_returns in E as (d & s1 & _ & E).
  apply zoom_returns in E as (w & E & ->). by apply open_file_name in E.
Qed.

(** A new buffer of the cache: its file is empty, known by a new key, which is
    active and was not tried. *)
Lemma create_ok self w c key c1 :
  generateUniqueKey self c = (Ret key, c1) → dir c !! path_of c key = None → 0 <= cache_window_ (cache c) < 2 ^ 61 →
  ∃ b w' d l, FileCache.create self (w, c) =
      (Ret b, (w', set_cache (started key 0) (set_dir (insert (path_of c key) d) c1))) ∧
    views w' b [] ∧ begin_ b = 0 ∧ stored w' b d ∧ data_ b = Some l ∧ name_at w' l = Some (Some (path_of c key)).
Proof.
  intros Hg Hp Hw. pose proof (generateUniqueKey_same self c) as [Ec Ed]. rewrite Hg in Ec, Ed. cbn [snd] in Ec, Ed.
  assert (path_of c1 key = path_of c key) as Epath by (unfold path_of; by rewrite Ec).
  destruct (proj1 (wp_returns _ _ _) (createFileBuffer_new w c1 key ltac:(rewrite Ed, Epath; done) ltac:(by rewrite Ec)))
    as (b & [w' c2] & E & d & E2 & Hv & Hb & Hn & Hst & _). cbn [fst snd] in *. subst c2. rewrite Epath in E.
  destruct (createFileBuffer_name _ _ _ _ E) as (l & Hl & Hname). cbn [fst snd] in Hname. rewrite Epath in Hname.
  exists b, w', d, l. split_and!; try done. unfold FileCache.create.
  rewrite (run_bind _ _ key _ (w, c1)) by (unfold on_cache, zoom; cbn [snd fst]; by rewrite Hg). cbn beta.
  rewrite (run_bind _ _ _ _ _ E). cbn beta. rewrite Hn. done.
Qed.

(** ** Saving a request whose file the cache has *)

Lemma strncmp_prefix a b : strncmp_eq (length a) (a ++ b) a = true.
Proof. induction a as [|x a IH]; [done|]. cbn. rewrite Z.eqb_refl. by destruct (_ =? 0). Qed.

Lemma body_filename_at w r l name :
  data_ (body_ r) = Some l → name_at w l = Some (Some name) → body_filename w r = name.
Proof.
  intros Hl Hn. unfold body_filename, name_at in *. rewrite Hl. destruct (objs w !! l) as [[[b|b] d]|]; cbn in Hn; try done.
  by injection Hn as <-.
Qed.

Lemma getStoredKey_inside w c r l key :
  data_ (body_ r) = Some l → name_at w l = Some (Some (path_of c key)) → key ≠ [] →
  getStoredKey r (w, c) = (Ret key, (w, c)).
Proof.
  intros Hl Hn Hk. unfold getStoredKey. rewrite (run_bind _ _ _ _ _ (eq_refl _ : Prelude.get (w, c) = _)). cbn beta zeta.
  cbn [fst snd]. rewrite (body_filename_at w r l _ Hl Hn). unfold in_cache_dir, path_of. rewrite strncmp_prefix.
  assert (Range.empty (cache_dir_ (cache c) ++ key) = false) as ->.
  { apply empty_false. intros [_ ?]%app_eq_nil. done. }
  cbn [negb andb]. unfold lift, substr. rewrite zlen_app. pose proof (zlen_nonneg key).
  replace (_ <? _) with false by lia. by rewrite to_nat_zlen, drop_app_length.
Qed.

(** The file is linked to a new name and waits there; nothing is written. *)
Lemma save_inside self w c r l delay key new_key c1 d n :
  data_ (body_ r) = Some l → name_at w l = Some (Some (path_of c key)) → key ≠ [] →
  map_find key (active_ (cache c)) = Some n → 0 <= n < max_retries_ (cache c) → max_retries_ (cache c) < 2 ^ 31 →
  dir c !! path_of c key = Some d → delay ≠ 0 → -2 ^ 62 <= delay < 2 ^ 62 → 0 <= clock (ticks c1) < 2 ^ 62 →
  generateUniqueKey self c = (Ret new_key, c1) → new_key ≠ [] → dir c !! path_of c new_key = None →
  link_error (path_of c key) (path_of c new_key) = false →
  ∃ c2, save self r delay (w, c) = (Ret (), (w, c2)) ∧
    cache c2 = delayed (delay + clock (ticks c1)) new_key (n + 1) (erased key (cache c)) ∧
    dir c2 = <[path_of c new_key := d]> (dir c).
Proof.
  intros Hl Hn Hk Ha Hrange Hmax Hp Hd0 Hd Hc Hg Hnil Hnew Hlink.
  pose proof (generateUniqueKey_same self c) as [Ec Ed]. rewrite Hg in Ec, Ed. cbn [snd] in Ec, Ed.
  pose proof (createHardLink_ok self c key new_key c1 d Hg Hp Hnew Hlink) as Hh.
  assert (saveRequest self r key (w, c) = (Ret (true, new_key), (w, set_dir (insert (path_of c new_key) d) c1))) as Hs.
  { unfold saveRequest. rewrite (run_bind _ _ _ _ _ (eq_refl _ : Prelude.get (w, c) = _)). cbn beta zeta. cbn [fst snd].
    rewrite (body_filename_at w r l _ Hl Hn). unfold in_cache_dir, path_of at 1 2. rewrite strncmp_prefix.
    assert (Range.empty (cache_dir_ (cache c) ++ key) = false) as -> by (apply empty_false; by intros [_ ?]%app_eq_nil).
    cbn [negb orb]. rewrite (run_bind _ _ new_key _ (w, set_dir (insert (path_of c new_key) d) c1))
      by (unfold on_cache, zoom; cbn [fst snd]; by rewrite Hh).
    unfold mret, M_ret. by apply empty_false in Hnil as ->. }
  exists (set_cache (λ f, delayed (delay + clock (ticks c1)) new_key (n + 1) (erased key f))
    (MkCacheState (cache c1) (<[path_of c new_key:=d]> (dir c1)) (key_ids c1) (S (ticks c1)))).
  split; [|split; [cbn; by rewrite Ec|cbn; by rewrite Ed]].
  unfold save. rewrite (run_bind _ _ _ _ _ (eq_refl _ : Prelude.get (w, c) = _)). cbn beta. cbn [snd].
  replace ((delay =? 0) || (max_retries_ (cache c) =? 0)) with false by lia.
  rewrite (run_bind _ _ key _ (w, c)).
  2: { unfold getKey. rewrite (run_bind _ _ _ _ _ (getStoredKey_inside _ _ _ _ _ Hl Hn Hk)). cbn beta.
       by apply empty_false in Hk as ->. }
  cbn beta. rewrite (run_bind _ _ _ _ _ (eq_refl _ : Prelude.get (w, c) = _)). cbn beta. cbn [snd]. rewrite Ha.
  assert (u32 n = n) as -> by (unfold u32; apply Z.mod_small; lia). replace (max_retries_ (cache c) <=? n) with false by lia.
  rewrite (run_bind _ _ _ _ _ Hs). cbn beta iota.
  unfold eraseActive, insertWaiting. unfold on_cache, zoom, mbind, M_bind, modify, time, lift. cbn.
  rewrite time_add_ok by done. cbn.
  assert (to_int (n + 1) = n + 1) as -> by (unfold to_int, u32; rewrite Z.mod_small by lia; by replace (_ <? _) with true by lia).
  rewrite Ed. done.
Qed.

(** Keys do not depend on what the cache holds. *)
Lemma generateUniqueKey_cache self f c :
  generateUniqueKey self (set_cache f c) =
  ((generateUniqueKey self c).1, set_cache f (generateUniqueKey self c).2).
Proof.
  unfold generateUniqueKey. do 2 run_get. unfold mbind, M_bind, lift, mret, M_ret, time, modify. cbn [key_ids set_cache ticks].
  destruct (key_ids c !! self); cbn; by destruct (KeyId_next _ _).
Qed.
End cached_body.

(** ** The steps of attach after the cache made its buffer *)

(** No name is lost and the cache is left alone. *)
Definition beside {IO} (s t : rstate (IO * CacheState)) : Prop :=
  keeps_names (wd s) (wd t) ∧ (io t).2 = (io s).2.
#[export] Instance beside_preorder {IO} : PreOrder (@beside IO).
Proof.
  split; [by intros s|]. intros s t u [N1 E1] [N2 E2]. split; [by etrans|congruence].
Qed.

Section attach.
Context `{PosixOk} `{HashOrder} `{LexicalCast} `{CacheSystem} {IO : Type} `{StreamLaws IO}.
Implicit Types (c : CacheState) (s t : rstate (IO * CacheState)).

Lemma attach_beside self cfg env s r n b0 s1 t :
  Parser.parse env (set_stream (rq s) true) = Ret r →
  getRequestMethod r = str "POST" ∨ getRequestMethod r = str "PUT" →
  getContentLength r = Ret n → 0 < n < 2 ^ 31 → min_post_size_ cfg <= n →
  cache_create (cache_beside self cfg) (set_rq r s) = (Ret b0, s1) →
  attach (Some (cache_beside self cfg)) true (Some env) s = (Ret (), t) → beside s1 t.
Proof.
  intros Ep Hm Hl Hn Hmin Hc E. eapply (attach_follows beside); try done; try exact Hc; try exact E; try done.
  - intros A m Hm2. eapply follows_zoom; [exact Hm2|]. intros u w Hk. by split.
  - intros k u. unfold on_io, zoom, s_read, beside_cache. cbn. unfold zoom. destruct (s_read k (io u).1). by split.
Qed.

(** The environment says nothing of files. *)
Lemma parse_files env r r' : Parser.parse env r = Ret r' → files_ r' = files_ r.
Proof.
  revert r. induction env as [|e env IH]; intros r; cbn [Parser.parse]; [by intros [= <-]|].
  destruct (parse_variable e r) as [r1| | |] eqn:E; try done. cbn. intros Er. rewrite (IH _ Er).
  unfold parse_variable in E. destruct (Range.split_char "="%byte e) as [[f k] v]. rewrite !addHeader_spec in E.
  destruct (parseCookies_total v (cookies_ r)) as [m Em]. rewrite Em in E. cbn in E.
  revert E. repeat case_if; by intros [= <-].
Qed.
End attach.

(** * Properties *)


