(* ===== verification/FcgiRequest.v ===== *)
(** * A request of the FastCGI library (main/fcgi_request.cpp)

    [FastcgiRequest] is the stream of a request that comes from the web server:
    it accepts the request, remembers its address and times, and reports to the
    response time statistics when it is destroyed. *)
From S2P Require Import Prelude CLib Range Util Containers Buffer FileBuffer DataBuffer BufferUtil.
From S2P Require Import HttpDate Cookie RequestState Parser Serialize RequestImpl Request Statistics.

(** ** The FastCGI library and the clock *)
Class Fcgx (F : Type) := {
  FCGX_InitRequest : Z → M F Z;
  FCGX_Accept_r : M F Z;
  FCGX_Finish_r : M F unit;
  FCGX_GetStr : Z → M F bytes;
  FCGX_PutStr : bytes → Z → M F Z;
  FCGX_GetError : F → Z;
  fcgi_streambuf : bytes → M F unit;
  envp : F → list bytes;
  gettimeofday : M F (Z * Z);
  strerror_r : Z → bytes;
}.

Definition DAEMON_STRING : bytes := str "fastcgi-daemon".

(** [accept_time_] has no value until a request is accepted; [handler_] is the
    id of the handler.  The request itself is an argument of the operations. *)
Record FastcgiRequest (F : Type) := MkFastcgiRequest {
  fcgiRequest_ : F;
  url_ : bytes;
  accept_time_ : option (Z * Z);
  handler_ : option bytes;
}.
Arguments MkFastcgiRequest {F} _ _ _ _.
Arguments fcgiRequest_ {F} _.
Arguments url_ {F} _.
Arguments accept_time_ {F} _.
Arguments handler_ {F} _.

(** ** generateRequestInfo *)

(** The inner loop over the values of the argument [name]; [inr] when the text
    gets too long. *)
Fixpoint info_values (name : bytes) (args : list bytes) (result : bytes) : bytes + bytes :=
  match args with
  | [] => inl result
  | it2 :: args =>
      let result := if Range.empty result then result else result ++ ["&"%byte] in
      let result := result ++ name ++ ["="%byte] in
      if 1024 <? zlen result + zlen it2 then inr result
      else info_values name args (result ++ it2)
  end.
Fixpoint info_names (request : RequestImpl) (names : list bytes) (result : bytes) : bytes + bytes :=
  match names with
  | [] => inl result
  | it :: names =>
      match info_values it (Request.getArgs request it) result with
      | inl result => info_names request names result
      | inr result => inr result
      end
  end.
Definition generateRequestInfo (request : RequestImpl) : bytes :=
  str "Url: " ++ Request.getUrl request ++
  (if negb (string_eq (str "POST") (Request.getRequestMethod request)) &&
      negb (string_eq (str "PUT") (Request.getRequestMethod request)) then []
   else
     match info_names request (Request.argNames request) [] with
     | inl result => str ". Args: " ++ result
     | inr result => str ". Args: " ++ result ++ str "..."
     end).

Section fastcgi_request.
Context {F : Type} `{Fcgx F}.
Implicit Types (r : FastcgiRequest F).

Definition set_fcgi (f : F) r : FastcgiRequest F :=
  MkFastcgiRequest f (url_ r) (accept_time_ r) (handler_ r).
Definition set_url (u : bytes) r : FastcgiRequest F :=
  MkFastcgiRequest (fcgiRequest_ r) u (accept_time_ r) (handler_ r).
Definition set_accept_time (t : Z * Z) r : FastcgiRequest F :=
  MkFastcgiRequest (fcgiRequest_ r) (url_ r) (Some t) (handler_ r).
Definition on_fcgi {A} (m : M F A) : M (FastcgiRequest F) A := zoom fcgiRequest_ set_fcgi m.

(** [FastcgiRequest(request, endpoint, logger, statistics, logTimes)]: an
    object under construction. *)
Definition FastcgiRequest_init (socket : Z) : M (FastcgiRequest F) unit :=
  res ← on_fcgi (FCGX_InitRequest socket);
  if negb (res =? 0) then throw (RuntimeError (str "can not init fastcgi request")) else mret ().

(** The loop over the environment: the address is that of the first variable
    of the name. *)
Fixpoint find_url (env : list bytes) : option bytes :=
  match env with
  | [] => None
  | e :: env => if strncasecmp_eq 12 e (str "REQUEST_URI=") then Some (drop 12 e) else find_url env
  end.
(** [attach], after the request has been attached. *)
Definition attach_url : M (FastcgiRequest F) unit :=
  modify (λ r, match find_url (envp (fcgiRequest_ r)) with Some u => set_url u r | None => r end).

(** [timed]: times are logged or statistics are kept. *)
Definition accept (timed : bool) : M (FastcgiRequest F) Z :=
  status ← on_fcgi FCGX_Accept_r;
  (if (0 <=? status) && timed then t ← on_fcgi gettimeofday; modify (set_accept_time t) else mret ());;
  mret status.

Definition read (size : Z) : M (FastcgiRequest F) bytes := on_fcgi (FCGX_GetStr size).

Definition write_error (f : F) (request : RequestImpl) : bytes :=
  (if 0 <? FCGX_GetError f then
     str "Cannot write data to fastcgi socket: " ++ strerror_r (FCGX_GetError f) ++ str ". "
   else str "FastCGI error. ") ++ generateRequestInfo request.
Definition write (request : RequestImpl) (buf : bytes) (size : Z) : M (FastcgiRequest F) Z :=
  num ← on_fcgi (FCGX_PutStr buf size);
  if num =? -1 then
    r ← Prelude.get; throw (RuntimeError (write_error (fcgiRequest_ r) request))
  else mret num.
Definition write_buf (buf : bytes) : M (FastcgiRequest F) unit := on_fcgi (fcgi_streambuf buf).

Definition setHandlerDesc (id : option bytes) : M (FastcgiRequest F) unit :=
  modify (λ r, MkFastcgiRequest (fcgiRequest_ r) (url_ r) (accept_time_ r) id).

(** The stream of [request]. *)
Definition fcgi_stream (request : RequestImpl) : RequestIOStream (FastcgiRequest F) :=
  {| s_read := read; s_write := write request; s_write_buf := write_buf |}.

(** Microseconds between two times, as an unsigned number. *)
Definition elapsed (accept_time finish_time : Z * Z) : Z :=
  u64 ((finish_time.1 - accept_time.1) * 1000000 + (finish_time.2 - accept_time.2)).

(** The destructor, with the statistics when there are any.  A time that was
    never set is read as it is. *)
Definition destroy (request : RequestImpl) (logTimes : bool) (statistics : bool) :
    M (FastcgiRequest F * Data) unit :=
  let on_request {A} (m : M (FastcgiRequest F) A) : M (FastcgiRequest F * Data) A := zoom fst (λ r s, (r, s.2)) m in
  microsec ← (if logTimes || statistics then
      finish ← on_request (on_fcgi gettimeofday);
      s ← Prelude.get;
      match accept_time_ s.1 with Some t => mret (elapsed t finish) | None => undef end
    else mret 0);
  (if statistics : bool then
     modify (λ s, (s.1, Statistics.add (default DAEMON_STRING (handler_ s.1)) (Request.status request) microsec s.2))
   else mret ());;
  on_request (on_fcgi FCGX_Finish_r).
End fastcgi_request.

(** ** Specification vocabulary *)

(** All the arguments as the log would show them without a limit. *)
Definition arg_pairs (request : RequestImpl) : list (bytes * bytes) :=
  names ← Request.argNames request; pair names <$> Request.getArgs request names.
Fixpoint join_args (l : list (bytes * bytes)) (result : bytes) : bytes :=
  match l with
  | [] => result
  | nv :: l =>
      join_args l ((if Range.empty result then result else result ++ ["&"%byte]) ++ nv.1 ++ ["="%byte] ++ nv.2)
  end.
(** The text before the next pair. *)
Definition joined (result : bytes) : bytes := if Range.empty result then result else result ++ ["&"%byte].

(** * Lemmas *)

(** The two loops as one over the pairs. *)
Fixpoint info_pairs (l : list (bytes * bytes)) (result : bytes) : bytes + bytes :=
  match l with
  | [] => inl result
  | nv :: l =>
      let result := joined result ++ nv.1 ++ ["="%byte] in
      if 1024 <? zlen result + zlen nv.2 then inr result else info_pairs l (result ++ nv.2)
  end.

Lemma info_values_pairs name args l result :
  match info_values name args result with
  | inl result => info_pairs l result
  | inr result => inr result
  end = info_pairs ((pair name <$> args) ++ l) result.
Proof.
  revert result. induction args as [|v args IH]; intros result; [done|]. csimpl. cbn [info_values info_pairs].
  fold (joined result). cbn [fst snd]. case_if; [done|]. by rewrite IH.
Qed.

Lemma info_names_pairs request names result :
  info_names request names result = info_pairs (names ≫= λ name, pair name <$> Request.getArgs request name) result.
Proof.
  revert result. induction names as [|name names IH]; intros result; [done|].
  cbn [info_names]. change ((name :: names) ≫= ?f) with (f name ++ (names ≫= f)).
  cbn beta. rewrite <- info_values_pairs. by destruct (info_values _ _ _).
Qed.

Lemma zlen_join_args l result : zlen result <= zlen (join_args l result).
Proof.
  revert result. induction l as [|nv l IH]; intros result; simpl; [lia|]. etrans; [|apply IH].
  destruct (Range.empty result); zlen_simp; zlia.
Qed.

Lemma join_args_app l k result : join_args (l ++ k) result = join_args k (join_args l result).
Proof. revert result. induction l as [|nv l IH]; intros result; simpl; [done|]. by rewrite IH. Qed.

(** The log keeps whole pairs while they fit in 1024 characters. *)
Lemma info_pairs_spec l result :
  if zlen (join_args l result) <=? 1024 then info_pairs l result = inl (join_args l result)
  else zlen result <= 1024 → ∃ k nv, l !! k = Some nv ∧ zlen (join_args (take k l) result) <= 1024 ∧
    info_pairs l result = inr (joined (join_args (take k l) result) ++ nv.1 ++ ["="%byte]).
Proof.
  revert result. induction l as [|nv l IH]; intros result; cbn [join_args info_pairs].
  { case_if; [done|lia]. }
  fold (joined result). set (next := joined result ++ nv.1 ++ ["="%byte]).
  assert (joined result ++ nv.1 ++ ["="%byte] ++ nv.2 = next ++ nv.2) as E
    by (unfold next; by rewrite <- !app_assoc).
  change (["="%byte] ++ nv.2) with ("="%byte :: nv.2) in *. rewrite E.
  specialize (IH (next ++ nv.2)). pose proof (zlen_join_args l (next ++ nv.2)) as Hz. rewrite zlen_app in Hz.
  destruct (zlen (join_args l (next ++ nv.2)) <=? 1024) eqn:El; zbool.
  - replace (1024 <? zlen next + zlen nv.2) with false by lia. exact IH.
  - intros Hr. case_if.
    + exists 0%nat, nv. simpl. done.
    + rewrite zlen_app in IH. destruct (IH ltac:(lia)) as (k & nv' & Hk & Hl & ->).
      exists (S k), nv'. cbn [take join_args lookup list_lookup]. fold (joined result).
      change (["="%byte] ++ nv.2) with ("="%byte :: nv.2). rewrite E. done.
Qed.

(** * Properties *)

(** What is logged of a request that could not be answered: its address and,
    for POST and PUT, its arguments in full when they take at most 1024
    characters; otherwise as many whole arguments as fit, the name of the next
    one and dots. *)
Theorem request_info_bounded (request : RequestImpl) :
  Request.getRequestMethod request = str "POST" ∨ Request.getRequestMethod request = str "PUT" →
  let all := join_args (arg_pairs request) [] in
  let front := str "Url: " ++ Request.getUrl request ++ str ". Args: " in
  if zlen all <=? 1024 then generateRequestInfo request = front ++ all
  else ∃ k nv, arg_pairs request !! k = Some nv ∧
    let shown := join_args (take k (arg_pairs request)) [] in zlen shown <= 1024 ∧
    generateRequestInfo request = front ++ joined shown ++ nv.1 ++ ["="%byte] ++ str "...".
Proof.
  intros Hm all front. unfold generateRequestInfo.
  assert (negb (string_eq (str "POST") (Request.getRequestMethod request)) &&
    negb (string_eq (str "PUT") (Request.getRequestMethod request)) = false) as ->.
  { destruct Hm as [->| ->]; done. }
  rewrite info_names_pairs. fold (arg_pairs request). pose proof (info_pairs_spec (arg_pairs request) []) as Hs.
  fold all in Hs. destruct (zlen all <=? 1024).
  - rewrite Hs. unfold front. by rewrite <- !app_assoc.
  - destruct (Hs ltac:(done)) as (k & nv & Hk & Hl & ->). exists k, nv. split_and!; [done|done|].
    unfold front. by rewrite <- !app_assoc.
Qed.

Lemma request_info_bounded_witness :
  let r := set_args (set_vars new_request [(str "REQUEST_METHOD", str "PUT"); (str "HTTP_HOST", str "h")])
    [(str "a", str "1"); (str "b", replicate 2000 "x"%byte)] in
  ∃ k nv, arg_pairs r !! k = Some nv ∧
    let shown := join_args (take k (arg_pairs r)) [] in zlen shown <= 1024 ∧
    generateRequestInfo r =
      (str "Url: " ++ Request.getUrl r ++ str ". Args: ") ++ joined shown ++ nv.1 ++ ["="%byte] ++ str "...".
Proof.
  set (r := set_args _ _). pose proof (request_info_bounded r (or_intror eq_refl)) as Hs. cbv zeta in *.
  assert ((zlen (join_args (arg_pairs r) []) <=? 1024) = false) as E by (vm_compute; reflexivity).
  rewrite E in Hs. exact Hs.
Defined.

(** The time of a request that took less than 2^64 microseconds is the
    difference of the two times. *)
Lemma elapsed_exact t0 t1 :
  let us t := t.1 * 1000000 + t.2 in 0 <= us t1 - us t0 < 2 ^ 64 → elapsed t0 t1 = us t1 - us t0.
Proof. cbv zeta. cbn beta. intros Ht. unfold elapsed. rewrite u64_small; unfold U64_MAX; lia. Qed.

(** When nothing was accepted the destructor reads a time that was never set. *)
Theorem unaccepted_time {F} `{Fcgx F} (request : RequestImpl) (log : bool) (r : FastcgiRequest F) status f data t f' :
  FCGX_Accept_r (fcgiRequest_ r) = (Ret status, f) → status < 0 → accept_time_ r = None →
  gettimeofday f = (Ret t, f') →
  ∃ r', accept true r = (Ret status, r') ∧ (destroy request log true (r', data)).1 = Undef.
Proof.
  intros Ha Hs Hn Ht. exists (set_fcgi f r). split.
  - unfold accept, on_fcgi, zoom, mbind, M_bind. rewrite Ha. by replace (0 <=? status) with false by lia.
  - unfold destroy. replace (log || true) with true by (by destruct log).
    unfold on_fcgi, zoom, mbind, M_bind, Prelude.get. cbn. rewrite Ht. cbn. by rewrite Hn.
Qed.
