(* ===== verification/Serving.v ===== *)
(** * The life of a request (main/fcgi_server.cpp, main/fcgi_request.cpp)

    What a worker thread does with a request it accepted, with the stream of the
    request being the [FastcgiRequest] that remembers the handler, up to the
    destructor that reports to the statistics; and a request that is followed from
    the web server to the handler of the example and to the statistics. *)
From S2P Require Import Prelude CLib Range Util Containers Buffer FileBuffer DataBuffer BufferUtil.
From S2P Require Import HttpDate Cookie RequestState Parser Serialize RequestImpl Request HandlerSet ThreadPool Globals.
From S2P Require Import Attach Server Example Statistics FcgiRequest.

Section serving.
Context `{HashOrder} `{Posix} `{LexicalCast} {F : Type} `{Fcgx F} `{Regex}.
(** The request as the text of a write error describes it, the cache, and the
    handlers. *)
Context (described : RequestImpl) (cache : option (RequestCache (FastcgiRequest F))).
Context (handlerSet_ : list HandlerDescription).
#[local] Instance stream : RequestIOStream (FastcgiRequest F) := fcgi_stream described.

(** [FastcgiRequest::attach]. *)
Definition attach : M (rstate (FastcgiRequest F)) unit :=
  s ← Prelude.get;
  Request.attach cache true (Some (envp (fcgiRequest_ (io s))));;
  on_io attach_url.

(** [FCGIServer::handleRequest], which overrides that of [Server]. *)
Definition FCGIServer_handleRequest (task : Z) : M (sstate (IO := FastcgiRequest F)) unit :=
  s ← Prelude.get;
  handler ← lift (getHandler handlerSet_ (rq s.2));
  on_request (on_io (setHandlerDesc (id <$> handler)));;
  handleRequestInternal handler task.

(** The part of [FCGIServer::handle] that has a request: the exceptions of the
    standard library are answered, any other goes on to the loop. *)
Definition serve (task : Z) : M (sstate (IO := FastcgiRequest F)) unit :=
  attached ← catch (on_request attach;; mret true)
    (λ e, if is_std_exception e then on_request (Request.sendError 400);; mret false else throw e);
  if attached : bool then
    catch (FCGIServer_handleRequest task)
      (λ e, if is_std_exception e then on_request (Request.sendError 500) else throw e)
  else mret ().
End serving.

(** * Lemmas *)

(** ** What the operations of a request leave alone in the stream *)

Section keeps.
Context `{HashOrder} `{Posix} `{LexicalCast} {IO : Type} `{RequestIOStream IO} {K : Type} (key : IO → K).
Context (write_keeps : ∀ d n, follows (same_on key) (s_write d n)).
Context (write_buf_keeps : ∀ d, follows (same_on key) (s_write_buf d)).

Definition io_key (s : rstate IO) : K := key (io s).
#[local] Abbreviation keeps := (follows (same_on io_key)).

Lemma on_io_keeps {A} (m : M IO A) : follows (same_on key) m → keeps (on_io m).
Proof. intros Hm. by apply (follows_zoom _ _ _ _ _ Hm). Qed.

Lemma request_keeps : keeps request.
Proof. by intros s. Qed.
Lemma update_keeps f : keeps (update_rq f).
Proof. by intros s. Qed.
Lemma on_world_keeps {A} (m : M world A) : keeps (on_world m).
Proof. by apply follows_zoom_any. Qed.

#[local] Create HintDb keeps.
(** One operation after the other, each by its lemma in the base. *)
Ltac keep := follow; try (auto 2 with keeps; fail).
#[local] Hint Resolve request_keeps update_keeps on_world_keeps on_io_keeps : keeps.

Lemma out_keeps d : keeps (out d).
Proof. unfold out. keep. Qed.
#[local] Hint Resolve out_keeps : keeps.

Lemma write_headers_keeps hs : keeps (write_headers hs).
Proof. induction hs as [|h hs IH]; cbn [write_headers]; keep. Qed.
Lemma write_cookies_keeps cs : keeps (write_cookies cs).
Proof. induction cs as [|c cs IH]; cbn [write_cookies]; keep. Qed.
#[local] Hint Resolve write_headers_keeps write_cookies_keeps : keeps.

Lemma sendHeaders_keeps : keeps sendHeadersInternal.
Proof. unfold sendHeadersInternal. keep. Qed.
#[local] Hint Resolve sendHeaders_keeps : keeps.

Lemma setStatus_keeps status : keeps (Request.setStatus status).
Proof. unfold Request.setStatus, setStatus, already_sent. keep. Qed.
Lemma sendError_keeps status : keeps (Request.sendError status).
Proof. unfold Request.sendError, sendError, already_sent. keep. Qed.
Lemma write_buf_keeps' d : keeps (Request.write_buf d).
Proof. unfold Request.write_buf, RequestImpl.write_buf, RequestImpl.sendHeaders. keep. Qed.
#[local] Hint Resolve setStatus_keeps sendError_keeps write_buf_keeps' : keeps.

Lemma destroy_keeps text : keeps (RequestStream_destroy text).
Proof. unfold RequestStream_destroy. keep. Qed.
Lemma scoped_keeps {A} (m : M (rstate IO) A) d : keeps m → keeps d → keeps (scoped m d).
Proof.
  intros Hm Hd s. specialize (Hm s). unfold scoped. destruct (m s) as [[a|e| |] t]; try done; cbn [snd] in Hm.
  - specialize (Hd t). unfold mbind, M_bind. unfold same_on in *. destruct (d t) as [[]]; cbn in *; congruence.
  - specialize (Hd t). unfold same_on in *. destruct (d t) as [[]]; cbn in *; congruence.
Qed.
#[local] Hint Resolve destroy_keeps scoped_keeps : keeps.

Lemma answer_exception_keeps library_what e : keeps (answer_exception library_what e).
Proof. unfold answer_exception, headersAlreadySent. keep. Qed.
#[local] Hint Resolve answer_exception_keeps : keeps.

(** Handlers that have the stream through the request alone. *)
Context {Any : Type} (handleRequest : Z → M (rstate IO * list (bytes * Any)) unit) (library_what : exn → bytes).
Context (handlers_keep : ∀ h, follows (same_on (λ x, io_key x.1)) (handleRequest h)).

Lemma run_handlers_keeps hs : follows (same_on (λ x, io_key x.1)) (run_handlers handleRequest hs).
Proof. induction hs as [|h hs IH]; cbn [run_handlers]; follow. Qed.

Lemma handleTask_keeps hs : keeps (handleTask handleRequest library_what hs).
Proof.
  unfold handleTask. keep.
  intros s. unfold with_context. pose proof (run_handlers_keeps hs (s, [])) as Hr.
  by destruct (run_handlers _ _ _) as [r [t c]].
Qed.
End keeps.

(** ** The stream of a request *)

Section fcgi.
Context {F : Type} `{Fcgx F}.
(** What the destructor reports. *)
Definition report_key (r : FastcgiRequest F) : option bytes * option (Z * Z) := (handler_ r, accept_time_ r).

Lemma on_fcgi_keeps {A} (m : M F A) : follows (same_on report_key) (on_fcgi m).
Proof. by apply follows_zoom_any. Qed.

Lemma fcgi_write_keeps described d n : follows (same_on report_key) (@s_write _ (fcgi_stream described) d n).
Proof. cbn. unfold FcgiRequest.write. follow. apply on_fcgi_keeps. Qed.
Lemma fcgi_write_buf_keeps described d : follows (same_on report_key) (@s_write_buf _ (fcgi_stream described) d).
Proof. apply on_fcgi_keeps. Qed.

(** The destructor of a request that was accepted. *)
Lemma destroy_reports (request : RequestImpl) log (r : FastcgiRequest F) (data : Statistics.Data) t0 t1 f f' :
  accept_time_ r = Some t0 → gettimeofday (fcgiRequest_ r) = (Ret t1, f) → FCGX_Finish_r f = (Ret (), f') →
  destroy request log true (r, data) =
    (Ret (), (set_fcgi f' (set_fcgi f r),
      Statistics.add (default DAEMON_STRING (handler_ r)) (Request.status request) (elapsed t0 t1) data)).
Proof.
  intros Ha Ht Hf. unfold destroy. replace (log || true) with true by (by destruct log).
  unfold on_fcgi, zoom, mbind, M_bind, Prelude.get, modify. cbn. rewrite Ht. cbn. rewrite Ha. cbn. by rewrite Hf.
Qed.
End fcgi.

(** ** A connection that stays up

    What the FastCGI library documents of its streams as long as the web server
    does not close the connection: what is put is sent, in order, and the
    environment does not change. *)
Class FcgxOk (F : Type) `{Fcgx F} := {
  fcgi_out : F → bytes;
  fcgi_in : F → bytes;
  FCGX_PutStr_ok d n f : n = zlen d →
    wp (FCGX_PutStr d n) f (λ k f', k = n ∧ fcgi_out f' = fcgi_out f ++ d ∧ fcgi_in f' = fcgi_in f) noexn;
  fcgi_streambuf_ok d f :
    wp (fcgi_streambuf d) f (λ _ f', fcgi_out f' = fcgi_out f ++ d ∧ fcgi_in f' = fcgi_in f) noexn;
  FCGX_GetStr_ok n f : 0 <= n →
    wp (FCGX_GetStr n) f (λ r f', r = take (Z.to_nat n) (fcgi_in f) ∧
                                  fcgi_in f' = drop (Z.to_nat n) (fcgi_in f) ∧ fcgi_out f' = fcgi_out f) noexn;
}.

(** Then the stream of a request loses nothing. *)
#[export] Program Instance fcgi_laws {F} `{FcgxOk F} (described : RequestImpl) :
    @StreamLaws (FastcgiRequest F) (fcgi_stream described) :=
  {| sent r := fcgi_out (fcgiRequest_ r); incoming r := fcgi_in (fcgiRequest_ r) |}.
Next Obligation.
  intros F ? ? described d n r Hn. cbn. unfold FcgiRequest.write. wp_step. apply wp_zoom.
  eapply wp_mono; [by apply FCGX_PutStr_ok| |done]. intros k f (-> & Ho & Hi).
  replace (n =? -1) with false by (symmetry; apply Z.eqb_neq; zlia). by apply wp_ret.
Qed.
Next Obligation.
  intros F ? ? described d r. cbn. unfold write_buf. apply wp_zoom.
  by eapply wp_mono; [apply fcgi_streambuf_ok| |done].
Qed.
Next Obligation.
  intros F ? ? described n r Hn. cbn. unfold read. apply wp_zoom.
  by eapply wp_mono; [by apply FCGX_GetStr_ok| |done].
Qed.

Lemma handleRequestInternal_keeps `{HashOrder} `{Posix} `{LexicalCast} `{Regex} {IO} `{RequestIOStream IO} {K} (key : IO → K)
    (d : option HandlerDescription) (task : Z) :
  (∀ d n, follows (same_on key) (s_write d n)) →
  follows (same_on (λ x : sstate (IO := IO), io_key key x.2)) (handleRequestInternal d task).
Proof.
  intros Hw. assert (∀ status, follows (same_on (λ x : sstate (IO := IO), io_key key x.2))
    (on_request (Request.sendError status))) as He.
  { intros status. apply (follows_zoom _ (same_on (io_key key))); [by apply sendError_keeps|done]. }
  unfold handleRequestInternal. follow; try apply He.
  intros x. unfold add_to_pool. destruct (map_find _ _); [|done]. by destruct (addTask _ _).
Qed.

(** The first entry of a hash table. *)
Lemma hm_set_nil `{HashOrder} keq k v : hm_set keq k v [] = [(k, v)].
Proof. unfold hm_set. cbn [hm_find]. apply symmetry, Permutation_singleton_l, symmetry, hm_place_perm. Qed.

(** A request without a body is attached and goes into the pool of its handler. *)
Lemma serve_queued `{HashOrder} `{Posix} `{LexicalCast} {F} `{Fcgx F} `{Regex} (described : RequestImpl)
    (cache : option (RequestCache (FastcgiRequest F))) (hs : list HandlerDescription)
    (pools : ThreadPoolMap) (s : rstate (FastcgiRequest F)) (task : Z) (r : RequestImpl) (d : HandlerDescription)
    (pool : ThreadPool RequestTask) :
  Parser.parse (envp (fcgiRequest_ (io s))) (set_stream (rq s) true) = Ret r →
  getRequestMethod r ≠ str "POST" → getRequestMethod r ≠ str "PUT" →
  let r1 := set_args r (args_ r ++ query_values (getQueryString r)) in
  getHandler hs r1 = Ret (Some d) → handlers d ≠ [] → map_find (poolName d) pools = Some pool →
  started (info_ pool) = true → zlen (tasksQueue_ pool) < queueLength (info_ pool) →
  ∃ pool' s1, serve described cache hs task (pools, s) = (Ret (), (map_set (poolName d) pool' pools, s1)) ∧
    tasksQueue_ pool' = tasksQueue_ pool ++ [MkRequestTask task (handlers d)] ∧
    rq s1 = r1 ∧ fcgiRequest_ (io s1) = fcgiRequest_ (io s) ∧
    report_key (io s1) = (Some (id d), accept_time_ (io s)).
Proof.
  intros Ep N1 N2 r1 Ed Hd Hp Hs Hl.
  destruct (addTask_cases (MkRequestTask task (handlers d)) pool)
    as [(_ & _ & pool' & Ea & Hq)|([Hc|Hc] & _)]; [|congruence|lia].
  exists pool'. eexists. split_and!; [|exact Hq|..].
  - unfold serve, catch, on_request, zoom, attach, FCGIServer_handleRequest, mbind, M_bind, Prelude.get. cbn [snd fst].
    rewrite (@attach_get _ _ _ _ (fcgi_stream described) cache _ s r Ep N1 N2).
    unfold on_io, zoom, attach_url, modify, setHandlerDesc, lift, mret, M_ret. cbn [snd fst rq io set_rq set_io].
    fold r1. rewrite Ed. cbn [handleRequestInternal fmap option_fmap option_map].
    replace (zlen (handlers d) =? 0) with false by (destruct (handlers d); [done|symmetry; apply Z.eqb_neq; zlia]).
    unfold catch, add_to_pool, on_request, zoom, modify, mret, M_ret. cbn [snd fst]. rewrite Hp, Ea. reflexivity.
  - done.
  - cbn. by destruct (find_url _).
  - cbn. by destruct (find_url _).
Qed.

Lemma example_keeps `{HashOrder} `{LexicalCast} {IO} `{RequestIOStream IO} {K Any : Type} (key : IO → K) :
  (∀ d n, follows (same_on key) (s_write d n)) → (∀ d, follows (same_on key) (s_write_buf d)) →
  follows (same_on (λ x, io_key key x.1)) (ExampleHandler_handleRequest (IO := IO) (Any := Any)).
Proof.
  intros Hw Hb. unfold ExampleHandler_handleRequest, on_req. apply (follows_zoom _ (same_on (io_key key))); [|done].
  apply scoped_keeps; [by apply setStatus_keeps|by apply destroy_keeps].
Qed.

(** * Properties *)

(** C24: The statistics count a request once, under the id of the handler that was
    found for it, or that of the daemon when there was none, with the status it
    has in the end and the time from its acceptance to its destruction: whether
    it was answered at once or by the handlers of the task, and whatever these
    did and threw. *)
Theorem request_counted `{HashOrder} `{Posix} `{LexicalCast} {F} `{Fcgx F} `{Regex} {Any : Type}
    (described : RequestImpl) (hs : list HandlerDescription)
    (handleRequest : Z → M (rstate (FastcgiRequest F) * list (bytes * Any)) unit) (library_what : exn → bytes)
    (pools pools1 : ThreadPoolMap) (s s1 s2 : rstate (FastcgiRequest F)) (task : Z) (d : option HandlerDescription)
    (log : bool) (data : Statistics.Data) (t0 t1 : Z * Z) (f f' : F) :
  (∀ h, follows (same_on (λ x, io_key report_key x.1)) (handleRequest h)) →
  accept_time_ (io s) = Some t0 → getHandler hs (rq s) = Ret d →
  FCGIServer_handleRequest described hs task (pools, s) = (Ret (), (pools1, s1)) →
  s2 = s1 ∨ (∃ l r, @handleTask _ _ _ (fcgi_stream described) _ handleRequest library_what l s1 = (r, s2)) →
  gettimeofday (fcgiRequest_ (io s2)) = (Ret t1, f) → FCGX_Finish_r f = (Ret (), f') →
  (destroy (rq s2) log true (io s2, data)).2.2 =
    Statistics.add (default DAEMON_STRING (id <$> d)) (Request.status (rq s2)) (elapsed t0 t1) data.
Proof.
  intros Hk Ha Hd E E2 Ht Hf.
  assert (report_key (io s1) = (id <$> d, Some t0)) as K1.
  { unfold FCGIServer_handleRequest in E. returned E. injection E0 as <- <-. cbn [snd] in E1.
    apply lift_returns in E1 as [Ed ->]. rewrite Hd in Ed. injection Ed as <-.
    injection E3 as _ <-. 
    pose proof (handleRequestInternal_keeps report_key d task (fcgi_write_keeps described)) as Hi.
    apply (follows_returns _ _ _ _ _ Hi) in E. unfold same_on, io_key in E. cbn in E. rewrite E.
    unfold report_key. cbn. by rewrite Ha. }
  assert (report_key (io s2) = (id <$> d, Some t0)) as K2.
  { destruct E2 as [->|(l & r & E2)]; [done|]. rewrite <- K1.
    pose proof (handleTask_keeps report_key (fcgi_write_keeps described) (fcgi_write_buf_keeps described)
      handleRequest library_what Hk l s1) as Hi. by rewrite E2 in Hi. }
  injection K2 as K2 K3. rewrite (destroy_reports _ log _ data t0 t1 f f' K3 Ht Hf). cbn. by rewrite K2.
Qed.

(** A library whose clock goes on a second with every call. *)
#[local] Instance ticking : Fcgx Z := {|
  FCGX_InitRequest _ := mret 0; FCGX_Accept_r := mret 0; FCGX_Finish_r := mret (); FCGX_GetStr _ := mret [];
  FCGX_PutStr _ n := mret n; FCGX_GetError _ := 0; fcgi_streambuf _ := mret (); envp _ := [];
  gettimeofday := λ n, (Ret (n, 0), n + 1); strerror_r _ := [] |}.

Lemma request_counted_witness :
  let hs := (@init literal two_handlers unit every_component Some (tt, [])).2.2 in
  let pools := (startThreadPools (@initPools literal two_handlers hs []).2).2 in
  let s := MkState (set_vars attached_request [(SCRIPT_NAME_KEY, str "/b")]) empty_world
    (MkFastcgiRequest 7 [] (Some (5, 0)) None) in
  let s1 := (@FCGIServer_handleRequest cons_order decimal_cast Z ticking literal new_request hs 9 (pools, s)).2.2 in
  let s2 := (@handleTask cons_order decimal_cast _ (@fcgi_stream Z ticking new_request) unit (λ _, mret ()) (λ _, []) [1] s1).2 in
  ∃ d, @findURIHandler literal decimal_cast hs (rq s) = Ret (Some d) ∧
  (@destroy Z ticking (rq s2) false true (io s2, [])).2.2 =
    Statistics.add (@id literal d) (Request.status (rq s2)) 2000000 [].
Proof.
  intros hs pools s s1 s2.
  assert (∃ d, @findURIHandler literal decimal_cast hs (rq s) = Ret (Some d) ∧ @getHandler decimal_cast literal hs (rq s) = Ret (Some d))
    as (d & Ef & Eg) by (eexists; split; vm_compute; reflexivity).
  exists d. split; [exact Ef|].
  apply (@request_counted cons_order small_machine decimal_cast Z ticking literal unit new_request hs (λ _, mret ()) (λ _, [])
    pools (@FCGIServer_handleRequest cons_order decimal_cast Z ticking literal new_request hs 9 (pools, s)).2.1
    s s1 s2 9 (Some d) false [] (5, 0) (7, 0) 8 8).
  - intros h x. reflexivity.
  - reflexivity.
  - exact Eg.
  - vm_compute. reflexivity.
  - right. exists [1]. eexists. apply surjective_pairing.
  - vm_compute. reflexivity.
  - reflexivity.
Defined.

(** C4: From the web server to the statistics: a GET or HEAD request whose handler
    is the one of the example goes into the pool of that handler, if it is
    started and has a place, behind the tasks that are there; when it is handled
    the client gets the status line, an empty line and [test ok], without the
    latter for HEAD; and its destruction counts one answer 200 of this handler
    with the time it took. *)
Theorem get_served `{HashOrder} `{PosixOk} `{LexicalCastOk} {F} `{FcgxOk F} `{Regex} {Any : Type}
    (described : RequestImpl) (cache : option (RequestCache (FastcgiRequest F))) (hs : list HandlerDescription)
    (handleRequest : Z → M (rstate (FastcgiRequest F) * list (bytes * Any)) unit) (library_what : exn → bytes)
    (pools : ThreadPoolMap) (s : rstate (FastcgiRequest F)) (task h : Z) (r : RequestImpl) (d : HandlerDescription)
    (pool : ThreadPool RequestTask) (log : bool) (data : Statistics.Data) (t0 : Z * Z) :
  rq s = new_request → Parser.parse (envp (fcgiRequest_ (io s))) (set_stream new_request true) = Ret r →
  getRequestMethod r = str "GET" ∨ getRequestMethod r = HEAD →
  getHandler hs (set_args r (args_ r ++ query_values (getQueryString r))) = Ret (Some d) →
  handlers d = [h] → handleRequest h = @ExampleHandler_handleRequest _ _ _ (fcgi_stream described) Any →
  map_find (poolName d) pools = Some pool → started (info_ pool) = true →
  zlen (tasksQueue_ pool) < queueLength (info_ pool) → accept_time_ (io s) = Some t0 →
  ∃ pool' s1 t, serve described cache hs task (pools, s) = (Ret (), (map_set (poolName d) pool' pools, s1)) ∧
    tasksQueue_ pool' = tasksQueue_ pool ++ [MkRequestTask task [h]] ∧
    @handleTask _ _ _ (fcgi_stream described) _ handleRequest library_what [h] s1 = (Ret (), t) ∧
    fcgi_out (fcgiRequest_ (io t)) = fcgi_out (fcgiRequest_ (io s)) ++ str "Status: 200 OK" ++ CRLF ++ CRLF ++
      (if string_eq HEAD (getRequestMethod r) then [] else str "test ok" ++ [Byte.x0a]) ∧
    ∀ t1 f f', gettimeofday (fcgiRequest_ (io t)) = (Ret t1, f) → FCGX_Finish_r f = (Ret (), f') →
      (destroy (rq t) log true (io t, data)).2.2 = Statistics.add (id d) 200 (elapsed t0 t1) data.
Proof.
  intros Hn Ep Hm Ed Hh Eh Hp Hst Hl Ha. rewrite <- Hn in Ep.
  destruct (serve_queued described cache hs pools s task r d pool Ep) as (pool' & s1 & E1 & Hq & Er & Ef & Ek);
    [by destruct Hm as [->| ->]|by destruct Hm as [->| ->]|done|by rewrite Hh|done..|].
  rewrite Hh in Hq. pose proof (parse_answer _ _ _ Ep) as Hr. rewrite Hn in Hr. injection Hr as R1 R2 R3 R4 R5 R6.
  destruct (example_answer handleRequest library_what h s1 Eh) as (t & ts & E2 & Hs & Hts & Ho);
    [by rewrite Er|by rewrite Er| |by rewrite Er|].
  { split; rewrite Er; cbn; rewrite ?R5, ?R6; [by constructor|by exists []; constructor]. }
  exists pool', s1, t. split_and!; [exact E1|exact Hq|exact E2|..].
  - rewrite Er in Ho, Hts. cbn in Ho, Hts. rewrite R5 in Ho. rewrite R6 in Hts. inversion Hts; subst.
    by rewrite Ho, Ef, hm_set_nil.
  - intros t1 f f' Ht Hf.
    pose (example := λ _ : Z, @ExampleHandler_handleRequest _ _ _ (fcgi_stream described) Any).
    pose proof (handleTask_keeps report_key (fcgi_write_keeps described) (fcgi_write_buf_keeps described)
      example library_what
      (λ _, example_keeps report_key (fcgi_write_keeps described) (fcgi_write_buf_keeps described)) [h] s1) as Hk.
    assert (@handleTask _ _ _ (fcgi_stream described) _ example library_what [h] s1 = (Ret (), t)) as E3
      by (rewrite <- E2; unfold handleTask; cbn [run_handlers]; by rewrite Eh).
    rewrite E3 in Hk. unfold same_on, io_key in Hk. cbn [snd] in Hk. rewrite Ek, Ha in Hk. injection Hk as K1 K2.
    rewrite (destroy_reports _ log _ data t0 t1 f f' K2 Ht Hf). cbn. by rewrite K1, Hs.
Qed.

(** A connection that stays up, with a clock. *)
Record Wire := MkWire { w_out : bytes; w_in : bytes; w_env : list bytes; w_time : Z }.
#[local] Instance wire : Fcgx Wire := {|
  FCGX_InitRequest _ := mret 0; FCGX_Accept_r := mret 0; FCGX_Finish_r := mret ();
  FCGX_GetStr n := λ f, (Ret (take (Z.to_nat n) (w_in f)), MkWire (w_out f) (drop (Z.to_nat n) (w_in f)) (w_env f) (w_time f));
  FCGX_PutStr d n := λ f, (Ret n, MkWire (w_out f ++ take (Z.to_nat n) d) (w_in f) (w_env f) (w_time f));
  FCGX_GetError _ := 0;
  fcgi_streambuf d := λ f, (Ret (), MkWire (w_out f ++ d) (w_in f) (w_env f) (w_time f));
  envp := w_env;
  gettimeofday := λ f, (Ret (w_time f, 0), MkWire (w_out f) (w_in f) (w_env f) (w_time f + 1));
  strerror_r _ := [] |}.
#[local] Instance wire_ok : FcgxOk Wire.
Proof.
  refine {| fcgi_out := w_out; fcgi_in := w_in |}; [|done..].
  intros d n f ->. unfold wp. cbn. by rewrite to_nat_zlen, firstn_all.
Defined.

Lemma get_served_witness :
  let hs := (@init literal two_handlers unit every_component Some (tt, [])).2.2 in
  let pools := (startThreadPools (@initPools literal two_handlers hs []).2).2 in
  let s := MkState new_request empty_world (MkFastcgiRequest
    (MkWire [] [] [str "SCRIPT_NAME=/a"; str "REQUEST_METHOD=GET"; str "QUERY_STRING=x=1"] 7) [] (Some (5, 0)) None) in
  ∃ pools1 s1 t d, @serve cons_order small_machine decimal_cast Wire wire literal new_request None hs 9 (pools, s) =
      (Ret (), (pools1, s1)) ∧
    @handleTask cons_order decimal_cast _ (@fcgi_stream Wire wire new_request) unit
      (λ _, @ExampleHandler_handleRequest cons_order decimal_cast _ (@fcgi_stream Wire wire new_request) unit) (λ _, []) [7] s1 = (Ret (), t) ∧
    w_out (fcgiRequest_ (io t)) = str "Status: 200 OK" ++ CRLF ++ CRLF ++ str "test ok" ++ [Byte.x0a] ∧
    (@destroy Wire wire (rq t) false true (io t, [])).2.2 =
      Statistics.add (@id literal d) 200 (elapsed (5, 0) (w_time (fcgiRequest_ (io t)), 0)) [].
Proof.
  intros hs pools s.
  assert (∃ r, @Parser.parse cons_order (envp (fcgiRequest_ (io s))) (set_stream new_request true) = Ret r ∧
    getRequestMethod r = str "GET" ∧ ∃ d, @getHandler decimal_cast literal hs (set_args r (args_ r ++ query_values (getQueryString r))) = Ret (Some d) ∧
    @handlers literal d = [7] ∧ ∃ p, map_find (@poolName literal d) pools = Some p ∧ started (info_ p) = true ∧
    (zlen (tasksQueue_ p) <? queueLength (info_ p)) = true) as (r & Ep & Em & d & Ed & Eh & p & Ef & Es & El).
  { eexists. split; [vm_compute; reflexivity|]. split; [vm_compute; reflexivity|].
    eexists. split; [vm_compute; reflexivity|]. split; [vm_compute; reflexivity|].
    eexists. split; [vm_compute; reflexivity|]. split; vm_compute; reflexivity. }
  destruct (@get_served cons_order small_machine small_machine_ok decimal_cast decimal_cast_ok Wire wire wire_ok literal unit
    new_request None hs (λ _, @ExampleHandler_handleRequest cons_order decimal_cast _ (@fcgi_stream Wire wire new_request) unit)
    (λ _, []) pools s 9 7 r d p false [] (5, 0) eq_refl Ep (or_introl Em) Ed Eh eq_refl Ef Es (proj1 (Z.ltb_lt _ _) El) eq_refl)
    as (pool' & s1 & t & E1 & _ & E2 & Eo & Hc).
  eexists _, s1, t, d. split_and!; [exact E1|exact E2| |].
  - rewrite Em in Eo. exact Eo.
  - exact (Hc _ _ _ eq_refl eq_refl).
Defined.
