(* ===== verification/Answered.v ===== *)
(** * Every request is answered (main/fcgi_server.cpp, library/server.cpp)

    What the loop of a worker thread does with a request, whatever the web server
    sends: the exceptions of [attach], of the search of a handler and of the full
    pools end in an error page, and a request that is queued gets its answer from
    [handleTask]. *)
From S2P Require Import Prelude CLib Range Util Containers Buffer FileBuffer DataBuffer BufferUtil.
From S2P Require Import HttpDate Cookie RequestState Parser Serialize RequestImpl Request HandlerSet ThreadPool Globals.
From S2P Require Import Attach Multipart Forms Server Example Statistics FcgiRequest Serving.

(** ** Specification vocabulary *)

(** Either the request has no body, or it says no length that can be read, or the
    body does not go into the cache, is shorter than 2 GiB, and is no form the
    parser never leaves; [inc] is what the client sends. *)
Definition answerable `{LexicalCast} {IO} (cache : option (RequestCache IO)) (r : RequestImpl) (inc : bytes) : Prop :=
  getRequestMethod r = str "POST" ∨ getRequestMethod r = str "PUT" →
  ∀ n, getContentLength r = Ret n → n < 2 ^ 31 ∧ in_process cache (u64 n) ∧
    (strncasecmp_eq 19 (str "multipart/form-data") (getContentType r) = true →
     ∀ boundary, Parser.getBoundary (getContentType r) = Ret boundary → boundary ≠ [] →
       form_verdict boundary (take (Z.to_nat n) inc) ≠ Endless).

(** The tasks that wait in a pool. *)
Definition queue_of (pools : ThreadPoolMap) (name : bytes) : option (list RequestTask) :=
  tasksQueue_ <$> map_find name pools.

(** Nothing has been done about the answer of [s], whose request is like [r]. *)
Definition undisturbed `{StreamLaws IO} (r : RequestImpl) (s t : rstate IO) : Prop :=
  answer_part (rq t) = answer_part r ∧ sent (io t) = sent (io s).

(** What [serve] may leave behind of the request [s] and the pools: the page of an
    error, and no task more; or a task more, and no answer yet. *)
Definition refused `{HashOrder} `{FcgxOk F} (pools pools' : ThreadPoolMap) (s s' : rstate (FastcgiRequest F)) : Prop :=
  ∃ status r, status ∈ [400; 404; 500; 503] ∧ (∀ name, queue_of pools' name = queue_of pools name) ∧
    rq s' = error_request status r ∧
    fcgi_out (fcgiRequest_ (io s')) =
      fcgi_out (fcgiRequest_ (io s)) ++ header_block (out_headers_ (rq s')) [] ++ error_page status.
Definition queued `{Regex} `{FcgxOk F} (task : Z) (d : HandlerDescription) (pools pools' : ThreadPoolMap)
    (s s' : rstate (FastcgiRequest F)) : Prop :=
  handlers d ≠ [] ∧ (∃ pool pool', map_find (poolName d) pools = Some pool ∧
    pools' = map_set (poolName d) pool' pools ∧
    tasksQueue_ pool' = tasksQueue_ pool ++ [MkRequestTask task (handlers d)]) ∧
  fcgi_out (fcgiRequest_ (io s')) = fcgi_out (fcgiRequest_ (io s)).

(** * Lemmas *)

Section attach_ends.
Context `{HashOrder} `{PosixOk} `{LexicalCastOk} {IO : Type} `{StreamLaws IO}.
Implicit Types (s t : rstate IO).

Lemma getBoundary_ends type : ends (Parser.getBoundary type).
Proof.
  unfold Parser.getBoundary. destruct (Range.split_char _ _) as [[? ?] ?]. case_if; [|done].
  destruct (Range.split_char _ _) as [[? ?] ?]. apply ends_bind; [|done]. by repeat case_if.
Qed.

Lemma undisturbed_reads r s0 s t : undisturbed r s0 s → reads_form s t → undisturbed r s0 t.
Proof. intros [A1 A2] (_ & I1 & B1). split; [by rewrite B1|by rewrite I1]. Qed.

Lemma parse_body_ends r s0 s v :
  (strncasecmp_eq 19 (str "multipart/form-data") (getContentType (rq s)) = true →
   ∀ boundary, Parser.getBoundary (getContentType (rq s)) = Ret boundary → boundary ≠ [] →
     form_verdict boundary v ≠ Endless) →
  views (wd s) (body_ (rq s)) v → in_memory (wd s) (body_ (rq s)) → undisturbed r s0 s →
  wp parse_body s (λ _ t, undisturbed r s0 t) (λ e t, e ≠ OtherException ∧ undisturbed r s0 t).
Proof.
  intros Hf Hv Hm Hs. unfold parse_body. rq_step. rq_step. cbn zeta. case_if.
  - specialize (Hf eq_refl). pose proof (getBoundary_ends (getContentType (rq s))) as Hb. rq_step.
    destruct (Parser.getBoundary _) as [boundary|e| |]; try done. rq_step.
    destruct (Range.empty boundary) eqn:Eb; [by rq_step|]. apply empty_false in Eb. specialize (Hf boundary eq_refl Eb).
    destruct (size_views _ _ _ Hv) as (-> & _). rewrite to_nat_zlen.
    pose proof (form_loop boundary (S (length v)) (2 + length v) _ v s Eb (conj Hv Hm) ltac:(lia) ltac:(lia)) as Hl.
    unfold form_verdict in Hf. destruct (pieces _ _ _); [| |done].
    + eapply wp_mono; [exact Hl| |done]. intros [] t Ht. by eapply undisturbed_reads.
    + eapply wp_mono; [exact Hl|done|]. intros e t [-> Ht]. split; [done|by eapply undisturbed_reads].
  - case_if; [|by apply wp_ret]. rq_step. eapply wp_mono; [apply wp_on_world| |].
    + eapply wp_mono; [by apply parse_buffer_ok| |done]. intros a w [-> _].
      instantiate (1 := λ a t, undisturbed r s0 t). exact Hs.
    + intros a t Ht. rq_steps. exact Ht.
    + done.
Qed.

(** Reading a request ends. *)
Lemma attach_ends cache env s r :
  Parser.parse env (set_stream (rq s) true) = Ret r → answerable cache r (incoming (io s)) →
  wp (RequestImpl.attach cache true (Some env)) s (λ _ t, undisturbed r s t)
    (λ e t, e ≠ OtherException ∧ undisturbed r s t).
Proof.
  intros Ep Hb. destruct (decide (getRequestMethod r = str "POST" ∨ getRequestMethod r = str "PUT")) as [Hm|Hm].
  2: { unfold wp. by rewrite (attach_get cache env s r Ep) by naive_solver. }
  pose proof (Hb Hm) as Hl.
  assert (match getContentLength r with Ret n => 0 <= n | _ => False end ∨
    match getContentLength r with Ret n => - 2 ^ 63 <= n < 0 ∧ in_process cache (u64 n) | _ => True end) as [Hn|Hn].
  { destruct (getContentLength r) as [n| | |] eqn:El; [|by right..]. specialize (Hl n eq_refl) as (_ & Hc & _).
    assert (- 2 ^ 63 <= n < 2 ^ 63) as Hr.
    { unfold getContentLength in El. destruct (cast_streamsize _) as [m|] eqn:Em; [|done]. injection El as <-.
      by eapply cast_streamsize_range. }
    destruct (decide (0 <= n)); [by left|]. right. split; [lia|exact Hc]. }
  - destruct (getContentLength r) as [n| | |] eqn:El; try done. specialize (Hl n eq_refl) as (Hmax & Hc & Hf).
    rewrite u64_small in Hc by (unfold U64_MAX; lia).
    eapply wp_mono; [apply (attach_body cache env s r n (λ _ t, undisturbed r s t)
      (λ e t, e ≠ OtherException ∧ undisturbed r s t) Ep Hm El); [lia|exact Hc|]|done|].
    + intros body u _ Hv Hmem Hrq _ Hsent.
      eapply (parse_body_ends r s u); [by rewrite Hrq|by rewrite Hrq|by rewrite Hrq|]. by split; [rewrite Hrq|].
    + intros e t [(_ & -> & Hsent & body & Hrq)|He]; [|done]. split; [done|]. by split; [rewrite Hrq|].
  - eapply wp_mono; [by apply (attach_bad_length cache env s r)|done|].
    intros e t (-> & Hio & Hrq). split; [by destruct (getContentLength r)|].
    split; [by destruct Hrq as [->|[body ->]]|by rewrite Hio].
Qed.
End attach_ends.

Section serve.
Context `{HashOrder} `{PosixOk} `{LexicalCastOk} {F : Type} `{FcgxOk F} `{Regex} (described : RequestImpl).
Context (cache : option (RequestCache (FastcgiRequest F))) (hs : list HandlerDescription).
#[local] Instance answered_stream : RequestIOStream (FastcgiRequest F) := fcgi_stream described.
#[local] Instance answered_laws : StreamLaws (FastcgiRequest F) := fcgi_laws described.
Implicit Types (s t : rstate (FastcgiRequest F)).

(** [FastcgiRequest::attach] ends. *)
Lemma fcgi_attach_ends s r :
  Parser.parse (envp (fcgiRequest_ (io s))) (set_stream (rq s) true) = Ret r →
  answerable cache r (fcgi_in (fcgiRequest_ (io s))) →
  wp (attach described cache) s (λ _ t, undisturbed r s t) (λ e t, e ≠ OtherException ∧ undisturbed r s t).
Proof.
  intros Ep Hb. unfold attach. wp_step. wp_step. wp_step.
  eapply wp_mono; [by apply attach_ends| |by intros e t [He Ht]]. intros [] t [Ht1 Ht2].
  unfold on_io. wp_step. unfold attach_url. wp_step. split; [exact Ht1|].
  etrans; [|exact Ht2]. cbn. by destruct (find_url _).
Qed.

Lemma on_request_run {A} (m : M (rstate (FastcgiRequest F)) A) pools s :
  on_request m (pools, s) = let '(r, t) := m s in (r, (pools, t)).
Proof. done. Qed.

(** A request that could not be attached. *)
Lemma serve_refused pools s e t task :
  attach described cache s = (Throw e, t) → e ≠ OtherException →
  headers_sent_ (rq t) = false → stream_ (rq t) = true →
  ∃ u, serve described cache hs task (pools, s) = (Ret (), (pools, u)) ∧ error_sent 400 t u.
Proof.
  intros Ea He Hh Hs. destruct (on_request_error pools t 400 Hh Hs ltac:(lia)) as (u & Eu & Hu). exists u.
  split; [|exact Hu]. unfold serve. change (stream described) with answered_stream.
  rewrite (run_bind _ _ false _ (pools, u)); [done|].
  unfold catch, mbind, M_bind. rewrite on_request_run, Ea.
  replace (is_std_exception e) with true by by destruct e. by rewrite Eu.
Qed.

(** One that was attached: a handler is looked for, and remembered. *)
Lemma serve_attached pools s t task :
  attach described cache s = (Ret (), t) → (∀ text p, ends (regex_match text p)) →
  headers_sent_ (rq t) = false → stream_ (rq t) = true →
  (∃ d t', getHandler hs (rq t) = Ret d ∧ rq t' = rq t ∧ fcgiRequest_ (io t') = fcgiRequest_ (io t) ∧
     ∀ x, handleRequestInternal d task (pools, t') = (Ret (), x) →
       serve described cache hs task (pools, s) = (Ret (), x)) ∨
  (∃ u, serve described cache hs task (pools, s) = (Ret (), (pools, u)) ∧ error_sent 500 t u).
Proof.
  intros Ea Hr Hh Hs. pose proof (findURIHandler_ends hs (rq t) Hr) as Hd.
  assert (serve described cache hs task (pools, s) =
    catch (FCGIServer_handleRequest described hs task)
      (λ e, if is_std_exception e then on_request (Request.sendError 500) else throw e) (pools, t)) as Es.
  { unfold serve. change (stream described) with answered_stream.
    rewrite (run_bind _ _ true _ (pools, t)); [done|].
    unfold catch, mbind, M_bind. by rewrite on_request_run, Ea. }
  rewrite Es. unfold FCGIServer_handleRequest. change (stream described) with answered_stream.
  unfold catch, getHandler, mbind, M_bind, Prelude.get, lift. cbn [snd].
  destruct (findURIHandler hs (rq t)) as [d|e| |] eqn:Ef; try done.
  - left. exists d. eexists. split; [done|]. split; [|split; [|intros x Ex]].
    3: { rewrite on_request_run. unfold on_io, zoom, setHandlerDesc, modify. cbn [snd fst]. by rewrite Ex. }
    all: done.
  - right. replace (is_std_exception e) with true by by destruct e. by apply on_request_error.
Qed.

Lemma refused_page pools pools' s t u status :
  status ∈ [400; 404; 500; 503] → (∀ name, queue_of pools' name = queue_of pools name) →
  sent (io t) = sent (io s) → error_sent status t u → refused pools pools' s u.
Proof.
  intros Hin Hq Ho (Hu & _ & Hsent). exists status, (rq t). split_and!; [done..|].
  cbn in Ho, Hsent. by rewrite <- Ho.
Qed.

(** A request that was attached and whose handler was looked for. *)
Lemma dispatched pools s t (d : option HandlerDescription) task :
  sent (io t) = sent (io s) → headers_sent_ (rq t) = false → stream_ (rq t) = true → getHandler hs (rq t) = Ret d →
  (∀ d, d ∈ hs → is_Some (map_find (poolName d) pools)) →
  ∃ pools' u, handleRequestInternal d task (pools, t) = (Ret (), (pools', u)) ∧
    (refused pools pools' s u ∨ u = t ∧ ∃ d', d' ∈ hs ∧ queued task d' pools pools' s u).
Proof.
  intros Ho Hh Hs Ed Hp.
  destruct (handleRequestInternal_cases pools t d task Hh Hs)
    as [(_ & u & Es & Hu)|(d' & pool & pool' & -> & Hne & Hpool & Hc)].
  { intros d' ->. apply Hp. by apply findURIHandler_elem in Ed. }
  { exists pools, u. split; [done|]. left. apply (refused_page pools pools s t u 404); [set_solver|done..]. }
  destruct (_ && _); [destruct Hc as [Es Hq]|destruct Hc as (Hq & u & Es & Hu)]; exists (map_set (poolName d') pool' pools).
  - exists t. split; [done|]. right. split; [done|]. exists d'. split; [by apply findURIHandler_elem in Ed|].
    split; [done|]. split; [by exists pool, pool'|exact Ho].
  - exists u. split; [done|]. left. apply (refused_page _ _ s t u 503); [set_solver| |done..].
    intros name. unfold queue_of. destruct (decide (name = poolName d')) as [->|Hname].
    + rewrite map_find_set_eq, Hpool. csimpl. by rewrite Hq.
    + by rewrite map_find_set_ne.
Qed.
End serve.

(** * Properties *)

(** C3: Every request is answered, whatever the web server sends and whatever the
    handlers do, but for the bodies [answerable] leaves out (one that goes into the
    cache, one of 2 GiB, a form the parser never leaves): [serve] ends normally,
    and either the client has been sent the page of an error 400, 404, 500 or 503,
    once, with no task more in any pool, or the request waits at the end of the
    queue of the pool of a handler, nothing has been sent, and when its task is
    done the client has been sent one block of headers followed by content. *)
Theorem every_request_answered `{HashOrder} `{PosixOk} `{LexicalCastOk} {F} `{FcgxOk F} `{Regex} {Any : Type}
    (described : RequestImpl) (cache : option (RequestCache (FastcgiRequest F))) (hs : list HandlerDescription)
    (handleRequest : Z → M (rstate (FastcgiRequest F) * list (bytes * Any)) unit) (library_what : exn → bytes)
    (pools : ThreadPoolMap) (s : rstate (FastcgiRequest F)) (task : Z) :
  rq s = new_request →
  (∀ r, Parser.parse (envp (fcgiRequest_ (io s))) (set_stream new_request true) = Ret r →
    answerable cache r (fcgi_in (fcgiRequest_ (io s)))) →
  (∀ text p, ends (regex_match text p)) →
  (∀ d, d ∈ hs → is_Some (map_find (poolName d) pools)) →
  (∀ d, d ∈ hs → Forall (@handler_ok _ _ (fcgi_laws described) _ handleRequest) (handlers d)) →
  ∃ pools' s', serve described cache hs task (pools, s) = (Ret (), (pools', s')) ∧
  (refused pools pools' s s' ∨
   ∃ d, d ∈ hs ∧ queued task d pools pools' s s' ∧
     let answered t := @answering _ _ (fcgi_laws described) s t ∧ headers_sent_ (rq t) = true in
     wp (@handleTask _ _ _ (fcgi_stream described) _ handleRequest library_what (handlers d)) s'
       (λ _ t, answered t) (λ _ t, answered t)).
Proof.
  intros Hn Hb Hr Hp Hh. destruct (parse_total_ok (envp (fcgiRequest_ (io s))) (set_stream new_request true)) as [r Ep].
  specialize (Hb r Ep). pose proof (parse_answer _ _ _ Ep) as Hpart. rewrite <- Hn in Ep.
  destruct (wp_cases _ _ _ _ (fcgi_attach_ends described cache s r Ep Hb)) as [([] & t & Ea & Ht & Ho)|(e & t & Ea & He & Ht & Ho)];
    rewrite Hpart in Ht; pose proof Ht as T; injection T as T1 T2 T3 T4 T5 T6.
  2: { destruct (serve_refused described cache hs pools s e t task Ea He T1 T3) as (u & Es & Hu).
    exists pools, u. split; [done|]. left. apply (refused_page described pools pools s t u 400); [set_solver|done..]. }
  destruct (serve_attached described cache hs pools s t task Ea Hr T1 T3) as [(d & t' & Ed & Erq & Eio & Hx)|(u & Es & Hu)].
  2: { exists pools, u. split; [done|]. left. apply (refused_page described pools pools s t u 500); [set_solver|done..]. }
  assert (fcgi_out (fcgiRequest_ (io t')) = fcgi_out (fcgiRequest_ (io s))) as Ht' by (rewrite Eio; exact Ho).
  destruct (dispatched described hs pools s t' d task Ht') as (pools' & u & Eu & Hu); [by rewrite Erq..|done|].
  exists pools', u. split; [by apply Hx|]. destruct Hu as [Hu|(-> & d' & Hd & Hq)]; [by left|right]. exists d'.
  split; [done|]. split; [done|]. apply handleTask_answering; [by apply Hh|].
  split; [by rewrite Erq|]. left. unfold answer_ok. rewrite Erq, T1, T5, T6. split_and!; [done|exact Ht'|constructor|exists []; constructor].
Qed.

Lemma every_request_answered_witness :
  let hs := (@init literal two_handlers unit every_component Some (tt, [])).2.2 in
  let pools := (startThreadPools (@initPools literal two_handlers hs []).2).2 in
  let s := MkState new_request empty_world (MkFastcgiRequest (MkWire [] (str "x=1")
    [str "SCRIPT_NAME=/a"; str "REQUEST_METHOD=POST"; str "HTTP_CONTENT_LENGTH=3"] 7) [] (Some (5, 0)) None) in
  ∃ pools' s', @serve cons_order small_machine decimal_cast Wire wire literal new_request None hs 9 (pools, s) =
      (Ret (), (pools', s')) ∧
  (@refused cons_order Wire wire wire_ok pools pools' s s' ∨
   ∃ d, d ∈ hs ∧ @queued literal Wire wire wire_ok 9 d pools pools' s s' ∧
     let answered t := @answering _ _ (@fcgi_laws Wire wire wire_ok new_request) s t ∧ headers_sent_ (rq t) = true in
     wp (@handleTask cons_order decimal_cast _ (@fcgi_stream Wire wire new_request) unit (λ _, mret ()) (λ _, [])
           (@handlers literal d)) s' (λ _ t, answered t) (λ _ t, answered t)).
Proof.
  intros hs pools s.
  apply (@every_request_answered cons_order small_machine small_machine_ok decimal_cast decimal_cast_ok Wire wire wire_ok
    literal unit new_request None hs (λ _, mret ()) (λ _, []) pools s 9).
  - reflexivity.
  - intros r E _ n En. vm_compute in E. injection E as <-. vm_compute in En. injection En as <-.
    split; [lia|]. split; [exact I|]. intros Ef. vm_compute in Ef. discriminate Ef.
  - done.
  - intros d Hd. assert (forallb (λ d, match map_find (@poolName literal d) pools with Some _ => true | None => false end) hs = true) as Hp
      by (vm_compute; reflexivity).
    rewrite forallb_forall in Hp. apply list_elem_of_In, Hp in Hd.
    destruct (map_find (@poolName literal d) pools); [by eexists|discriminate].
  - intros d _. apply Forall_forall. intros h _ s0 t c Ht. exact Ht.
Defined.
