(* ===== verification/FcgiServer.v ===== *)
(** * The life of the server (main/fcgi_server.cpp)

    Starting and stopping, what the monitor port answers, and the worker
    threads that are created.  What a worker does is in [AcceptLoop]. *)
From S2P Require Import Prelude CLib Range Util Containers Buffer FileBuffer DataBuffer BufferUtil.
From S2P Require Import HttpDate Cookie RequestState Parser Serialize RequestImpl Request HandlerSet Endpoint ThreadPool Globals.

(** ** What the server asks of the system

    The results of the calls, and the components by name with the interfaces
    they implement ([dynamic_cast]). *)
Class Net := {
  net_socket : Z;
  net_setsockopt : Z;
  net_bind : Z → Z;
  net_listen : Z;
  net_pipe : option (Z * Z);
  pid_open : bytes → bool;
  pid_write : bytes → outcome unit;
  FCGX_Init : Z;
  FCGX_OpenSocket : bytes → Z → Z;
  errno : bytes;
  SOMAXCONN : Z;
  cast_unsigned : bytes → option Z;
  find_component : bytes → outcome (option Z);
  is_request_cache : Z → bool;
  is_statistics : Z → bool;
}.

Inductive Status := NOT_INITED | LOADING | RUNNING.
#[export] Instance Status_eq_dec : EqDecision Status.
Proof. solve_decision. Defined.

(** The worker threads are named by the number of their endpoint; a pipe that
    was not opened has no value. *)
Record FCGIServer := MkFCGIServer {
  stopper_ : bool;
  status_ : Status;
  monitorSocket_ : Z;
  monitorThread_ : bool;
  endpoints_ : list Endpoint;
  request_cache_ : option Z;
  time_statistics_ : option Z;
  logTimes_ : bool;
  globalPool_ : list nat;
  stopPipes_ : option (Z * Z);
  stopThread_ : bool;
}.

Section setters.
Context (s : FCGIServer).
Definition set_stopper (v : bool) : FCGIServer :=
  MkFCGIServer v (status_ s) (monitorSocket_ s) (monitorThread_ s) (endpoints_ s) (request_cache_ s)
    (time_statistics_ s) (logTimes_ s) (globalPool_ s) (stopPipes_ s) (stopThread_ s).
Definition set_status (v : Status) : FCGIServer :=
  MkFCGIServer (stopper_ s) v (monitorSocket_ s) (monitorThread_ s) (endpoints_ s) (request_cache_ s)
    (time_statistics_ s) (logTimes_ s) (globalPool_ s) (stopPipes_ s) (stopThread_ s).
Definition set_monitor (v : Z) (t : bool) : FCGIServer :=
  MkFCGIServer (stopper_ s) (status_ s) v t (endpoints_ s) (request_cache_ s)
    (time_statistics_ s) (logTimes_ s) (globalPool_ s) (stopPipes_ s) (stopThread_ s).
Definition set_endpoints (v : list Endpoint) : FCGIServer :=
  MkFCGIServer (stopper_ s) (status_ s) (monitorSocket_ s) (monitorThread_ s) v (request_cache_ s)
    (time_statistics_ s) (logTimes_ s) (globalPool_ s) (stopPipes_ s) (stopThread_ s).
Definition set_cache (v : option Z) : FCGIServer :=
  MkFCGIServer (stopper_ s) (status_ s) (monitorSocket_ s) (monitorThread_ s) (endpoints_ s) v
    (time_statistics_ s) (logTimes_ s) (globalPool_ s) (stopPipes_ s) (stopThread_ s).
Definition set_statistics (v : option Z) : FCGIServer :=
  MkFCGIServer (stopper_ s) (status_ s) (monitorSocket_ s) (monitorThread_ s) (endpoints_ s) (request_cache_ s)
    v (logTimes_ s) (globalPool_ s) (stopPipes_ s) (stopThread_ s).
Definition set_logTimes (v : bool) : FCGIServer :=
  MkFCGIServer (stopper_ s) (status_ s) (monitorSocket_ s) (monitorThread_ s) (endpoints_ s) (request_cache_ s)
    (time_statistics_ s) v (globalPool_ s) (stopPipes_ s) (stopThread_ s).
Definition set_pool (v : list nat) : FCGIServer :=
  MkFCGIServer (stopper_ s) (status_ s) (monitorSocket_ s) (monitorThread_ s) (endpoints_ s) (request_cache_ s)
    (time_statistics_ s) (logTimes_ s) v (stopPipes_ s) (stopThread_ s).
Definition set_pipes (v : option (Z * Z)) (t : bool) : FCGIServer :=
  MkFCGIServer (stopper_ s) (status_ s) (monitorSocket_ s) (monitorThread_ s) (endpoints_ s) (request_cache_ s)
    (time_statistics_ s) (logTimes_ s) (globalPool_ s) v t.
End setters.

(** [FCGIServer(globals)]. *)
Definition new_server : FCGIServer := MkFCGIServer false NOT_INITED (-1) false [] None None false [] None false.

Section server.
Context `{Net} (config : Config).

(** ** start *)

Definition initMonitorThread : M FCGIServer unit :=
  modify (λ s, set_monitor s net_socket (monitorThread_ s));;
  if net_socket =? -1 then throw (RuntimeError (str "Cannot create monitor socket"))
  else if net_setsockopt =? -1 then throw (RuntimeError (str "Cannot reuse monitor port: " ++ errno))
  else
    port ← lift (asInt config (str "/fastcgi/daemon/monitor_port"));
    if net_bind (u16 port) =? -1 then throw (RuntimeError (str "Cannot bind monitor port address"))
    else if net_listen =? 1 then throw (RuntimeError (str "Cannot listen monitor port"))
    else modify (λ s, set_monitor s (monitorSocket_ s) true).

Definition initRequestCache : M FCGIServer unit :=
  name ← lift (asStringDef config (str "/fastcgi/daemon[count(request-cache)=1]/request-cache/@component") EMPTY_STRING);
  component ← lift (find_component name);
  match component with
  | None => mret ()
  | Some c =>
      if is_request_cache c then modify (λ s, set_cache s (Some c))
      else
        modify (λ s, set_cache s None);;
        throw (RuntimeError (str "Component " ++ name ++ str " does not implement RequestCache interface"))
  end.

Definition initTimeStatistics : M FCGIServer unit :=
  name ← lift (asStringDef config (str "/fastcgi/daemon[count(statistics)=1]/statistics/@component") EMPTY_STRING);
  component ← lift (find_component name);
  match component with
  | None => mret ()
  | Some c =>
      if is_statistics c then modify (λ s, set_statistics s (Some c))
      else
        modify (λ s, set_statistics s None);;
        throw (RuntimeError (str "Component " ++ name ++ str " does not implement ResponseTimeStatistics interface"))
  end.

(** One endpoint; an exception discards the object under construction. *)
Definition init_endpoint (i : bytes) : outcome Endpoint :=
  path ← asStringDef config (i ++ str "/socket") [];
  port ← asStringDef config (i ++ str "/port") [];
  threads ← asString config (i ++ str "/threads");
  n ← (match cast_unsigned threads with Some n => Ret n | None => Throw BadLexicalCast end);
  endpoint ← Endpoint.make path port n;
  backlog ← asIntDef config (i ++ str "/backlog") SOMAXCONN;
  match openSocket FCGX_OpenSocket errno backlog endpoint with
  | (Ret _, endpoint) => Ret endpoint
  | (Throw e, _) => Throw e
  | (Undef, _) => Undef
  | (NoFuel, _) => NoFuel
  end.
Fixpoint init_endpoints (v : list bytes) : M FCGIServer unit :=
  match v with
  | [] => mret ()
  | i :: v =>
      endpoint ← lift (init_endpoint i);
      modify (λ s, set_endpoints s (endpoints_ s ++ [endpoint]));;
      init_endpoints v
  end.
Definition initFastCGISubsystem : M FCGIServer unit :=
  if negb (FCGX_Init =? 0) then throw (RuntimeError (str "Cannot init fastcgi library"))
  else
    v ← lift (subKeys config (str "/fastcgi/daemon/endpoint"));
    init_endpoints v;;
    s ← Prelude.get;
    match endpoints_ s with
    | [] => throw (RuntimeError (str "You must specify at least one endpoint"))
    | _ => mret ()
    end.

Fixpoint work_threads (i : nat) (endpoints : list Endpoint) : list nat :=
  match endpoints with
  | [] => []
  | e :: endpoints => replicate (Z.to_nat (Endpoint.threads e)) i ++ work_threads (S i) endpoints
  end.
Definition createWorkThreads : M FCGIServer unit :=
  modify (λ s, set_pool s (globalPool_ s ++ work_threads 0 (endpoints_ s))).

(** The stream throws for [badbit] alone: a file that cannot be opened sets
    [failbit], and the number is not written without a word. *)
Definition pid (file : bytes) : M FCGIServer unit := if pid_open file then lift (pid_write file) else mret ().

Definition start : M FCGIServer unit :=
  s ← Prelude.get;
  if negb (bool_decide (status_ s = NOT_INITED)) then throw (RuntimeError (str "Server is already started"))
  else
    modify (λ s, set_status s LOADING);;
    pidfile ← lift (asString config (str "/fastcgi/daemon/pidfile"));
    pid pidfile;;
    logTimes ← lift (asIntDef config (str "/fastcgi/daemon/log-times") 0);
    modify (λ s, set_logTimes s (negb (logTimes =? 0)));;
    initMonitorThread;;
    initRequestCache;;
    initTimeStatistics;;
    initFastCGISubsystem;;
    createWorkThreads;;
    modify (λ s, set_status s RUNNING);;
    match net_pipe with
    | None => throw (RuntimeError (str "Cannot create stop signal pipes"))
    | Some p => modify (λ s, set_pipes s (Some p) true)
    end.

(** ** stop *)

(** [stop] writes to the pipe, whose descriptor may have no value yet. *)
Definition stop : M FCGIServer Z :=
  s ← Prelude.get; match stopPipes_ s with Some p => mret p.2 | None => undef end.
(** [stopThreadFunction] waits for the letter. *)
Fixpoint stopThreadFunction (letters : list (option byte)) : bool :=
  match letters with
  | [] => false
  | Some c :: letters => if bool_decide (c = "s"%byte) then true else stopThreadFunction letters
  | None :: letters => stopThreadFunction letters
  end.

Definition stopInternal : M (FCGIServer * ThreadPoolMap) unit :=
  s ← Prelude.get;
  match status_ s.1 with
  | NOT_INITED => throw (RuntimeError (str "Cannot stop server because it is not started yet"))
  | LOADING => throw (RuntimeError (str "Cannot stop until loading finish"))
  | RUNNING =>
      if stopper_ s.1 then throw (RuntimeError (str "Server is already stopping"))
      else
        modify (λ s, (set_stopper s.1 true, s.2));;
        zoom snd (λ p s, (s.1, p)) stopThreadPools
  end.

(** ** The monitor port *)

Definition quote (d : bytes) : bytes := [Byte.x22] ++ d ++ [Byte.x22].
Definition newline : bytes := [Byte.x0a].
Definition endpoint_info (e : Endpoint) : bytes :=
  str "<endpoint" ++ str " socket=" ++ quote (Endpoint.toString e) ++
  str " threads=" ++ quote (decimal (Endpoint.threads e)) ++
  str " busy=" ++ quote (decimal (Endpoint.getBusyCounter e)) ++ str "/>" ++ newline.
Definition pool_info (e : bytes * ThreadPool RequestTask) : bytes :=
  let info := (getInfo e.2).1 in
  let goodTasks := goodTasksCounter info in
  let badTasks := badTasksCounter info in
  str "<pool name=" ++ quote e.1 ++
  str " threads=" ++ quote (decimal (threadsNumber info)) ++
  str " busy=" ++ quote (decimal (busyThreadsCounter info)) ++
  str " queue=" ++ quote (decimal (queueLength info)) ++
  str " current_queue=" ++ quote (decimal (currentQueue info)) ++
  str " all_tasks=" ++ quote (decimal (u64 (goodTasks + badTasks))) ++
  str " exception_tasks=" ++ quote (decimal badTasks) ++ str "/>" ++ newline.
Definition status_name (stat : Status) : bytes :=
  match stat with LOADING => str "loading" | RUNNING => str "running" | NOT_INITED => str "not inited" end.
Definition getServerInfo (s : FCGIServer) (pools : ThreadPoolMap) : bytes :=
  str "<fastcgi-daemon>" ++ newline ++ str "<status>" ++ status_name (status_ s) ++ str "</status>" ++ newline ++
  (if bool_decide (status_ s = RUNNING) then
     str "<pools>" ++ newline ++ str "<endpoint_pools>" ++ newline ++
     concat (endpoint_info <$> endpoints_ s) ++ str "</endpoint_pools>" ++ newline ++
     concat (pool_info <$> pools) ++ str "</pools>" ++ newline
   else []) ++
  str "</fastcgi-daemon>" ++ newline.

(** What is done with a connection from which [buf] was read: the answer, and
    whether the server is asked to stop. *)
Definition monitor_command (s : FCGIServer) (pools : ThreadPoolMap) (buf : bytes) : bytes * bool :=
  match buf with
  | [] => ([], false)
  | c :: _ =>
      if bool_decide (c = "i"%byte) || bool_decide (c = "I"%byte) then (getServerInfo s pools, false)
      else if bool_decide (c = "s"%byte) || bool_decide (c = "S"%byte) then ([], true)
      else ([], false)
  end.
(** One turn of [monitor]: the connection and the bytes it gave, up to 80. *)
Definition monitor_turn (pools : ThreadPoolMap) (conn : option bytes) : M FCGIServer (option bytes) :=
  s ← Prelude.get;
  if stopper_ s then mret None
  else
    match conn with
    | None => mret (Some [])          (* "Cannot accept connection on monitor port" is logged *)
    | Some buf =>
        s ← Prelude.get;
        if stopper_ s then mret None else
        let '(answer, stopping) := monitor_command s pools (take 80 buf) in
        (if stopping : bool then stop;; mret () else mret ());;
        mret (Some answer)
    end.
End server.

(** * Lemmas *)
Section lemmas.
Context `{Net} (config : Config).
Implicit Types (s t : FCGIServer).

(** The parts of starting change the status only where [start] does. *)
Lemma initMonitorThread_status : follows (same_on status_) (initMonitorThread config).
Proof. unfold initMonitorThread. follow. Qed.
Lemma initRequestCache_status : follows (same_on status_) (initRequestCache config).
Proof. unfold initRequestCache. follow. Qed.
Lemma initTimeStatistics_status : follows (same_on status_) (initTimeStatistics config).
Proof. unfold initTimeStatistics. follow. Qed.
Lemma init_endpoints_status v : follows (same_on status_) (init_endpoints config v).
Proof. induction v as [|i v IH]; cbn [init_endpoints]; follow. Qed.
Lemma initFastCGISubsystem_status : follows (same_on status_) (initFastCGISubsystem config).
Proof. unfold initFastCGISubsystem. follow. apply init_endpoints_status. Qed.

(** What the endpoints and threads do not depend on. *)
Definition serving s : list Endpoint * list nat * bool := (endpoints_ s, globalPool_ s, stopper_ s).
Lemma initMonitorThread_serving : follows (same_on serving) (initMonitorThread config).
Proof. unfold initMonitorThread. follow. Qed.
Lemma initRequestCache_serving : follows (same_on serving) (initRequestCache config).
Proof. unfold initRequestCache. follow. Qed.
Lemma initTimeStatistics_serving : follows (same_on serving) (initTimeStatistics config).
Proof. unfold initTimeStatistics. follow. Qed.

(** The endpoints of the configuration, in order. *)
Lemma init_endpoints_ok v s t :
  init_endpoints config v s = (Ret (), t) →
  ∃ l, Forall2 (λ i e, init_endpoint config i = Ret e) v l ∧ t = set_endpoints s (endpoints_ s ++ l).
Proof.
  revert s. induction v as [|i v IH]; intros s; cbn [init_endpoints].
  - intros [= <-]. exists []. split; [constructor|]. rewrite app_nil_r. by destruct s.
  - intros E. returned E. apply lift_returns in E0 as [E0 ->]. injection E1 as <- <-.
    destruct (IH _ E) as (l & Hl & ->). exists (a :: l). split; [by constructor|]. cbn. by rewrite <- app_assoc.
Qed.

(** An endpoint that is kept has a socket. *)
Lemma init_endpoint_socket i e : init_endpoint config i = Ret e → Endpoint.socket e ≠ -1.
Proof.
  unfold init_endpoint. intros E. returned E. revert E.
  unfold openSocket, mbind, M_bind, modify, Prelude.get. cbn beta iota.
  destruct (socket_ _ =? -1) eqn:Es; [done|]. intros [= <-]. unfold Endpoint.socket. by zbool.
Qed.

(** The number of threads of an endpoint. *)
Lemma filter_replicate (i j n : nat) :
  length (filter (λ k, k = i) (replicate n j)) = if decide (j = i) then n else O.
Proof.
  induction n as [|n IH]; [by case_decide|]. cbn [replicate]. rewrite filter_cons.
  by case_decide; simpl; rewrite IH.
Qed.

Lemma work_threads_above i n es : (i < n)%nat → length (filter (λ j, j = i) (work_threads n es)) = O.
Proof.
  revert n. induction es as [|e es IH]; intros n Hi; [done|]. cbn [work_threads].
  rewrite filter_app, length_app, filter_replicate, IH by lia. case_decide; lia.
Qed.

Lemma count_work_threads i n es :
  length (filter (λ j, j = (n + i)%nat) (work_threads n es)) =
  match es !! i with Some e => Z.to_nat (Endpoint.threads e) | None => O end.
Proof.
  revert n i. induction es as [|e es IH]; intros n i; cbn [work_threads]; [done|].
  rewrite filter_app, length_app, filter_replicate. destruct i as [|i]; cbn [lookup list_lookup].
  - rewrite work_threads_above by lia. case_decide; lia.
  - replace (n + S i)%nat with (S n + i)%nat by lia. rewrite IH. case_decide; [lia|]. done.
Qed.

(** A server that has begun to start never is as new. *)
Definition begun s t : Prop := status_ s ≠ NOT_INITED → status_ t ≠ NOT_INITED.
#[local] Instance begun_preorder : PreOrder begun.
Proof. split; [intros s Hs; exact Hs|intros s t u Hst Htu Hs; exact (Htu (Hst Hs))]. Qed.
Lemma begun_same {A} (m : M FCGIServer A) : follows (same_on status_) m → follows begun m.
Proof. intros Hm s Hs. by rewrite (Hm s). Qed.

Lemma start_begun s : status_ (start config s).2 ≠ NOT_INITED.
Proof.
  unfold start. unfold mbind at 1, M_bind at 1, Prelude.get. cbn beta iota.
  destruct (decide (status_ s = NOT_INITED)) as [E|E]; [rewrite bool_decide_true by done|by rewrite bool_decide_false].
  cbn [negb]. lazymatch goal with |- context [(modify ?f ≫= ?k) s] => change ((modify f ≫= k) s) with (k () (f s)) end.
  cbn beta. match goal with |- context [?m (set_status s LOADING)] => assert (follows begun m) as Hf end; [|by apply Hf].
  unfold pid, createWorkThreads. follow.
  all: first [apply begun_same; first [apply initMonitorThread_status|apply initRequestCache_status|
      apply initTimeStatistics_status|apply initFastCGISubsystem_status]
    |intros Hs; first [exact Hs|discriminate]].
Qed.

(** What the server is when it has started. *)
Definition started t : Prop :=
  status_ t = RUNNING ∧ endpoints_ t ≠ [] ∧
  (∃ keys, subKeys config (str "/fastcgi/daemon/endpoint") = Ret keys ∧
     Forall2 (λ i e, init_endpoint config i = Ret e ∧ Endpoint.socket e ≠ -1) keys (endpoints_ t)) ∧
  (∀ i e, endpoints_ t !! i = Some e →
     length (filter (λ j, j = i) (globalPool_ t)) = Z.to_nat (Endpoint.threads e)) ∧
  stopPipes_ t ≠ None ∧ stopThread_ t = true.

Lemma start_again s :
  status_ s ≠ NOT_INITED → start config s = (Throw (RuntimeError (str "Server is already started")), s).
Proof. intros Hs. unfold start, mbind, M_bind, Prelude.get. by rewrite bool_decide_false. Qed.

Lemma subsystem_returns s t :
  initFastCGISubsystem config s = (Ret (), t) →
  ∃ keys, subKeys config (str "/fastcgi/daemon/endpoint") = Ret keys ∧
    (∃ l, Forall2 (λ i e, init_endpoint config i = Ret e ∧ Endpoint.socket e ≠ -1) keys l ∧
          endpoints_ t = endpoints_ s ++ l) ∧ endpoints_ t ≠ [] ∧ globalPool_ t = globalPool_ s ∧
    stopper_ t = stopper_ s.
Proof.
  unfold initFastCGISubsystem. case_match; [done|]. intros E. returned E. apply lift_returns in E0 as [E0 ->].
  destruct a0, (init_endpoints_ok _ _ _ E1) as (l & Hl & ->). injection E2 as <- <-.
  cbn in E. destruct (endpoints_ s ++ l) eqn:El; [done|]. injection E as <-. exists a. split_and!; [done| | |done|done].
  - exists l. split; [|done]. eapply Forall2_impl; [exact Hl|]. intros i e0 Hi. split; [done|].
    exact (init_endpoint_socket i e0 Hi).
  - done.
Qed.

Lemma pid_returns file s u t : pid file s = (Ret u, t) → t = s.
Proof. unfold pid. case_match; [by intros [_ ->]%lift_returns|by intros [= _ <-]]. Qed.

Lemma start_returns s t :
  endpoints_ s = [] → globalPool_ s = [] → start config s = (Ret (), t) →
  status_ s = NOT_INITED ∧ started t ∧ stopper_ t = stopper_ s.
Proof.
  intros He Hg E. unfold start in E. apply bind_returns in E as (s0 & s1 & E0 & E). injection E0 as <- <-.
  destruct (decide (status_ s = NOT_INITED)) as [Es|Es]; [rewrite bool_decide_true in E by done|by rewrite bool_decide_false in E].
  split; [done|]. cbn [negb] in E. returned E.
  injection E0 as <-. apply lift_returns in E1 as [_ ->]. apply pid_returns in E2 as ->.
  apply lift_returns in E3 as [_ ->]. injection E4 as <-.
  apply (follows_returns _ _ _ _ _ initMonitorThread_serving) in E5.
  apply (follows_returns _ _ _ _ _ initRequestCache_serving) in E6.
  apply (follows_returns _ _ _ _ _ initTimeStatistics_serving) in E7.
  unfold same_on, serving in *. rewrite E6, E5 in E7. subst s4 s0. cbn in E7. rewrite He, Hg in E7.
  destruct a7, (subsystem_returns _ _ E8) as (keys & Hk & Hf & Hne & Hp & Hst).
  injection E7 as E7a E7b E7c. rewrite E7c in Hst. rewrite E7a in Hf. rewrite E7b in Hp. cbn [app] in *.
  destruct net_pipe as [p|]; [|done]. injection E9 as E9. injection E10 as E10. injection E as <-.
  subst s9 s10. destruct Hf as (l & Hf & <-). unfold started. cbn. rewrite Hp. split_and!; [done|done|by exists keys| |done|done|done].
  intros i e Hi. pose proof (count_work_threads i 0 (endpoints_ s8)) as Hc. rewrite Hi in Hc. exact Hc.
Qed.
End lemmas.

(** * Properties *)

(** Starting a server once: it either runs, with the endpoints of the
    configuration in their order, every one with an open socket and its number
    of worker threads and at least one, or an exception says why not; and
    whatever the outcome, it cannot be started again, and it can be stopped only
    when it runs. *)
Theorem server_start `{Net} (config : Config) (s : FCGIServer) (pools : ThreadPoolMap) :
  endpoints_ s = [] → globalPool_ s = [] →
  match start config s with
  | (Ret _, t) => status_ s = NOT_INITED ∧ started config t ∧
      start config t = (Throw (RuntimeError (str "Server is already started")), t)
  | (Throw _, t) =>
      start config t = (Throw (RuntimeError (str "Server is already started")), t) ∧
      (status_ t = LOADING →
       stopInternal (t, pools) = (Throw (RuntimeError (str "Cannot stop until loading finish")), (t, pools)))
  | _ => True
  end.
Proof.
  intros He Hg. pose proof (start_begun config s) as Hb. pose proof (start_returns config s) as Hr.
  destruct (start config s) as [[[]|e| |] t]; cbn [snd] in Hb; try done.
  - destruct (Hr t He Hg eq_refl) as (? & ? & _). by rewrite start_again.
  - rewrite start_again by done. split; [done|]. intros Hl. unfold stopInternal, mbind, M_bind, Prelude.get.
    cbn [fst]. by rewrite Hl.
Qed.

(** A system where every call succeeds, and a configuration with two endpoints. *)
#[local] Instance working_net : Net :=
  {| net_socket := 3; net_setsockopt := 0; net_bind _ := 0; net_listen := 0; net_pipe := Some (5, 6);
     pid_open _ := true; pid_write _ := Ret (); FCGX_Init := 0; FCGX_OpenSocket _ _ := 7; errno := str "0"; SOMAXCONN := 128;
     cast_unsigned v := cast_decimal (2 ^ 32) v; find_component n := Ret None;
     is_request_cache _ := true; is_statistics _ := true |}.
Definition two_endpoints : Config := listed_config
  [(str "/fastcgi/daemon/pidfile", str "/tmp/pid"); (str "/fastcgi/daemon/monitor_port", str "3333");
   (str "e1/socket", str "/tmp/s"); (str "e1/threads", str "2"); (str "e2/port", str "80"); (str "e2/threads", str "3")]
  [(str "/fastcgi/daemon/endpoint", [str "e1"; str "e2"])].

Lemma server_start_witness :
  let t := (start two_endpoints new_server).2 in
  globalPool_ t = [0; 0; 1; 1; 1]%nat ∧ started two_endpoints t ∧
  start two_endpoints t = (Throw (RuntimeError (str "Server is already started")), t).
Proof.
  intros t. split; [vm_compute; reflexivity|].
  pose proof (server_start two_endpoints new_server [] eq_refl eq_refl) as Hs.
  assert (start two_endpoints new_server = (Ret (), t)) as E by (vm_compute; reflexivity).
  rewrite E in Hs. destruct Hs as (_ & Hs & Ha). split; [exact Hs|exact Ha].
Defined.
