(* ===== verification/Shutdown.v ===== *)
(** * The end of the program (library/globals.cpp, library/componentset.cpp,
    library/loader.cpp, main/fcgi_server.cpp)

    The destructors of [FCGIServer] and of the members of [Globals], in the order
    the members are destroyed in, with the order in which everything goes as
    their state: the use of what has gone is undefined. *)
From S2P Require Import Prelude CLib Range Util Containers Buffer FileBuffer DataBuffer BufferUtil.
From S2P Require Import HttpDate Cookie RequestState Parser Serialize RequestImpl Request HandlerSet ComponentSet.
From S2P Require Import Endpoint ThreadPool Globals Daemon Server FcgiServer.

(** What has gone so far: the component [c] of the name [name] is unloaded, and
    then deleted with its context; a module is closed; the stream and the request
    of a task are destroyed. *)
Inductive death :=
| Unloaded (name : bytes) (c : Z)
| Deleted (name : bytes) (c : Z)
| ContextDeleted (componentXPath : bytes)
| Closed (handle : Z)
| Released (task : RequestTask).
#[local] Abbreviation deaths := (list death).

Definition went (d : death) : M deaths unit := modify (λ t, t ++ [d]).
Definition is_deleted (c : Z) (d : death) : bool := match d with Deleted _ c' => c =? c' | _ => false end.

(** A call of a method of the component [c]. *)
Definition use_component (c : Z) : M deaths unit := t ← Prelude.get; if existsb (is_deleted c) t then undef else mret ().
Fixpoint use_components (cs : list Z) : M deaths unit :=
  match cs with [] => mret () | c :: cs => use_component c;; use_components cs end.

(** ** ~ComponentSet *)
Section destructors.
Context `{Regex}.
(** [onUnload] of a component, when these are gone. *)
Context (onUnload : Z → deaths → outcome unit).

(** [find] may lead to the end of the map; every exception is caught. *)
Fixpoint unload_loop (s : ComponentSet) (stack : list bytes) : M deaths unit :=
  match stack with
  | [] => mret ()
  | i :: stack =>
      match map_find i (components_ s) with
      | None => undef
      | Some cont =>
          t ← Prelude.get;
          catch (lift (onUnload (component cont) t)) (λ _, mret ());;
          went (Unloaded i (component cont));;
          unload_loop s stack
      end
  end.
Definition sendOnUnloadToComponents (s : ComponentSet) : M deaths unit := unload_loop s (rev (loadingStack_ s)).
Fixpoint delete_loop (m : list (bytes * ComponentContainer)) : M deaths unit :=
  match m with
  | [] => mret ()
  | (name, cont) :: m =>
      went (Deleted name (component cont));; went (ContextDeleted (context cont));; delete_loop m
  end.
Definition ComponentSet_destroy (s : ComponentSet) : M deaths unit :=
  sendOnUnloadToComponents s;; delete_loop (rev (components_ s)).

(** ** ~Loader *)
Fixpoint close_loop (handles : list Z) : M deaths unit :=
  match handles with [] => mret () | h :: handles => went (Closed h);; close_loop handles end.
Definition Loader_destroy (l : Loader) : M deaths unit := close_loop (rev (handles_ l)).

(** ** ~ThreadPool

    The tasks that are left go with the queue: the stream of a task reports to
    the logger and to the statistics, the request to its cache.  A thread that has
    not returned goes on with a mutex and a condition that do not exist. *)
Section pools.
Context (reports_to : list Z).
Fixpoint release_tasks (q : list RequestTask) : M deaths unit :=
  match q with [] => mret () | task :: q => use_components reports_to;; went (Released task);; release_tasks q end.
Definition ThreadPool_destroy (pool : ThreadPool RequestTask) : M deaths unit :=
  release_tasks (tasksQueue_ pool);; if can_join pool then mret () else undef.
Fixpoint destroy_pools (pools : ThreadPoolMap) : M deaths unit :=
  match pools with [] => mret () | p :: pools => ThreadPool_destroy p.2;; destroy_pools pools end.
End pools.

(** ** ~Globals

    The last member goes first: [componentSet_], [handlerSet_], which has nothing
    but its own memory, [loader_], and the pools. *)
Definition Globals_destroy (reports_to : list Z) (g : Globals) : M deaths unit :=
  ComponentSet_destroy (componentSet_ g);; Loader_destroy (loader_ g);; destroy_pools reports_to (pools_ g).
End destructors.

(** ** ~FCGIServer

    The descriptors that are closed; those of the pipe may have no value. *)
Definition FCGIServer_destroy (s : FCGIServer) : outcome (list Z) :=
  match stopPipes_ s with
  | None => Undef
  | Some (r, w) => Ret ([r; w] ++ (if monitorSocket_ s =? -1 then [] else [monitorSocket_ s]))
  end.

(** What the requests of the server report to when they are destroyed. *)
Definition reports_to `{Regex} (s : FCGIServer) (g : Globals) : list Z :=
  (if logTimes_ s then option_list (logger_ g) else []) ++ option_list (time_statistics_ s) ++
  option_list (request_cache_ s).

(** ** Specification vocabulary *)

(** Everything is unloaded in the reverse of the order it was loaded in, deleted
    in the reverse of the order of the map, and closed in the reverse of the order
    it was opened in. *)
Definition unloads (s : ComponentSet) (stack : list bytes) : deaths :=
  omap (λ name, Unloaded name <$> address s name) (rev stack).
Definition deletes (m : list (bytes * ComponentContainer)) : deaths :=
  concat ((λ e, [Deleted e.1 (component e.2); ContextDeleted (context e.2)]) <$> m).
Definition tasks_left (pools : ThreadPoolMap) : list RequestTask := concat ((λ p, tasksQueue_ p.2) <$> pools).
Definition is_component (s : ComponentSet) (c : Z) : bool := existsb (λ e, c =? component e.2) (components_ s).
Definition set_pools `{Regex} (v : ThreadPoolMap) (g : Globals) : Globals :=
  MkGlobals (loader_ g) (componentSet_ g) (handlerSet_ g) (logger_ g) v.

(** [onUnload] works as long as what the component looked up is neither unloaded
    nor deleted; it may throw. *)
Definition unloads_well (deps : Z → list bytes) (onUnload : Z → deaths → outcome unit) : Prop :=
  ∀ c t, (∀ dep d, dep ∈ deps c → Unloaded dep d ∉ t) → (∀ n d, Deleted n d ∉ t) →
    match onUnload c t with Ret _ | Throw _ => True | _ => False end.

(** * Lemmas *)

Lemma went_run d t : went d t = (Ret (), t ++ [d]).
Proof. done. Qed.

Lemma unloads_app s a b : unloads s (a ++ b) = unloads s b ++ unloads s a.
Proof. unfold unloads. by rewrite rev_app_distr, omap_app. Qed.

Lemma unloads_elem s stack d : d ∈ unloads s stack → ∃ name c, name ∈ stack ∧ address s name = Some c ∧ d = Unloaded name c.
Proof.
  unfold unloads. intros (name & Hn & Hd)%list_elem_of_omap. apply list_elem_of_In, in_rev, list_elem_of_In in Hn.
  destruct (address s name) as [c|] eqn:Ea; [|done]. injection Hd as <-. by exists name, c.
Qed.

Section destroy.
Context (deps : Z → list bytes) (refuse : Z → list (option Z) → option exn) (onUnload : Z → deaths → outcome unit).

(** The components on the stack, when those that follow them are unloaded. *)
Lemma unload_loop_ok s pre post t :
  load_inv deps refuse s → loadingStack_ s = pre ++ post → unloads_well deps onUnload →
  (∀ n d, Unloaded n d ∈ t → n ∈ post) → (∀ n d, Deleted n d ∉ t) →
  unload_loop onUnload s (rev pre) t = (Ret (), t ++ unloads s pre).
Proof.
  intros Hi. revert post t. induction pre as [|name pre IH] using rev_ind; intros post t Hl Hw Hu Hd;
    [by rewrite app_nil_r|].
  rewrite rev_app_distr, unloads_app. cbn [rev app unload_loop]. rewrite <- app_assoc in Hl.
  assert (name ∈ loadingStack_ s) as Hin by (rewrite Hl; set_solver).
  destruct (load_started _ _ _ Hi name Hin) as (cont & Hf & _). rewrite Hf.
  assert (address s name = Some (component cont)) as Ha by (unfold address; by rewrite Hf).
  assert (unloads s [name] = [Unloaded name (component cont)]) as -> by (unfold unloads; cbn; by rewrite Ha).
  assert (match onUnload (component cont) t with Ret _ | Throw _ => True | _ => False end) as Hon.
  { apply Hw; [|done]. intros dep d Hdep Hdt.
    assert (dep ∈ post) as Hpost by by eapply Hu.
    assert (dep ∈ names s) as Hns.
    { destruct (load_started _ _ _ Hi dep ltac:(rewrite Hl; set_solver)) as (c2 & H2 & _).
      apply map_find_keys; [apply Hi|by eexists]. }
    pose proof (load_deps _ _ _ Hi _ _ _ Hl _ _ Ha Hdep Hns) as Hpre.
    pose proof (load_nodup _ _ _ Hi) as Hnd. rewrite Hl in Hnd. apply NoDup_app in Hnd as (_ & Hx & _).
    apply (Hx dep Hpre). set_solver. }
  assert (catch (lift (onUnload (component cont) t)) (λ _, mret ()) t = (Ret (), t)) as Hc
    by (unfold catch, lift; by destruct (onUnload _ t) as [[]| | |]).
  rewrite (run_bind _ _ _ _ _ (eq_refl _ : Prelude.get t = _)). cbn beta.
  rewrite (run_bind _ _ _ _ _ Hc). cbn beta. rewrite (run_bind _ _ _ _ _ (went_run _ _)). cbn beta.
  rewrite (IH (name :: post)); [by rewrite <- app_assoc|done|done| |].
  - intros n d [Hn|[= -> _]%list_elem_of_singleton]%elem_of_app; [right; by eapply Hu|by left].
  - intros n d [Hn|?%list_elem_of_singleton]%elem_of_app; [by eapply Hd|done].
Qed.

Lemma delete_loop_ok m t : delete_loop m t = (Ret (), t ++ deletes m).
Proof.
  revert t. induction m as [|[name cont] m IH]; intros t; [unfold deletes; cbn; by rewrite app_nil_r|]. cbn [delete_loop].
  rewrite (run_bind _ _ _ _ _ (went_run _ _)). cbn beta. rewrite (run_bind _ _ _ _ _ (went_run _ _)). cbn beta.
  rewrite IH. unfold deletes. cbn. by rewrite <- !app_assoc.
Qed.

Lemma close_loop_ok l t : close_loop l t = (Ret (), t ++ (Closed <$> l)).
Proof.
  revert t. induction l as [|h l IH]; intros t; [cbn; by rewrite app_nil_r|]. cbn [close_loop].
  rewrite (run_bind _ _ _ _ _ (went_run _ _)). cbn beta. rewrite IH. cbn. by rewrite <- app_assoc.
Qed.

(** What has gone when the pools go. *)
Definition before_pools (g : ComponentSet * Loader) : deaths :=
  unloads g.1 (loadingStack_ g.1) ++ deletes (rev (components_ g.1)) ++ (Closed <$> rev (handles_ g.2)).

Lemma components_destroyed s (l : Loader) :
  load_inv deps refuse s → unloads_well deps onUnload →
  (ComponentSet_destroy onUnload s;; Loader_destroy l) [] = (Ret (), before_pools (s, l)).
Proof.
  intros Hi Hw. unfold ComponentSet_destroy, sendOnUnloadToComponents, Loader_destroy.
  pose proof (unload_loop_ok s (loadingStack_ s) [] [] Hi ltac:(by rewrite app_nil_r) Hw
    ltac:(by intros ? ? ?%not_elem_of_nil) ltac:(by intros ? ? ?%not_elem_of_nil)) as Hu.
  assert ((unload_loop onUnload s (rev (loadingStack_ s));; delete_loop (rev (components_ s))) [] =
    (Ret (), unloads s (loadingStack_ s) ++ deletes (rev (components_ s)))) as Hd
    by (rewrite (run_bind _ _ _ _ _ Hu); cbn beta; apply delete_loop_ok).
  rewrite (run_bind _ _ _ _ _ Hd). cbn beta. rewrite close_loop_ok. unfold before_pools. by rewrite <- app_assoc.
Qed.
End destroy.

(** ** Who is deleted then *)

Lemma deletes_deleted c m : existsb (is_deleted c) (deletes m) = existsb (λ e, c =? component e.2) m.
Proof. induction m as [|e m IH]; [done|]. unfold deletes in *. cbn. by rewrite IH. Qed.
Lemma unloads_kept c s stack : existsb (is_deleted c) (unloads s stack) = false.
Proof.
  apply not_true_is_false. intros (d & Hd & Hx)%existsb_exists. apply list_elem_of_In, unloads_elem in Hd as (n & c' & _ & _ & ->). done.
Qed.
Lemma closed_kept c l : existsb (is_deleted c) (Closed <$> l) = false.
Proof. by induction l. Qed.
Lemma released_kept c l : existsb (is_deleted c) (Released <$> l) = false.
Proof. by induction l. Qed.
Lemma existsb_rev {A} (f : A → bool) l : existsb f (rev l) = existsb f l.
Proof.
  apply eq_true_iff_eq. rewrite !existsb_exists. setoid_rewrite <- in_rev. done.
Qed.

Lemma before_pools_deleted c s l : existsb (is_deleted c) (before_pools (s, l)) = is_component s c.
Proof.
  unfold before_pools. cbn [fst snd]. by rewrite !existsb_app, unloads_kept, deletes_deleted, closed_kept, existsb_rev, orb_false_r.
Qed.

(** ** The pools *)

(** Whether a request can report to what it reports to. *)
Definition reports_lost (to : list Z) (t : deaths) : bool := existsb (λ c, existsb (is_deleted c) t) to.

Lemma use_components_run to t : use_components to t = (if reports_lost to t then Undef else Ret (), t).
Proof.
  induction to as [|c to IH]; [done|]. cbn [use_components]. unfold use_component, mbind, M_bind, Prelude.get.
  unfold reports_lost. cbn. by destruct (existsb (is_deleted c) t).
Qed.

Lemma reports_lost_released to t q : reports_lost to (t ++ (Released <$> q)) = reports_lost to t.
Proof.
  unfold reports_lost. induction to as [|c to IH]; [done|]. cbn.
  by rewrite existsb_app, released_kept, orb_false_r, IH.
Qed.

(** Tasks are released when they can report, or there are none. *)
Definition released (to : list Z) (q : list RequestTask) (t : deaths) : outcome unit * deaths :=
  match q with [] => (Ret (), t) | _ => if reports_lost to t then (Undef, t) else (Ret (), t ++ (Released <$> q)) end.

Lemma released_app to q q' t :
  released to (q ++ q') t = match released to q t with (Ret _, t) => released to q' t | r => r end.
Proof.
  destruct q as [|x q]; [done|]. cbn [released app]. destruct (reports_lost to t) eqn:E; [done|].
  destruct q' as [|y q']; [by rewrite app_nil_r|]. cbn [released].
  rewrite reports_lost_released, E. by rewrite app_comm_cons, fmap_app, app_assoc.
Qed.

Lemma release_tasks_run to q t : release_tasks to q t = released to q t.
Proof.
  revert t. induction q as [|x q IH]; intros t; [done|]. change (x :: q) with ([x] ++ q). rewrite released_app.
  cbn [release_tasks app]. unfold mbind at 1, M_bind at 1. rewrite use_components_run. cbn [released fmap list_fmap].
  destruct (reports_lost to t); [done|]. rewrite (run_bind _ _ _ _ _ (went_run _ _)). cbn beta. by rewrite IH.
Qed.

Lemma destroy_pools_run to pools t :
  can_join_pools pools = true → destroy_pools to pools t = released to (tasks_left pools) t.
Proof.
  revert t. induction pools as [|[name pool] pools IH]; intros t Hj; [done|].
  unfold can_join_pools in Hj. cbn in Hj. apply andb_true_iff in Hj as [Hp Hj].
  change (tasks_left ((name, pool) :: pools)) with (tasksQueue_ pool ++ tasks_left pools). rewrite released_app.
  cbn [destroy_pools snd]. unfold ThreadPool_destroy. unfold mbind, M_bind. rewrite release_tasks_run.
  destruct (released to (tasksQueue_ pool) t) as [[[]|e| |] t1]; try done. rewrite Hp. cbn. by apply IH.
Qed.

(** A pool whose threads wait cannot go. *)
Lemma destroy_pools_waiting to pools t : can_join_pools pools = false → (destroy_pools to pools t).1 = Undef.
Proof.
  revert t. induction pools as [|[name pool] pools IH]; intros t Hj; [done|].
  unfold can_join_pools in Hj. cbn in Hj. cbn [destroy_pools snd]. unfold ThreadPool_destroy, mbind, M_bind.
  rewrite release_tasks_run. destruct (released to (tasksQueue_ pool) t) as [[[]|e| |] t1] eqn:E; try done.
  - destruct (can_join pool); [|done]. cbn in *. by apply IH.
  - unfold released in E. by repeat case_match.
  - unfold released in E. by repeat case_match.
Qed.

Lemma Globals_destroy_run `{Regex} deps refuse onUnload to (g : Globals) :
  load_inv deps refuse (componentSet_ g) → unloads_well deps onUnload → can_join_pools (pools_ g) = true →
  Globals_destroy onUnload to g [] = released to (tasks_left (pools_ g)) (before_pools (componentSet_ g, loader_ g)).
Proof.
  intros Hi Hw Hj. unfold Globals_destroy.
  pose proof (components_destroyed deps refuse onUnload _ (loader_ g) Hi Hw) as Hc.
  unfold mbind, M_bind in Hc |- *. destruct (ComponentSet_destroy onUnload _ []) as [[[]|e| |] t1]; try done.
  rewrite Hc. cbn. by apply destroy_pools_run.
Qed.

(** ** The order in which components are unloaded *)

(** The keys of a map are distinct. *)
Lemma sorted_map_keys {K V} `{StdLess K} (m : list (K * V)) : sorted_map m → NoDup m.*1.
Proof.
  induction m as [|[k v] m IH]; intros Hs; csimpl; [constructor|].
  constructor; [|apply IH; by apply StronglySorted_inv in Hs as [? _]].
  intros ([k' v'] & -> & Hin)%list_elem_of_fmap. pose proof (sorted_head _ _ _ _ _ Hs Hin) as Hl.
  cbn in Hl. by rewrite less_irrefl in Hl.
Qed.

Lemma omap_split {A B} (f : A → option B) l pre x post :
  omap f l = pre ++ x :: post → ∃ l1 y l2, l = l1 ++ y :: l2 ∧ f y = Some x ∧ omap f l1 = pre.
Proof.
  revert pre. induction l as [|a l IH]; intros pre E; cbn in E; [by destruct pre|].
  destruct (f a) as [b|] eqn:Ea.
  - destruct pre as [|b' pre]; injection E as -> E; [by exists [], a, l|].
    destruct (IH _ E) as (l1 & y & l2 & -> & Ey & El). exists (a :: l1), y, l2. cbn. by rewrite Ea, El.
  - destruct (IH _ E) as (l1 & y & l2 & -> & Ey & El). exists (a :: l1), y, l2. cbn. by rewrite Ea.
Qed.

Lemma unloads_order deps refuse s pre name c post :
  load_inv deps refuse s → unloads s (loadingStack_ s) = pre ++ Unloaded name c :: post →
  address s name = Some c ∧ ∀ dep d, dep ∈ deps c → Unloaded dep d ∉ pre.
Proof.
  intros Hi E. apply omap_split in E as (l1 & y & l2 & El & Ey & E1).
  destruct (address s y) as [c'|] eqn:Ea; [|done]. injection Ey as -> ->. split; [done|].
  intros dep d Hd Hp. rewrite <- E1 in Hp. apply list_elem_of_omap in Hp as (dep' & Hin & Ed).
  destruct (address s dep') as [d'|] eqn:Ead; [|done]. injection Ed as -> ->.
  assert (loadingStack_ s = rev l2 ++ name :: rev l1) as Es.
  { rewrite <- (rev_involutive (loadingStack_ s)), El, rev_app_distr. cbn. by rewrite <- app_assoc. }
  assert (dep ∈ names s) as Hns.
  { unfold address in Ead. destruct (map_find dep (components_ s)) as [ct|] eqn:Ef; [|done].
    apply map_find_keys; [apply Hi|by eexists]. }
  pose proof (load_deps _ _ _ Hi _ _ _ Es _ _ Ea Hd Hns) as Hl2.
  pose proof (load_nodup _ _ _ Hi) as Hnd. rewrite Es in Hnd. apply NoDup_app in Hnd as (_ & Hx & _).
  apply (Hx dep Hl2). right. by apply list_elem_of_In, in_rev, list_elem_of_In in Hin.
Qed.

Lemma unloads_all deps refuse s :
  load_inv deps refuse s → all_loaded s →
  unloads s (loadingStack_ s) ≡ₚ (λ e, Unloaded e.1 (component e.2)) <$> components_ s.
Proof.
  intros Hi [Hs Ha]. assert (rev (loadingStack_ s) ≡ₚ names s) as Hp.
  { rewrite <- Permutation_rev. apply NoDup_Permutation; [apply Hi|by apply sorted_map_keys|]. intros name. split; [|apply Ha].
    intros Hn. destruct (load_started _ _ _ Hi name Hn) as (ct & Hf & _). apply map_find_keys; [done|by eexists]. }
  unfold unloads. rewrite Hp. unfold names.
  assert (∀ m, m ⊆ components_ s → omap (λ name, Unloaded name <$> address s name) m.*1 =
    (λ e, Unloaded e.1 (component e.2)) <$> m) as Hm; [|by rewrite Hm].
  intros m. induction m as [|[k v] m IH]; intros Hsub; [done|]. csimpl.
  assert (address s k = Some (component v)) as ->
    by (unfold address; rewrite (proj2 (map_find_elem k v _ Hs)); [done|apply Hsub; by left]).
  cbn. f_equal. apply IH. intros x Hx. apply Hsub. by right.
Qed.

(** * Properties *)

(** C27: When Globals is destroyed, with the threads of its pools at their end, every
    component is unloaded once and before those it looked up, then everything is
    deleted, and then the modules are closed.  Only the tasks that are left in the
    pools go after that: the requests that report to a component when they are
    destroyed find it deleted. *)
Theorem globals_destroyed `{Dl} `{Regex} (config : Config) (deps : Z → list bytes)
    (refuse : Z → list (option Z) → option exn) (what : exn → bytes)
    (onLoad : (bytes → M ComponentSet (option Z)) → Z → M ComponentSet unit) (as_handler : Z → option Z)
    (is_logger : Z → bool) (onUnload : Z → list death → outcome unit) (g : Globals) (pools : ThreadPoolMap)
    (to : list Z) :
  looks_up deps refuse onLoad →
  Globals_init config onLoad what as_handler is_logger new_globals = (Ret (), g) →
  unloads_well deps onUnload → can_join_pools pools = true →
  let s := componentSet_ g in
  let unloaded := unloads s (loadingStack_ s) in
  let gone := unloaded ++ deletes (rev (components_ s)) ++ (Closed <$> rev (handles_ (loader_ g))) in
  unloaded ≡ₚ (λ e, Unloaded e.1 (component e.2)) <$> components_ s ∧
  (∀ pre name c post, unloaded = pre ++ Unloaded name c :: post → ∀ dep d, dep ∈ deps c → Unloaded dep d ∉ pre) ∧
  (tasks_left pools = [] ∨ existsb (is_component s) to = false →
     Globals_destroy onUnload to (set_pools pools g) [] = (Ret (), gone ++ (Released <$> tasks_left pools))) ∧
  (tasks_left pools ≠ [] → existsb (is_component s) to = true →
     Globals_destroy onUnload to (set_pools pools g) [] = (Undef, gone)).
Proof.
  intros Ho E Hw Hj s unloaded gone. destruct (Globals_init_built _ _ _ _ _ _ _ _ Ho E) as ([Hi Hl] & _).
  assert (reports_lost to gone = existsb (is_component s) to) as Hr.
  { unfold reports_lost. induction to as [|c to IH]; [done|]. cbn. rewrite IH. f_equal. apply (before_pools_deleted c s (loader_ g)). }
  pose proof (Globals_destroy_run deps refuse onUnload to (set_pools pools g) Hi Hw Hj) as Hd.
  change (before_pools _) with gone in Hd. change (pools_ (set_pools pools g)) with pools in Hd. rewrite Hd.
  split_and!; [by eapply unloads_all| | |].
  - intros pre name c post Ep. by apply (unloads_order deps refuse s pre name c post Hi) in Ep as [_ ?].
  - intros Hq. unfold released. rewrite Hr. destruct (tasks_left pools); [by rewrite app_nil_r|].
    destruct Hq as [?| ->]; [done|by rewrite ?app_assoc].
  - intros Hq Hc. unfold released. rewrite Hr, Hc. by destruct (tasks_left pools).
Qed.

(** ** Witness

    The handler of one module logs when it is unloaded, and a task is left in a
    pool whose threads have returned. *)
Definition logs (c : Z) : list bytes := if c =? 7 then [str "log"] else [].
Definition log_gone (d : death) : bool :=
  match d with Unloaded name _ => string_eq name (str "log") | Deleted _ c => c =? 8 | _ => false end.
Definition logs_at_the_end (c : Z) (t : list death) : outcome unit :=
  if (c =? 7) && existsb log_gone t then Undef else Ret ().
Definition one_left : ThreadPoolMap :=
  [(str "p", MkThreadPool (MkInfo false 1 3 0 0 0 0) [MkRequestTask 5 [7]] [Returned] 0)].

Lemma globals_destroyed_witness :
  let r := @Globals_init one_module literal one_handler (onLoad_deps logs (λ _ _, None)) (λ _, []) Some (λ c, c =? 8) new_globals in
  let gone := [Unloaded (str "first") 7; Unloaded (str "log") 8;
    Deleted (str "log") 8; ContextDeleted (str "c2"); Deleted (str "first") 7; ContextDeleted (str "c1"); Closed 1] in
  Globals_destroy logs_at_the_end [8] (set_pools one_left r.2) [] = (Undef, gone) ∧
  Globals_destroy logs_at_the_end [] (set_pools one_left r.2) [] = (Ret (), gone ++ [Released (MkRequestTask 5 [7])]).
Proof.
  intros r gone.
  assert (r = (Ret (), r.2)) as E by (vm_compute; reflexivity).
  assert (unloads_well logs logs_at_the_end) as Hw.
  { intros c t Hu Hd. unfold logs_at_the_end. destruct (c =? 7) eqn:Ec; [|done]. cbn [andb].
    destruct (existsb log_gone t) eqn:Eg; [|done]. apply existsb_exists in Eg as (d & Hin & Hx).
    apply list_elem_of_In in Hin. unfold logs in Hu. rewrite Ec in Hu.
    destruct d as [n x|n x| | |]; cbn in Hx; try done; [|by destruct (Hd n x)].
    apply bool_decide_eq_true in Hx as ->. by destruct (Hu (str "log") x ltac:(left)). }
  pose proof (λ to, @globals_destroyed one_module literal one_handler logs (λ _ _, None) (λ _, []) (onLoad_deps logs (λ _ _, None))
    Some (λ c, c =? 8) logs_at_the_end r.2 one_left to ltac:(done) E Hw eq_refl) as H.
  split.
  - destruct (H [8]) as (_ & _ & _ & Hu). exact (Hu ltac:(discriminate) eq_refl).
  - destruct (H []) as (_ & _ & Hu & _). exact (Hu ltac:(by right)).
Defined.
