(* ===== verification/AcceptLoop.v ===== *)
(** * The worker threads (main/fcgi_server.cpp)

    [FCGIServer::handle], run by every worker thread, as a transition system:
    the threads share the flag of the [ServerStopper], the holder whose
    uniqueness [join] waits for, and the busy counters of the endpoints. *)
From S2P Require Import Prelude CLib Range Util Endpoint HandlerSet FcgiServer.

(** Where a thread is in the loop of [handle]: at its top (line 262), before the
    first test of the stopper (263), at the construction of the request (268),
    before [accept] (277), before the second test (278), before the holder is
    taken again (281), at the request (288), or out of the function. *)
Inductive Place :=
| Top | Entered | Preparing | Accepting | Accepted (status : Z) | Checked (status : Z) | Serving | Returned.
#[export] Instance Place_eq_dec : EqDecision Place.
Proof. solve_decision. Defined.

(** A thread works for one endpoint; [counter] is the [incremented_] of its
    [ScopedBusyCounter]. *)
Record Worker := MkWorker {
  w_endpoint : nat;
  place : Place;
  counter : bool;
}.
Record AcceptState := MkAcceptState {
  stopped : bool;
  threads : list Worker;
  endpoints : list Endpoint;
  joined : bool;
}.

Definition at_place (p : Place) (w : Worker) : Worker := MkWorker (w_endpoint w) p (counter w).
Definition set_counter (b : bool) (w : Worker) : Worker := MkWorker (w_endpoint w) (place w) b.
Definition set_threads (l : list Worker) (s : AcceptState) : AcceptState :=
  MkAcceptState (stopped s) l (endpoints s) (joined s).
(** The places where the thread has the local variable [holder] set. *)
Definition holds (w : Worker) : bool :=
  match place w with Entered | Preparing | Serving => true | _ => false end.

Section loop.
(** The number of threads of the pools of the handlers. *)
Context (pool_threads : Z).

(** An operation of the thread's busy counter. *)
Definition busyCounter (m : M (bool * Endpoint) unit) (i : nat) : M AcceptState unit := λ s,
  match threads s !! i with
  | None => (Undef, s)
  | Some w =>
      match endpoints s !! w_endpoint w with
      | None => (Undef, s)
      | Some e =>
          let '(r, (b, e)) := m (counter w, e) in
          (r, MkAcceptState (stopped s) (<[i := set_counter b w]> (threads s))
                (<[w_endpoint w := e]> (endpoints s)) (joined s))
      end
  end.
Definition go (i : nat) (p : Place) : M AcceptState unit :=
  modify (λ s, set_threads (alter (at_place p) i (threads s)) s).

(** One step of a thread from a place; [answer] is what [accept] returns, or
    negative when the request cannot be constructed. *)
Definition handle (i : nat) (answer : Z) (p : Place) : M AcceptState unit :=
  s ← Prelude.get;
  match p with
  | Top => go i Entered
  | Entered => if stopped s then go i Returned else busyCounter scoped_begin i;; go i Preparing
  | Preparing =>
      if answer <? 0 then busyCounter scoped_end i;; go i Top
      else busyCounter decrement i;; go i Accepting
  | Accepting => go i (Accepted answer)
  | Accepted status =>
      if stopped s then busyCounter scoped_end i;; go i Returned else go i (Checked status)
  | Checked status =>
      if status <? 0 then busyCounter scoped_end i;; go i Top
      else busyCounter increment i;; go i Serving
  | Serving => busyCounter scoped_end i;; go i Top
  | Returned => mret ()
  end.

(** The steps of the program: of a worker thread, of [stopInternal], and the
    return of [join], which waits until the threads of the pools are gone and
    the holder is unique. *)
Inductive action := ARun (i : nat) (answer : Z) | AStop | AJoin.
Definition act (a : action) (s : AcceptState) : option (outcome unit * AcceptState) :=
  match a with
  | ARun i answer =>
      match threads s !! i with
      | None => None
      | Some w => if bool_decide (place w = Returned) then None else Some (handle i answer (place w) s)
      end
  | AStop => if stopped s then None else Some (Ret (), MkAcceptState true (threads s) (endpoints s) (joined s))
  | AJoin =>
      if ((pool_threads =? 0) || stopped s) && negb (joined s) && negb (existsb holds (threads s))
      then Some (Ret (), MkAcceptState (stopped s) (threads s) (endpoints s) true)
      else None
  end.
Fixpoint run (l : list action) (s : AcceptState) : option AcceptState :=
  match l with
  | [] => Some s
  | a :: l => match act a s with Some (Ret _, s) => run l s | _ => None end
  end.
Definition reachable (s t : AcceptState) : Prop := ∃ l, run l s = Some t.

(** The threads that [createWorkThreads] starts. *)
Definition work (es : list Endpoint) : AcceptState :=
  MkAcceptState false ((λ k, MkWorker k Top false) <$> work_threads 0 es) es false.

(** ** Specification vocabulary *)

(** The places where a thread counts as busy. *)
Definition counted (p : Place) : bool := match p with Preparing | Serving => true | _ => false end.
Definition of_endpoint (k : nat) (w : Worker) : Z := Z.b2z (bool_decide (w_endpoint w = k)).
Definition busy_at (k : nat) (w : Worker) : Z := Z.b2z (counted (place w) && bool_decide (w_endpoint w = k)).
(** The steps a thread has left once the server is stopped. *)
Definition left_at (p : Place) : Z :=
  match p with
  | Returned => 0 | Entered | Accepted _ => 1 | Top | Accepting => 2 | Preparing | Serving => 3 | Checked _ => 4
  end.
Definition steps_left (w : Worker) : Z := left_at (place w).
Definition is_run (a : action) : bool := match a with ARun _ _ => true | _ => false end.
(** The thread serves, or nothing stops it from serving. *)
Definition will_serve (p : Place) : bool :=
  match p with Serving => true | Checked status => 0 <=? status | _ => false end.

(** * Lemmas *)

Record loop_wf (s : AcceptState) : Prop := {
  wf_endpoint : ∀ i w, threads s !! i = Some w → (w_endpoint w < length (endpoints s))%nat;
  wf_counter : ∀ i w, threads s !! i = Some w → counter w = counted (place w);
  wf_busy : ∀ k e, endpoints s !! k = Some e → busy_count_ e = tally (busy_at k) (threads s);
  wf_size : ∀ k, tally (of_endpoint k) (threads s) < 2 ^ 16;
}.

(** What a step of thread [i] from [w] to the place [p] leaves. *)
Definition moved (i : nat) (w : Worker) (p : Place) (s t : AcceptState) : Prop :=
  ∃ e, endpoints s !! w_endpoint w = Some e ∧
  t = MkAcceptState (stopped s) (<[i := MkWorker (w_endpoint w) p (counted p)]> (threads s))
    (<[w_endpoint w := set_busy (busy_count_ e - Z.b2z (counted (place w)) + Z.b2z (counted p)) e]> (endpoints s))
    (joined s).

Lemma set_busy_same e : set_busy (busy_count_ e) e = e.
Proof. by destruct e. Qed.

Lemma busy_at_bound k l : 0 <= tally (busy_at k) l <= tally (of_endpoint k) l.
Proof.
  induction l as [|w l IH]; simpl; [lia|]. unfold busy_at at 1 3, of_endpoint at 1.
  destruct (counted _), (bool_decide _); simpl; lia.
Qed.

(** Moving a thread without its counter. *)
Lemma go_moved s i w p :
  loop_wf s → threads s !! i = Some w → counted p = counted (place w) →
  ∃ t, go i p s = (Ret (), t) ∧ moved i w p s t.
Proof.
  intros Hw Hi Hp. destruct (lookup_lt_is_Some_2 _ _ (wf_endpoint s Hw i w Hi)) as [e He].
  eexists. split; [reflexivity|]. exists e. split; [done|]. rewrite Hp.
  replace (busy_count_ e - Z.b2z (counted (place w)) + Z.b2z (counted (place w))) with (busy_count_ e) by lia.
  rewrite set_busy_same, (list_insert_id (endpoints s)) by done. destruct s as [f l es j]. unfold set_threads. cbn in *. f_equal.
  apply list_eq. intros j'. destruct (decide (i = j')) as [<-|Hne].
  - rewrite list_lookup_alter_eq, list_lookup_insert_eq, Hi by (by eapply lookup_lt_Some). cbn.
    unfold at_place. by rewrite (wf_counter _ Hw i w Hi).
  - by rewrite list_lookup_alter_ne, list_lookup_insert_ne.
Qed.

(** An operation that leaves the flag of the counter at [b]. *)
Definition counts_to (b : bool) (m : M (bool * Endpoint) unit) (c : bool) : Prop := ∀ e,
  0 <= busy_count_ e - Z.b2z c → busy_count_ e - Z.b2z c + 1 < 2 ^ 31 →
  m (c, e) = (Ret (), (b, set_busy (busy_count_ e - Z.b2z c + Z.b2z b) e)).

Ltac count_op := intros e H1 H2; unfold scoped_begin, scoped_end, increment, decrement, incrementBusyCounter,
  decrementBusyCounter, zoom, mbind, M_bind, modify, Prelude.get; cbn in *.

Lemma increment_counts c : counts_to true increment c.
Proof.
  count_op. destruct c; cbn in *; [by rewrite Z.sub_add, set_busy_same|].
  rewrite Z.sub_0_r in *. by replace (busy_count_ e + 1 <? 2 ^ 31) with true by lia.
Qed.
Lemma decrement_counts c : counts_to false decrement c.
Proof.
  count_op. destruct c; cbn in *; rewrite Z.add_0_r.
  - by replace (0 <? busy_count_ e) with true by lia.
  - by rewrite Z.sub_0_r, set_busy_same.
Qed.
Lemma scoped_begin_counts : counts_to true scoped_begin false.
Proof. exact (increment_counts false). Qed.

Lemma busy_moved b m s i w p :
  loop_wf s → threads s !! i = Some w → counts_to b m (counter w) → counted p = b →
  ∃ t, (busyCounter m i;; go i p) s = (Ret (), t) ∧ moved i w p s t.
Proof.
  intros Hw Hi Hm Hp. destruct (lookup_lt_is_Some_2 _ _ (wf_endpoint s Hw i w Hi)) as [e He].
  pose proof (wf_counter s Hw i w Hi) as Hc. pose proof (wf_busy s Hw _ e He) as Hb.
  pose proof (wf_size s Hw (w_endpoint w)) as Hz. pose proof (busy_at_bound (w_endpoint w) (threads s)) as Hbd.
  pose proof (busy_at_bound (w_endpoint w) (<[i := at_place Top w]> (threads s))) as Hbi.
  rewrite (tally_insert _ _ i w) in Hbi by done. unfold busy_at at 2 3, at_place in Hbi. cbn in Hbi.
  rewrite bool_decide_true, andb_true_r, <- Hc in Hbi by done.
  unfold mbind, M_bind, busyCounter. rewrite Hi, He, Hm by (rewrite Hb; destruct (counter w); cbn in *; lia).
  eexists. split; [reflexivity|]. exists e. split; [done|]. unfold set_threads. cbn. rewrite Hp, <- Hc. f_equal.
  apply list_eq. intros j. assert (i < length (threads s))%nat by by eapply lookup_lt_Some.
  destruct (decide (i = j)) as [<-|Hne].
  - by rewrite list_lookup_alter_eq, !list_lookup_insert_eq by (by rewrite ?length_insert).
  - by rewrite list_lookup_alter_ne, !list_lookup_insert_ne.
Qed.

(** The place after a step, as the program text has it. *)
Definition next (stopped : bool) (answer : Z) (p : Place) : Place :=
  match p with
  | Top => Entered
  | Entered => if stopped then Returned else Preparing
  | Preparing => if answer <? 0 then Top else Accepting
  | Accepting => Accepted answer
  | Accepted status => if stopped then Returned else Checked status
  | Checked status => if status <? 0 then Top else Serving
  | Serving => Top
  | Returned => Returned
  end.

Lemma handle_moved s i w answer :
  loop_wf s → threads s !! i = Some w → place w ≠ Returned →
  ∃ t, handle i answer (place w) s = (Ret (), t) ∧ moved i w (next (stopped s) answer (place w)) s t.
Proof.
  intros Hw Hi Hp. pose proof (wf_counter s Hw i w Hi) as Hc.
  unfold handle. unfold mbind at 1, M_bind at 1, Prelude.get. cbn beta iota.
  destruct (place w) eqn:E; cbn [next]; [..|done];
    repeat match goal with |- context [if ?b then _ else _] => destruct b end.
  all: first [apply go_moved; [done|done|by rewrite E]
    |apply (busy_moved true); [done|done| |done]|apply (busy_moved false); [done|done| |done]].
  all: first [apply decrement_counts|rewrite Hc; apply scoped_begin_counts|apply increment_counts].
Qed.

Lemma tally_moved (f : Worker → Z) i w p s t :
  threads s !! i = Some w → moved i w p s t →
  tally f (threads t) = tally f (threads s) - f w + f (MkWorker (w_endpoint w) p (counted p)).
Proof. intros Hi (e & _ & ->). cbn. by apply tally_insert. Qed.

(** A step keeps the system well-formed. *)
Lemma moved_wf i w p s t : loop_wf s → threads s !! i = Some w → moved i w p s t → loop_wf t.
Proof.
  intros Hw Hi Hm. pose proof (λ k, tally_moved (busy_at k) i w p s t Hi Hm) as Hb.
  pose proof (λ k, tally_moved (of_endpoint k) i w p s t Hi Hm) as Hz. destruct Hm as (e & He & ->). cbn in *.
  pose proof (wf_endpoint s Hw i w Hi) as Hl. split; cbn.
  - intros j v. rewrite length_insert. rewrite list_lookup_insert_Some.
    intros [(_ & <- & _)|[_ Hv]]; [done|]. by eapply wf_endpoint.
  - intros j v. rewrite list_lookup_insert_Some. intros [(_ & <- & _)|[_ Hv]]; [done|]. by eapply wf_counter.
  - intros k e'. rewrite list_lookup_insert_Some. rewrite Hb. unfold busy_at at 2 3. cbn.
    intros [(<- & <- & _)|[Hne He']]; cbn; rewrite ?bool_decide_true, ?andb_true_r by done.
    + by rewrite (wf_busy s Hw _ e He).
    + rewrite bool_decide_false, !andb_false_r by done. rewrite (wf_busy s Hw k e' He'). simpl. lia.
  - intros k. rewrite Hz. unfold of_endpoint at 2 3. cbn. pose proof (wf_size s Hw k). lia.
Qed.

(** What a step of the system does. *)
Definition effect (a : action) (s t : AcceptState) : Prop :=
  match a with
  | ARun i answer => ∃ w, threads s !! i = Some w ∧ place w ≠ Returned ∧
      moved i w (next (stopped s) answer (place w)) s t
  | AStop => t = MkAcceptState true (threads s) (endpoints s) (joined s)
  | AJoin => existsb holds (threads s) = false ∧ (pool_threads = 0 ∨ stopped s = true) ∧
      t = MkAcceptState (stopped s) (threads s) (endpoints s) true
  end.

Lemma act_effect a s r t : loop_wf s → act a s = Some (r, t) → r = Ret () ∧ effect a s t.
Proof.
  intros Hw E. destruct a as [i answer| |]; cbn [act effect] in *.
  - destruct (threads s !! i) as [w|] eqn:Hi; [|done]. case_bool_decide as Hp; [done|].
    destruct (handle_moved s i w answer Hw Hi Hp) as (t' & Eh & Hm). rewrite Eh in E. injection E as <- <-.
    split; [done|]. by exists w.
  - destruct (stopped s); [done|]. by injection E as <- <-.
  - destruct ((_ || _) && _ && _) eqn:Ec; [|done]. injection E as <- <-. split; [done|].
    apply andb_true_iff in Ec as [Ec Eh]. apply andb_true_iff in Ec as [Ec _]. apply negb_true_iff in Eh.
    split_and!; [done| |done]. apply orb_true_iff in Ec as [Ec|Ec]; [left; by zbool|by right].
Qed.

Lemma effect_wf a s t : loop_wf s → effect a s t → loop_wf t.
Proof.
  intros Hw. destruct a as [i answer| |]; cbn.
  - intros (w & Hi & _ & Hm). by eapply moved_wf.
  - intros ->. by destruct Hw; split.
  - intros (_ & _ & ->). by destruct Hw; split.
Qed.

(** What every step keeps holds after every run. *)
Lemma run_keeps (I : AcceptState → Prop) l s t :
  (∀ a s t, loop_wf s → I s → effect a s t → I t) → loop_wf s → I s → run l s = Some t → loop_wf t ∧ I t.
Proof.
  intros HI. revert s. induction l as [|a l IH]; intros s Hw Hs; cbn [run]; [by intros [= <-]|].
  destruct (act a s) as [[r u]|] eqn:Ea; [|done].
  destruct (act_effect a s r u Hw Ea) as [-> He]. apply IH; [by eapply effect_wf|by eapply HI].
Qed.
Lemma run_wf l s t : loop_wf s → run l s = Some t → loop_wf t.
Proof. intros Hw E. by apply (run_keeps (λ _, True) l s t). Qed.

Lemma moved_stopped i w p s t : moved i w p s t → stopped t = stopped s.
Proof. by intros (e & _ & ->). Qed.
Lemma effect_stopped a s t : effect a s t → stopped s = true → stopped t = true.
Proof.
  destruct a; cbn; [|by intros ->|by intros (_ & _ & ->)]. intros (w & _ & _ & Hm) Hs. by rewrite (moved_stopped _ _ _ _ _ Hm).
Qed.

(** Once the server is stopped every step of a thread brings it closer to its end. *)
Lemma effect_steps_left a s t :
  effect a s t → stopped s = true →
  tally steps_left (threads t) + Z.b2z (is_run a) <= tally steps_left (threads s).
Proof.
  destruct a; cbn; [|by intros -> _; cbn; lia|by intros (_ & _ & ->) _; cbn; lia].
  intros (w & Hi & Hp & Hm) Hs. rewrite (tally_moved steps_left _ _ _ _ _ Hi Hm). unfold steps_left at 2 3. cbn.
  rewrite Hs. destruct (place w); cbn; try (case_if; cbn); try lia. done.
Qed.

Lemma run_steps_left l s t :
  loop_wf s → stopped s = true → run l s = Some t →
  tally steps_left (threads t) + tally (λ a, Z.b2z (is_run a)) l <= tally steps_left (threads s).
Proof.
  revert s. induction l as [|a l IH]; intros s Hw Hs; cbn [run tally]; [intros [= <-]; lia|].
  destruct (act a s) as [[r u]|] eqn:Ea; [|done]. destruct (act_effect a s r u Hw Ea) as [-> He]. intros E.
  pose proof (effect_steps_left a s u He Hs). pose proof (effect_stopped a s u He Hs).
  specialize (IH u (effect_wf a s u Hw He) ltac:(done) E). lia.
Qed.

Lemma steps_left_nonneg l : 0 <= tally steps_left l <= 4 * zlen l.
Proof.
  split; [apply tally_nonneg, Forall_true|apply tally_le]; intros w; unfold steps_left; by destruct (place w).
Qed.

(** After the stop no thread gets from elsewhere to a request. *)
Definition no_new (i : nat) (s : AcceptState) : Prop :=
  stopped s = true ∧ ∀ w, threads s !! i = Some w → will_serve (place w) = false.
Lemma effect_no_new i a s t : loop_wf s → no_new i s → effect a s t → no_new i t.
Proof.
  intros _ [Hs Hn] He. split; [by eapply effect_stopped|]. intros w. destruct a as [j answer| |]; cbn in He.
  - destruct He as (v & Hj & Hp & (e & _ & ->)). cbn. rewrite list_lookup_insert_Some.
    intros [(-> & <- & _)|[_ Hi]]; [|by apply Hn]. specialize (Hn v Hj). cbn. rewrite Hs.
    destruct (place v); cbn in *; try (case_if; cbn); try done. lia.
  - subst t. apply Hn.
  - destruct He as (_ & _ & ->). apply Hn.
Qed.

Lemma serves_from l s t i w :
  loop_wf s → stopped s = true → run l s = Some t → threads t !! i = Some w → place w = Serving →
  ∃ v, threads s !! i = Some v ∧ will_serve (place v) = true.
Proof.
  intros Hw Hs E Hi Hp.
  assert (from_option (λ v, will_serve (place v)) false (threads s !! i) = false → False) as Hc.
  { intros Hn. destruct (run_keeps (no_new i) l s t) as [_ [_ Hu]]; [|done| |done|].
    - intros a x y. apply effect_no_new.
    - split; [done|]. intros v Hv. by rewrite Hv in Hn.
    - specialize (Hu w Hi). by rewrite Hp in Hu. }
  destruct (threads s !! i) as [v|]; cbn in Hc; [|by destruct Hc]. exists v. split; [done|].
  destruct (will_serve (place v)); [done|by destruct Hc].
Qed.
End loop.

(** ** The threads that are started *)

(** An endpoint that was just made. *)
Definition fresh (e : Endpoint) : Prop := busy_count_ e = 0 ∧ 0 <= Endpoint.threads e < 2 ^ 16.

Lemma work_threads_below k n es : k ∈ work_threads n es → (n <= k < n + length es)%nat.
Proof.
  revert n. induction es as [|e es IH]; intros n; cbn [work_threads length]; [by rewrite elem_of_nil|].
  rewrite elem_of_app. intros [Hk|Hk]; [apply elem_of_replicate in Hk as [-> _]; lia|]. specialize (IH _ Hk). lia.
Qed.

Lemma tally_work k ks :
  tally (of_endpoint k) ((λ k, MkWorker k Top false) <$> ks) = Z.of_nat (length (filter (λ j, j = k) ks)).
Proof.
  induction ks as [|j ks IH]; [done|]. csimpl. cbn [tally]. rewrite IH, filter_cons. unfold of_endpoint. cbn.
  case_bool_decide; case_decide; simpl; lia || done.
Qed.

Lemma work_wf es : Forall fresh es → loop_wf (work es).
Proof.
  intros Hf. rewrite Forall_lookup in Hf. split; cbn.
  - intros i w. rewrite list_lookup_fmap_Some. intros (k & -> & Hk). cbn.
    apply list_elem_of_lookup_2, work_threads_below in Hk. lia.
  - intros i w. rewrite list_lookup_fmap_Some. by intros (k & -> & _).
  - intros k e He. destruct (Hf k e He) as [-> _]. induction (work_threads 0 es); [done|]. csimpl. by cbn [tally].
  - intros k. rewrite tally_work. pose proof (count_work_threads k 0 es) as Hc. cbn [Nat.add] in Hc.
    rewrite Hc. destruct (es !! k) as [e|] eqn:E; [|done].
    destruct (Hf k e E). lia.
Qed.

(** * Properties *)

(** C31: However the worker threads interleave with each other, with the stop of the
    server and with [join], no [assert] of the busy counters fails, and what an
    endpoint reports as busy is the number of its threads that prepare or serve
    a request, never of those that wait for one. *)
Theorem busy_is_working (pool_threads : Z) (es : list Endpoint) (l : list action) (s : AcceptState) :
  Forall fresh es → run pool_threads l (work es) = Some s →
  (∀ a r t, act pool_threads a s = Some (r, t) → r = Ret ()) ∧
  (∀ k e, endpoints s !! k = Some e → getBusyCounter e = tally (busy_at k) (threads s)).
Proof.
  intros Hf E. apply work_wf in Hf. pose proof (run_wf _ _ _ _ Hf E) as Hw. split.
  - intros a r t Ea. by destruct (act_effect _ _ _ _ _ Hw Ea).
  - intros k e He. unfold getBusyCounter. rewrite (wf_busy s Hw k e He). apply wrap_small.
    pose proof (busy_at_bound k (threads s)). pose proof (wf_size s Hw k). lia.
Qed.


(** C30: When [join] has returned the server is destroyed.  The threads that serve a
    request nevertheless are exactly those that had accepted it and had found the
    server not stopped, but had not yet taken the holder again. *)
Theorem serving_after_join (pool_threads : Z) (es : list Endpoint) (l : list action) (s t : AcceptState) (i : nat) :
  Forall fresh es → run pool_threads l (work es) = Some s → pool_threads ≠ 0 →
  act pool_threads AJoin s = Some (Ret (), t) →
  (∃ l' u w, run pool_threads l' t = Some u ∧ threads u !! i = Some w ∧ place w = Serving) ↔
  (∃ w status, threads t !! i = Some w ∧ place w = Checked status ∧ 0 <= status).
Proof.
  intros Hf E Hp Ea. apply work_wf in Hf. pose proof (run_wf _ _ _ _ Hf E) as Hw.
  destruct (act_effect _ _ _ _ _ Hw Ea) as [_ He]. pose proof (effect_wf _ _ _ _ Hw He) as Hw'.
  destruct He as (Hh & [?|Hs] & Et); [done|]. assert (stopped t = true) as Hst by by subst t. split.
  - intros (l' & u & w & E' & Hi & Hw2).
    destruct (serves_from pool_threads l' t u i w Hw' Hst E' Hi Hw2) as (v & Hv & Hwill). exists v.
    destruct (place v) as [| | | | |status| |] eqn:Ep; try done.
    + exists status. cbn in Hwill. split_and!; [done|done|lia].
    + assert (existsb holds (threads s) = true) as Hx; [|by rewrite Hx in Hh].
      apply existsb_exists. exists v. subst t. cbn in Hv.
      split; [by eapply list_elem_of_In, list_elem_of_lookup_2|]. unfold holds. by rewrite Ep.
  - intros (w & status & Hi & Hc & Hst0).
    destruct (handle_moved t i w 0 Hw' Hi ltac:(by rewrite Hc)) as (u & Eh & Hm).
    exists [ARun i 0], u. cbn. rewrite Hi, bool_decide_false, Eh by by rewrite Hc. rewrite Hc in Hm. cbn in Hm.
    replace (status <? 0) with false in Hm by lia. destruct Hm as (e & _ & ->). eexists. split; [done|]. cbn.
    rewrite list_lookup_insert_eq by (by eapply lookup_lt_Some). done.
Qed.

(** Two threads of one endpoint: one serves a request, the other has accepted one
    when the server is stopped. *)
#[local] Definition one_endpoint : list Endpoint := [MkEndpoint 7 0 2 (str "/tmp/s") []].
Definition until_join : list action :=
  [ARun 0 0; ARun 0 0; ARun 0 0; ARun 0 0; ARun 0 0; ARun 0 0; ARun 1 0; ARun 1 0; ARun 1 0; ARun 1 0; ARun 1 0;
   AStop; ARun 0 0].
#[local] Lemma one_endpoint_fresh : Forall fresh one_endpoint.
Proof. repeat constructor; done. Defined.

Lemma busy_is_working_witness :
  ∃ s, run 1 (take 6 until_join) (work one_endpoint) = Some s ∧ (place <$> threads s) = [Serving; Top] ∧
    ∀ k e, endpoints s !! k = Some e → getBusyCounter e = tally (busy_at k) (threads s).
Proof.
  eexists. split; [vm_compute; reflexivity|]. split; [reflexivity|].
  eapply (busy_is_working 1 one_endpoint (take 6 until_join)); [exact one_endpoint_fresh|vm_compute; reflexivity].
Defined.


Lemma serving_after_join_witness :
  ∃ s t, run 1 until_join (work one_endpoint) = Some s ∧ act 1 AJoin s = Some (Ret (), t) ∧
    ∃ l' u w, run 1 l' t = Some u ∧ threads u !! 1%nat = Some w ∧ place w = Serving.
Proof.
  eexists _, _. split; [vm_compute; reflexivity|]. split; [vm_compute; reflexivity|].
  eapply (serving_after_join 1 one_endpoint until_join);
    [exact one_endpoint_fresh|vm_compute; reflexivity|done|vm_compute; reflexivity|].
  exists (MkWorker 0 (Checked 0) false), 0. done.
Defined.
