(* ===== verification/Main.v ===== *)
(** * The program (main/main.cpp)

    [main] builds the configuration, [Globals] and the server and waits in
    [join]; from then on the program is a transition system of the signals, the
    monitor port, the thread that reads the stop pipe, the worker threads and
    the threads of the pools. *)
From S2P Require Import Prelude CLib Range Util Containers Buffer FileBuffer DataBuffer BufferUtil.
From S2P Require Import HttpDate Cookie RequestState Parser Serialize RequestImpl Request HandlerSet XmlConfig ComponentSet.
From S2P Require Import Endpoint ThreadPool Globals Daemon Server FcgiServer Shutdown AcceptLoop.

Definition SIGINT : Z := 2.
Definition SIGTERM : Z := 15.
Definition EXIT_SUCCESS : Z := 0.
Definition EXIT_FAILURE : Z := 1.

Section program.
Context `{Regex}.

(** [object] is the variable [server] of [main] while it exists, [server] says
    whether the global pointer of that name has been set to it; the threads of
    [handle] are in [loop], what was written to the stop pipe in [letters]; what
    was destroyed and the descriptors that were closed are in [gone] and [closed]. *)
Record Program := MkProgram {
  globals : option Globals;
  object : option FCGIServer;
  server : bool;
  installed : list Z;
  letters : bytes;
  stop_returned : bool;
  loop : AcceptState;
  gone : list death;
  closed : list Z;
  cerr : bytes;
  exited : option Z;
}.
Definition new_program : Program :=
  MkProgram None None false [] [] false (MkAcceptState false [] [] false) [] [] [] None.

Section setters.
Context (p : Program).
Definition set_globals (v : option Globals) : Program :=
  MkProgram v (object p) (server p) (installed p) (letters p) (stop_returned p) (loop p) (gone p) (closed p) (cerr p) (exited p).
Definition set_object (v : option FCGIServer) : Program :=
  MkProgram (globals p) v (server p) (installed p) (letters p) (stop_returned p) (loop p) (gone p) (closed p) (cerr p) (exited p).
Definition set_server : Program :=
  MkProgram (globals p) (object p) true (installed p) (letters p) (stop_returned p) (loop p) (gone p) (closed p) (cerr p) (exited p).
Definition add_installed (signo : Z) : Program :=
  MkProgram (globals p) (object p) (server p) (installed p ++ [signo]) (letters p) (stop_returned p) (loop p) (gone p)
    (closed p) (cerr p) (exited p).
Definition add_letter (c : byte) : Program :=
  MkProgram (globals p) (object p) (server p) (installed p) (letters p ++ [c]) (stop_returned p) (loop p) (gone p)
    (closed p) (cerr p) (exited p).
Definition set_stop_returned : Program :=
  MkProgram (globals p) (object p) (server p) (installed p) (letters p) true (loop p) (gone p) (closed p) (cerr p) (exited p).
Definition set_loop (v : AcceptState) : Program :=
  MkProgram (globals p) (object p) (server p) (installed p) (letters p) (stop_returned p) v (gone p) (closed p) (cerr p) (exited p).
Definition set_gone (v : list death) : Program :=
  MkProgram (globals p) (object p) (server p) (installed p) (letters p) (stop_returned p) (loop p) v (closed p) (cerr p) (exited p).
Definition add_closed (fds : list Z) : Program :=
  MkProgram (globals p) (object p) (server p) (installed p) (letters p) (stop_returned p) (loop p) (gone p)
    (closed p ++ fds) (cerr p) (exited p).
(** [main] returns; the global pointer stays as it is. *)
Definition leave (code : Z) (text : bytes) : Program :=
  MkProgram (globals p) (object p) (server p) (installed p) (letters p) (stop_returned p) (loop p) (gone p) (closed p)
    (cerr p ++ text) (Some code).
End setters.

(** A call through [::server]; the object may not exist. *)
Definition on_server {A} (m : M FCGIServer A) : M Program A := λ p,
  match object p with
  | None => (Undef, p)
  | Some s => let '(r, s) := m s in (r, set_object p (Some s))
  end.

(** [server->stop()] writes its letter to the pipe. *)
Definition server_stop : M Program unit := on_server FcgiServer.stop;; modify (λ p, add_letter p "s"%byte).
Definition signalHandler (signo : Z) : M Program unit :=
  p ← Prelude.get;
  if ((signo =? SIGINT) || (signo =? SIGTERM)) && server p then server_stop else mret ().

(** The system ([signal] says whether the call succeeds), the file of the
    configuration, and the components. *)
Context `{Dl} (net : Net) (signal : Z → bool) (make : bytes → outcome Config).
Context (onLoad : (bytes → M ComponentSet (option Z)) → Z → M ComponentSet unit) (what : exn → bytes).
Context (onUnload : Z → list death → outcome unit) (as_handler : Z → option Z) (is_logger : Z → bool).

(** ** The variables of [main]

    The server and [Globals] are destroyed in this order when their block is
    left; a constructor that throws destroys the members there are. *)
Definition on_gone (m : M (list death) unit) : M Program unit := zoom gone (λ t p, set_gone p t) m.
Definition destroy_server : M Program unit :=
  p ← Prelude.get;
  match object p with
  | None => mret ()
  | Some s => fds ← lift (FCGIServer_destroy s); modify (λ p, set_object (add_closed p fds) None)
  end.
Definition destroy_globals (reports_to : list Z) : M Program unit :=
  p ← Prelude.get;
  match globals p with
  | None => mret ()
  | Some g => on_gone (Globals_destroy onUnload reports_to g);; modify (λ p, set_globals p None)
  end.
Definition destroy_variables : M Program unit :=
  p ← Prelude.get;
  destroy_server;;
  destroy_globals (match object p, globals p with Some s, Some g => reports_to s g | _, _ => [] end).
Definition make_globals (config : Config) : M Program unit := λ p,
  match Globals_init config onLoad what as_handler is_logger new_globals with
  | (Ret _, g) => (Ret (), set_globals p (Some g))
  | (Throw e, g) => (on_gone (Globals_destroy onUnload [] g);; throw e) p
  | (Undef, _) => (Undef, p)
  | (NoFuel, _) => (NoFuel, p)
  end.
Definition main_returns (code : Z) (text : bytes) : M Program unit :=
  destroy_variables;; modify (λ p, leave p code text).

Definition install (signo : Z) (message : bytes) : M Program unit :=
  if signal signo then modify (λ p, add_installed p signo) else throw (RuntimeError message).
Definition setUpSignalHandlers : M Program unit :=
  install SIGINT (str "Cannot set up SIGINT handler");; install SIGTERM (str "Cannot set up SIGTERM handler").

(** The server finds its components among those of [Globals]. *)
Definition server_net (g : Globals) : Net :=
  {| net_socket := @net_socket net; net_setsockopt := @net_setsockopt net; net_bind := @net_bind net;
     net_listen := @net_listen net; net_pipe := @net_pipe net; pid_open := @pid_open net; pid_write := @pid_write net;
     FCGX_Init := @FCGX_Init net; FCGX_OpenSocket := @FCGX_OpenSocket net; errno := @errno net;
     SOMAXCONN := @SOMAXCONN net; cast_unsigned := @cast_unsigned net;
     find_component name := (ComponentSet.find onLoad what name (componentSet_ g)).1;
     is_request_cache := @is_request_cache net; is_statistics := @is_statistics net |}.

(** The block of [main], up to [server.join()]. *)
Definition with_server (config : Config) : M Program unit :=
  p ← Prelude.get;
  modify set_server;;
  setUpSignalHandlers;;
  match globals p with Some g => on_server (@FcgiServer.start (server_net g) config) | None => undef end;;
  modify (λ p, match object p with Some s => set_loop p (work (endpoints_ s)) | None => p end).
Definition main_block (argv : list bytes) : M Program unit :=
  '(config, _) ← lift (XmlConfig.create make None argv);
  make_globals config;;
  modify (λ p, set_object p (Some new_server));;
  catch (with_server config) (λ e, destroy_variables;; throw e).
Definition main (argv : list bytes) : M Program unit :=
  catch (main_block argv)
    (λ e, if is_std_exception e then modify (λ p, leave p EXIT_FAILURE (what e ++ newline)) else throw e).

(** ** While main waits in [join] *)

Inductive event :=
| Signal (signo : Z)
| Monitor (conn : option bytes)     (* a connection to the monitor port and what it sends *)
| StopThread                        (* the thread that reads the pipe finds its letter *)
| Work (i : nat) (answer : Z)       (* a step of a worker thread *)
| Pool (k : nat) (a : ThreadPool.action RequestTask)
| Join.                             (* [join] and [main] return *)

(** [FCGIServer::join]: whether it returns. *)
Definition join (s : FCGIServer) (pools : ThreadPoolMap) (l : AcceptState) : outcome bool :=
  if bool_decide (status_ s = NOT_INITED) then Throw (RuntimeError (str "Server is not started yet"))
  else Ret (can_join_pools pools && negb (existsb holds (threads l))).

Definition running_step (e : event) (g : Globals) (s : FCGIServer) (p : Program) : option (outcome unit * Program) :=
  match e with
  | Signal _ => None
  | Monitor conn =>
      if stopper_ s then None
      else
        let '(r, _) := monitor_turn (pools_ g) conn s in
        let asked := match conn with Some buf => (monitor_command s (pools_ g) (take 80 buf)).2 | None => false end in
        Some (r ≫= λ _, Ret (), if asked : bool then add_letter p "s"%byte else p)
  | StopThread =>
      if stopThread_ s && negb (stop_returned p) && stopThreadFunction (Some <$> letters p) then
        let '(r, (s, pools)) := stopInternal (s, pools_ g) in
        let l := MkAcceptState (stopper_ s) (threads (loop p)) (endpoints (loop p)) (joined (loop p)) in
        Some (r, set_loop (set_object (set_globals (set_stop_returned p) (Some (set_pools pools g))) (Some s)) l)
      else None
  | Work i answer =>
      match act 0 (ARun i answer) (loop p) with
      | Some (r, l) => Some (r, set_loop (set_object p (Some (set_endpoints s (endpoints l)))) l)
      | None => None
      end
  | Pool k a =>
      match a, pools_ g !! k with
      | ThreadPool.AStart, _ | ThreadPool.AStop, _ | _, None => None
      | _, Some (name, pool) =>
          match exec a pool with
          | Some (_, pool) => Some (Ret (), set_globals p (Some (set_pools (<[k := (name, pool)]> (pools_ g)) g)))
          | None => None
          end
      end
  | Join =>
      match join s (pools_ g) (loop p) with
      | Ret true => Some (main_returns EXIT_SUCCESS [] p)
      | Throw e => Some (main_returns EXIT_FAILURE (what e ++ newline) p)
      | _ => None
      end
  end.

(** [None] when the event cannot happen; a signal without a handler is not the
    program's. *)
Definition step (e : event) (p : Program) : option (outcome unit * Program) :=
  match e with
  | Signal signo => if bool_decide (signo ∈ installed p) then Some (signalHandler signo p) else None
  | _ =>
      match exited p, globals p, object p with
      | None, Some g, Some s => running_step e g s p
      | _, _, _ => None
      end
  end.
Fixpoint steps (l : list event) (p : Program) : option Program :=
  match l with
  | [] => Some p
  | e :: l => match step e p with Some (Ret _, p) => steps l p | _ => None end
  end.
End program.

(** ** Specification vocabulary *)

Section running_lemmas.
Context `{Regex} (what : exn → bytes) (onUnload : Z → list death → outcome unit).
Context (deps : Z → list bytes) (refuse : Z → list (option Z) → option exn) (unloads_ok : unloads_well deps onUnload).

(** The steps of the threads and of [main] themselves. *)
Definition own (e : event) : Prop :=
  match e with Work _ _ | Join => True | Pool _ a => thread_action a | _ => False end.
(** What they have left once the server is stopped. *)
Definition pools_left (pools : ThreadPoolMap) : Z := tally (λ e, Z.of_nat (pool_steps (ThreadPool.threads_ e.2))) pools.
Definition work_left (p : Program) : Z :=
  tally steps_left (threads (loop p)) + (match globals p with Some g => pools_left (pools_ g) | None => 0 end) +
  (match exited p with None => 1 | Some _ => 0 end).

Definition pool_reached (e : bytes * ThreadPool RequestTask) : Prop := ∃ n q tr, ThreadPool.reachable n q tr e.2.
Definition pool_down (e : bytes * ThreadPool RequestTask) : Prop := ThreadPool.started (info_ e.2) = false.

(** [main] waits in [join]. *)
Record running (p : Program) (g : Globals) (s : FCGIServer) : Prop := MkRunning {
  run_globals : globals p = Some g;
  run_object : object p = Some s;
  run_server : server p = true;
  run_installed : installed p = [SIGINT; SIGTERM];
  run_letters : Forall (λ c, c = "s"%byte) (letters p);
  run_exited : exited p = None;
  run_status : status_ s = RUNNING;
  run_pipe : stopPipes_ s ≠ None;
  run_thread : stopThread_ s = true;
  run_stopper : stopper_ s = stopped (loop p);
  run_returned : stop_returned p = stopped (loop p);
  run_loop : loop_wf (loop p);
  run_pools : Forall pool_reached (pools_ g);
  run_down : stopped (loop p) = true → Forall pool_down (pools_ g);
  run_gone : gone p = [];
  run_set : load_inv deps refuse (componentSet_ g);
}.

(** [main] has returned. *)
Record ended (p : Program) : Prop := MkEnded {
  end_exited : exited p = Some EXIT_SUCCESS;
  end_globals : globals p = None;
  end_object : object p = None;
  end_server : server p = true;
  end_installed : installed p = [SIGINT; SIGTERM];
}.
(** A task that cannot report is left. *)
Definition task_lost (p : Program) : Prop :=
  ∃ g s, globals p = Some g ∧ object p = Some s ∧ tasks_left (pools_ g) ≠ [] ∧ reports_to s g ≠ [].

(** * Lemmas *)

(** ** The pools *)

Lemma pool_exec_reached a e ev pool :
  pool_reached e → exec a e.2 = Some (ev, pool) → pool_reached (e.1, pool).
Proof. intros (n & q & tr & Hr) E. exists n, q, (tr ++ ev). by eapply reach_step. Qed.

Lemma stop_pools_ok pools :
  Forall pool_reached pools →
  let pools' := (stopThreadPools pools).2 in Forall pool_reached pools' ∧ Forall pool_down pools'.
Proof.
  intros Hr. cbn. split; apply Forall_fmap.
  - eapply Forall_impl; [exact Hr|]. intros e (n & q & tr & He). exists n, q, (tr ++ []).
    by apply (reach_step n q tr _ ThreadPool.AStop _ _ He).
  - by apply Forall_true.
Qed.

(** A step of a thread of a pool that was stopped. *)
Lemma pool_down_step e a ev pool :
  pool_reached e → pool_down e → thread_action a → exec a e.2 = Some (ev, pool) →
  pool_down (e.1, pool) ∧ (S (pool_steps (ThreadPool.threads_ pool)) = pool_steps (ThreadPool.threads_ e.2))%nat.
Proof.
  intros (n & q & tr & Hr) Hd Ha E. pose proof (reachable_inv _ _ _ _ Hr) as Hi.
  destruct (stopped_step e.2 a ev pool Hd (inv_stopped _ _ _ _ Hi Hd) Ha E) as (Hs & _ & Hl). done.
Qed.

(** Any other call leaves it stopped. *)
Lemma lock_down i (pool : ThreadPool RequestTask) :
  ThreadPool.started (info_ pool) = false → ThreadPool.started (info_ (lock i pool).2) = false.
Proof. intros Hd. unfold lock, check_queue. by rewrite Hd. Qed.

Lemma pool_down_exec a e ev pool :
  pool_down e → a ≠ ThreadPool.AStart → exec a e.2 = Some (ev, pool) → pool_down (e.1, pool).
Proof.
  unfold pool_down. intros Hd Ha E. cbn.
  assert (∀ st, ThreadPool.started (account (info_ e.2) st) = false) as Hst by (by intros []).
  destruct a as [| | |task|i| |i|i|i|i ok]; try done; unfold exec, addTask in E;
    try (repeat case_match; simplify_eq/=; done).
  destruct (threads_ e.2 !! i) as [[|st| | | |]|]; try done; injection E as E.
  - pose proof (lock_down i (set_info (account (info_ e.2) st) e.2) (Hst st)) as Hl. by rewrite E in Hl.
  - pose proof (lock_down i e.2 Hd) as Hl. by rewrite E in Hl.
Qed.

(** Either every pool can be joined or a thread of one can make a step. *)
Lemma pools_progress (pools : ThreadPoolMap) :
  Forall pool_reached pools → Forall pool_down pools →
  can_join_pools pools = true ∨
  ∃ k name pool a ev pool', pools !! k = Some (name, pool) ∧ thread_action a ∧ exec a pool = Some (ev, pool').
Proof.
  induction pools as [|[name pool] pools IH]; intros Hr Hd; [by left|].
  apply Forall_cons in Hr as [(n & q & tr & Hr) Hrs]. apply Forall_cons in Hd as [Hd Hds].
  destruct (joinable pool (inv_stopped _ _ _ _ (reachable_inv _ _ _ _ Hr) Hd)) as [Hj|(a & Ha & Hx)].
  - destruct (IH Hrs Hds) as [Hjs|(k & nm & pl & a & ev & pl' & Hk & Ha & E)].
    + left. unfold can_join_pools in *. cbn. by rewrite Hj, Hjs.
    + right. by exists (S k), nm, pl, a, ev, pl'.
  - right. destruct (exec a pool) as [[ev pool']|] eqn:E; [|done]. by exists O, name, pool, a, ev, pool'.
Qed.

(** ** The steps while [main] waits *)

Lemma pools_left_insert (pools : ThreadPoolMap) k e e' :
  pools !! k = Some e →
  pools_left (<[k := e']> pools) =
    pools_left pools - Z.of_nat (pool_steps (ThreadPool.threads_ e.2)) + Z.of_nat (pool_steps (ThreadPool.threads_ e'.2)).
Proof. intros Hk. unfold pools_left. by rewrite (tally_insert _ _ _ _ _ Hk). Qed.

Lemma pools_left_nonneg pools : 0 <= pools_left pools.
Proof. apply tally_nonneg, Forall_true. intros. lia. Qed.

Lemma letters_found l : l ≠ [] → Forall (λ c, c = "s"%byte) l → stopThreadFunction (Some <$> l) = true.
Proof. intros Hl Hs. by destruct Hs as [|? ? -> ?]. Qed.

Lemma work_step_loop i answer l r l' :
  loop_wf l → act 0 (ARun i answer) l = Some (r, l') → r = Ret () ∧ loop_wf l' ∧ stopped l' = stopped l.
Proof.
  intros Hw E. destruct (act_effect _ _ _ _ _ Hw E) as [-> He]. split_and!; [done|by eapply effect_wf|].
  destruct He as (w & _ & _ & Hm). by eapply moved_stopped.
Qed.

(** [stop] of a server that runs. *)
Lemma server_stop_running p g s :
  running p g s → server_stop p = (Ret (), add_letter p "s"%byte).
Proof.
  intros Hr. unfold server_stop, on_server, FcgiServer.stop, mbind, M_bind, Prelude.get. rewrite (run_object _ _ _ Hr).
  destruct (stopPipes_ s) eqn:Ep; [|by destruct (run_pipe _ _ _ Hr)]. cbn. unfold modify, set_object.
  rewrite <- (run_object _ _ _ Hr). by destruct p.
Qed.

Lemma add_letter_running p g s : running p g s → running (add_letter p "s"%byte) g s.
Proof. intros []. split; try done. cbn. apply Forall_app. split; [done|by constructor]. Qed.

Lemma stopInternal_running s (pools : ThreadPoolMap) :
  status_ s = RUNNING → stopper_ s = false →
  stopInternal (s, pools) = (Ret (), (set_stopper s true, (stopThreadPools pools).2)).
Proof.
  intros Hs Hp. unfold stopInternal, mbind, M_bind, Prelude.get. cbn [fst]. rewrite Hs, Hp. done.
Qed.

Lemma monitor_turn_running (pools : ThreadPoolMap) conn s :
  stopPipes_ s ≠ None → ∃ a, monitor_turn pools conn s = (Ret a, s).
Proof.
  intros Hp. unfold monitor_turn, mbind, M_bind, Prelude.get, FcgiServer.stop. cbn.
  destruct (stopper_ s) eqn:Es; [by eexists|]. destruct conn as [buf|]; [|by eexists]. rewrite Es.
  destruct (monitor_command _ _ _) as [answer stopping]. exists (Some answer). destruct stopping; [|done].
  unfold mbind, M_bind, Prelude.get. by destruct (stopPipes_ s).
Qed.

(** [main] returns: its variables are destroyed, well or not. *)
Lemma main_returns_running p g s :
  running p g s → can_join_pools (pools_ g) = true →
  (∃ q, main_returns onUnload EXIT_SUCCESS [] p = (Ret (), q) ∧ ended q ∧ loop q = loop p) ∨
  ((main_returns onUnload EXIT_SUCCESS [] p).1 = Undef ∧ task_lost p).
Proof.
  intros [Hg Hs Hv Hi Hl He Ht Hp Hth Hst Hre Hlo Hpo Hdo Hgo Hse] Hj.
  unfold main_returns, destroy_variables, destroy_server, destroy_globals, on_gone, zoom, mbind, M_bind, Prelude.get, lift, modify.
  rewrite Hs, Hg. unfold FCGIServer_destroy. destruct (stopPipes_ s) as [[r w]|] eqn:Ep; [|done]. cbn. rewrite Hg. cbn.
  rewrite Hgo, (Globals_destroy_run deps refuse) by done. unfold released.
  destruct (tasks_left (pools_ g)) as [|x q] eqn:Eq; [left; eexists; by split_and!|].
  destruct (reports_lost _ _) eqn:El; [right|left; eexists; by split_and!].
  split; [done|]. exists g, s. split_and!; [done..|by rewrite Eq|]. intros Hn. by rewrite Hn in El.
Qed.

(** A step of the program that runs: it still runs, or [main] returns. *)
Lemma step_running e p g s r p' :
  running p g s → step what onUnload e p = Some (r, p') →
  (r = Ret () ∧ ∃ g' s', running p' g' s' ∧ (stopped (loop p) = true → stopped (loop p') = true)) ∨
  (e = Join ∧ (r = Ret () ∧ ended p' ∧ loop p' = loop p ∨ r = Undef ∧ task_lost p)).
Proof.
  intros Hr E. pose proof Hr as [Hg Hs Hv Hi Hl He Ht Hp Hth Hst Hre Hlo Hpo Hdo Hgo Hse].
  destruct e as [signo|conn| |i answer|k a|]; unfold step in E; rewrite ?He, ?Hg, ?Hs in E; cbn [running_step] in E.
  - case_bool_decide as Hin; [|done]. rewrite Hi in Hin. injection E as E. unfold signalHandler in E.
    unfold mbind, M_bind at 1, Prelude.get in E. rewrite Hv in E.
    assert (signo = SIGINT ∨ signo = SIGTERM) as Hsig by set_solver.
    replace (((signo =? SIGINT) || (signo =? SIGTERM)) && true) with true in E by (unfold SIGINT, SIGTERM in *; lia).
    rewrite (server_stop_running _ _ _ Hr) in E. injection E as <- <-. left. split; [done|].
    exists g, s. split; [by apply add_letter_running|done].
  - destruct (stopper_ s); [done|]. destruct (monitor_turn_running (pools_ g) conn s Hp) as [a Ea]. rewrite Ea in E.
    injection E as <- <-. left. split; [done|]. exists g, s. case_match; [|done].
    split; [by apply add_letter_running|done].
  - destruct (stopThread_ s && negb (stop_returned p) && _) eqn:Ec; [|done].
    assert (stopper_ s = false) as Hn by (rewrite Hst, <- Hre; destruct (stop_returned p); [by rewrite andb_false_r in Ec|done]).
    rewrite stopInternal_running in E by done. injection E as <- <-. left. split; [done|].
    destruct (stop_pools_ok (pools_ g) Hpo) as [Hr1 Hr2].
    eexists _, _. split; [|done]. split; cbn; try done.
    destruct Hlo as [W1 W2 W3 W4]. by split.
  - destruct (act 0 (ARun i answer) (loop p)) as [[r0 l]|] eqn:Ea; [|done]. injection E as <- <-.
    destruct (work_step_loop _ _ _ _ _ Hlo Ea) as (-> & Hw & Hsl). left. split; [done|].
    eexists _, _. split; [|cbn; by rewrite Hsl]. split; cbn; try done; by rewrite Hsl.
  - destruct (pools_ g !! k) as [[name pool]|] eqn:Ek; [|by destruct a].
    assert (a ≠ ThreadPool.AStart ∧ ∃ ev pool', exec a pool = Some (ev, pool') ∧
      (r, p') = (Ret (), set_globals p (Some (set_pools (<[k := (name, pool')]> (pools_ g)) g)))) as (Ha & ev & pool' & Ex & [= -> ->]).
    { destruct a; try done; (split; [done|]); (destruct (exec _ pool) as [[ev pool']|]; [|done]); injection E as <- <-; by eexists _, _. }
    left. split; [done|]. eexists _, _. split; [|done]. split; cbn; try done.
    + apply Forall_insert; [done|]. apply (pool_exec_reached a (name, pool) ev); [|done]. by eapply Forall_lookup_1 in Hpo.
    + intros Hd. apply Forall_insert; [by apply Hdo|].
      apply (pool_down_exec a (name, pool) ev); [|done|done]. by eapply Forall_lookup_1 in Hdo.
  - unfold join in E. rewrite Ht, bool_decide_false in E by done. destruct (can_join_pools (pools_ g)) eqn:Ej; [|done].
    destruct (existsb holds (threads (loop p))); [done|]. cbn in E. right. split; [done|]. injection E as E.
    destruct (main_returns_running p g s Hr Ej) as [(q & Eq & Hq)|[Eu Ht']]; [left|right].
    + rewrite Eq in E. by injection E as <- <-.
    + rewrite E in Eu. by split.
Qed.

(** Once the server is stopped a step of a thread, or of [main], brings the
    program closer to its end. *)
Lemma own_step_left e p g s p' :
  running p g s → stopped (loop p) = true → own e → step what onUnload e p = Some (Ret (), p') →
  work_left p' + 1 <= work_left p.
Proof.
  intros Hr Hd Ho E. pose proof (step_running _ _ _ _ _ _ Hr E) as Hstep.
  destruct Hr as [Hg Hs Hv Hi Hl He Ht Hp Hth Hst Hre Hlo Hpo Hdo Hgo Hse]. specialize (Hdo Hd).
  pose proof (pools_left_nonneg (pools_ g)). pose proof (steps_left_nonneg (threads (loop p))).
  destruct e as [signo|conn| |i answer|k a|]; try done; unfold step in E; rewrite He, Hg, Hs in E;
    cbn [running_step] in E; unfold work_left; rewrite Hg, He.
  - destruct (act 0 (ARun i answer) (loop p)) as [[r0 l]|] eqn:Ea; [|done]. injection E as -> <-. clear Hstep.
    destruct (act_effect _ _ _ _ _ Hlo Ea) as [_ Hf]. pose proof (effect_steps_left 0 _ _ _ Hf Hd) as Hsl.
    cbn in *. rewrite He, Hg. lia.
  - destruct (pools_ g !! k) as [[name pool]|] eqn:Ek; [|by destruct a].
    assert (∃ ev pool', exec a pool = Some (ev, pool') ∧
      p' = set_globals p (Some (set_pools (<[k := (name, pool')]> (pools_ g)) g))) as (ev & pool' & Ex & ->).
    { destruct a; try done; (destruct (exec _ pool) as [[ev pool']|]; [|done]); injection E as <-; by eexists _, _. }
    destruct (pool_down_step (name, pool) a ev pool') as [_ Hsl];
      [by eapply Forall_lookup_1 in Hpo|by eapply Forall_lookup_1 in Hdo|done|done|].
    cbn [loop globals exited set_globals pools_ set_pools snd] in *. rewrite He, (pools_left_insert _ _ _ _ Ek). cbn [snd]. lia.
  - destruct Hstep as [(_ & g' & s' & Hr' & _)|(_ & [(_ & He' & El)|[? _]])]; [|  |done].
    + exfalso. unfold join in E. rewrite Ht, bool_decide_false in E by done.
      destruct (can_join_pools (pools_ g) && _); [|done]. injection E as E.
      pose proof (run_exited _ _ _ Hr') as Hx. unfold main_returns in E. apply bind_returns in E as (u & q & _ & E).
      injection E as <-. done.
    + rewrite (end_globals _ He'), (end_exited _ He'), El. lia.
Qed.

(** Some thread, or [main], can always make a step. *)
Lemma own_progress p g s :
  running p g s → stopped (loop p) = true → ∃ e r p', own e ∧ step what onUnload e p = Some (r, p').
Proof.
  intros Hr Hd.
  destruct Hr as [Hg Hs Hv Hi Hl He Ht Hp Hth Hst Hre Hlo Hpo Hdo Hgo Hse]. specialize (Hdo Hd).
  destruct (pools_progress _ Hpo Hdo) as [Hj|(k & name & pool & a & ev & pool' & Hk & Ha & Ex)].
  - destruct (existsb holds (threads (loop p))) eqn:Eh.
    + apply existsb_exists in Eh as (w & Hw & Hh). apply list_elem_of_In, list_elem_of_lookup in Hw as [i Hw].
      assert (place w ≠ AcceptLoop.Returned) as Hn by (intros Hx; unfold holds in Hh; by rewrite Hx in Hh).
      destruct (handle_moved _ i w 0 Hlo Hw Hn) as (l & El & _). eexists (Work i 0), _, _. split; [done|].
      unfold step. rewrite He, Hg, Hs. cbn. rewrite Hw, bool_decide_false by done. by rewrite El.
    + exists Join, (main_returns onUnload EXIT_SUCCESS [] p).1, (main_returns onUnload EXIT_SUCCESS [] p).2.
      split; [done|]. unfold step. rewrite He, Hg, Hs. cbn [running_step]. unfold join.
      rewrite Ht, bool_decide_false by done. rewrite Hj, Eh. cbn. by destruct (main_returns _ _ _ _).
  - eexists (Pool k a), _, _. split; [done|]. unfold step. rewrite He, Hg, Hs. cbn [running_step].
    by destruct a; try (by destruct Ha); rewrite Hk, Ex.
Qed.

(** When [main] has returned the global pointer leads to no object. *)
Lemma ended_signal p signo :
  ended p → signo = SIGINT ∨ signo = SIGTERM → step what onUnload (Signal signo) p = Some (Undef, p).
Proof.
  intros [He Hg Ho Hv Hi] Hs. unfold step. rewrite Hi, bool_decide_true by (clear -Hs; set_solver).
  unfold signalHandler, mbind, M_bind at 1, Prelude.get. rewrite Hv.
  replace (((signo =? SIGINT) || (signo =? SIGTERM)) && true) with true by (clear -Hs; unfold SIGINT, SIGTERM in *; lia).
  unfold server_stop, on_server, mbind, M_bind. by rewrite Ho.
Qed.

Lemma ended_step p e r p' : ended p → step what onUnload e p = Some (r, p') → r = Undef.
Proof.
  intros Hn E. destruct e as [signo| | | | |].
  1: { destruct (decide (signo = SIGINT ∨ signo = SIGTERM)) as [Hs|Hs].
       - rewrite (ended_signal _ _ Hn Hs) in E. by injection E as <- _.
       - unfold step in E. rewrite (end_installed _ Hn), bool_decide_false in E by set_solver. done. }
  all: unfold step in E; by rewrite (end_exited _ Hn) in E.
Qed.

Lemma steps_running l p g s p' :
  running p g s → steps what onUnload l p = Some p' →
  (∃ g' s', running p' g' s' ∧ (stopped (loop p) = true → stopped (loop p') = true)) ∨ ended p'.
Proof.
  revert p g s. induction l as [|e l IH]; intros p g s Hr E; cbn [steps] in E; [injection E as <-; left; by eexists _, _|].
  destruct (step what onUnload e p) as [[[u| | |] q]|] eqn:Ee; try done.
  destruct (step_running _ _ _ _ _ _ Hr Ee) as [(_ & g' & s' & Hr' & Hd)|(_ & [(_ & Hn & _)|[? _]])]; [| |done].
  - destruct (IH _ _ _ Hr' E) as [(g2 & s2 & Hr2 & Hd2)|Hl]; [left; eexists _, _; split; [done|auto]|by right].
  - right. destruct l as [|e' l]; [by injection E as <-|]. cbn [steps] in E.
    destruct (step what onUnload e' q) as [[r q']|] eqn:El; [|done]. by rewrite (ended_step _ _ _ _ Hn El) in E.
Qed.

Lemma work_left_nonneg p : 0 <= work_left p.
Proof.
  unfold work_left. pose proof (steps_left_nonneg (threads (loop p))).
  destruct (globals p) as [g|], (exited p); try lia; pose proof (pools_left_nonneg (pools_ g)); lia.
Qed.

(** The steps of a stopped program are bounded, and lead to the end of [main]. *)
Lemma own_steps_left l p g s p' :
  running p g s → stopped (loop p) = true → Forall own l → steps what onUnload l p = Some p' →
  zlen l + work_left p' <= work_left p.
Proof.
  intros Hr Hd Ho. revert p g s Hr Hd. induction Ho as [|e l He Ho IH]; intros p g s Hr Hd E; cbn [steps] in E.
  { injection E as <-. rewrite zlen_nil. lia. }
  destruct (step what onUnload e p) as [[[[]| | |] q]|] eqn:Ee; try done. rewrite zlen_cons.
  pose proof (own_step_left _ _ _ _ _ Hr Hd He Ee).
  destruct (step_running _ _ _ _ _ _ Hr Ee) as [(_ & g' & s' & Hr' & Hd')|(_ & [(_ & Hn & _)|[? _]])]; [| |done].
  - specialize (IH _ _ _ Hr' (Hd' Hd) E). lia.
  - destruct l as [|e' l]; [injection E as <-; rewrite zlen_nil; lia|]. cbn [steps] in E.
    destruct (step what onUnload e' q) as [[r q']|] eqn:El; [|done]. by rewrite (ended_step _ _ _ _ Hn El) in E.
Qed.

Lemma stop_thread_stops p g s :
  running p g s → letters p ≠ [] → stopped (loop p) = false →
  ∃ p', step what onUnload StopThread p = Some (Ret (), p') ∧ stopped (loop p') = true.
Proof.
  intros [Hg Hs Hv Hi Hl He Ht Hp Hth Hst Hre Hlo Hpo Hdo] Hn Hf. unfold step. rewrite He, Hg, Hs. cbn [running_step].
  rewrite Hth, Hre, Hf, (letters_found _ Hn Hl). cbn [negb andb].
  rewrite stopInternal_running by congruence. by eexists.
Qed.

End running_lemmas.

(** ** Starting *)

Section program_lemmas.
Context `{Dl} `{Regex} (net : Net) (signal : Z → bool) (make : bytes → outcome Config).
Context (onLoad : (bytes → M ComponentSet (option Z)) → Z → M ComponentSet unit) (what : exn → bytes).
Context (onUnload : Z → list death → outcome unit) (as_handler : Z → option Z) (is_logger : Z → bool).

Lemma started_pools_reached (pools : ThreadPoolMap) needed config :
  Forall (pool_ok config needed) pools → Forall pool_reached (startThreadPools pools).2.
Proof.
  intros Hp. cbn. apply Forall_fmap. eapply Forall_impl; [exact Hp|].
  intros e (_ & k & threads & queue & _ & _ & _ & Ee). exists (u32 threads), (u32 queue), ([] ++ []).
  apply (reach_step _ _ [] (make_requests_pool threads queue) ThreadPool.AStart); [constructor|]. cbn. by rewrite Ee.
Qed.

Lemma initLogger_pools config : follows (same_on pools_) (initLogger config onLoad what is_logger).
Proof. unfold initLogger, on_components. follow. by apply follows_zoom_any. Qed.

Lemma globals_pools config g :
  Globals_init config onLoad what as_handler is_logger new_globals = (Ret (), g) → Forall pool_reached (pools_ g).
Proof.
  intros E. unfold Globals_init in E. returned E. 
  apply zoom_returns in E0 as (l1 & _ & ->). injection E1 as <- <-.
  apply zoom_returns in E2 as (c & _ & ->). apply zoom_returns in E3 as (ch & _ & ->).
  apply (follows_returns _ _ _ _ _ (initLogger_pools config)) in E4. injection E5 as <- <-.
  apply zoom_returns in E6 as (p & Ep & ->). apply zoom_returns in E as (p' & Es & ->).
  unfold same_on in E4. cbn in E4, Ep, Es |- *. rewrite E4 in Ep. unfold initPools in Ep. returned Ep.
  apply lift_returns in E as [_ ->]. destruct (getPoolsNeeded_spec (handlerSet_ s3)) as [Hn _]. destruct a4, a5.
  apply (add_pools_ok config _ Hn) in E0 as [_ Hp]; [|constructor|constructor].
  apply check_pools_ok in Ep as [-> _]. injection Es as <-. by eapply started_pools_reached.
Qed.

Lemma init_endpoint_fresh `{Net} config i e : init_endpoint config i = Ret e → fresh e.
Proof.
  unfold init_endpoint. intros E. returned E. unfold Endpoint.make in E4.
  destruct (Range.empty a && Range.empty a0); [done|]. injection E4 as <-.
  unfold openSocket, mbind, M_bind, modify, Prelude.get in E. cbn beta iota in E.
  destruct (socket_ _ =? -1); [done|]. injection E as <-. split; [done|]. by apply wrap_bound.
Qed.

(** What [main] has built when it comes to [join]. *)
Definition built (argv : list bytes) (p : Program) (g : Globals) (s : FCGIServer) : Prop :=
  ∃ config args, XmlConfig.create make None argv = Ret (config, args) ∧
    Globals_init config onLoad what as_handler is_logger new_globals = (Ret (), g) ∧
    @FcgiServer.started (server_net net onLoad what g) config s ∧ loop p = work (endpoints_ s).

Lemma setUp_returns p a q :
  setUpSignalHandlers signal p = (Ret a, q) → q = add_installed (add_installed p SIGINT) SIGTERM.
Proof.
  unfold setUpSignalHandlers, install. intros E. returned E.
  destruct (signal SIGINT); [|done]. injection E0 as <- <-. destruct (signal SIGTERM); [|done]. by injection E as <- <-.
Qed.

Lemma on_server_returns {A} (m : M FCGIServer A) p s a q :
  object p = Some s → on_server m p = (Ret a, q) → ∃ s', m s = (Ret a, s') ∧ q = set_object p (Some s').
Proof. intros Hs. unfold on_server. rewrite Hs. destruct (m s) as [r s']. intros [= -> <-]. by exists s'. Qed.

(** [start] that throws leaves the pipe without descriptors. *)
Definition throws_keep {S T} (f : S → T) {A} (m : M S A) : Prop := ∀ s e t, m s = (Throw e, t) → f t = f s.

Lemma throws_keep_bind {S T} (f : S → T) {A B} (m : M S A) (k : A → M S B) :
  follows (same_on f) m → (∀ a, throws_keep f (k a)) → throws_keep f (m ≫= k).
Proof.
  intros Hm Hk s e t. specialize (Hm s). unfold mbind, M_bind. destruct (m s) as [[a|e'| |] s1]; try done.
  - intros E. by rewrite (Hk _ _ _ _ E).
  - intros [= -> ->]. exact Hm.
Qed.
Lemma throws_keep_last {S T} (f : S → T) {A} (m : M S A) (g : A → S → S) :
  throws_keep f m → throws_keep f (a ← m; modify (g a)).
Proof.
  intros Hm s e t. unfold mbind, M_bind. destruct (m s) as [[a|e'| |] s1] eqn:Em; try done.
  intros [= -> <-]. by apply (Hm _ _ _ Em).
Qed.
Lemma follows_throws_keep {S T} (f : S → T) {A} (m : M S A) : follows (same_on f) m → throws_keep f m.
Proof. intros Hm s e t E. specialize (Hm s). by rewrite E in Hm. Qed.

Lemma init_endpoints_pipes `{Net} config v : follows (same_on stopPipes_) (init_endpoints config v).
Proof. induction v as [|i v IH]; cbn [init_endpoints]; follow. Qed.

Lemma start_throws `{Net} config : throws_keep stopPipes_ (FcgiServer.start config).
Proof.
  intros s0 e0 t0 E0. unfold FcgiServer.start in E0.
  rewrite (run_bind _ _ _ _ _ (eq_refl _ : Prelude.get s0 = _)) in E0. cbn beta in E0.
  destruct (negb _); [by injection E0 as _ <-|]. revert s0 e0 t0 E0.
  unfold pid, initMonitorThread, initRequestCache, initTimeStatistics, initFastCGISubsystem, createWorkThreads.
  do 10 (apply throws_keep_bind; [follow; apply init_endpoints_pipes|intros ?]).
  destruct net_pipe; intros ? ? ? [=]; by subst.
Qed.

(** ** The block of main *)

Definition unserved (p : Program) : Prop := server p = false ∧ object p = None ∧ cerr p = [] ∧ exited p = None.

Lemma make_globals_unserved config p :
  unserved p → unserved (make_globals onLoad what onUnload as_handler is_logger config p).2.
Proof.
  intros Hu. unfold make_globals. destruct (Globals_init _ _ _ _ _ _) as [[[]|e| |] g]; try done.
  unfold on_gone, zoom, mbind, M_bind. by destruct (Globals_destroy onUnload [] g (gone p)) as [[[]| | |] t].
Qed.

(** An exception once there is a server: its destructor closes descriptors that
    have no value. *)
Definition piped (p : Program) : option (option (Z * Z)) := stopPipes_ <$> object p.

Lemma on_server_throws {A} (m : M FCGIServer A) : throws_keep stopPipes_ m → throws_keep piped (on_server m).
Proof.
  intros Hm p e q. unfold on_server, piped. destruct (object p) as [s|] eqn:Eo; [|done].
  destruct (m s) as [[a|e'| |] t] eqn:Em; try done. intros [= -> <-]. cbn. by rewrite (Hm _ _ _ Em).
Qed.

Lemma with_server_throws config : throws_keep piped (with_server net signal onLoad what config).
Proof.
  unfold with_server, setUpSignalHandlers, install. do 3 (apply throws_keep_bind; [follow|intros ?]).
  apply throws_keep_last. destruct (globals a) as [g|]; [|done].
  apply on_server_throws, start_throws.
Qed.

Lemma unwound_undef config p e p1 :
  piped p = Some None → with_server net signal onLoad what config p = (Throw e, p1) →
  ∃ q, catch (with_server net signal onLoad what config) (λ e, destroy_variables onUnload;; throw e) p = (Undef, q).
Proof.
  intros Hp Ew. pose proof (with_server_throws config p e p1 Ew) as Hk. rewrite Hp in Hk. unfold piped in Hk.
  unfold catch. rewrite Ew. unfold destroy_variables, destroy_server, mbind, M_bind, Prelude.get, lift.
  destruct (object p1) as [s|] eqn:Eo; [|done]. cbn in Hk. injection Hk as Hk. unfold FCGIServer_destroy. rewrite Hk.
  by eexists.
Qed.

Lemma main_block_throws argv e p :
  main_block net signal make onLoad what onUnload as_handler is_logger argv new_program = (Throw e, p) →
  server p = false ∧ cerr p = [] ∧ exited p = None.
Proof.
  unfold main_block. unfold mbind at 1, M_bind at 1, lift.
  destruct (XmlConfig.create make None argv) as [[config args]|e1| |]; try done; [|by intros [= _ <-]].
  unfold mbind at 1, M_bind at 1.
  pose proof (make_globals_unserved config new_program ltac:(by split_and!)) as (H1 & H2 & H3 & H4).
  destruct (make_globals _ _ _ _ _ _ _) as [[[]|e1| |] p1]; try done; cbn [snd] in *.
  - intros E. exfalso. rewrite (run_bind _ _ _ _ _ (eq_refl _ : modify _ _ = _)) in E. cbn beta in E.
    assert (piped (set_object p1 (Some new_server)) = Some None) as Hp by done.
    destruct (with_server net signal onLoad what config (set_object p1 (Some new_server))) as [[u|e1| |] p2] eqn:Ew.
    + unfold catch in E. by rewrite Ew in E.
    + destruct (unwound_undef config _ _ _ Hp Ew) as [q Eq]. by rewrite Eq in E.
    + unfold catch in E. by rewrite Ew in E.
    + unfold catch in E. by rewrite Ew in E.
  - by intros [= _ <-].
Qed.

(** ** The way to [join] *)
Section built.
Context (deps : Z → list bytes) (refuse : Z → list (option Z) → option exn) (onLoad_ok : looks_up deps refuse onLoad).

Lemma main_block_returns argv p :
  main_block net signal make onLoad what onUnload as_handler is_logger argv new_program = (Ret (), p) →
  ∃ g s, running deps refuse p g s ∧ built argv p g s.
Proof.
  intros E. unfold main_block in E. returned E. apply lift_returns in E0 as [Ec ->].
  destruct a as [config args]. returned E.
  unfold make_globals in E0. destruct (Globals_init _ _ _ _ _ _) as [[[]|e| |] g] eqn:Eg; try done.
  2: { unfold on_gone, zoom, mbind, M_bind in E0. by destruct (Globals_destroy onUnload [] g _) as [[[]| | |] t]. }
  injection E0 as <- <-. injection E1 as <- <-. unfold catch in E.
  destruct (with_server _ _ _ _ _ _) as [[[]|e| |] q] eqn:Ew; try done; [|].
  2: { apply bind_returns in E as (u & p1 & _ & E). done. }
  injection E as <-. unfold with_server in Ew. returned Ew. injection E as <- <-. injection E0 as <- <-.
  apply setUp_returns in E1 as ->. cbn [globals set_globals set_object set_server add_installed] in E2.
  destruct a2. apply (on_server_returns _ _ new_server) in E2 as (s & Es & ->); [|done]. injection Ew as <-.
  destruct (@start_returns (server_net net onLoad what g) config new_server s eq_refl eq_refl Es)
    as (_ & Hs & Hst). exists g, s. split; [|by exists config, args].
  pose proof Hs as (Hrun & _ & (keys & _ & Hk) & _ & Hp & Ht).
  assert (Forall fresh (endpoints_ s)) as Hf.
  { apply Forall_lookup. intros i e Hi. destruct (Forall2_lookup_r _ _ _ _ _ Hk Hi) as (k & _ & He & _).
    by eapply init_endpoint_fresh. }
  destruct (Globals_init_built _ _ _ _ _ _ _ _ onLoad_ok Eg) as ([Hi _] & _).
  split; cbn; try done; [by apply work_wf|by eapply globals_pools].
Qed.
End built.
End program_lemmas.

(** * Properties *)



(** A daemon with a module, a handler, two pool threads and two endpoints. *)
Definition whole_config : Config := listed_config
  [(str "m1/@name", str "m"); (str "m1/@path", str "/m.so");
   (str "c1/@name", str "first"); (str "c1/@type", str "m:handler");
   (str "c2/@name", str "log"); (str "c2/@type", str "m:logger");
   (str "h1/@pool", str "p"); (str "h1/@url", str "/a"); (str "hc/@name", str "first");
   (str "/fastcgi/daemon[count(logger)=1]/logger/@component", str "log");
   (str "p1/@name", str "p"); (str "p1/@threads", str "2"); (str "p1/@queue", str "3");
   (str "/fastcgi/daemon/pidfile", str "/tmp/pid"); (str "/fastcgi/daemon/monitor_port", str "3333");
   (str "e1/socket", str "/tmp/s"); (str "e1/threads", str "1"); (str "e2/port", str "80"); (str "e2/threads", str "2")]
  [(str "/fastcgi/modules/module", [str "m1"]); (str "/fastcgi/components/component", [str "c1"; str "c2"]);
   (str "/fastcgi/handlers/handler", [str "h1"]); (str "h1/component", [str "hc"]);
   (str "/fastcgi/pools/pool", [str "p1"]); (str "/fastcgi/daemon/endpoint", [str "e1"; str "e2"])].

#[local] Abbreviation example_main config :=
  (@main literal one_module working_net (λ _, true) (λ _, Ret config) (onLoad_deps (λ _, []) (λ _ _, None)) (λ _, [])
    (λ _ _, Ret ()) Some (λ c, c =? 8) [str "fastcgi-daemon"; str "--config=/etc/fastcgi.conf"] new_program).
#[local] Abbreviation example_run := (steps (λ _, []) (λ _ _, Ret ())).
Definition example_steps : list event := [Work 0 0; Work 0 0; Work 0 0; Signal SIGTERM; StopThread].
Definition example_end : list event :=
  [Pool 0 (AInit 1); Pool 0 (AInit 0); Pool 0 (ALock 0); Pool 0 (ALock 1); Join].

Lemma ret_returns {S} (x : outcome unit * S) : x.1 = Ret () → x = (Ret (), x.2).
Proof. destruct x as [o s]. by intros [= ->]. Qed.
Lemma some_default {A} (d : A) (x : option A) :
  match x with Some _ => true | None => false end = true → x = Some (default d x).
Proof. by destruct x. Qed.



(** A task that is queued when the server stops is never taken; when the times of
    the requests are logged, the end of the program is undefined. *)
Definition logging_config : Config := listed_config
  [(str "m1/@name", str "m"); (str "m1/@path", str "/m.so"); (str "c1/@name", str "first"); (str "c1/@type", str "m:handler");
   (str "c2/@name", str "log"); (str "c2/@type", str "m:logger");
   (str "h1/@pool", str "p"); (str "h1/@url", str "/a"); (str "hc/@name", str "first");
   (str "/fastcgi/daemon[count(logger)=1]/logger/@component", str "log");
   (str "p1/@name", str "p"); (str "p1/@threads", str "1"); (str "p1/@queue", str "3");
   (str "/fastcgi/daemon/pidfile", str "/tmp/pid"); (str "/fastcgi/daemon/monitor_port", str "3333");
   (str "/fastcgi/daemon/log-times", str "1");
   (str "e1/socket", str "/tmp/s"); (str "e1/threads", str "1")]
  [(str "/fastcgi/modules/module", [str "m1"]); (str "/fastcgi/components/component", [str "c1"; str "c2"]);
   (str "/fastcgi/handlers/handler", [str "h1"]); (str "h1/component", [str "hc"]);
   (str "/fastcgi/pools/pool", [str "p1"]); (str "/fastcgi/daemon/endpoint", [str "e1"])].
Example task_lost_at_the_end :
  (q ← example_run [Pool 0 (AAdd (MkRequestTask 5 [7])); Pool 0 ANotifyNone; Signal SIGTERM; StopThread;
      Pool 0 (AInit 0); Pool 0 (ALock 0)] (example_main logging_config).2;
   fst <$> step (λ _, []) (λ _ _, Ret ()) Join q) = Some Undef.
Proof. vm_compute. reflexivity. Qed.
